(** * Spreadsheet engine: the template/data merge and the model it works on

    A shallow embedding of the core of the engine:
    - [core/styles/cell_style.py]   (the style value objects and [CellStyle.merge]),
    - [core/models/position.py]     (A1 notation),
    - [core/models/cell.py], [table.py], [sheet.py], [spreadsheet.py],
    - [core/templates/template.py], [data.py], [merger.py].

    Python conventions used throughout:
    - an [Optional[T]] field is an [option T]; [x is None] is a match on it;
    - truthiness ([if s:] on a string, a list, an optional object) is
      written out by the [truthy_*] functions below;
    - [int] is [Z] (unbounded); [str] is [string], and a character loop runs
      over its [list ascii];
    - a [dict] with string keys is a [gmap string _];
    - a function that can raise returns a [result]. *)

From Stdlib Require Import ZArith QArith Ascii String List Lia.
From stdpp Require Import base option list gmap strings fin_maps.

Local Open Scope string_scope.
Local Open Scope list_scope.
Local Open Scope Z_scope.

(** ** Exceptions *)

(** [ValueError] is what the engine's own validation raises, and what
    [int] and [str] raise beyond the interpreter's digit limit (the message
    is the fixed part of the Python message, without interpolated values).
    Where a message interpolates a number of more than 4300 digits, Python
    raises the conversion's [ValueError] in place of the one written here.
    [TypeError] is what the interpreter raises when an object is not of the
    class the code expects (in the store model below), and what a value
    such as [pandas.NA] raises when it is compared and tested.
    [Raised] stands for whatever user code raises: a [computed] callable or
    the [__eq__] of a value.  The engine has no [try]/[except], so an
    exception travels unchanged. *)
Inductive exn : Type :=
| ValueError (msg : string)
| TypeError (msg : string)
| Raised (payload : string).

Inductive result (A : Type) : Type :=
| Ok (a : A)
| Err (e : exn).
Arguments Ok {A} a.
Arguments Err {A} e.

Definition result_bind {A B : Type} (m : result A) (k : A -> result B) : result B :=
  match m with
  | Ok a => k a
  | Err e => Err e
  end.

Notation "'do' x <- m ; k" := (result_bind m (fun x => k))
  (at level 10, x name, m at level 100, k at level 200,
   format "'[v' 'do'  x  <-  m ; '/' k ']'").
Notation "'do' ' p <- m ; k" := (result_bind m (fun x => let 'p := x in k))
  (at level 10, p pattern, m at level 100, k at level 200).

Definition is_ok {A : Type} (m : result A) : bool :=
  match m with Ok _ => true | Err _ => false end.

(** ** Truthiness *)

Definition truthy_str (s : string) : bool :=
  match s with EmptyString => false | String _ _ => true end.

(** [if o:] for an [Optional[str]]: [None] and the empty string are falsy. *)
Definition truthy_ostr (o : option string) : bool :=
  match o with Some s => truthy_str s | None => false end.

Definition truthy_list {A : Type} (l : list A) : bool :=
  match l with [] => false | _ :: _ => true end.

(** [a or b] where [a] is an optional object whose class defines neither
    [__bool__] nor [__len__] (every instance is truthy). *)
Definition py_or {A : Type} (a b : option A) : option A :=
  match a with Some _ => a | None => b end.

(** ** core/styles/cell_style.py *)

Module Color.
(** The normalised value: upper-case hex without the leading [#]. *)
Record t : Type := mk { value : string }.
End Color.

Inductive HorizontalAlignment : Type :=
| HLeft | HCenter | HRight | HJustify | HDistributed.

Inductive VerticalAlignment : Type :=
| VTop | VCenter | VBottom | VJustify | VDistributed.

Module Alignment.
Record t : Type := mk {
  horizontal : option HorizontalAlignment;
  vertical : option VerticalAlignment;
  wrap_text : bool;
  shrink_to_fit : bool;
  indent : Z;
  text_rotation : Z
}.

(** The dataclass defaults. *)
Definition default : t := mk None None false false 0 0.
End Alignment.

Inductive BorderStyle : Type :=
| BNone | BThin | BMedium | BThick | BDouble | BDotted | BDashed
| BDashDot | BDashDotDot.

Module Border.
Record t : Type := mk {
  left : option BorderStyle;
  right : option BorderStyle;
  top : option BorderStyle;
  bottom : option BorderStyle;
  color : option Color.t
}.

Definition all_sides (style : BorderStyle) (color : option Color.t) : t :=
  mk (Some style) (Some style) (Some style) (Some style) color.
End Border.

Inductive UnderlineStyle : Type := UNone | USingle | UDouble.

Module Font.
Record t : Type := mk {
  family : option string;
  size : option Z;
  bold : bool;
  italic : bool;
  underline : UnderlineStyle;
  strikethrough : bool;
  color : option Color.t
}.

Definition default : t := mk None None false false UNone false None.
End Font.

Inductive PatternFill : Type :=
| PNone | PSolid | PGray125 | PGray0625 | PDarkGray | PLightGray
| PDarkHorizontal | PDarkVertical | PDarkDown | PDarkUp | PDarkGrid
| PDarkTrellis | PLightHorizontal | PLightVertical | PLightDown | PLightUp
| PLightGrid | PLightTrellis.

Module Fill.
Record t : Type := mk {
  pattern : PatternFill;
  foreground_color : option Color.t;
  background_color : option Color.t
}.
End Fill.

Module CellStyle.
Record t : Type := mk {
  font : option Font.t;
  fill : option Fill.t;
  border : option Border.t;
  alignment : option Alignment.t;
  number_format : option string
}.

Definition default : t := mk None None None None None.

(** [CellStyle.header()]; [Color("D3D3D3")] is already normalised. *)
Definition header : t :=
  mk (Some (Font.mk None (Some 11) true false UNone false None))
     (Some (Fill.mk PSolid (Some (Color.mk "D3D3D3")) None))
     (Some (Border.all_sides BThin None))
     (Some (Alignment.mk (Some HCenter) (Some VCenter) false false 0 0))
     None.

(** [other.f if other.f is not None else self.f] *)
Definition pick {A : Type} (other_f self_f : option A) : option A :=
  match other_f with
  | Some _ => other_f
  | None => self_f
  end.

Definition merge (self : t) (other : option t) : t :=
  match other with
  | None => self
  | Some other =>
      mk (pick (font other) (font self))
         (pick (fill other) (fill self))
         (pick (border other) (border self))
         (pick (alignment other) (alignment self))
         (pick (number_format other) (number_format self))
  end.
End CellStyle.

(** ** core/models/position.py *)

(** *** The [str] and [int] builtins on ASCII text

    The model of [isalpha], [isdigit], [isspace] and [upper] is Python's
    behaviour on code points below 128; text outside ASCII is outside the
    model.  [int] is unbounded, but CPython refuses to convert between an
    [int] and decimal text of more than [sys.int_info.default_max_str_digits]
    digits: [int(s)] and [str(n)] then raise [ValueError]. *)

Definition ord (c : ascii) : Z := Z.of_N (N_of_ascii c).
Definition chr (z : Z) : ascii := ascii_of_N (Z.to_N z).

Definition is_ascii (c : ascii) : bool := ord c <? 128.

Definition isupper (c : ascii) : bool := (65 <=? ord c) && (ord c <=? 90).
Definition islower (c : ascii) : bool := (97 <=? ord c) && (ord c <=? 122).
Definition isalpha (c : ascii) : bool := isupper c || islower c.
Definition isdigit (c : ascii) : bool := (48 <=? ord c) && (ord c <=? 57).

(** [str.isspace] on ASCII: TAB, LF, VT, FF, CR, FS, GS, RS, US and SPACE. *)
Definition isspace (c : ascii) : bool :=
  ((9 <=? ord c) && (ord c <=? 13)) || ((28 <=? ord c) && (ord c <=? 32)).

Definition upper_char (c : ascii) : ascii :=
  if islower c then chr (ord c - 32) else c.

Definition upper (s : list ascii) : list ascii := map upper_char s.

Fixpoint lstrip (s : list ascii) : list ascii :=
  match s with
  | c :: rest => if isspace c then lstrip rest else s
  | [] => []
  end.

Definition rstrip (s : list ascii) : list ascii := rev (lstrip (rev s)).

Definition strip (s : list ascii) : list ascii := rstrip (lstrip s).

Definition max_str_digits : Z := 4300.

Definition int_conversion_error : exn :=
  ValueError "Exceeds the limit (4300 digits) for integer string conversion".

(** The number that a string of ASCII digits writes in base ten. *)
Definition decimal (s : list ascii) : Z :=
  fold_left (fun acc c => acc * 10 + (ord c - 48)) s 0.

(** [int(s)] for a non-empty string of ASCII digits; every digit counts
    towards the limit, leading zeros too. *)
Definition int_of_digits (s : list ascii) : result Z :=
  if max_str_digits <? Z.of_nat (length s) then Err int_conversion_error
  else Ok (decimal s).

(** The decimal digits of [n >= 0], most significant first.  The fuel
    bounds the number of digits; [S (Z.to_nat n)] is enough. *)
Fixpoint digits_loop (fuel : nat) (n : Z) (acc : list ascii) : list ascii :=
  match fuel with
  | O => acc
  | S fuel' =>
      let acc' := chr (48 + n mod 10) :: acc in
      if n / 10 =? 0 then acc' else digits_loop fuel' (n / 10) acc'
  end.

Definition digits_of_int (n : Z) : list ascii :=
  if n <? 0 then "-"%char :: digits_loop (S (Z.to_nat (- n))) (- n) []
  else digits_loop (S (Z.to_nat n)) n [].

(** [str(n)], also [f"{n}"]: refused when [n] has more than
    [max_str_digits] digits, the sign not counted. *)
Definition str_of_int (n : Z) : result (list ascii) :=
  if 10 ^ max_str_digits <=? Z.abs n then Err int_conversion_error
  else Ok (digits_of_int n).

Module CellPosition.
Record t : Type := mk { row : Z; column : Z }.

(** The dataclass constructor followed by [__post_init__]. *)
Definition init (row column : Z) : result t :=
  if row <? 1 then Err (ValueError "Row must be >= 1")
  else if column <? 1 then Err (ValueError "Column must be >= 1")
  else Ok (mk row column).

Definition _column_letters_to_index (letters : list ascii) : Z :=
  fold_left (fun result char => result * 26 + (ord char - ord "A" + 1))
            letters 0.

(** The [while index > 0] loop; [index] strictly decreases, so
    [Z.to_nat index] iterations are enough (see [letters_loop_unfold]). *)
Fixpoint letters_loop (fuel : nat) (index : Z) (letters : list ascii)
  : list ascii :=
  if 0 <? index then
    match fuel with
    | O => letters
    | S fuel' =>
        let index := index - 1 in
        let letters := chr (ord "A" + index mod 26) :: letters in
        letters_loop fuel' (index / 26) letters
    end
  else letters.

Definition _column_index_to_letters (index : Z) : result (list ascii) :=
  if index <? 1 then Err (ValueError "Column index must be >= 1")
  else Ok (letters_loop (Z.to_nat index) index []).

(** The [for char in reference] loop of [from_a1]. *)
Fixpoint scan (reference column_part row_part : list ascii)
  : result (list ascii * list ascii) :=
  match reference with
  | [] => Ok (column_part, row_part)
  | char :: rest =>
      if isalpha char then scan rest (column_part ++ [char]) row_part
      else if isdigit char then scan rest column_part (row_part ++ [char])
      else Err (ValueError "Invalid character in cell reference")
  end.

Definition from_a1 (reference : string) : result t :=
  let reference := upper (strip (list_ascii_of_string reference)) in
  if negb (truthy_list reference)
  then Err (ValueError "Cell reference cannot be empty")
  else
    do parts <- scan reference [] [];
    let column_part := fst parts in
    let row_part := snd parts in
    if negb (truthy_list column_part) || negb (truthy_list row_part)
    then Err (ValueError "Invalid cell reference")
    else
      let column := _column_letters_to_index column_part in
      do row <- int_of_digits row_part;
      init row column.

Definition to_a1 (self : t) : result string :=
  do letters <- _column_index_to_letters (column self);
  do digits <- str_of_int (row self);
  Ok (string_of_list_ascii (letters ++ digits)).

Definition offset (self : t) (rows columns : Z) : result t :=
  init (row self + rows) (column self + columns).
End CellPosition.

(** ** Values held by data rows and cells ([Any] in the source) *)

(** [PyBool], [PyInt], [PyFloat] and [PyStr] also stand for the instances
    of subclasses of these classes.  [PyObj] is an instance of any other
    class: a date, a [Decimal], a numpy array, [pandas.NA].  The engine
    does two things with a value: it tests its class, and it evaluates
    [value == ""] as a condition; [eq_empty] is what that condition does
    for the object, which its class decides ([Ok false] for a date, an
    exception for [pandas.NA]). *)
Inductive PyValue : Type :=
| PyNone
| PyBool (b : bool)
| PyInt (n : Z)
| PyFloat (q : Q)
| PyStr (s : string)
| PyObj (repr : string) (eq_empty : result bool).

(** A data row: [Dict[str, Any]]. *)
Abbreviation Row := (gmap string PyValue).

(** [range(start, stop, step)] for [start <= stop] and [step > 0]. *)
Definition py_range (start stop step : nat) : list nat :=
  map (fun k => (start + k * step)%nat)
      (seq 0 ((stop - start + (step - 1)) / step)%nat).

(** [len(set(l))] *)
Definition len_set `{Countable A} (l : list A) : nat :=
  size (list_to_set l : gset A).

(** Traversal of a list by a function that may raise: the first error is
    the result, otherwise the list of results in order. *)
Fixpoint map_result {A B : Type} (f : A -> result B) (l : list A)
  : result (list B) :=
  match l with
  | [] => Ok []
  | x :: rest => do y <- f x; do ys <- map_result f rest; Ok (y :: ys)
  end.

(** The loop [acc = []; for x in l: acc.append(f(x))], where [f] may raise. *)
Fixpoint for_append {A B : Type} (f : A -> result B) (l : list A)
  (acc : list B) : result (list B) :=
  match l with
  | [] => Ok acc
  | x :: rest => do y <- f x; for_append f rest (acc ++ [y])
  end.

(** A [for] loop threading a state through a body that may raise. *)
Fixpoint for_state {A S : Type} (body : S -> A -> result S) (l : list A)
  (st : S) : result S :=
  match l with
  | [] => Ok st
  | x :: rest => do st' <- body st x; for_state body rest st'
  end.

(** ** core/models/cell.py *)

Inductive CellDataType : Type :=
| STRING | NUMBER | BOOLEAN | DATE | DATETIME | TIME | FORMULA | ERROR | BLANK.

Definition startswith_eq (s : string) : bool :=
  match s with
  | String c _ => if Ascii.eqb c "="%char then true else false
  | EmptyString => false
  end.

Module Cell.
Record t : Type := mk {
  value : PyValue;
  formula : option string;
  style : option CellStyle.t;
  number_format : option string;
  data_type : CellDataType;
  comment : option string;
  hyperlink : option string
}.

(** The condition [self.value == ""], for a value that is not [None]. *)
Definition eq_empty_str (value : PyValue) : result bool :=
  match value with
  | PyStr s => Ok (negb (truthy_str s))
  | PyObj _ eq_empty => eq_empty
  | PyNone | PyBool _ | PyInt _ | PyFloat _ => Ok false
  end.

Definition _infer_data_type (value : PyValue) (formula : option string)
  : result CellDataType :=
  if truthy_ostr formula then Ok FORMULA
  else match value with
       | PyNone => Ok BLANK
       | _ =>
           do is_empty <- eq_empty_str value;
           if is_empty then Ok BLANK
           else match value with
                | PyBool _ => Ok BOOLEAN
                | PyInt _ | PyFloat _ => Ok NUMBER
                | PyStr _ => Ok STRING
                | _ => Ok STRING
                end
       end.

(** [__post_init__] once the data type is known: a non-empty formula is
    made to start with [=]. *)
Definition make (value : PyValue) (formula : option string)
  (style : option CellStyle.t) (number_format : option string)
  (data_type : CellDataType) (comment hyperlink : option string) : t :=
  let formula :=
    match formula with
    | Some f =>
        if truthy_str f && negb (startswith_eq f)
        then Some ("=" ++ f)%string else Some f
    | None => None
    end in
  mk value formula style number_format data_type comment hyperlink.

(** The dataclass constructor followed by [__post_init__]: the data type
    is inferred when not given, which is the one step that can raise. *)
Definition init (value : PyValue) (formula : option string)
  (style : option CellStyle.t) (number_format : option string)
  (data_type : option CellDataType) (comment hyperlink : option string)
  : result t :=
  do data_type <-
    match data_type with
    | None => _infer_data_type value formula
    | Some d => Ok d
    end;
  Ok (make value formula style number_format data_type comment hyperlink).

(** The factory methods and [with_style] call the constructor with a data
    type, so nothing is inferred and the call returns: they are written
    with [make]. *)
Definition blank : t := make PyNone None None None BLANK None None.

Definition text (value : string) (style : option CellStyle.t) : t :=
  make (PyStr value) None style None STRING None None.

Definition formula_cell (formula : string) (cached_value : PyValue)
  (number_format : option string) (style : option CellStyle.t) : t :=
  make cached_value (Some formula) style number_format FORMULA None None.

Definition with_style (self : t) (style : CellStyle.t) : t :=
  make (value self) (formula self) (Some style) (number_format self)
       (data_type self) (comment self) (hyperlink self).

Definition merge_style (self : t) (style : option CellStyle.t) : t :=
  match style with
  | None => self
  | Some s =>
      let merged_style :=
        match Cell.style self with
        | Some own => CellStyle.merge own (Some s)
        | None => s
        end in
      with_style self merged_style
  end.

Definition is_blank (self : t) : bool :=
  match data_type self with BLANK => true | _ => false end.

Definition is_formula (self : t) : bool :=
  match data_type self with
  | FORMULA => true
  | _ => match formula self with Some _ => true | None => false end
  end.
End Cell.

(** ** core/models/table.py *)

(** [l[i]] for an integer [i]: a negative index counts from the end; out
    of range ([None] here) Python raises [IndexError]. *)
Definition py_index (n : nat) (i : Z) : option nat :=
  if (0 <=? i) && (i <? Z.of_nat n) then Some (Z.to_nat i)
  else if (i <? 0) && (- Z.of_nat n <=? i) then Some (Z.to_nat (Z.of_nat n + i))
  else None.

Definition getitem {A : Type} (l : list A) (i : Z) : option A :=
  match py_index (length l) i with
  | Some k => l !! k
  | None => None
  end.

Module Table.
Record t : Type := mk {
  cells : list (list Cell.t);
  headers : option (list Cell.t);
  title : option Cell.t;
  start_position : CellPosition.t
}.

(** The constructor followed by [__post_init__]: jagged rows are refused. *)
Definition init (cells : list (list Cell.t)) (headers : option (list Cell.t))
  (title : option Cell.t) (start_position : CellPosition.t) : result t :=
  if truthy_list cells && (1 <? len_set (map length cells))%nat
  then Err (ValueError "All rows must have the same length")
  else Ok (mk cells headers title start_position).

Definition row_count (self : t) : nat := length (cells self).

Definition has_headers (self : t) : bool :=
  match headers self with
  | Some h => (0 <? length h)%nat
  | None => false
  end.

Definition has_title (self : t) : bool :=
  match title self with Some _ => true | None => false end.

(** [row] is a list index; the merge only passes [range] values, so it
    is a [nat] here.  Out of range, nothing happens. *)
Definition apply_style_to_row (self : t) (row : nat)
  (style : option CellStyle.t) : t :=
  if (row <? length (cells self))%nat
  then mk (alter (map (fun cell => Cell.merge_style cell style)) row
                 (cells self))
          (headers self) (title self) (start_position self)
  else self.

(** *** The functions of [Table] that the merge does not call *)

Definition column_count (self : t) : nat :=
  match cells self with
  | [] => match headers self with Some h => length h | None => 0%nat end
  | first :: _ => length first
  end.

(** [start_position or CellPosition(1, 1)]: a position is always truthy. *)
Definition start_or_default (start_position : option CellPosition.t)
  : result CellPosition.t :=
  match start_position with
  | Some p => Ok p
  | None => CellPosition.init 1 1
  end.

Definition from_data (data : list Row) (columns : list string)
  (headers : option (list string)) (title : option string)
  (start_position : option CellPosition.t) : result t :=
  let headers := match headers with None => columns | Some h => h end in
  let header_cells := map (fun h => Cell.text h None) headers in
  do cells <-
    for_append
      (fun row_data =>
         for_append
           (fun col =>
              let value := default PyNone (row_data !! col) in
              Cell.init value None None None None None None)
           columns [])
      data [];
  let title_cell :=
    match title with
    | Some title =>
        if truthy_str title then Some (Cell.text title None) else None
    | None => None
    end in
  do start_position <- start_or_default start_position;
  init cells (Some header_cells) title_cell start_position.

Definition from_rows (rows : list (list PyValue))
  (headers : option (list string)) (title : option string)
  (start_position : option CellPosition.t) : result t :=
  do cells <-
    map_result
      (map_result (fun val => Cell.init val None None None None None None))
      rows;
  let header_cells :=
    match headers with
    | Some h =>
        if truthy_list h then Some (map (fun h => Cell.text h None) h)
        else None
    | None => None
    end in
  let title_cell :=
    match title with
    | Some title =>
        if truthy_str title then Some (Cell.text title None) else None
    | None => None
    end in
  do start_position <- start_or_default start_position;
  init cells header_cells title_cell start_position.

Definition add_row (self : t) (row : list Cell.t) : result t :=
  if truthy_list (cells self)
     && negb (length row =? column_count self)%nat
  then Err (ValueError "Row must have")
  else Ok (mk (cells self ++ [row]) (headers self) (title self)
              (start_position self)).

(** [self.cells[row][column]]; [None] stands for [IndexError]. *)
Definition get_cell (self : t) (row column : Z) : option Cell.t :=
  match getitem (cells self) row with
  | Some cells_of_row => getitem cells_of_row column
  | None => None
  end.

Definition iter_rows (self : t) : list (list Cell.t) := cells self.

(** The nested comprehension; [None] stands for the [IndexError] of
    [self.cells[row][col]] on a row that is too short. *)
Definition iter_columns (self : t) : option (list (list Cell.t)) :=
  if negb (truthy_list (cells self)) then Some []
  else
    mapM (fun col =>
            mapM (fun row =>
                    match cells self !! row with
                    | Some cells_of_row => cells_of_row !! col
                    | None => None
                    end)
                 (seq 0 (row_count self)))
         (seq 0 (column_count self)).
End Table.

(** ** core/styles/conditional.py (carried by templates, not read by the merge) *)

Inductive RuleType : Type :=
| CELL_VALUE | RULE_FORMULA | COLOR_SCALE | DATA_BAR | ICON_SET | TOP_10
| DUPLICATE_VALUES | UNIQUE_VALUES | CONTAINS_TEXT | NOT_CONTAINS_TEXT
| BEGINS_WITH | ENDS_WITH | CONTAINS_BLANKS | NOT_CONTAINS_BLANKS
| CONTAINS_ERRORS | NOT_CONTAINS_ERRORS | TIME_PERIOD | ABOVE_AVERAGE
| BELOW_AVERAGE.

Inductive CellValueOperator : Type :=
| EQUAL | NOT_EQUAL | GREATER_THAN | GREATER_THAN_OR_EQUAL | LESS_THAN
| LESS_THAN_OR_EQUAL | BETWEEN | NOT_BETWEEN.

Module ConditionalRule.
(** The scale, bar and icon payloads are left out. *)
Record t : Type := mk {
  rule_type : RuleType;
  style : option CellStyle.t;
  priority : Z;
  stop_if_true : bool;
  formula : option string;
  operator : option CellValueOperator;
  value : option string;
  value2 : option string;
  text : option string
}.
End ConditionalRule.

(** ** core/models/sheet.py *)

Definition contains_char (c : ascii) (s : string) : bool :=
  existsb (Ascii.eqb c) (list_ascii_of_string s).

(** The field [conditional_rules] of the dataclass is left out: it is
    created empty and no function of the merge reads or writes it. *)
Module Sheet.
Record t : Type := mk {
  name : string;
  tables : list Table.t;
  cells : gmap (Z * Z) Cell.t;
  freeze_panes : option CellPosition.t;
  column_widths : gmap Z Q;
  row_heights : gmap Z Q;
  default_column_width : option Q;
  default_row_height : option Q
}.

Definition invalid_chars : list ascii :=
  ["\"; "/"; "*"; "?"; ":"; "["; "]"]%char.

(** [Sheet(name=..., freeze_panes=..., default_column_width=...,
    default_row_height=...)] followed by [__post_init__]; the other
    fields take their empty defaults. *)
Definition init (name : string) (freeze_panes : option CellPosition.t)
  (default_column_width default_row_height : option Q) : result t :=
  if (31 <? String.length name)%nat
  then Err (ValueError "Sheet name must be <= 31 characters")
  else if existsb (fun char => contains_char char name) invalid_chars
  then Err (ValueError "Sheet name cannot contain: \, /, *, ?, :, [, ]")
  else Ok (mk name [] ∅ freeze_panes ∅ ∅ default_column_width
              default_row_height).

Definition add_table (self : t) (table : Table.t) : t :=
  mk (name self) (tables self ++ [table]) (cells self) (freeze_panes self)
     (column_widths self) (row_heights self) (default_column_width self)
     (default_row_height self).

Definition set_column_width (self : t) (column : Z) (width : Q) : result t :=
  if Qle_bool width 0
  then Err (ValueError "Column width must be > 0")
  else Ok (mk (name self) (tables self) (cells self) (freeze_panes self)
              (<[column := width]> (column_widths self)) (row_heights self)
              (default_column_width self) (default_row_height self)).
End Sheet.

(** ** core/models/spreadsheet.py *)

Module Spreadsheet.
Record t : Type := mk {
  sheets : list Sheet.t;
  metadata : gmap string PyValue;
  active_sheet : option string
}.

Definition get_sheet (self : t) (name : string) : option Sheet.t :=
  find (fun sheet => String.eqb (Sheet.name sheet) name) (sheets self).

Definition add_sheet (self : t) (sheet : Sheet.t) : result t :=
  match get_sheet self (Sheet.name sheet) with
  | Some _ => Err (ValueError "Sheet with this name already exists")
  | None =>
      Ok (mk (sheets self ++ [sheet]) (metadata self)
             (match active_sheet self with
              | None => Some (Sheet.name sheet)
              | Some a => Some a
              end))
  end.

(** *** The functions of [Spreadsheet] that the merge does not call *)

Definition sheet_count (self : t) : nat := length (sheets self).

Definition sheet_names (self : t) : list string := map Sheet.name (sheets self).

(** [l.remove(x)]: the list without its first element equal to [x];
    [None] stands for the [ValueError] raised when there is none.  [eqb]
    is the comparison [remove] makes: the element is [x] itself or [==]
    holds. *)
Fixpoint list_remove {A : Type} (eqb : A -> A -> bool) (x : A) (l : list A)
  : option (list A) :=
  match l with
  | [] => None
  | y :: rest =>
      if eqb y x then Some rest
      else match list_remove eqb x rest with
           | Some rest' => Some (y :: rest')
           | None => None
           end
  end.

Definition remove_sheet (sheet_eqb : Sheet.t -> Sheet.t -> bool) (self : t)
  (name : string) : result t :=
  match get_sheet self name with
  | None => Err (ValueError "Sheet not found")
  | Some sheet =>
      match list_remove sheet_eqb sheet (sheets self) with
      | None => Err (ValueError "list.remove(x): x not in list")
      | Some sheets =>
          let active_sheet :=
            match active_sheet self with
            | Some active =>
                if String.eqb active name
                then match sheets with
                     | first :: _ => Some (Sheet.name first)
                     | [] => None
                     end
                else Some active
            | None => None
            end in
          Ok (mk sheets (metadata self) active_sheet)
      end
  end.
End Spreadsheet.

(** ** core/templates/template.py *)

(** [if w:] for an [Optional[float]]: [None] and zero are falsy. *)
Definition truthy_onum (w : option Q) : bool :=
  match w with Some q => negb (Qeq_bool q 0) | None => false end.

Module ColumnDefinition.
Record t : Type := mk {
  key : string;
  label : string;
  width : option Q;
  style : option CellStyle.t;
  header_style : option CellStyle.t;
  number_format : option string;
  formula_template : option string;
  computed : option (Row -> result PyValue);
  hidden : bool
}.

Definition post_init (self : t) : result t :=
  if negb (truthy_str (key self))
  then Err (ValueError "Column key cannot be empty")
  else if negb (truthy_str (label self))
  then Err (ValueError "Column label cannot be empty")
  else match width self with
       | Some w =>
           if Qle_bool w 0 then Err (ValueError "Column width must be > 0")
           else Ok self
       | None => Ok self
       end.
End ColumnDefinition.

Module SectionDefinition.
Record t : Type := mk {
  key : string;
  label : string;
  style : option CellStyle.t;
  formula_template : option string;
  is_total : bool;
  indent_level : Z
}.

Definition post_init (self : t) : result t :=
  if negb (truthy_str (key self))
  then Err (ValueError "Section key cannot be empty")
  else if indent_level self <? 0
  then Err (ValueError "Indent level must be >= 0")
  else Ok self.
End SectionDefinition.

Module TableTemplate.
Record t : Type := mk {
  name : string;
  columns : list ColumnDefinition.t;
  sections : option (list SectionDefinition.t);
  title : option string;
  title_style : option CellStyle.t;
  header_style : option CellStyle.t;
  default_style : option CellStyle.t;
  conditional_rules : list ConditionalRule.t;
  start_position : CellPosition.t;
  freeze_headers : bool;
  show_grid : bool;
  alternate_row_colors : bool;
  alternate_row_style : option CellStyle.t
}.

Definition post_init (self : t) : result t :=
  if negb (truthy_str (name self))
  then Err (ValueError "Table name cannot be empty")
  else if negb (truthy_list (columns self))
  then Err (ValueError "Table must have at least one column")
  else
    let column_keys := map ColumnDefinition.key (columns self) in
    if negb (length column_keys =? len_set column_keys)%nat
    then Err (ValueError "Column keys must be unique")
    else Ok self.

Definition visible_columns (self : t) : list ColumnDefinition.t :=
  filter (fun col => negb (ColumnDefinition.hidden col) = true)
         (columns self).

(** [if template.sections:] -- [None] and the empty list are falsy. *)
Definition truthy_sections (self : t) : bool :=
  match sections self with
  | Some l => truthy_list l
  | None => false
  end.

(** *** The lookups of [TableTemplate] *)

Definition get_column (self : t) (key : string) : option ColumnDefinition.t :=
  find (fun col => String.eqb (ColumnDefinition.key col) key) (columns self).

Definition get_section (self : t) (key : string)
  : option SectionDefinition.t :=
  if negb (truthy_sections self) then None
  else
    match sections self with
    | Some l => find (fun section => String.eqb (SectionDefinition.key section) key) l
    | None => None
    end.

Definition column_count (self : t) : nat := length (visible_columns self).
End TableTemplate.

Module SheetTemplate.
Record t : Type := mk {
  name : string;
  tables : list TableTemplate.t;
  freeze_panes : option CellPosition.t;
  default_column_width : option Q;
  default_row_height : option Q;
  show_gridlines : bool;
  show_headers : bool;
  zoom_scale : Z
}.

Definition post_init (self : t) : result t :=
  if negb (truthy_str (name self))
  then Err (ValueError "Sheet name cannot be empty")
  else if (31 <? String.length (name self))%nat
  then Err (ValueError "Sheet name must be <= 31 characters")
  else if negb (truthy_list (tables self))
  then Err (ValueError "Sheet must have at least one table")
  else if (zoom_scale self <? 10) || (400 <? zoom_scale self)
  then Err (ValueError "Zoom scale must be between 10 and 400")
  else Ok self.

Definition get_table (self : t) (name : string) : option TableTemplate.t :=
  find (fun table => String.eqb (TableTemplate.name table) name) (tables self).
End SheetTemplate.

Module SpreadsheetTemplate.
Record t : Type := mk {
  sheets : list SheetTemplate.t;
  metadata : gmap string PyValue;
  active_sheet : option string
}.

Definition post_init (self : t) : result t :=
  match sheets self with
  | [] => Err (ValueError "Spreadsheet must have at least one sheet")
  | first :: _ =>
      let sheet_names := map SheetTemplate.name (sheets self) in
      if negb (length sheet_names =? len_set sheet_names)%nat
      then Err (ValueError "Sheet names must be unique")
      else
        Ok (mk (sheets self) (metadata self)
               (match active_sheet self with
                | None => Some (SheetTemplate.name first)
                | Some a => Some a
                end))
  end.

Definition get_sheet (self : t) (name : string) : option SheetTemplate.t :=
  find (fun sheet => String.eqb (SheetTemplate.name sheet) name) (sheets self).

Definition sheet_count (self : t) : nat := length (sheets self).

Definition sheet_names (self : t) : list string :=
  map SheetTemplate.name (sheets self).
End SpreadsheetTemplate.

(** ** core/templates/data.py *)

Module TableData.
Record t : Type := mk {
  rows : list Row;
  computed_values : gmap string (Row -> result PyValue);
  section_data : gmap string (list Row);
  metadata : gmap string PyValue
}.

(** [TableData()] *)
Definition empty : t := mk [] ∅ ∅ ∅.

Definition get_section_data (self : t) (section_key : string) : list Row :=
  default [] (section_data self !! section_key).

Definition is_empty (self : t) : bool :=
  (length (rows self) =? 0)%nat && (size (section_data self) =? 0)%nat.

Definition iter_rows (self : t) : list Row := rows self.
End TableData.

Module SheetData.
Record t : Type := mk {
  table_data : gmap string TableData.t;
  metadata : gmap string PyValue
}.

Definition empty : t := mk ∅ ∅.

Definition get_table_data (self : t) (table_name : string)
  : option TableData.t :=
  table_data self !! table_name.
End SheetData.

Module SpreadsheetData.
Record t : Type := mk {
  sheet_data : gmap string SheetData.t;
  metadata : gmap string PyValue
}.

Definition get_sheet_data (self : t) (sheet_name : string)
  : option SheetData.t :=
  sheet_data self !! sheet_name.
End SpreadsheetData.

(** ** core/templates/merger.py *)

Module TemplateMerger.

Definition _create_header_cells (template : TableTemplate.t) : list Cell.t :=
  map (fun col_def =>
         let style :=
           py_or (py_or (ColumnDefinition.header_style col_def)
                        (TableTemplate.header_style template))
                 (Some CellStyle.header) in
         Cell.text (ColumnDefinition.label col_def) style)
      (TableTemplate.visible_columns template).

Definition _create_cell_from_column (col_def : ColumnDefinition.t)
  (row_data : Row) (template : TableTemplate.t) : result Cell.t :=
  do value <-
    match ColumnDefinition.computed col_def with
    | Some computed => computed row_data
    | None => Ok (default PyNone (row_data !! ColumnDefinition.key col_def))
    end;
  let style :=
    py_or (ColumnDefinition.style col_def)
          (TableTemplate.default_style template) in
  match ColumnDefinition.formula_template col_def with
  | Some formula =>
      if truthy_str formula
      then Ok (Cell.formula_cell formula value
                 (ColumnDefinition.number_format col_def) style)
      else Cell.init value None style
             (ColumnDefinition.number_format col_def) None None None
  | None =>
      Cell.init value None style
        (ColumnDefinition.number_format col_def) None None None
  end.

Definition _create_row_cells (template : TableTemplate.t) (row_data : Row)
  : result (list Cell.t) :=
  for_append (fun col_def => _create_cell_from_column col_def row_data template)
             (TableTemplate.visible_columns template) [].

Definition _create_section_cells (template : TableTemplate.t)
  (section_rows : list Row) (section_key : string)
  : result (list (list Cell.t)) :=
  for_append (_create_row_cells template) section_rows [].

Definition _create_total_row (template : TableTemplate.t)
  (section : SectionDefinition.t) (current_row_count : nat) : list Cell.t :=
  imap (fun idx col_def =>
          let style :=
            py_or (SectionDefinition.style section) (Some CellStyle.header) in
          match idx with
          | O => Cell.text (SectionDefinition.label section) style
          | S _ =>
              match SectionDefinition.formula_template section with
              | Some formula =>
                  if truthy_str formula
                  then Cell.formula_cell formula PyNone
                         (ColumnDefinition.number_format col_def) style
                  else Cell.blank
              | None => Cell.blank
              end
          end)
       (TableTemplate.visible_columns template).

(** One iteration of [for section in template.sections]. *)
Definition section_step (template : TableTemplate.t) (data : TableData.t)
  (cells : list (list Cell.t)) (section : SectionDefinition.t)
  : result (list (list Cell.t)) :=
  let section_rows :=
    TableData.get_section_data data (SectionDefinition.key section) in
  if negb (truthy_list section_rows) then Ok cells
  else
    do section_cells <-
      _create_section_cells template section_rows
                            (SectionDefinition.key section);
    let cells := cells ++ section_cells in
    if truthy_ostr (SectionDefinition.formula_template section)
       || SectionDefinition.is_total section
    then Ok (cells ++ [_create_total_row template section (length cells)])
    else Ok cells.

Definition _create_data_cells (template : TableTemplate.t)
  (data : TableData.t) : result (list (list Cell.t)) :=
  if TableData.is_empty data then Ok []
  else
    match TableTemplate.sections template with
    | Some (section :: sections) =>
        for_state (section_step template data) (section :: sections) []
    | _ =>
        for_append (_create_row_cells template) (TableData.iter_rows data) []
    end.

Definition merge_table (template : TableTemplate.t) (data : TableData.t)
  : result Table.t :=
  let title_cell :=
    match TableTemplate.title template with
    | Some title =>
        if truthy_str title
        then Some (Cell.text title (TableTemplate.title_style template))
        else None
    | None => None
    end in
  let header_cells := _create_header_cells template in
  do data_cells <- _create_data_cells template data;
  do table <-
    Table.init data_cells (Some header_cells) title_cell
               (TableTemplate.start_position template);
  match TableTemplate.alternate_row_colors template,
        TableTemplate.alternate_row_style template with
  | true, Some alternate_row_style =>
      Ok (fold_left
            (fun table i =>
               Table.apply_style_to_row table i (Some alternate_row_style))
            (py_range 0 (Table.row_count table) 2) table)
  | _, _ => Ok table
  end.

(** The inner loop of [merge_sheet]:
    [for col_idx, col_def in enumerate(visible_columns, start=1)]. *)
Definition column_width_loop (sheet : Sheet.t)
  (table_template : TableTemplate.t) : result Sheet.t :=
  for_state
    (fun sheet (entry : nat * ColumnDefinition.t) =>
       let col_idx := Z.of_nat (fst entry) in
       let col_def := snd entry in
       if truthy_onum (ColumnDefinition.width col_def)
       then Sheet.set_column_width sheet col_idx
              (default 0%Q (ColumnDefinition.width col_def))
       else Ok sheet)
    (imap (fun i col_def => (S i, col_def))
          (TableTemplate.visible_columns table_template))
    sheet.

(** One iteration of [for table_template in template.tables]; the state
    is the sheet under construction and the row cursor. *)
Definition table_step (data : SheetData.t) (st : Sheet.t * Z)
  (table_template : TableTemplate.t) : result (Sheet.t * Z) :=
  let sheet := fst st in
  let current_row := snd st in
  let table_data :=
    match SheetData.get_table_data data (TableTemplate.name table_template) with
    | Some table_data => table_data
    | None => TableData.empty
    end in
  do start_position <- CellPosition.init current_row 1;
  do table_template_with_position <-
    TableTemplate.post_init
      (TableTemplate.mk
         (TableTemplate.name table_template)
         (TableTemplate.columns table_template)
         (TableTemplate.sections table_template)
         (TableTemplate.title table_template)
         (TableTemplate.title_style table_template)
         (TableTemplate.header_style table_template)
         (TableTemplate.default_style table_template)
         (TableTemplate.conditional_rules table_template)
         start_position
         (TableTemplate.freeze_headers table_template)
         (TableTemplate.show_grid table_template)
         (TableTemplate.alternate_row_colors table_template)
         (TableTemplate.alternate_row_style table_template));
  do table <- merge_table table_template_with_position table_data;
  let sheet := Sheet.add_table sheet table in
  let rows_used := 0 in
  let rows_used := if Table.has_title table then rows_used + 1 else rows_used in
  let rows_used := if Table.has_headers table then rows_used + 1 else rows_used in
  let rows_used := rows_used + Z.of_nat (Table.row_count table) in
  let current_row := current_row + (rows_used + 2) in
  do sheet <- column_width_loop sheet table_template;
  Ok (sheet, current_row).

Definition merge_sheet (template : SheetTemplate.t) (data : SheetData.t)
  : result Sheet.t :=
  do sheet <-
    Sheet.init (SheetTemplate.name template)
               (SheetTemplate.freeze_panes template)
               (SheetTemplate.default_column_width template)
               (SheetTemplate.default_row_height template);
  do st <- for_state (table_step data) (SheetTemplate.tables template)
                     (sheet, 1);
  Ok (fst st).

Definition sheet_step (data : SpreadsheetData.t) (spreadsheet : Spreadsheet.t)
  (sheet_template : SheetTemplate.t) : result Spreadsheet.t :=
  let sheet_data :=
    match SpreadsheetData.get_sheet_data data
            (SheetTemplate.name sheet_template) with
    | Some sheet_data => sheet_data
    | None => SheetData.empty
    end in
  do sheet <- merge_sheet sheet_template sheet_data;
  Spreadsheet.add_sheet spreadsheet sheet.

Definition merge_spreadsheet (template : SpreadsheetTemplate.t)
  (data : SpreadsheetData.t) : result Spreadsheet.t :=
  let spreadsheet :=
    Spreadsheet.mk [] (SpreadsheetTemplate.metadata template)
                   (SpreadsheetTemplate.active_sheet template) in
  for_state (sheet_step data) (SpreadsheetTemplate.sheets template)
            spreadsheet.

End TemplateMerger.

(** ** Vocabulary of the statements *)

Definition isalnum (c : ascii) : bool := isalpha c || isdigit c.

(** The text [from_a1] works on: stripped, then upper-cased. *)
Definition normalised_reference (reference : string) : list ascii :=
  upper (strip (list_ascii_of_string reference)).





(** A cell as the constructor leaves it: a non-empty formula starts with
    [=]. *)
Definition normal_cell (c : Cell.t) : Prop :=
  match Cell.formula c with
  | Some f => truthy_str f = true -> startswith_eq f = true
  | None => True
  end.

(** The cell with another style and everything else unchanged. *)
Definition set_style (c : Cell.t) (style : option CellStyle.t) : Cell.t :=
  Cell.mk (Cell.value c) (Cell.formula c) style (Cell.number_format c)
          (Cell.data_type c) (Cell.comment c) (Cell.hyperlink c).

(** The style a cell ends up with after a style-merge with [style]. *)
Definition merged_style (c : Cell.t) (style : CellStyle.t) : CellStyle.t :=
  match Cell.style c with
  | Some own => CellStyle.merge own (Some style)
  | None => style
  end.

(** *** The sectioned body in the words of the specification *)

(** A section "declares a formula template" when the field holds a
    non-empty string. *)
Definition declared_formula (section : SectionDefinition.t) : option string :=
  match SectionDefinition.formula_template section with
  | Some f => if truthy_str f then Some f else None
  | None => None
  end.

Definition has_total_row (section : SectionDefinition.t) : bool :=
  SectionDefinition.is_total section
  || match declared_formula section with Some _ => true | None => false end.

(** The section's style, or the header preset. *)
Definition total_style (section : SectionDefinition.t) : option CellStyle.t :=
  Some (default CellStyle.header (SectionDefinition.style section)).

(** First visible column: the label as text.  Every other visible column:
    a formula cell with the section's template and the column's number
    format when a template is declared, a blank cell otherwise. *)
Definition spec_total_row (template : TableTemplate.t)
  (section : SectionDefinition.t) : list Cell.t :=
  match TableTemplate.visible_columns template with
  | [] => []
  | _ :: others =>
      Cell.text (SectionDefinition.label section) (total_style section)
      :: map (fun col =>
                match declared_formula section with
                | Some f =>
                    Cell.formula_cell f PyNone
                      (ColumnDefinition.number_format col)
                      (total_style section)
                | None => Cell.blank
                end) others
  end.

(** What one section contributes: nothing without rows; otherwise one
    output row per data row, in order, then the total row if it has one. *)
Definition spec_section_block (template : TableTemplate.t) (data : TableData.t)
  (section : SectionDefinition.t) : result (list (list Cell.t)) :=
  match TableData.get_section_data data (SectionDefinition.key section) with
  | [] => Ok []
  | rows =>
      do data_rows <- map_result (TemplateMerger._create_row_cells template) rows;
      Ok (data_rows ++
          (if has_total_row section then [spec_total_row template section]
           else []))
  end.

Definition spec_sectioned_body (template : TableTemplate.t) (data : TableData.t)
  (sections : list SectionDefinition.t) : result (list (list Cell.t)) :=
  do blocks <- map_result (spec_section_block template data) sections;
  Ok (concat blocks).

(** *** Alternating rows *)

(** Every even-indexed row restyled by style-merge, the others untouched. *)
Definition restyle_even_rows (style : CellStyle.t) (body : list (list Cell.t))
  : list (list Cell.t) :=
  imap (fun i row =>
          if Nat.even i
          then map (fun cell => Cell.merge_style cell (Some style)) row
          else row)
       body.

(** The body of the merged table, given the rows built from the data. *)
Definition final_body (template : TableTemplate.t) (body : list (list Cell.t))
  : list (list Cell.t) :=
  match TableTemplate.alternate_row_colors template,
        TableTemplate.alternate_row_style template with
  | true, Some style => restyle_even_rows style body
  | _, _ => body
  end.

(** The title cell of the merged table. *)
Definition title_cell_of (template : TableTemplate.t) : option Cell.t :=
  match TableTemplate.title template with
  | Some title =>
      if truthy_str title
      then Some (Cell.text title (TableTemplate.title_style template))
      else None
  | None => None
  end.

(** *** The row cursor of [merge_sheet] *)

Definition rows_used (table : Table.t) : Z :=
  (if Table.has_title table then 1 else 0)
  + (if Table.has_headers table then 1 else 0)
  + Z.of_nat (Table.row_count table).

(** Tables placed one under the other from [current_row] on, each at
    column 1, each followed by a gap of two rows. *)
Fixpoint stacked_from (current_row : Z) (tables : list Table.t) : Prop :=
  match tables with
  | [] => True
  | table :: rest =>
      Table.start_position table = CellPosition.mk current_row 1 /\
      stacked_from (current_row + (rows_used table + 2)) rest
  end.

(** The table template rebound to a start position, as [merge_sheet]
    rebuilds it. *)
Definition with_start_position (template : TableTemplate.t)
  (start_position : CellPosition.t) : TableTemplate.t :=
  TableTemplate.mk
    (TableTemplate.name template) (TableTemplate.columns template)
    (TableTemplate.sections template) (TableTemplate.title template)
    (TableTemplate.title_style template) (TableTemplate.header_style template)
    (TableTemplate.default_style template)
    (TableTemplate.conditional_rules template)
    start_position
    (TableTemplate.freeze_headers template) (TableTemplate.show_grid template)
    (TableTemplate.alternate_row_colors template)
    (TableTemplate.alternate_row_style template).

(** The data bound to a table template: the entry under its name, or the
    empty [TableData()]. *)
Definition table_data_for (data : SheetData.t) (template : TableTemplate.t)
  : TableData.t :=
  default TableData.empty
          (SheetData.get_table_data data (TableTemplate.name template)).

(** *** Where building a cell can raise *)

(** The rows of the data that [merge_table] builds output rows from: those
    of the template's sections, in section order, when it has sections;
    the plain rows otherwise. *)
Definition processed_rows (template : TableTemplate.t) (data : TableData.t)
  : list Row :=
  match TableTemplate.sections template with
  | Some (section :: sections) =>
      flat_map (fun section =>
                  TableData.get_section_data data
                    (SectionDefinition.key section))
               (section :: sections)
  | _ => TableData.rows data
  end.

(** The value a column takes for a row: what its [computed] callable
    returns, or the entry of the row under the column's key, [None] when
    the row has no such key. *)
Definition column_value (col_def : ColumnDefinition.t) (row_data : Row)
  : result PyValue :=
  match ColumnDefinition.computed col_def with
  | Some computed => computed row_data
  | None => Ok (default PyNone (row_data !! ColumnDefinition.key col_def))
  end.

(** The exception, if any, that the condition [value == ""] raises. *)
Definition comparison_error (value : PyValue) : option exn :=
  match value with
  | PyObj _ (Err e) => Some e
  | _ => None
  end.

(** The [computed] callable of the column raises [e] on the row. *)
Definition computed_raises (col_def : ColumnDefinition.t) (row_data : Row)
  (e : exn) : Prop :=
  exists computed,
    ColumnDefinition.computed col_def = Some computed /\
    computed row_data = Err e.

(** The column has no formula template, so the type of its cell is
    inferred, and the value it takes for the row raises [e] when it is
    compared with the empty string. *)
Definition comparison_raises (col_def : ColumnDefinition.t) (row_data : Row)
  (e : exn) : Prop :=
  truthy_ostr (ColumnDefinition.formula_template col_def) = false /\
  exists value,
    column_value col_def row_data = Ok value /\
    comparison_error value = Some e.

Definition cell_raises (col_def : ColumnDefinition.t) (row_data : Row)
  (e : exn) : Prop :=
  computed_raises col_def row_data e \/ comparison_raises col_def row_data e.

(** An exception raised while the cell of a visible column is built for a
    row that [merge_table] processes. *)
Definition raised_by_cell (template : TableTemplate.t) (data : TableData.t)
  (e : exn) : Prop :=
  exists col_def row_data,
    col_def ∈ TableTemplate.visible_columns template /\
    row_data ∈ processed_rows template data /\
    cell_raises col_def row_data e.

(** ** A small report used to exercise the statements *)

Module Sample.
Definition account : ColumnDefinition.t :=
  ColumnDefinition.mk "account" "Account" (Some (30 # 1)) None None None None
                      None false.

Definition amount : ColumnDefinition.t :=
  ColumnDefinition.mk "value" "Value" None None None (Some "#,##0.00") None
                      None false.

Definition note : ColumnDefinition.t :=
  ColumnDefinition.mk "note" "Note" None None None None None None true.

Definition section_a : SectionDefinition.t :=
  SectionDefinition.mk "a" "A" None None false 0.

Definition section_b : SectionDefinition.t :=
  SectionDefinition.mk "b" "B" None None true 0.

Definition shaded : CellStyle.t :=
  CellStyle.mk None (Some (Fill.mk PSolid (Some (Color.mk "F2F2F2")) None))
               None None None.

Definition table : TableTemplate.t :=
  TableTemplate.mk "results" [account; note; amount]
    (Some [section_a; section_b]) (Some "Results") None None None []
    (CellPosition.mk 1 1) true true true (Some shaded).

Definition row (name : string) (value : Z) : Row :=
  <["account" := PyStr name]> (<["value" := PyInt value]> ∅).

Definition data : TableData.t :=
  TableData.mk [] ∅
    (<["a" := [row "Sales" 1000; row "Services" 500]]>
       (<["b" := [row "Costs" 300]]> ∅))
    ∅.

Definition extra : TableTemplate.t :=
  TableTemplate.mk "extra" [account] None None None None None []
    (CellPosition.mk 1 1) true true false None.

Definition sheet : SheetTemplate.t :=
  SheetTemplate.mk "Report" [table; extra] None None None true true 100.

Definition sheet_data : SheetData.t :=
  SheetData.mk (<["results" := data]> ∅) ∅.

(** A value that cannot be compared: [pandas.NA == ""] is [NA], whose
    truth value raises [TypeError]. *)
Definition not_available : PyValue :=
  PyObj "<NA>" (Err (TypeError "boolean value of NA is ambiguous")).

Definition na_data : TableData.t :=
  TableData.mk [<["account" := not_available]> ∅] ∅ ∅ ∅.

(** A sheet template whose name holds a character that [Sheet] refuses. *)
Definition slash_sheet : SheetTemplate.t :=
  SheetTemplate.mk "Q1/Q2" [extra] None None None true true 100.
End Sample.

(** * The merge over a store of mutable objects

    The functions above treat templates, data and the produced model as
    values.  Python passes references to mutable objects, so whether the
    merge changes its inputs is a question about the store.  This part
    embeds the same source functions once more, over an explicit store:
    every list, dict and dataclass instance is an object at a location,
    [x = []], a constructor call and a comprehension that is kept allocate,
    and [append], [extend], item assignment and attribute assignment write
    to the location of the object they are called on.

    Immutable things stay values: strings, numbers, [CellPosition] and the
    style classes (frozen dataclasses), and callables.  The fields of a
    [Cell], of a [ColumnDefinition] and of a [SectionDefinition] are all of
    that sort, so such an instance is stored as one object holding a record.
    A [computed] callable is a function of the contents of the row it is
    given: it neither writes to the store nor depends on it otherwise. *)

Module Heap.

Abbreviation loc := nat.

(** The element type of a list object, after the annotations of the source. *)
Inductive lkind : Type :=
| KCells            (* List[Cell] *)
| KRows             (* List[List[Cell]] *)
| KTables           (* List[Table] *)
| KSheets           (* List[Sheet] *)
| KColumns          (* List[ColumnDefinition] *)
| KSections         (* List[SectionDefinition] *)
| KTableTemplates   (* List[TableTemplate] *)
| KSheetTemplates   (* List[SheetTemplate] *)
| KDataRows.        (* List[Dict[str, Any]] *)

Global Instance lkind_eq_dec : EqDecision lkind.
Proof. solve_decision. Defined.

Record table_obj : Type := {
  tb_cells : loc;
  tb_headers : option loc;
  tb_title : option loc;
  tb_start_position : CellPosition.t
}.

Record sheet_obj : Type := {
  sh_name : string;
  sh_tables : loc;
  sh_cells : loc;
  sh_freeze_panes : option CellPosition.t;
  sh_column_widths : loc;
  sh_row_heights : loc;
  sh_default_column_width : option Q;
  sh_default_row_height : option Q
}.

Record spreadsheet_obj : Type := {
  sp_sheets : loc;
  sp_metadata : loc;
  sp_active_sheet : option string
}.

Record table_template_obj : Type := {
  tt_name : string;
  tt_columns : loc;
  tt_sections : option loc;
  tt_title : option string;
  tt_title_style : option CellStyle.t;
  tt_header_style : option CellStyle.t;
  tt_default_style : option CellStyle.t;
  tt_conditional_rules : loc;
  tt_start_position : CellPosition.t;
  tt_freeze_headers : bool;
  tt_show_grid : bool;
  tt_alternate_row_colors : bool;
  tt_alternate_row_style : option CellStyle.t
}.

Record sheet_template_obj : Type := {
  sht_name : string;
  sht_tables : loc;
  sht_freeze_panes : option CellPosition.t;
  sht_default_column_width : option Q;
  sht_default_row_height : option Q;
  sht_show_gridlines : bool;
  sht_show_headers : bool;
  sht_zoom_scale : Z
}.

Record spreadsheet_template_obj : Type := {
  spt_sheets : loc;
  spt_metadata : loc;
  spt_active_sheet : option string
}.

Record table_data_obj : Type := {
  td_rows : loc;
  td_computed_values : loc;
  td_section_data : loc;
  td_metadata : loc
}.

Record sheet_data_obj : Type := {
  sd_table_data : loc;
  sd_metadata : loc
}.

Record spreadsheet_data_obj : Type := {
  sdd_sheet_data : loc;
  sdd_metadata : loc
}.

Inductive obj : Type :=
| OList (k : lkind) (items : list loc)
| OStrDict (m : gmap string PyValue)        (* a data row, a metadata dict *)
| ORefDict (m : gmap string loc)            (* a dict from names to objects *)
| ONumDict (m : gmap Z Q)                   (* Dict[int, float] *)
| OPosDict (m : gmap (Z * Z) loc)           (* Dict[CellPosition, Cell] *)
| OFunDict (m : gmap string (Row -> result PyValue))
| ORules (rules : list ConditionalRule.t)
| OCell (c : Cell.t)
| OTable (o : table_obj)
| OSheet (o : sheet_obj)
| OSpreadsheet (o : spreadsheet_obj)
| OColumn (c : ColumnDefinition.t)
| OSection (s : SectionDefinition.t)
| OTableTemplate (o : table_template_obj)
| OSheetTemplate (o : sheet_template_obj)
| OSpreadsheetTemplate (o : spreadsheet_template_obj)
| OTableData (o : table_data_obj)
| OSheetData (o : sheet_data_obj)
| OSpreadsheetData (o : spreadsheet_data_obj).

(** The store; a location is an index, and allocation appends. *)
Abbreviation heap := (list obj).

(** ** Computations on the store *)

Definition M (A : Type) : Type := heap -> heap * result A.

Definition ret {A : Type} (a : A) : M A := fun h => (h, Ok a).

Definition raise {A : Type} (e : exn) : M A := fun h => (h, Err e).

Definition lift {A : Type} (r : result A) : M A := fun h => (h, r).

Definition bind {A B : Type} (m : M A) (k : A -> M B) : M B :=
  fun h =>
    match m h with
    | (h1, Ok a) => k a h1
    | (h1, Err e) => (h1, Err e)
    end.

Notation "'let*' x ':=' m 'in' k" := (bind m (fun x => k))
  (at level 10, x name, m at level 100, k at level 200,
   format "'[v' 'let*'  x  :=  m  'in' '/' k ']'").
Notation "m ;; k" := (bind m (fun _ => k))
  (at level 100, k at level 200, right associativity).

Definition type_error : exn := TypeError "object of an unexpected class".

Definition alloc (o : obj) : M loc := fun h => (h ++ [o], Ok (length h)).

Definition load {A : Type} (select : obj -> option A) (l : loc) : M A :=
  fun h =>
    match h !! l with
    | Some o =>
        match select o with
        | Some a => (h, Ok a)
        | None => (h, Err type_error)
        end
    | None => (h, Err type_error)
    end.

Definition store (l : loc) (o : obj) : M unit :=
  fun h => (<[l := o]> h, Ok tt).

Definition as_list (k : lkind) (o : obj) : option (list loc) :=
  match o with
  | OList k' items => if decide (k = k') then Some items else None
  | _ => None
  end.
Definition as_strdict (o : obj) : option (gmap string PyValue) :=
  match o with OStrDict m => Some m | _ => None end.
Definition as_refdict (o : obj) : option (gmap string loc) :=
  match o with ORefDict m => Some m | _ => None end.
Definition as_numdict (o : obj) : option (gmap Z Q) :=
  match o with ONumDict m => Some m | _ => None end.
Definition as_cell (o : obj) : option Cell.t :=
  match o with OCell c => Some c | _ => None end.
Definition as_table (o : obj) : option table_obj :=
  match o with OTable t => Some t | _ => None end.
Definition as_sheet (o : obj) : option sheet_obj :=
  match o with OSheet s => Some s | _ => None end.
Definition as_spreadsheet (o : obj) : option spreadsheet_obj :=
  match o with OSpreadsheet s => Some s | _ => None end.
Definition as_column (o : obj) : option ColumnDefinition.t :=
  match o with OColumn c => Some c | _ => None end.
Definition as_section (o : obj) : option SectionDefinition.t :=
  match o with OSection s => Some s | _ => None end.
Definition as_table_template (o : obj) : option table_template_obj :=
  match o with OTableTemplate t => Some t | _ => None end.
Definition as_sheet_template (o : obj) : option sheet_template_obj :=
  match o with OSheetTemplate t => Some t | _ => None end.
Definition as_spreadsheet_template (o : obj)
  : option spreadsheet_template_obj :=
  match o with OSpreadsheetTemplate t => Some t | _ => None end.
Definition as_table_data (o : obj) : option table_data_obj :=
  match o with OTableData d => Some d | _ => None end.
Definition as_sheet_data (o : obj) : option sheet_data_obj :=
  match o with OSheetData d => Some d | _ => None end.
Definition as_spreadsheet_data (o : obj) : option spreadsheet_data_obj :=
  match o with OSpreadsheetData d => Some d | _ => None end.

(** [l.append(x)], [l.extend(other)] and [l[i] = x] on a list object. *)
Definition list_append (k : lkind) (l x : loc) : M unit :=
  let* items := load (as_list k) l in
  store l (OList k (items ++ [x])).

Definition list_extend (k : lkind) (l other : loc) : M unit :=
  let* more := load (as_list k) other in
  let* items := load (as_list k) l in
  store l (OList k (items ++ more)).

Definition list_set (k : lkind) (l : loc) (i : nat) (x : loc) : M unit :=
  let* items := load (as_list k) l in
  if (i <? length items)%nat
  then store l (OList k (<[i := x]> items))
  else raise (TypeError "list assignment index out of range").

(** [for x in items: body(x)], over the elements the list has when the
    loop starts (no loop of the merge changes the list it runs over). *)
Fixpoint for_each {A : Type} (items : list A) (body : A -> M unit) : M unit :=
  match items with
  | [] => ret tt
  | x :: rest => body x ;; for_each rest body
  end.

(** A loop that also updates a local variable. *)
Fixpoint fold_m {A S : Type} (body : S -> A -> M S) (items : list A) (s : S)
  : M S :=
  match items with
  | [] => ret s
  | x :: rest => let* s' := body s x in fold_m body rest s'
  end.

(** [[f(x) for x in items]] *)
Fixpoint map_m {A B : Type} (f : A -> M B) (items : list A) : M (list B) :=
  match items with
  | [] => ret []
  | x :: rest =>
      let* y := f x in
      let* ys := map_m f rest in
      ret (y :: ys)
  end.

(** [[x for x in items if keep(x)]] *)
Fixpoint filter_m {A : Type} (keep : A -> M bool) (items : list A)
  : M (list A) :=
  match items with
  | [] => ret []
  | x :: rest =>
      let* b := keep x in
      let* xs := filter_m keep rest in
      ret (if b then x :: xs else xs)
  end.

(** The first element satisfying a test, as in a [for] loop that returns. *)
Fixpoint find_m {A : Type} (test : A -> M bool) (items : list A)
  : M (option A) :=
  match items with
  | [] => ret None
  | x :: rest =>
      let* b := test x in
      if b then ret (Some x) else find_m test rest
  end.

(** ** core/models/cell.py *)

(** A constructor call: the instance is allocated with the fields that
    [__post_init__] leaves. *)
Definition Cell_new (c : Cell.t) : M loc := alloc (OCell c).

Definition Cell_with_style (self : loc) (style : CellStyle.t) : M loc :=
  let* c := load as_cell self in
  Cell_new (Cell.with_style c style).

Definition Cell_merge_style (self : loc) (style : option CellStyle.t) : M loc :=
  match style with
  | None => ret self
  | Some s =>
      let* c := load as_cell self in
      let merged_style :=
        match Cell.style c with
        | Some own => CellStyle.merge own (Some s)
        | None => s
        end in
      Cell_with_style self merged_style
  end.

(** ** core/models/table.py *)

Definition Table_new (cells : loc) (headers title : option loc)
  (start_position : CellPosition.t) : M loc :=
  let* self := alloc (OTable {| tb_cells := cells; tb_headers := headers;
                                tb_title := title;
                                tb_start_position := start_position |}) in
  let* rows := load (as_list KRows) cells in
  if truthy_list rows then
    let* row_lengths :=
      map_m (fun row => let* items := load (as_list KCells) row in
                        ret (length items)) rows in
    if (1 <? len_set row_lengths)%nat
    then raise (ValueError "All rows must have the same length")
    else ret self
  else ret self.

Definition Table_row_count (self : loc) : M nat :=
  let* t := load as_table self in
  let* rows := load (as_list KRows) (tb_cells t) in
  ret (length rows).

Definition Table_has_headers (self : loc) : M bool :=
  let* t := load as_table self in
  match tb_headers t with
  | Some headers =>
      let* items := load (as_list KCells) headers in
      ret (0 <? length items)%nat
  | None => ret false
  end.

Definition Table_has_title (self : loc) : M bool :=
  let* t := load as_table self in
  ret (match tb_title t with Some _ => true | None => false end).

Definition Table_apply_style_to_row (self : loc) (row : nat)
  (style : option CellStyle.t) : M unit :=
  let* t := load as_table self in
  let* rows := load (as_list KRows) (tb_cells t) in
  match rows !! row with
  | Some old_row =>
      let* old_cells := load (as_list KCells) old_row in
      let* new_cells :=
        map_m (fun cell => Cell_merge_style cell style) old_cells in
      let* new_row := alloc (OList KCells new_cells) in
      list_set KRows (tb_cells t) row new_row
  | None => ret tt
  end.

(** ** core/models/sheet.py *)

Definition Sheet_new (name : string) (freeze_panes : option CellPosition.t)
  (default_column_width default_row_height : option Q) : M loc :=
  let* tables := alloc (OList KTables []) in
  let* cells := alloc (OPosDict ∅) in
  let* column_widths := alloc (ONumDict ∅) in
  let* row_heights := alloc (ONumDict ∅) in
  let* self :=
    alloc (OSheet {| sh_name := name; sh_tables := tables; sh_cells := cells;
                     sh_freeze_panes := freeze_panes;
                     sh_column_widths := column_widths;
                     sh_row_heights := row_heights;
                     sh_default_column_width := default_column_width;
                     sh_default_row_height := default_row_height |}) in
  if (31 <? String.length name)%nat
  then raise (ValueError "Sheet name must be <= 31 characters")
  else if existsb (fun char => contains_char char name) Sheet.invalid_chars
  then raise (ValueError "Sheet name cannot contain: \, /, *, ?, :, [, ]")
  else ret self.

Definition Sheet_add_table (self table : loc) : M unit :=
  let* s := load as_sheet self in
  list_append KTables (sh_tables s) table.

Definition Sheet_set_column_width (self : loc) (column : Z) (width : Q)
  : M unit :=
  if Qle_bool width 0
  then raise (ValueError "Column width must be > 0")
  else
    let* s := load as_sheet self in
    let* widths := load as_numdict (sh_column_widths s) in
    store (sh_column_widths s) (ONumDict (<[column := width]> widths)).

(** ** core/models/spreadsheet.py *)

Definition Spreadsheet_new (metadata : loc) (active_sheet : option string)
  : M loc :=
  let* sheets := alloc (OList KSheets []) in
  alloc (OSpreadsheet {| sp_sheets := sheets; sp_metadata := metadata;
                         sp_active_sheet := active_sheet |}).

Definition Spreadsheet_get_sheet (self : loc) (name : string)
  : M (option loc) :=
  let* sp := load as_spreadsheet self in
  let* sheets := load (as_list KSheets) (sp_sheets sp) in
  find_m (fun sheet => let* s := load as_sheet sheet in
                       ret (String.eqb (sh_name s) name)) sheets.

Definition Spreadsheet_add_sheet (self sheet : loc) : M unit :=
  let* s := load as_sheet sheet in
  let* found := Spreadsheet_get_sheet self (sh_name s) in
  match found with
  | Some _ => raise (ValueError "Sheet with this name already exists")
  | None =>
      let* sp := load as_spreadsheet self in
      list_append KSheets (sp_sheets sp) sheet ;;
      let* sp := load as_spreadsheet self in
      match sp_active_sheet sp with
      | None =>
          store self (OSpreadsheet {| sp_sheets := sp_sheets sp;
                                      sp_metadata := sp_metadata sp;
                                      sp_active_sheet := Some (sh_name s) |})
      | Some _ => ret tt
      end
  end.

(** ** core/templates/template.py *)

Definition TableTemplate_visible_columns (self : loc) : M (list loc) :=
  let* t := load as_table_template self in
  let* columns := load (as_list KColumns) (tt_columns t) in
  filter_m (fun col => let* c := load as_column col in
                       ret (negb (ColumnDefinition.hidden c))) columns.

Definition TableTemplate_new (o : table_template_obj) : M loc :=
  let* self := alloc (OTableTemplate o) in
  if negb (truthy_str (tt_name o))
  then raise (ValueError "Table name cannot be empty")
  else
    let* columns := load (as_list KColumns) (tt_columns o) in
    if negb (truthy_list columns)
    then raise (ValueError "Table must have at least one column")
    else
      let* column_keys :=
        map_m (fun col => let* c := load as_column col in
                          ret (ColumnDefinition.key c)) columns in
      if negb (length column_keys =? len_set column_keys)%nat
      then raise (ValueError "Column keys must be unique")
      else ret self.

(** ** core/templates/data.py *)

Definition TableData_new : M loc :=
  let* rows := alloc (OList KDataRows []) in
  let* computed_values := alloc (OFunDict ∅) in
  let* section_data := alloc (ORefDict ∅) in
  let* metadata := alloc (OStrDict ∅) in
  alloc (OTableData {| td_rows := rows; td_computed_values := computed_values;
                       td_section_data := section_data;
                       td_metadata := metadata |}).

Definition TableData_get_section_data (self : loc) (section_key : string)
  : M loc :=
  let* d := load as_table_data self in
  let* section_data := load as_refdict (td_section_data d) in
  match section_data !! section_key with
  | Some rows => ret rows
  | None => alloc (OList KDataRows [])
  end.

Definition TableData_is_empty (self : loc) : M bool :=
  let* d := load as_table_data self in
  let* rows := load (as_list KDataRows) (td_rows d) in
  let* section_data := load as_refdict (td_section_data d) in
  ret ((length rows =? 0)%nat && (size section_data =? 0)%nat).

Definition SheetData_new : M loc :=
  let* table_data := alloc (ORefDict ∅) in
  let* metadata := alloc (OStrDict ∅) in
  alloc (OSheetData {| sd_table_data := table_data; sd_metadata := metadata |}).

Definition SheetData_get_table_data (self : loc) (table_name : string)
  : M (option loc) :=
  let* d := load as_sheet_data self in
  let* table_data := load as_refdict (sd_table_data d) in
  ret (table_data !! table_name).

Definition SpreadsheetData_get_sheet_data (self : loc) (sheet_name : string)
  : M (option loc) :=
  let* d := load as_spreadsheet_data self in
  let* sheet_data := load as_refdict (sdd_sheet_data d) in
  ret (sheet_data !! sheet_name).


(** ** core/templates/merger.py *)

Definition _create_header_cells (template : loc) : M loc :=
  let* header_cells := alloc (OList KCells []) in
  let* columns := TableTemplate_visible_columns template in
  for_each columns
    (fun col_def =>
       let* c := load as_column col_def in
       let* t := load as_table_template template in
       let style :=
         py_or (py_or (ColumnDefinition.header_style c) (tt_header_style t))
               (Some CellStyle.header) in
       let* header_cell := Cell_new (Cell.text (ColumnDefinition.label c) style) in
       list_append KCells header_cells header_cell) ;;
  ret header_cells.

Definition _create_cell_from_column (col_def row_data template : loc) : M loc :=
  let* c := load as_column col_def in
  let* value :=
    match ColumnDefinition.computed c with
    | Some computed =>
        let* row := load as_strdict row_data in
        lift (computed row)
    | None =>
        let* row := load as_strdict row_data in
        ret (default PyNone (row !! ColumnDefinition.key c))
    end in
  let* t := load as_table_template template in
  let style := py_or (ColumnDefinition.style c) (tt_default_style t) in
  match ColumnDefinition.formula_template c with
  | Some formula =>
      if truthy_str formula
      then Cell_new (Cell.formula_cell formula value
                       (ColumnDefinition.number_format c) style)
      else
        let* cell := lift (Cell.init value None style
                             (ColumnDefinition.number_format c) None None None) in
        Cell_new cell
  | None =>
      let* cell := lift (Cell.init value None style
                           (ColumnDefinition.number_format c) None None None) in
      Cell_new cell
  end.

Definition _create_row_cells (template row_data : loc) : M loc :=
  let* row_cells := alloc (OList KCells []) in
  let* columns := TableTemplate_visible_columns template in
  for_each columns
    (fun col_def =>
       let* cell := _create_cell_from_column col_def row_data template in
       list_append KCells row_cells cell) ;;
  ret row_cells.

Definition _create_section_cells (template section_rows : loc)
  (section_key : string) : M loc :=
  let* cells := alloc (OList KRows []) in
  let* rows := load (as_list KDataRows) section_rows in
  for_each rows
    (fun row_data =>
       let* row_cells := _create_row_cells template row_data in
       list_append KRows cells row_cells) ;;
  ret cells.

Definition _create_total_row (template section : loc) (current_row_count : nat)
  : M loc :=
  let* row_cells := alloc (OList KCells []) in
  let* columns := TableTemplate_visible_columns template in
  for_each (imap (fun idx col_def => (idx, col_def)) columns)
    (fun entry =>
       let* s := load as_section section in
       let style :=
         py_or (SectionDefinition.style s) (Some CellStyle.header) in
       let* cell :=
         match fst entry with
         | O => Cell_new (Cell.text (SectionDefinition.label s) style)
         | S _ =>
             match SectionDefinition.formula_template s with
             | Some formula =>
                 if truthy_str formula
                 then
                   let* c := load as_column (snd entry) in
                   Cell_new (Cell.formula_cell formula PyNone
                               (ColumnDefinition.number_format c) style)
                 else Cell_new Cell.blank
             | None => Cell_new Cell.blank
             end
         end in
       list_append KCells row_cells cell) ;;
  ret row_cells.

(** One iteration of [for section in template.sections]. *)
Definition section_step (template data cells section : loc) : M unit :=
  let* s := load as_section section in
  let* section_rows :=
    TableData_get_section_data data (SectionDefinition.key s) in
  let* rows := load (as_list KDataRows) section_rows in
  if negb (truthy_list rows) then ret tt
  else
    let* section_cells :=
      _create_section_cells template section_rows (SectionDefinition.key s) in
    list_extend KRows cells section_cells ;;
    if truthy_ostr (SectionDefinition.formula_template s)
       || SectionDefinition.is_total s
    then
      let* built := load (as_list KRows) cells in
      let* total_row := _create_total_row template section (length built) in
      list_append KRows cells total_row
    else ret tt.

(** The loop over [data.iter_rows()] of an unsectioned table. *)
Definition rows_loop (template data cells : loc) : M unit :=
  let* d := load as_table_data data in
  let* rows := load (as_list KDataRows) (td_rows d) in
  for_each rows
    (fun row_data =>
       let* row_cells := _create_row_cells template row_data in
       list_append KRows cells row_cells).

Definition _create_data_cells (template data : loc) : M loc :=
  let* empty := TableData_is_empty data in
  if empty then alloc (OList KRows [])
  else
    let* cells := alloc (OList KRows []) in
    let* t := load as_table_template template in
    match tt_sections t with
    | Some sections_list =>
        let* sections := load (as_list KSections) sections_list in
        if truthy_list sections
        then for_each sections (section_step template data cells)
        else rows_loop template data cells
    | None => rows_loop template data cells
    end ;;
    ret cells.

Definition merge_table (template data : loc) : M loc :=
  let* t := load as_table_template template in
  let* title_cell :=
    match tt_title t with
    | Some title =>
        if truthy_str title
        then let* c := Cell_new (Cell.text title (tt_title_style t)) in
             ret (Some c)
        else ret None
    | None => ret None
    end in
  let* header_cells := _create_header_cells template in
  let* data_cells := _create_data_cells template data in
  let* table :=
    Table_new data_cells (Some header_cells) title_cell (tt_start_position t) in
  match tt_alternate_row_colors t, tt_alternate_row_style t with
  | true, Some alternate_row_style =>
      let* row_count := Table_row_count table in
      for_each (py_range 0 row_count 2)
        (fun i => Table_apply_style_to_row table i (Some alternate_row_style))
  | _, _ => ret tt
  end ;;
  ret table.

(** The inner loop of [merge_sheet] over the visible columns. *)
Definition column_width_loop (sheet table_template : loc) : M unit :=
  let* columns := TableTemplate_visible_columns table_template in
  for_each (imap (fun i col_def => (S i, col_def)) columns)
    (fun entry =>
       let* c := load as_column (snd entry) in
       if truthy_onum (ColumnDefinition.width c)
       then Sheet_set_column_width sheet (Z.of_nat (fst entry))
              (default 0%Q (ColumnDefinition.width c))
       else ret tt).

(** One iteration of [for table_template in template.tables]; the local
    variable [current_row] is the state of the loop. *)
Definition table_step (data sheet : loc) (current_row : Z)
  (table_template : loc) : M Z :=
  let* tt := load as_table_template table_template in
  let* found := SheetData_get_table_data data (tt_name tt) in
  let* table_data :=
    match found with
    | Some table_data => ret table_data
    | None => TableData_new
    end in
  let* start_position := lift (CellPosition.init current_row 1) in
  let* table_template_with_position :=
    TableTemplate_new
      {| tt_name := tt_name tt; tt_columns := tt_columns tt;
         tt_sections := tt_sections tt; tt_title := tt_title tt;
         tt_title_style := tt_title_style tt;
         tt_header_style := tt_header_style tt;
         tt_default_style := tt_default_style tt;
         tt_conditional_rules := tt_conditional_rules tt;
         tt_start_position := start_position;
         tt_freeze_headers := tt_freeze_headers tt;
         tt_show_grid := tt_show_grid tt;
         tt_alternate_row_colors := tt_alternate_row_colors tt;
         tt_alternate_row_style := tt_alternate_row_style tt |} in
  let* table := merge_table table_template_with_position table_data in
  Sheet_add_table sheet table ;;
  let rows_used := 0 in
  let* has_title := Table_has_title table in
  let rows_used := if has_title then rows_used + 1 else rows_used in
  let* has_headers := Table_has_headers table in
  let rows_used := if has_headers then rows_used + 1 else rows_used in
  let* row_count := Table_row_count table in
  let rows_used := rows_used + Z.of_nat row_count in
  let current_row := current_row + (rows_used + 2) in
  column_width_loop sheet table_template ;;
  ret current_row.

Definition merge_sheet (template data : loc) : M loc :=
  let* st := load as_sheet_template template in
  let* sheet :=
    Sheet_new (sht_name st) (sht_freeze_panes st)
              (sht_default_column_width st) (sht_default_row_height st) in
  let* tables := load (as_list KTableTemplates) (sht_tables st) in
  fold_m (table_step data sheet) tables 1 ;;
  ret sheet.

Definition sheet_step (data spreadsheet sheet_template : loc) : M unit :=
  let* st := load as_sheet_template sheet_template in
  let* found := SpreadsheetData_get_sheet_data data (sht_name st) in
  let* sheet_data :=
    match found with
    | Some sheet_data => ret sheet_data
    | None => SheetData_new
    end in
  let* sheet := merge_sheet sheet_template sheet_data in
  Spreadsheet_add_sheet spreadsheet sheet.

Definition merge_spreadsheet (template data : loc) : M loc :=
  let* t := load as_spreadsheet_template template in
  let* metadata := load as_strdict (spt_metadata t) in
  let* metadata_copy := alloc (OStrDict metadata) in
  let* spreadsheet := Spreadsheet_new metadata_copy (spt_active_sheet t) in
  let* sheets := load (as_list KSheetTemplates) (spt_sheets t) in
  for_each sheets (sheet_step data spreadsheet) ;;
  ret spreadsheet.


(** ** What an object graph of the store stands for

    [is_x h l v]: the object at [l], with everything it refers to, reads
    as the value [v] of the value-level model. *)

Definition is_list {A : Type} (k : lkind) (R : heap -> loc -> A -> Prop)
  (h : heap) (l : loc) (xs : list A) : Prop :=
  exists items, h !! l = Some (OList k items) /\ Forall2 (R h) items xs.

Definition is_opt {A : Type} (R : heap -> loc -> A -> Prop)
  (h : heap) (l : option loc) (x : option A) : Prop :=
  option_Forall2 (R h) l x.

Definition is_refdict {A : Type} (R : heap -> loc -> A -> Prop)
  (h : heap) (l : loc) (m : gmap string A) : Prop :=
  exists refs, h !! l = Some (ORefDict refs) /\
               map_Forall2 (fun _ => R h) refs m.

Definition is_cell (h : heap) (l : loc) (c : Cell.t) : Prop :=
  h !! l = Some (OCell c).

Definition is_cells : heap -> loc -> list Cell.t -> Prop :=
  is_list KCells is_cell.

Definition is_rows : heap -> loc -> list (list Cell.t) -> Prop :=
  is_list KRows is_cells.

Definition is_table (h : heap) (l : loc) (table : Table.t) : Prop :=
  exists o,
    h !! l = Some (OTable o) /\
    is_rows h (tb_cells o) (Table.cells table) /\
    is_opt is_cells h (tb_headers o) (Table.headers table) /\
    is_opt is_cell h (tb_title o) (Table.title table) /\
    tb_start_position o = Table.start_position table.

Definition is_sheet (h : heap) (l : loc) (sheet : Sheet.t) : Prop :=
  exists o cells,
    h !! l = Some (OSheet o) /\
    sh_name o = Sheet.name sheet /\
    is_list KTables is_table h (sh_tables o) (Sheet.tables sheet) /\
    h !! sh_cells o = Some (OPosDict cells) /\
    map_Forall2 (fun _ => is_cell h) cells (Sheet.cells sheet) /\
    sh_freeze_panes o = Sheet.freeze_panes sheet /\
    h !! sh_column_widths o = Some (ONumDict (Sheet.column_widths sheet)) /\
    h !! sh_row_heights o = Some (ONumDict (Sheet.row_heights sheet)) /\
    sh_default_column_width o = Sheet.default_column_width sheet /\
    sh_default_row_height o = Sheet.default_row_height sheet.

Definition is_spreadsheet (h : heap) (l : loc) (sp : Spreadsheet.t) : Prop :=
  exists o,
    h !! l = Some (OSpreadsheet o) /\
    is_list KSheets is_sheet h (sp_sheets o) (Spreadsheet.sheets sp) /\
    h !! sp_metadata o = Some (OStrDict (Spreadsheet.metadata sp)) /\
    sp_active_sheet o = Spreadsheet.active_sheet sp.

Definition is_column (h : heap) (l : loc) (c : ColumnDefinition.t) : Prop :=
  h !! l = Some (OColumn c).

Definition is_section (h : heap) (l : loc) (s : SectionDefinition.t) : Prop :=
  h !! l = Some (OSection s).

Definition is_table_template (h : heap) (l : loc) (t : TableTemplate.t)
  : Prop :=
  exists o,
    h !! l = Some (OTableTemplate o) /\
    tt_name o = TableTemplate.name t /\
    is_list KColumns is_column h (tt_columns o) (TableTemplate.columns t) /\
    is_opt (is_list KSections is_section) h (tt_sections o)
           (TableTemplate.sections t) /\
    tt_title o = TableTemplate.title t /\
    tt_title_style o = TableTemplate.title_style t /\
    tt_header_style o = TableTemplate.header_style t /\
    tt_default_style o = TableTemplate.default_style t /\
    h !! tt_conditional_rules o =
      Some (ORules (TableTemplate.conditional_rules t)) /\
    tt_start_position o = TableTemplate.start_position t /\
    tt_freeze_headers o = TableTemplate.freeze_headers t /\
    tt_show_grid o = TableTemplate.show_grid t /\
    tt_alternate_row_colors o = TableTemplate.alternate_row_colors t /\
    tt_alternate_row_style o = TableTemplate.alternate_row_style t.

Definition is_sheet_template (h : heap) (l : loc) (t : SheetTemplate.t)
  : Prop :=
  exists o,
    h !! l = Some (OSheetTemplate o) /\
    sht_name o = SheetTemplate.name t /\
    is_list KTableTemplates is_table_template h (sht_tables o)
            (SheetTemplate.tables t) /\
    sht_freeze_panes o = SheetTemplate.freeze_panes t /\
    sht_default_column_width o = SheetTemplate.default_column_width t /\
    sht_default_row_height o = SheetTemplate.default_row_height t /\
    sht_show_gridlines o = SheetTemplate.show_gridlines t /\
    sht_show_headers o = SheetTemplate.show_headers t /\
    sht_zoom_scale o = SheetTemplate.zoom_scale t.

Definition is_spreadsheet_template (h : heap) (l : loc)
  (t : SpreadsheetTemplate.t) : Prop :=
  exists o,
    h !! l = Some (OSpreadsheetTemplate o) /\
    is_list KSheetTemplates is_sheet_template h (spt_sheets o)
            (SpreadsheetTemplate.sheets t) /\
    h !! spt_metadata o = Some (OStrDict (SpreadsheetTemplate.metadata t)) /\
    spt_active_sheet o = SpreadsheetTemplate.active_sheet t.

Definition is_row (h : heap) (l : loc) (row : Row) : Prop :=
  h !! l = Some (OStrDict row).

Definition is_data_rows : heap -> loc -> list Row -> Prop :=
  is_list KDataRows is_row.

Definition is_table_data (h : heap) (l : loc) (d : TableData.t) : Prop :=
  exists o,
    h !! l = Some (OTableData o) /\
    is_data_rows h (td_rows o) (TableData.rows d) /\
    h !! td_computed_values o = Some (OFunDict (TableData.computed_values d)) /\
    is_refdict is_data_rows h (td_section_data o) (TableData.section_data d) /\
    h !! td_metadata o = Some (OStrDict (TableData.metadata d)).

Definition is_sheet_data (h : heap) (l : loc) (d : SheetData.t) : Prop :=
  exists o,
    h !! l = Some (OSheetData o) /\
    is_refdict is_table_data h (sd_table_data o) (SheetData.table_data d) /\
    h !! sd_metadata o = Some (OStrDict (SheetData.metadata d)).

Definition is_spreadsheet_data (h : heap) (l : loc) (d : SpreadsheetData.t)
  : Prop :=
  exists o,
    h !! l = Some (OSpreadsheetData o) /\
    is_refdict is_sheet_data h (sdd_sheet_data o)
               (SpreadsheetData.sheet_data d) /\
    h !! sdd_metadata o = Some (OStrDict (SpreadsheetData.metadata d)).

(** [h'] is [h] with more objects after it: what [h] holds is in [h'] at
    the same location, unchanged. *)
Definition extends (h h' : heap) : Prop := exists fresh, h' = h ++ fresh.

(** A reading of the store that allocation cannot change. *)
Class Mono {A B : Type} (R : heap -> A -> B -> Prop) : Prop :=
  mono : forall h h' a b, extends h h' -> R h a b -> R h' a b.

(** [m], run on [h], only allocates -- the objects of [h] are all still
    there, unchanged -- and does what the value-level result [p] says: it
    raises the same exception, or returns a result related to [p]'s. *)
Definition simulates {A B : Type} (h : heap) (m : M A) (p : result B)
  (R : heap -> A -> B -> Prop) : Prop :=
  exists fresh,
    match p with
    | Ok b => exists a, m h = (h ++ fresh, Ok a) /\ R (h ++ fresh) a b
    | Err e => m h = (h ++ fresh, Err e)
    end.

(** The same for a step inside a function that has been running since the
    store was [h0]: [m] may write to the objects allocated since then, and
    the store it leaves still extends [h0]. *)
Definition steps {A B : Type} (h0 h : heap) (m : M A) (p : result B)
  (R : heap -> A -> B -> Prop) : Prop :=
  exists h',
    extends h0 h' /\
    match p with
    | Ok b => exists a, m h = (h', Ok a) /\ R h' a b
    | Err e => m h = (h', Err e)
    end.

(** The list at [cells] holds the rows built so far. *)
Definition body_inv (cells : loc) (h : heap) (body : list (list Cell.t))
  : Prop :=
  exists rlocs,
    h !! cells = Some (OList KRows rlocs) /\ Forall2 (is_cells h) rlocs body.

(** The table object [o] at [l] reads as [table], and its rows are in a
    list allocated after the store had size [n]. *)
Definition table_inv (n : nat) (l : loc) (o : table_obj) (h : heap)
  (table : Table.t) : Prop :=
  h !! l = Some (OTable o) /\
  (n <= tb_cells o)%nat /\
  is_table h l table.

(** A reference to an object allocated after the store had size [n]. *)
Definition fresh_from {A : Type} (n : nat) (R : heap -> loc -> A -> Prop)
  (h : heap) (l : loc) (x : A) : Prop :=
  (n <= l)%nat /\ R h l x.

(** The objects a table is made of, and those a sheet is made of: a write
    to an object of another sort leaves a table, or a sheet, as it reads. *)
Definition table_part (o : obj) : bool :=
  match o with
  | OCell _ | OTable _ | OList KCells _ | OList KRows _ => true
  | _ => false
  end.

Definition sheet_part (o : obj) : bool :=
  match o with
  | OSheet _ | OList KTables _ | OPosDict _ | ONumDict _ => true
  | _ => table_part o
  end.

(** The sheet object [o] at [l] reads as [sheet]; its list of tables and
    its column widths were allocated after the store had size [n]. *)
Definition sheet_inv (n : nat) (l : loc) (o : sheet_obj) (h : heap)
  (sheet : Sheet.t) : Prop :=
  h !! l = Some (OSheet o) /\
  (n <= sh_tables o)%nat /\
  (n <= sh_column_widths o)%nat /\
  sh_column_widths o <> sh_row_heights o /\
  is_sheet h l sheet.

(** The same for the workbook object at [l], whatever its fields are
    now, and its list of sheets. *)
Definition spreadsheet_inv (n : nat) (l : loc) (h : heap)
  (sp : Spreadsheet.t) : Prop :=
  (n <= l)%nat /\
  (forall o, h !! l = Some (OSpreadsheet o) -> (n <= sp_sheets o)%nat) /\
  is_spreadsheet h l sp.


(** ** core/models/table.py: reading and writing one cell

    [None] as result stands for the [IndexError] of an index out of range;
    the store is then unchanged. *)

Definition Table_get_cell (self : loc) (row column : Z) : M (option loc) :=
  let* t := load as_table self in
  let* rows := load (as_list KRows) (tb_cells t) in
  match getitem rows row with
  | Some cells_of_row =>
      let* cells := load (as_list KCells) cells_of_row in
      ret (getitem cells column)
  | None => ret None
  end.

Definition Table_set_cell (self : loc) (row column : Z) (cell : loc)
  : M (option unit) :=
  let* t := load as_table self in
  let* rows := load (as_list KRows) (tb_cells t) in
  match getitem rows row with
  | Some cells_of_row =>
      let* cells := load (as_list KCells) cells_of_row in
      match py_index (length cells) column with
      | Some k =>
          store cells_of_row (OList KCells (<[k := cell]> cells)) ;;
          ret (Some tt)
      | None => ret None
      end
  | None => ret None
  end.
End Heap.


(** A store holding the sample workbook: the template of one sheet with
    its two tables (which share the column object at 0) and the data for
    it. *)
Module SampleStore.
Import Heap.

Definition workbook : SpreadsheetTemplate.t :=
  SpreadsheetTemplate.mk [Sample.sheet] ∅ None.

Definition workbook_data : SpreadsheetData.t :=
  SpreadsheetData.mk (<["Report" := Sample.sheet_data]> ∅) ∅.

Definition store : list obj :=
  [ OColumn Sample.account;
    OColumn Sample.note;
    OColumn Sample.amount;
    OList KColumns [0; 1; 2]%nat;
    OSection Sample.section_a;
    OSection Sample.section_b;
    OList KSections [4; 5]%nat;
    ORules [];
    OTableTemplate
      {| tt_name := "results"; tt_columns := 3%nat; tt_sections := Some 6%nat;
         tt_title := Some "Results"; tt_title_style := None;
         tt_header_style := None; tt_default_style := None;
         tt_conditional_rules := 7%nat;
         tt_start_position := CellPosition.mk 1 1;
         tt_freeze_headers := true; tt_show_grid := true;
         tt_alternate_row_colors := true;
         tt_alternate_row_style := Some Sample.shaded |};
    OList KColumns [0%nat];
    ORules [];
    OTableTemplate
      {| tt_name := "extra"; tt_columns := 9%nat; tt_sections := None;
         tt_title := None; tt_title_style := None;
         tt_header_style := None; tt_default_style := None;
         tt_conditional_rules := 10%nat;
         tt_start_position := CellPosition.mk 1 1;
         tt_freeze_headers := true; tt_show_grid := true;
         tt_alternate_row_colors := false;
         tt_alternate_row_style := None |};
    OList KTableTemplates [8; 11]%nat;
    OSheetTemplate
      {| sht_name := "Report"; sht_tables := 12%nat; sht_freeze_panes := None;
         sht_default_column_width := None; sht_default_row_height := None;
         sht_show_gridlines := true; sht_show_headers := true;
         sht_zoom_scale := 100 |};
    OList KSheetTemplates [13%nat];
    OStrDict ∅;
    OSpreadsheetTemplate
      {| spt_sheets := 14%nat; spt_metadata := 15%nat;
         spt_active_sheet := None |};
    OStrDict (Sample.row "Sales" 1000);
    OStrDict (Sample.row "Services" 500);
    OList KDataRows [17; 18]%nat;
    OStrDict (Sample.row "Costs" 300);
    OList KDataRows [20%nat];
    OList KDataRows [];
    OFunDict ∅;
    ORefDict (<["a" := 19%nat]> (<["b" := 21%nat]> ∅));
    OStrDict ∅;
    OTableData
      {| td_rows := 22%nat; td_computed_values := 23%nat;
         td_section_data := 24%nat; td_metadata := 25%nat |};
    ORefDict (<["results" := 26%nat]> ∅);
    OStrDict ∅;
    OSheetData {| sd_table_data := 27%nat; sd_metadata := 28%nat |};
    ORefDict (<["Report" := 29%nat]> ∅);
    OStrDict ∅;
    OSpreadsheetData {| sdd_sheet_data := 30%nat; sdd_metadata := 31%nat |} ].

(** Where the template and the data are. *)
Definition template : loc := 16%nat.
Definition data : loc := 32%nat.
End SampleStore.

(** * The rest of the model

    Functions of the same source files that the merge does not call. *)

(** ** core/models/position.py: [CellRange] *)

(** [s.split(sep)] for a one-character separator: the pieces between the
    occurrences of [sep], empty pieces included. *)
Fixpoint split_char (sep : ascii) (s : list ascii) : list (list ascii) :=
  match s with
  | [] => [[]]
  | c :: rest =>
      if Ascii.eqb c sep then [] :: split_char sep rest
      else match split_char sep rest with
           | piece :: pieces => (c :: piece) :: pieces
           | [] => [[c]]
           end
  end.

(** [range(start, stop)] over integers. *)
Definition int_range (start stop : Z) : list Z :=
  map (fun k => start + Z.of_nat k) (seq 0 (Z.to_nat (stop - start))).

Module CellRange.
(** The field [end] is written [end_]. *)
Record t : Type := mk { start : CellPosition.t; end_ : CellPosition.t }.

(** The dataclass constructor followed by [__post_init__]. *)
Definition init (start end_ : CellPosition.t) : result t :=
  if CellPosition.row end_ <? CellPosition.row start
  then Err (ValueError "Start row must be <= end row")
  else if CellPosition.column end_ <? CellPosition.column start
  then Err (ValueError "Start column must be <= end column")
  else Ok (mk start end_).

Definition from_a1 (reference : string) : result t :=
  if negb (contains_char ":" reference)
  then
    do pos <- CellPosition.from_a1 reference;
    init pos pos
  else
    match split_char ":" (list_ascii_of_string reference) with
    | [first; second] =>
        do start <- CellPosition.from_a1 (string_of_list_ascii first);
        do end_ <- CellPosition.from_a1 (string_of_list_ascii second);
        init start end_
    | _ => Err (ValueError "Invalid range reference")
    end.

(** [self.start == self.end] compares the two fields of the positions. *)
Definition position_eqb (p q : CellPosition.t) : bool :=
  (CellPosition.row p =? CellPosition.row q)
  && (CellPosition.column p =? CellPosition.column q).

Definition to_a1 (self : t) : result string :=
  if position_eqb (start self) (end_ self)
  then CellPosition.to_a1 (start self)
  else
    do first <- CellPosition.to_a1 (start self);
    do second <- CellPosition.to_a1 (end_ self);
    Ok (first ++ ":" ++ second)%string.

Definition contains (self : t) (position : CellPosition.t) : bool :=
  ((CellPosition.row (start self) <=? CellPosition.row position)
   && (CellPosition.row position <=? CellPosition.row (end_ self)))
  && ((CellPosition.column (start self) <=? CellPosition.column position)
      && (CellPosition.column position <=? CellPosition.column (end_ self))).

(** The positions the generator yields, in order; an exception of the
    [CellPosition] constructor ends the iteration. *)
Definition iter_positions (self : t) : result (list CellPosition.t) :=
  for_state
    (fun yielded row =>
       for_state
         (fun yielded col =>
            do position <- CellPosition.init row col;
            Ok (yielded ++ [position]))
         (int_range (CellPosition.column (start self))
                    (CellPosition.column (end_ self) + 1))
         yielded)
    (int_range (CellPosition.row (start self))
               (CellPosition.row (end_ self) + 1))
    [].

Definition row_count (self : t) : Z :=
  CellPosition.row (end_ self) - CellPosition.row (start self) + 1.

Definition column_count (self : t) : Z :=
  CellPosition.column (end_ self) - CellPosition.column (start self) + 1.

Definition cell_count (self : t) : Z := row_count self * column_count self.
End CellRange.

(** ** core/styles/cell_style.py: [Color.__init__] *)

Module ColorName.
Definition hex_digits : list ascii := list_ascii_of_string "0123456789ABCDEF".

Definition color_map : list (string * string) :=
  [ ("BLACK", "000000"); ("WHITE", "FFFFFF"); ("RED", "FF0000");
    ("GREEN", "00FF00"); ("BLUE", "0000FF"); ("YELLOW", "FFFF00");
    ("CYAN", "00FFFF"); ("MAGENTA", "FF00FF"); ("GRAY", "808080");
    ("GREY", "808080"); ("ORANGE", "FFA500"); ("PURPLE", "800080");
    ("BROWN", "A52A2A"); ("PINK", "FFC0CB") ].

(** [Color._normalize_color] *)
Definition _normalize_color (value : string) : result string :=
  let value := upper (strip (list_ascii_of_string value)) in
  let value :=
    match value with
    | c :: rest => if Ascii.eqb c "#" then rest else value
    | [] => value
    end in
  if (length value =? 6)%nat
     && forallb (fun c => existsb (Ascii.eqb c) hex_digits) value
  then Ok (string_of_list_ascii value)
  else
    match find (fun entry => String.eqb (fst entry) (string_of_list_ascii value))
               color_map with
    | Some entry => Ok (snd entry)
    | None => Err (ValueError "Invalid color format")
    end.

(** [Color(value)] *)
Definition init (value : string) : result Color.t :=
  do value <- _normalize_color value;
  Ok (Color.mk value).
End ColorName.

(** ** engine/streaming.py *)

Module StreamingDataIterator.
(** The generator [iter_chunks] on a source that yields the rows of
    [data_source] and stops: [chunk] is the chunk being filled. *)
Fixpoint chunks_loop {A : Type} (chunk_size : Z) (data_source : list A)
  (chunk : list A) : list (list A) :=
  match data_source with
  | [] => if truthy_list chunk then [chunk] else []
  | row :: rest =>
      let chunk := chunk ++ [row] in
      if chunk_size <=? Z.of_nat (length chunk)
      then chunk :: chunks_loop chunk_size rest []
      else chunks_loop chunk_size rest chunk
  end.

Definition iter_chunks {A : Type} (data_source : list A) (chunk_size : Z)
  : list (list A) :=
  chunks_loop chunk_size data_source [].
End StreamingDataIterator.

Module StreamingTableData.
(** The fields the streaming functions read: the inherited [rows], and
    [row_iterator], which is [None] or an iterator object (always truthy;
    [Some] holds the rows it would yield). *)
Record t : Type := mk {
  rows : list Row;
  row_iterator : option (list Row);
  chunk_size : Z
}.

Definition iter_rows_streaming (self : t) : list Row :=
  match row_iterator self with
  | Some iterator => iterator
  | None => rows self
  end.

(** [iter_chunks] has a [yield] in its body, so it is a generator: the
    [return iterator.iter_chunks()] of its first branch ends it without
    yielding anything.  Its second branch walks [range(0, len(rows),
    chunk_size)], which refuses a step of 0 and is empty for a negative
    one, and yields the slices [rows[i:i + chunk_size]]. *)
Definition iter_chunks (self : t) : result (list (list Row)) :=
  match row_iterator self with
  | Some _ => Ok []
  | None =>
      if chunk_size self =? 0
      then Err (ValueError "range() arg 3 must not be zero")
      else if chunk_size self <? 0 then Ok []
      else
        let step := Z.to_nat (chunk_size self) in
        Ok (map (fun i => take step (drop i (rows self)))
                (py_range 0 (length (rows self)) step))
  end.
End StreamingTableData.

(** ** Vocabulary of the further statements *)

(** A position, and a range, that their constructors accept. *)
Definition valid_position (p : CellPosition.t) : Prop :=
  1 <= CellPosition.row p /\ 1 <= CellPosition.column p.

Definition valid_range (r : CellRange.t) : Prop :=
  valid_position (CellRange.start r) /\ valid_position (CellRange.end_ r) /\
  CellPosition.row (CellRange.start r) <= CellPosition.row (CellRange.end_ r) /\
  CellPosition.column (CellRange.start r)
    <= CellPosition.column (CellRange.end_ r).

(** The positions of a range, row by row. *)
Definition row_major (r : CellRange.t) : list CellPosition.t :=
  flat_map
    (fun row =>
       map (CellPosition.mk row)
           (int_range (CellPosition.column (CellRange.start r))
                      (CellPosition.column (CellRange.end_ r) + 1)))
    (int_range (CellPosition.row (CellRange.start r))
               (CellPosition.row (CellRange.end_ r) + 1)).

(** Six characters, each one of [0-9A-F]. *)
Definition is_hex (c : ascii) : bool :=
  existsb (Ascii.eqb c) ColorName.hex_digits.

Definition hex6 (s : list ascii) : Prop :=
  length s = 6%nat /\ Forall (fun c => is_hex c = true) s.

(** The data [merge_spreadsheet] binds to a sheet template. *)
Definition sheet_data_for (data : SpreadsheetData.t)
  (template : SheetTemplate.t) : SheetData.t :=
  match SpreadsheetData.get_sheet_data data (SheetTemplate.name template) with
  | Some sheet_data => sheet_data
  | None => SheetData.empty
  end.

(** The width that the column at place [i] (from 0) among the visible
    columns of a table template asks for, if any. *)
Definition declared_width (template : TableTemplate.t) (i : nat) : option Q :=
  match TableTemplate.visible_columns template !! i with
  | Some col_def =>
      if truthy_onum (ColumnDefinition.width col_def)
      then ColumnDefinition.width col_def
      else None
  | None => None
  end.

(** The last of the tables, in order, that asks for a width at place [i]
    decides. *)
Definition last_declared_width (templates : list TableTemplate.t) (i : nat)
  : option Q :=
  fold_left (fun width template =>
               match declared_width template i with
               | Some w => Some w
               | None => width
               end)
            templates None.

(** A table template that passed its validation, made of columns that
    passed theirs. *)
Definition validated_table (template : TableTemplate.t) : Prop :=
  TableTemplate.post_init template = Ok template /\
  Forall (fun col => is_ok (ColumnDefinition.post_init col) = true)
         (TableTemplate.columns template).

(** An exception raised while a cell of one of the tables is built from
    the data bound to that table. *)
Definition raised_by_table (templates : list TableTemplate.t)
  (data : SheetData.t) (e : exn) : Prop :=
  exists template,
    template ∈ templates /\
    raised_by_cell template (table_data_for data template) e.

(** * Properties *)

(** ** The style-merge algebra *)

Lemma pick_assoc {A : Type} (x y z : option A) :
  CellStyle.pick z (CellStyle.pick y x) = CellStyle.pick (CellStyle.pick z y) x.
Proof. destruct z, y; reflexivity. Qed.

(** C5: [a.merge(None) == a], and [a.merge(b)] is decided field by field:
    [b]'s field when it is not [None], otherwise [a]'s.  A font of [b]
    replaces the font of [a] as a whole. *)
Theorem merge_fieldwise_override (a b : CellStyle.t) :
  CellStyle.merge a None = a /\
  CellStyle.font (CellStyle.merge a (Some b)) =
    match CellStyle.font b with
    | Some f => Some f
    | None => CellStyle.font a
    end /\
  CellStyle.fill (CellStyle.merge a (Some b)) =
    match CellStyle.fill b with
    | Some f => Some f
    | None => CellStyle.fill a
    end /\
  CellStyle.border (CellStyle.merge a (Some b)) =
    match CellStyle.border b with
    | Some f => Some f
    | None => CellStyle.border a
    end /\
  CellStyle.alignment (CellStyle.merge a (Some b)) =
    match CellStyle.alignment b with
    | Some f => Some f
    | None => CellStyle.alignment a
    end /\
  CellStyle.number_format (CellStyle.merge a (Some b)) =
    match CellStyle.number_format b with
    | Some f => Some f
    | None => CellStyle.number_format a
    end.
Proof.
  destruct a as [fa la ba aa na], b as [fb lb bb ab nb]; simpl.
  repeat split.
  - destruct fb; reflexivity.
  - destruct lb; reflexivity.
  - destruct bb; reflexivity.
  - destruct ab; reflexivity.
  - destruct nb; reflexivity.
Qed.

(** C10: [a.merge(b).merge(c) == a.merge(b.merge(c))]. *)
Theorem merge_associative (a b c : CellStyle.t) :
  CellStyle.merge (CellStyle.merge a (Some b)) (Some c) =
  CellStyle.merge a (Some (CellStyle.merge b (Some c))).
Proof.
  unfold CellStyle.merge; simpl.
  f_equal; apply pick_assoc.
Qed.

(** ** A1 notation *)

Lemma ord_chr (z : Z) : 0 <= z < 256 -> ord (chr z) = z.
Proof.
  intros Hz. unfold ord, chr.
  rewrite N_ascii_embedding by lia. lia.
Qed.

Lemma ord_range (c : ascii) : 0 <= ord c < 256.
Proof.
  unfold ord. pose proof (N_ascii_bounded c). lia.
Qed.

Lemma ord_inj (c d : ascii) : ord c = ord d -> c = d.
Proof.
  unfold ord. intros H.
  rewrite <- (ascii_N_embedding c), <- (ascii_N_embedding d).
  f_equal. lia.
Qed.

Lemma ord_A : ord "A" = 65.
Proof. reflexivity. Qed.

Lemma isupper_spec (c : ascii) : isupper c = true <-> 65 <= ord c <= 90.
Proof. unfold isupper. rewrite andb_true_iff, !Z.leb_le. tauto. Qed.

Lemma islower_spec (c : ascii) : islower c = true <-> 97 <= ord c <= 122.
Proof. unfold islower. rewrite andb_true_iff, !Z.leb_le. tauto. Qed.

Lemma isdigit_spec (c : ascii) : isdigit c = true <-> 48 <= ord c <= 57.
Proof. unfold isdigit. rewrite andb_true_iff, !Z.leb_le. tauto. Qed.

Lemma isspace_spec (c : ascii) :
  isspace c = true <-> 9 <= ord c <= 13 \/ 28 <= ord c <= 32.
Proof.
  unfold isspace. rewrite orb_true_iff, !andb_true_iff, !Z.leb_le. tauto.
Qed.

Lemma isupper_not_digit (c : ascii) : isupper c = true -> isdigit c = false.
Proof.
  rewrite isupper_spec. intros H.
  destruct (isdigit c) eqn:E; [apply isdigit_spec in E; lia | reflexivity].
Qed.

Lemma isupper_not_lower (c : ascii) : isupper c = true -> islower c = false.
Proof.
  rewrite isupper_spec. intros H.
  destruct (islower c) eqn:E; [apply islower_spec in E; lia | reflexivity].
Qed.

Lemma isupper_not_space (c : ascii) : isupper c = true -> isspace c = false.
Proof.
  rewrite isupper_spec. intros H.
  destruct (isspace c) eqn:E; [apply isspace_spec in E; lia | reflexivity].
Qed.

Lemma isdigit_not_alpha (c : ascii) : isdigit c = true -> isalpha c = false.
Proof.
  rewrite isdigit_spec. intros H. unfold isalpha.
  destruct (isupper c) eqn:E1; [apply isupper_spec in E1; lia |].
  destruct (islower c) eqn:E2; [apply islower_spec in E2; lia | reflexivity].
Qed.

Lemma isdigit_not_lower (c : ascii) : isdigit c = true -> islower c = false.
Proof.
  rewrite isdigit_spec. intros H.
  destruct (islower c) eqn:E; [apply islower_spec in E; lia | reflexivity].
Qed.

Lemma isdigit_not_space (c : ascii) : isdigit c = true -> isspace c = false.
Proof.
  rewrite isdigit_spec. intros H.
  destruct (isspace c) eqn:E; [apply isspace_spec in E; lia | reflexivity].
Qed.


Lemma upper_char_isalpha (c : ascii) : isalpha (upper_char c) = isalpha c.
Proof.
  unfold upper_char. destruct (islower c) eqn:El; [| reflexivity].
  unfold isalpha at 2. rewrite El, orb_true_r.
  apply islower_spec in El. unfold isalpha.
  assert (isupper (chr (ord c - 32)) = true) as ->; [| reflexivity].
  apply isupper_spec. rewrite ord_chr by lia. lia.
Qed.

Lemma upper_char_isdigit (c : ascii) : isdigit (upper_char c) = isdigit c.
Proof.
  unfold upper_char. destruct (islower c) eqn:El; [| reflexivity].
  apply islower_spec in El.
  destruct (isdigit c) eqn:Ed; [apply isdigit_spec in Ed; lia |].
  destruct (isdigit (chr (ord c - 32))) eqn:E; [| reflexivity].
  apply isdigit_spec in E. rewrite ord_chr in E by lia. lia.
Qed.

Lemma upper_fixes (s : list ascii) :
  Forall (fun c => islower c = false) s -> upper s = s.
Proof.
  unfold upper. induction 1 as [| c s Hc _ IH]; simpl; [reflexivity |].
  unfold upper_char at 1. rewrite Hc, IH. reflexivity.
Qed.

(** [strip] leaves alone a text that neither starts nor ends with a space. *)
Lemma lstrip_fixes (c : ascii) (s : list ascii) :
  isspace c = false -> lstrip (c :: s) = c :: s.
Proof. intros H. simpl. rewrite H. reflexivity. Qed.

Lemma rstrip_fixes (s : list ascii) (c : ascii) :
  isspace c = false -> rstrip (s ++ [c]) = s ++ [c].
Proof.
  intros H. unfold rstrip. rewrite rev_app_distr. simpl rev at 2.
  simpl app. rewrite lstrip_fixes by exact H.
  change (c :: rev s) with ([c] ++ rev s).
  rewrite rev_app_distr, rev_involutive. reflexivity.
Qed.

Lemma strip_fixes (c d : ascii) (s : list ascii) :
  isspace c = false -> isspace d = false ->
  strip (c :: s ++ [d]) = c :: s ++ [d].
Proof.
  intros Hc Hd. unfold strip. rewrite lstrip_fixes by exact Hc.
  change (c :: s ++ [d]) with ((c :: s) ++ [d]).
  apply rstrip_fixes, Hd.
Qed.

(** The character loop of [from_a1] splits an alphanumeric text into its
    letters and its digits, each in order, and refuses anything else. *)
Lemma scan_alnum (s column_part row_part : list ascii) :
  forallb isalnum s = true ->
  CellPosition.scan s column_part row_part =
    Ok (column_part ++ List.filter isalpha s, row_part ++ List.filter isdigit s).
Proof.
  revert column_part row_part.
  induction s as [| c s IH]; intros cp rp Hs; simpl.
  - rewrite !app_nil_r. reflexivity.
  - simpl in Hs. apply andb_true_iff in Hs as [Hc Hs].
    destruct (isalpha c) eqn:Ea.
    + rewrite IH by exact Hs.
      assert (isdigit c = false) as ->.
      { destruct (isdigit c) eqn:Ed; [| reflexivity].
        apply isdigit_not_alpha in Ed. congruence. }
      rewrite <- app_assoc. reflexivity.
    + unfold isalnum in Hc. rewrite Ea in Hc. simpl in Hc. rewrite Hc.
      rewrite IH by exact Hs. rewrite <- app_assoc. reflexivity.
Qed.

Lemma scan_not_alnum (s column_part row_part : list ascii) :
  forallb isalnum s = false ->
  CellPosition.scan s column_part row_part =
    Err (ValueError "Invalid character in cell reference").
Proof.
  revert column_part row_part.
  induction s as [| c s IH]; intros cp rp Hs; simpl in *; [discriminate |].
  unfold isalnum in Hs.
  destruct (isalpha c) eqn:Ea; simpl in Hs; [apply IH, Hs |].
  destruct (isdigit c) eqn:Ed; simpl in Hs; [apply IH, Hs | reflexivity].
Qed.

(** *** Column letters: bijective base 26 *)

Lemma letters_to_index_app (l1 l2 : list ascii) :
  CellPosition._column_letters_to_index (l1 ++ l2) =
  fold_left (fun result char => result * 26 + (ord char - ord "A" + 1)) l2
            (CellPosition._column_letters_to_index l1).
Proof. unfold CellPosition._column_letters_to_index. apply fold_left_app. Qed.

Lemma letters_to_index_snoc (l : list ascii) (c : ascii) :
  CellPosition._column_letters_to_index (l ++ [c]) =
  CellPosition._column_letters_to_index l * 26 + (ord c - 65 + 1).
Proof. rewrite letters_to_index_app. reflexivity. Qed.

(** The fuel given by [_column_index_to_letters] is never exhausted: with
    at least [index] iterations available the function satisfies the
    equation of the [while] loop. *)
Lemma letters_loop_unfold (fuel : nat) (index : Z) (letters : list ascii) :
  (Z.to_nat index <= fuel)%nat ->
  CellPosition.letters_loop fuel index letters =
    if 0 <? index
    then CellPosition.letters_loop (Nat.pred fuel) ((index - 1) / 26)
           (chr (ord "A" + (index - 1) mod 26) :: letters)
    else letters.
Proof.
  intros Hfuel. destruct fuel as [| fuel]; simpl.
  - destruct (0 <? index) eqn:E; [| reflexivity].
    apply Z.ltb_lt in E. lia.
  - reflexivity.
Qed.

Lemma letters_loop_spec (fuel : nat) :
  forall (index : Z) (letters : list ascii),
    0 <= index -> (Z.to_nat index <= fuel)%nat ->
    exists prefix,
      CellPosition.letters_loop fuel index letters = prefix ++ letters /\
      CellPosition._column_letters_to_index prefix = index /\
      Forall (fun c => isupper c = true) prefix.
Proof.
  induction fuel as [| fuel IH]; intros index letters Hpos Hfuel.
  - assert (index = 0) as -> by lia. exists []. simpl. auto.
  - simpl. destruct (0 <? index) eqn:E.
    + apply Z.ltb_lt in E.
      assert (0 <= (index - 1) / 26) as Hq by (apply Z.div_pos; lia).
      assert ((index - 1) / 26 <= index - 1) as Hle.
      { apply Z.div_le_upper_bound; lia. }
      pose proof (Z.mod_pos_bound (index - 1) 26 ltac:(lia)) as Hm.
      destruct (IH ((index - 1) / 26)
                  (chr (ord "A" + (index - 1) mod 26) :: letters) Hq)
        as (prefix & Heq & Hval & Hup); [lia |].
      exists (prefix ++ [chr (ord "A" + (index - 1) mod 26)]).
      split; [| split].
      * rewrite Heq, <- app_assoc. reflexivity.
      * rewrite letters_to_index_snoc, Hval, ord_A, ord_chr by lia.
        pose proof (Z.div_mod (index - 1) 26 ltac:(lia)). lia.
      * apply Forall_app. split; [exact Hup |].
        constructor; [| constructor].
        apply isupper_spec. rewrite ord_A, ord_chr by lia. lia.
    + apply Z.ltb_ge in E. assert (index = 0) as -> by lia.
      exists []. simpl. auto.
Qed.

Lemma column_index_to_letters_spec (index : Z) :
  1 <= index ->
  exists letters,
    CellPosition._column_index_to_letters index = Ok letters /\
    CellPosition._column_letters_to_index letters = index /\
    Forall (fun c => isupper c = true) letters /\
    letters <> [].
Proof.
  intros Hi. unfold CellPosition._column_index_to_letters.
  destruct (index <? 1) eqn:E; [apply Z.ltb_lt in E; lia |].
  destruct (letters_loop_spec (Z.to_nat index) index [] ltac:(lia) ltac:(lia))
    as (prefix & Heq & Hval & Hup).
  rewrite app_nil_r in Heq.
  exists prefix. rewrite Heq. repeat split; auto.
  intros ->. change (0 = index) in Hval. lia.
Qed.


(** *** Decimal rows *)

Lemma decimal_snoc (l : list ascii) (c : ascii) :
  decimal (l ++ [c]) = decimal l * 10 + (ord c - 48).
Proof. unfold decimal. rewrite fold_left_app. reflexivity. Qed.

Lemma decimal_nonneg (l : list ascii) :
  Forall (fun c => isdigit c = true) l -> 0 <= decimal l.
Proof.
  induction l as [| c l IH] using rev_ind; intros Hd.
  - change (decimal []) with 0. lia.
  - apply Forall_app in Hd as [Hl Hc]. apply Forall_inv in Hc.
    apply isdigit_spec in Hc. rewrite decimal_snoc.
    specialize (IH Hl). lia.
Qed.

(** The digits written for [n]: they read back as [n], and a number below
    [10 ^ k] takes at most [k] of them. *)
Lemma digits_loop_spec (fuel : nat) :
  forall (n : Z) (acc : list ascii),
    0 <= n -> (Z.to_nat n <= fuel)%nat ->
    exists prefix,
      digits_loop (S fuel) n acc = prefix ++ acc /\
      decimal prefix = n /\
      Forall (fun c => isdigit c = true) prefix /\
      prefix <> [] /\
      forall k, 1 <= k -> n < 10 ^ k -> Z.of_nat (length prefix) <= k.
Proof.
  induction fuel as [| fuel IH]; intros n acc Hpos Hfuel.
  - assert (n = 0) as -> by lia. exists ["0"%char]. simpl.
    repeat split; auto; try discriminate; intros k Hk _; simpl; lia.
  - cbn [digits_loop].
    pose proof (Z.mod_pos_bound n 10 ltac:(lia)) as Hm.
    pose proof (Z.div_mod n 10 ltac:(lia)) as Hdm.
    assert (isdigit (chr (48 + n mod 10)) = true) as Hdig.
    { apply isdigit_spec. rewrite ord_chr by lia. lia. }
    destruct (n / 10 =? 0) eqn:E.
    + apply Z.eqb_eq in E. exists [chr (48 + n mod 10)].
      split; [reflexivity |].
      split; [| split; [auto | split; [discriminate |]]].
      * change (decimal [chr (48 + n mod 10)])
          with (0 * 10 + (ord (chr (48 + n mod 10)) - 48)).
        rewrite ord_chr by lia. lia.
      * intros k Hk _. simpl. lia.
    + apply Z.eqb_neq in E.
      assert (0 <= n / 10) as Hq by (apply Z.div_pos; lia).
      destruct (IH (n / 10) (chr (48 + n mod 10) :: acc) Hq)
        as (prefix & Heq & Hval & Hd & Hne & Hlen); [lia |].
      exists (prefix ++ [chr (48 + n mod 10)]).
      split; [| split; [| split; [| split]]].
      * cbn [digits_loop] in Heq. rewrite Heq, <- app_assoc. reflexivity.
      * rewrite decimal_snoc, Hval, ord_chr by lia. lia.
      * apply Forall_app. split; [exact Hd | constructor; [exact Hdig | constructor]].
      * destruct prefix; discriminate.
      * intros k Hk Hn. rewrite length_app. simpl.
        assert (k <> 1) as Hk1.
        { intros ->. change (10 ^ 1) with 10 in Hn. lia. }
        assert (n / 10 < 10 ^ (k - 1)) as Hdiv.
        { apply Z.div_lt_upper_bound; [lia |].
          rewrite <- Z.pow_succ_r by lia.
          replace (Z.succ (k - 1)) with k by lia. exact Hn. }
        specialize (Hlen (k - 1) ltac:(lia) Hdiv). lia.
Qed.

Lemma digits_of_int_spec (n : Z) :
  0 <= n ->
  decimal (digits_of_int n) = n /\
  Forall (fun c => isdigit c = true) (digits_of_int n) /\
  digits_of_int n <> [] /\
  forall k, 1 <= k -> n < 10 ^ k -> Z.of_nat (length (digits_of_int n)) <= k.
Proof.
  intros Hn. unfold digits_of_int.
  destruct (n <? 0) eqn:E; [apply Z.ltb_lt in E; lia |].
  destruct (digits_loop_spec (Z.to_nat n) n [] Hn ltac:(lia))
    as (prefix & Heq & Hval & Hd & Hne & Hlen).
  rewrite app_nil_r in Heq. rewrite Heq. auto.
Qed.

(** The two conversions inside the interpreter's limit and beyond it. *)
Lemma str_of_int_ok (n : Z) :
  0 <= n -> n < 10 ^ max_str_digits -> str_of_int n = Ok (digits_of_int n).
Proof.
  intros H0 Hn. unfold str_of_int.
  rewrite Z.abs_eq by exact H0.
  destruct (Z.leb_spec (10 ^ max_str_digits) n) as [Hle | _]; [| reflexivity].
  exfalso. exact (proj1 (Z.lt_nge _ _) Hn Hle).
Qed.

Lemma str_of_int_err (n : Z) :
  10 ^ max_str_digits <= n -> str_of_int n = Err int_conversion_error.
Proof.
  intros Hn. unfold str_of_int.
  assert (0 <= n) as H0.
  { eapply Z.le_trans; [| exact Hn]. apply Z.pow_nonneg. discriminate. }
  rewrite Z.abs_eq by exact H0.
  destruct (Z.leb_spec (10 ^ max_str_digits) n) as [_ | Hlt]; [reflexivity |].
  exfalso. exact (proj1 (Z.lt_nge _ _) Hlt Hn).
Qed.

Lemma int_of_digits_ok (s : list ascii) :
  Z.of_nat (length s) <= max_str_digits -> int_of_digits s = Ok (decimal s).
Proof.
  intros H. unfold int_of_digits.
  destruct (Z.ltb_spec max_str_digits (Z.of_nat (length s))); [lia | reflexivity].
Qed.

Lemma int_of_digits_written (n : Z) :
  0 <= n -> n < 10 ^ max_str_digits ->
  int_of_digits (digits_of_int n) = Ok n.
Proof.
  intros H0 Hn.
  destruct (digits_of_int_spec n H0) as (Hval & _ & _ & Hlen).
  rewrite int_of_digits_ok; [rewrite Hval; reflexivity |].
  apply Hlen; [discriminate | exact Hn].
Qed.

(** *** What [from_a1] does, case by case *)

Lemma from_a1_cases (reference : string) :
  let s := normalised_reference reference in
  CellPosition.from_a1 reference =
    if negb (truthy_list s)
    then Err (ValueError "Cell reference cannot be empty")
    else if negb (forallb isalnum s)
    then Err (ValueError "Invalid character in cell reference")
    else if negb (truthy_list (List.filter isalpha s))
            || negb (truthy_list (List.filter isdigit s))
    then Err (ValueError "Invalid cell reference")
    else
      do row <- int_of_digits (List.filter isdigit s);
      CellPosition.init row
        (CellPosition._column_letters_to_index (List.filter isalpha s)).
Proof.
  intros s. unfold CellPosition.from_a1.
  change (upper (strip (list_ascii_of_string reference))) with s.
  destruct (truthy_list s); simpl; [| reflexivity].
  destruct (forallb isalnum s) eqn:Ealnum; simpl.
  - rewrite scan_alnum by exact Ealnum. reflexivity.
  - rewrite scan_not_alnum by exact Ealnum. reflexivity.
Qed.

Lemma filter_all {A : Type} (f : A -> bool) (l : list A) :
  Forall (fun x => f x = true) l -> List.filter f l = l.
Proof.
  induction 1 as [| x l Hx _ IH]; simpl; [reflexivity |].
  rewrite Hx, IH. reflexivity.
Qed.

Lemma filter_none {A : Type} (f : A -> bool) (l : list A) :
  Forall (fun x => f x = false) l -> List.filter f l = [].
Proof.
  induction 1 as [| x l Hx _ IH]; simpl; [reflexivity |].
  rewrite Hx, IH. reflexivity.
Qed.


Lemma truthy_list_nonempty {A : Type} (l : list A) :
  truthy_list l = true <-> l <> [].
Proof. destruct l; simpl; split; congruence. Qed.

(** The text written by [to_a1] is read back unchanged by the
    normalisation of [from_a1], and splits into its letters and digits. *)
Lemma normalised_letters_digits (letters digits : list ascii) :
  Forall (fun c => isupper c = true) letters -> letters <> [] ->
  Forall (fun c => isdigit c = true) digits -> digits <> [] ->
  let s := normalised_reference (string_of_list_ascii (letters ++ digits)) in
  s = letters ++ digits /\
  forallb isalnum s = true /\
  List.filter isalpha s = letters /\
  List.filter isdigit s = digits.
Proof.
  intros Hl Hln Hd Hdn s. subst s. unfold normalised_reference.
  rewrite list_ascii_of_string_of_list_ascii.
  destruct letters as [| l0 ls]; [congruence |].
  destruct (exists_last Hdn) as (ds & dlast & ->).
  apply Forall_cons in Hl as [Hl0 Hls].
  apply Forall_app in Hd as [Hds Hdlast]. apply Forall_inv in Hdlast.
  assert (strip ((l0 :: ls) ++ ds ++ [dlast]) = (l0 :: ls) ++ ds ++ [dlast])
    as ->.
  { change ((l0 :: ls) ++ ds ++ [dlast]) with (l0 :: (ls ++ ds ++ [dlast])).
    rewrite (app_assoc ls ds [dlast]).
    apply strip_fixes;
      [apply isupper_not_space, Hl0 | apply isdigit_not_space, Hdlast]. }
  assert (Forall (fun c => isupper c = true) (l0 :: ls)) as Hl
    by (constructor; assumption).
  assert (Forall (fun c => isdigit c = true) (ds ++ [dlast])) as Hd
    by (apply Forall_app; split; [assumption | constructor; [assumption | constructor]]).
  rewrite upper_fixes.
  2:{ apply Forall_app; split.
      - eapply Forall_impl; [exact Hl |]. intros c; apply isupper_not_lower.
      - eapply Forall_impl; [exact Hd |]. intros c; apply isdigit_not_lower. }
  split; [reflexivity |].
  split; [| split].
  - apply forallb_forall. intros c Hin. apply in_app_or in Hin as [Hin | Hin].
    + rewrite Forall_forall in Hl. unfold isalnum, isalpha.
      rewrite (Hl c) by (apply list_elem_of_In, Hin). reflexivity.
    + rewrite Forall_forall in Hd. unfold isalnum.
      rewrite (Hd c) by (apply list_elem_of_In, Hin). apply orb_true_r.
  - rewrite List.filter_app, filter_all, filter_none, app_nil_r; [reflexivity | |].
    + eapply Forall_impl; [exact Hd |]. intros c; apply isdigit_not_alpha.
    + eapply Forall_impl; [exact Hl |]. intros c Hc. unfold isalpha.
      cbv beta in Hc. rewrite Hc. reflexivity.
  - rewrite List.filter_app, filter_none, filter_all; [reflexivity | exact Hd |].
    eapply Forall_impl; [exact Hl |]. intros c; apply isupper_not_digit.
Qed.

(** C6, as the code has it.  For every row [r >= 1] and column [c >= 1]
    the position is accepted.  When [r] has at most 4300 decimal digits
    ([r < 10 ^ 4300]), [to_a1] writes the column as bijective base-26
    letters (each letter in [A-Z] is a digit worth 1 to 26, so A=1, Z=26,
    AA=27) followed by the decimal row, and [from_a1] reads that text back
    to the same position.  When [r] has more digits, [to_a1] raises: the
    interpreter refuses the conversion of the row to text. *)
Theorem a1_round_trip (r c : Z) :
  1 <= r -> 1 <= c ->
  CellPosition.init r c = Ok (CellPosition.mk r c) /\
  (r < 10 ^ max_str_digits ->
   exists (letters : list ascii) (text : string),
     CellPosition._column_index_to_letters c = Ok letters /\
     letters <> [] /\
     Forall (fun l => 1 <= ord l - ord "A" + 1 <= 26) letters /\
     CellPosition._column_letters_to_index letters = c /\
     text = string_of_list_ascii (letters ++ digits_of_int r) /\
     decimal (digits_of_int r) = r /\
     CellPosition.to_a1 (CellPosition.mk r c) = Ok text /\
     CellPosition.from_a1 text = Ok (CellPosition.mk r c)) /\
  (10 ^ max_str_digits <= r ->
   CellPosition.to_a1 (CellPosition.mk r c) = Err int_conversion_error) /\
  CellPosition._column_index_to_letters 1 = Ok ["A"%char] /\
  CellPosition._column_index_to_letters 26 = Ok ["Z"%char] /\
  CellPosition._column_index_to_letters 27 = Ok ["A"%char; "A"%char].
Proof.
  intros Hr Hc.
  destruct (column_index_to_letters_spec c Hc) as (letters & Hlet & Hval & Hup & Hne).
  assert (CellPosition.init r c = Ok (CellPosition.mk r c)) as Hinit.
  { unfold CellPosition.init.
    destruct (r <? 1) eqn:E1; [apply Z.ltb_lt in E1; lia |].
    destruct (c <? 1) eqn:E2; [apply Z.ltb_lt in E2; lia |].
    reflexivity. }
  split; [exact Hinit |].
  split; [| split; [| repeat split; reflexivity]].
  - intros Hlimit.
    destruct (digits_of_int_spec r ltac:(lia)) as (Hint & Hdig & Hdne & _).
    exists letters, (string_of_list_ascii (letters ++ digits_of_int r)).
    repeat match goal with |- _ /\ _ => split end;
      try reflexivity; try assumption.
    + eapply Forall_impl; [exact Hup |]. intros l Hl.
      apply isupper_spec in Hl. rewrite ord_A. lia.
    + unfold CellPosition.to_a1. simpl. rewrite Hlet. simpl.
      rewrite str_of_int_ok by (lia || exact Hlimit). reflexivity.
    + rewrite from_a1_cases.
      destruct (normalised_letters_digits letters (digits_of_int r)
                  Hup Hne Hdig Hdne)
        as (Hs & Halnum & Halpha & Hdigits).
      cbv zeta. rewrite Halnum, Halpha, Hdigits, Hs.
      assert (truthy_list (letters ++ digits_of_int r) = true) as ->.
      { apply truthy_list_nonempty. destruct letters; [congruence | discriminate]. }
      assert (truthy_list letters = true) as ->
        by (apply truthy_list_nonempty, Hne).
      assert (truthy_list (digits_of_int r) = true) as ->
        by (apply truthy_list_nonempty, Hdne).
      cbn [negb orb].
      rewrite int_of_digits_written by (lia || exact Hlimit).
      cbn [result_bind]. rewrite Hval. exact Hinit.
  - intros Hlimit. unfold CellPosition.to_a1. simpl. rewrite Hlet. simpl.
    rewrite str_of_int_err by exact Hlimit. reflexivity.
Qed.

Lemma a1_round_trip_B5 :
  CellPosition.to_a1 (CellPosition.mk 5 2) = Ok "B5" /\
  CellPosition.from_a1 "B5" = Ok (CellPosition.mk 5 2).
Proof.
  destruct (a1_round_trip 5 2 ltac:(lia) ltac:(lia)) as (_ & Hround & _).
  destruct Hround as (letters & text & Hlet & _ & _ & _ & -> & _ & Hto & Hfrom).
  - reflexivity.
  - injection Hlet as <-. split; [exact Hto | exact Hfrom].
Defined.

(** C6, as stated, fails: the position in row [10 ^ 4300] of column 1 is
    accepted, and [to_a1] raises on it. *)
Lemma a1_round_trip_beyond_limit :
  CellPosition.init (10 ^ 4300) 1 = Ok (CellPosition.mk (10 ^ 4300) 1) /\
  CellPosition.to_a1 (CellPosition.mk (10 ^ 4300) 1)
  = Err int_conversion_error.
Proof. split; vm_compute; reflexivity. Qed.




(** ** Loops of the merge *)

Lemma result_bind_assoc {A B C : Type} (m : result A) (f : A -> result B)
  (g : B -> result C) :
  result_bind (result_bind m f) g = result_bind m (fun a => result_bind (f a) g).
Proof. destruct m; reflexivity. Qed.

Lemma result_bind_ok_r {A : Type} (m : result A) : result_bind m Ok = m.
Proof. destruct m; reflexivity. Qed.

Lemma result_bind_ext {A B : Type} (m : result A) (f g : A -> result B) :
  (forall a, f a = g a) -> result_bind m f = result_bind m g.
Proof. intros H. destruct m; simpl; auto. Qed.

Lemma result_bind_inv {A B : Type} (m : result A) (f : A -> result B) (b : B) :
  result_bind m f = Ok b -> exists a, m = Ok a /\ f a = Ok b.
Proof. destruct m; simpl; intros H; [eauto | discriminate]. Qed.

Lemma result_bind_err {A B : Type} (m : result A) (f : A -> result B) (e : exn) :
  result_bind m f = Err e ->
  m = Err e \/ exists a, m = Ok a /\ f a = Err e.
Proof. destruct m; simpl; intros H; [eauto | left; congruence]. Qed.

(** The accumulating loop is the traversal, appended to the accumulator. *)
Lemma for_append_map_result {A B : Type} (f : A -> result B) (l : list A) :
  forall acc,
    for_append f l acc = do ys <- map_result f l; Ok (acc ++ ys).
Proof.
  induction l as [| x l IH]; intros acc; simpl.
  - rewrite app_nil_r. reflexivity.
  - destruct (f x) as [y | e]; simpl; [| reflexivity].
    rewrite IH. destruct (map_result f l); simpl; [| reflexivity].
    rewrite <- app_assoc. reflexivity.
Qed.

Lemma for_append_nil {A B : Type} (f : A -> result B) (l : list A) :
  for_append f l [] = map_result f l.
Proof.
  rewrite for_append_map_result. destruct (map_result f l); reflexivity.
Qed.

Lemma map_result_Forall2 {A B : Type} (f : A -> result B) (l : list A) :
  forall ys, map_result f l = Ok ys -> Forall2 (fun x y => f x = Ok y) l ys.
Proof.
  induction l as [| x l IH]; simpl; intros ys H.
  - injection H as <-. constructor.
  - destruct (f x) as [y | e] eqn:Ef; simpl in H; [| discriminate].
    destruct (map_result f l) as [ys' | e]; simpl in H; [| discriminate].
    injection H as <-. constructor; auto.
Qed.

Lemma map_result_ok {A B : Type} (f : A -> result B) (l : list A) :
  Forall (fun x => is_ok (f x) = true) l -> is_ok (map_result f l) = true.
Proof.
  induction 1 as [| x l Hx _ IH]; simpl; [reflexivity |].
  destruct (f x); [| discriminate]. simpl.
  destruct (map_result f l); [reflexivity | discriminate].
Qed.

Lemma map_result_err {A B : Type} (f : A -> result B) (l : list A) (e : exn) :
  map_result f l = Err e -> exists x, x ∈ l /\ f x = Err e.
Proof.
  induction l as [| x l IH]; simpl; intros H; [discriminate |].
  destruct (f x) as [y | e'] eqn:Ef; simpl in H.
  - destruct (map_result f l) as [ys | e'']; simpl in H; [discriminate |].
    injection H as ->. destruct IH as (x' & Hin & Hx'); [reflexivity |].
    exists x'. split; [right; exact Hin | exact Hx'].
  - injection H as ->. exists x. split; [left | exact Ef].
Qed.

Lemma map_result_ext {A B : Type} (f g : A -> result B) (l : list A) :
  (forall x, f x = g x) -> map_result f l = map_result g l.
Proof.
  intros H. induction l as [| x l IH]; simpl; [reflexivity |].
  rewrite H, IH. reflexivity.
Qed.

(** *** The total row *)

Lemma create_total_row_spec (template : TableTemplate.t)
  (section : SectionDefinition.t) (current_row_count : nat) :
  TemplateMerger._create_total_row template section current_row_count =
  spec_total_row template section.
Proof.
  unfold TemplateMerger._create_total_row, spec_total_row, total_style,
    declared_formula.
  assert (py_or (SectionDefinition.style section) (Some CellStyle.header) =
          Some (default CellStyle.header (SectionDefinition.style section)))
    as -> by (destruct (SectionDefinition.style section); reflexivity).
  destruct (TableTemplate.visible_columns template) as [| first others];
    [reflexivity |].
  rewrite imap_cons. f_equal.
  rewrite <- (imap_const _ others). apply imap_ext. intros i col _. simpl.
  destruct (SectionDefinition.formula_template section) as [f |];
    [destruct (truthy_str f) |]; reflexivity.
Qed.

Lemma spec_total_row_length (template : TableTemplate.t)
  (section : SectionDefinition.t) :
  length (spec_total_row template section) =
  length (TableTemplate.visible_columns template).
Proof.
  unfold spec_total_row.
  destruct (TableTemplate.visible_columns template); simpl;
    [| rewrite length_map]; reflexivity.
Qed.

(** *** The section loop *)

Lemma section_step_spec (template : TableTemplate.t) (data : TableData.t)
  (cells : list (list Cell.t)) (section : SectionDefinition.t) :
  TemplateMerger.section_step template data cells section =
  do block <- spec_section_block template data section; Ok (cells ++ block).
Proof.
  unfold TemplateMerger.section_step, spec_section_block,
    TemplateMerger._create_section_cells.
  destruct (TableData.get_section_data data (SectionDefinition.key section))
    as [| row rows] eqn:Erows.
  - simpl. rewrite app_nil_r. reflexivity.
  - cbn [truthy_list negb]. rewrite for_append_nil.
    destruct (map_result (TemplateMerger._create_row_cells template) (row :: rows))
      as [data_rows | e]; simpl; [| reflexivity].
    rewrite create_total_row_spec.
    assert (truthy_ostr (SectionDefinition.formula_template section)
            || SectionDefinition.is_total section = has_total_row section) as ->.
    { unfold has_total_row, declared_formula, truthy_ostr.
      destruct (SectionDefinition.formula_template section) as [f |];
        [destruct (truthy_str f) |];
        destruct (SectionDefinition.is_total section); reflexivity. }
    destruct (has_total_row section).
    + rewrite <- app_assoc. reflexivity.
    + rewrite app_nil_r. reflexivity.
Qed.

Lemma section_loop_spec (template : TableTemplate.t) (data : TableData.t)
  (sections : list SectionDefinition.t) :
  forall cells,
    for_state (TemplateMerger.section_step template data) sections cells =
    do blocks <- map_result (spec_section_block template data) sections;
    Ok (cells ++ concat blocks).
Proof.
  induction sections as [| section sections IH]; intros cells; simpl.
  - rewrite app_nil_r. reflexivity.
  - rewrite section_step_spec.
    destruct (spec_section_block template data section) as [block | e];
      simpl; [| reflexivity].
    rewrite IH.
    destruct (map_result (spec_section_block template data) sections);
      simpl; [| reflexivity].
    rewrite <- app_assoc. reflexivity.
Qed.

(** *** Rows have one cell per visible column *)

Lemma create_row_cells_length (template : TableTemplate.t) (row_data : Row)
  (cells : list Cell.t) :
  TemplateMerger._create_row_cells template row_data = Ok cells ->
  length cells = length (TableTemplate.visible_columns template).
Proof.
  unfold TemplateMerger._create_row_cells. rewrite for_append_nil.
  intros H. apply map_result_Forall2 in H.
  symmetry. eapply Forall2_length, H.
Qed.

Lemma map_rows_length (template : TableTemplate.t) (rows : list Row)
  (data_rows : list (list Cell.t)) :
  map_result (TemplateMerger._create_row_cells template) rows = Ok data_rows ->
  Forall (fun r => length r = length (TableTemplate.visible_columns template))
         data_rows.
Proof.
  intros H. apply map_result_Forall2 in H.
  induction H as [| row cells rows data_rows Hrow _ IH]; constructor; auto.
  eapply create_row_cells_length, Hrow.
Qed.

Lemma spec_block_length (template : TableTemplate.t) (data : TableData.t)
  (section : SectionDefinition.t) (block : list (list Cell.t)) :
  spec_section_block template data section = Ok block ->
  Forall (fun r => length r = length (TableTemplate.visible_columns template))
         block.
Proof.
  unfold spec_section_block.
  destruct (TableData.get_section_data data (SectionDefinition.key section))
    as [| row rows].
  - intros [= <-]. constructor.
  - intros H. apply result_bind_inv in H as (data_rows & Hrows & [= <-]).
    apply Forall_app. split; [eapply map_rows_length, Hrows |].
    destruct (has_total_row section); constructor; [| constructor].
    apply spec_total_row_length.
Qed.

Lemma spec_body_length (template : TableTemplate.t) (data : TableData.t)
  (sections : list SectionDefinition.t) (body : list (list Cell.t)) :
  spec_sectioned_body template data sections = Ok body ->
  Forall (fun r => length r = length (TableTemplate.visible_columns template))
         body.
Proof.
  unfold spec_sectioned_body. intros H.
  apply result_bind_inv in H as (blocks & Hblocks & [= <-]).
  apply map_result_Forall2 in Hblocks.
  induction Hblocks as [| section block sections blocks Hb _ IH]; simpl.
  - constructor.
  - apply Forall_app. split; [eapply spec_block_length, Hb | exact IH].
Qed.

(** *** [_create_data_cells] *)

Lemma is_empty_no_section_rows (data : TableData.t) (key : string) :
  TableData.is_empty data = true -> TableData.get_section_data data key = [].
Proof.
  unfold TableData.is_empty, TableData.get_section_data. intros H.
  apply andb_true_iff in H as [_ H]. apply Nat.eqb_eq in H.
  apply map_size_empty_inv in H. rewrite H, lookup_empty. reflexivity.
Qed.

Lemma create_data_cells_sectioned (template : TableTemplate.t)
  (data : TableData.t) (sections : list SectionDefinition.t) :
  TableTemplate.sections template = Some sections -> sections <> [] ->
  TemplateMerger._create_data_cells template data =
  spec_sectioned_body template data sections.
Proof.
  intros Hsec Hne. unfold TemplateMerger._create_data_cells. rewrite Hsec.
  destruct (TableData.is_empty data) eqn:Eempty.
  - unfold spec_sectioned_body.
    assert (map_result (spec_section_block template data) sections =
            Ok (map (fun _ => []) sections)) as ->.
    { clear Hsec Hne. induction sections as [| s l IH]; simpl; [reflexivity |].
      unfold spec_section_block at 1.
      rewrite is_empty_no_section_rows by exact Eempty. simpl.
      rewrite IH. reflexivity. }
    simpl. f_equal. clear. induction sections; simpl; auto.
  - destruct sections as [| section sections]; [congruence |].
    rewrite section_loop_spec. reflexivity.
Qed.

Lemma create_data_cells_unsectioned (template : TableTemplate.t)
  (data : TableData.t) :
  TableTemplate.truthy_sections template = false ->
  TemplateMerger._create_data_cells template data =
  map_result (TemplateMerger._create_row_cells template) (TableData.rows data).
Proof.
  intros Hsec. unfold TemplateMerger._create_data_cells.
  destruct (TableData.is_empty data) eqn:Eempty.
  - unfold TableData.is_empty in Eempty.
    apply andb_true_iff in Eempty as [Hrows _]. apply Nat.eqb_eq in Hrows.
    destruct (TableData.rows data); [reflexivity | discriminate].
  - unfold TableTemplate.truthy_sections in Hsec.
    destruct (TableTemplate.sections template) as [[| s l] |];
      try discriminate; apply for_append_nil.
Qed.

Lemma create_data_cells_length (template : TableTemplate.t)
  (data : TableData.t) (body : list (list Cell.t)) :
  TemplateMerger._create_data_cells template data = Ok body ->
  Forall (fun r => length r = length (TableTemplate.visible_columns template))
         body.
Proof.
  destruct (TableTemplate.truthy_sections template) eqn:Esec.
  - unfold TableTemplate.truthy_sections in Esec.
    destruct (TableTemplate.sections template) as [sections |] eqn:Es;
      [| discriminate].
    rewrite (create_data_cells_sectioned template data sections Es).
    + apply spec_body_length.
    + destruct sections; [discriminate | congruence].
  - rewrite create_data_cells_unsectioned by exact Esec.
    apply map_rows_length.
Qed.

(** *** The table constructor never refuses the rows built by the merge *)

Lemma len_set_constant (n : nat) (l : list nat) :
  Forall (fun x => x = n) l -> (len_set l <= 1)%nat.
Proof.
  intros H. unfold len_set.
  assert ((list_to_set l : gset nat) ⊆ {[n]}) as Hsub.
  { intros x Hx. apply elem_of_list_to_set in Hx.
    rewrite Forall_forall in H. apply H in Hx. set_solver. }
  apply subseteq_size in Hsub. rewrite size_singleton in Hsub. exact Hsub.
Qed.

Lemma table_init_rectangular (n : nat) (cells : list (list Cell.t))
  (headers : option (list Cell.t)) (title : option Cell.t)
  (start_position : CellPosition.t) :
  Forall (fun r => length r = n) cells ->
  Table.init cells headers title start_position =
  Ok (Table.mk cells headers title start_position).
Proof.
  intros H. unfold Table.init.
  assert ((1 <? len_set (map length cells))%nat = false) as ->.
  { apply Nat.ltb_ge. apply (len_set_constant n).
    apply Forall_map. exact H. }
  rewrite andb_false_r. reflexivity.
Qed.

(** *** The alternating-row loop *)

Lemma py_range_even_spec (n j : nat) :
  j ∈ py_range 0 n 2 <-> Nat.even j = true /\ (j < n)%nat.
Proof.
  unfold py_range. rewrite list_elem_of_In, in_map_iff.
  change (2 - 1)%nat with 1%nat. rewrite Nat.sub_0_r.
  pose proof (Nat.div_mod_eq (n + 1) 2) as Hdm.
  pose proof (Nat.mod_upper_bound (n + 1) 2 ltac:(lia)) as Hm.
  split.
  - intros (k & <- & Hk). apply in_seq in Hk.
    split.
    + rewrite Nat.add_0_l, Nat.even_mul. apply orb_true_r.
    + lia.
  - intros [Heven Hlt]. apply Nat.even_spec in Heven as [k ->].
    exists k. split; [lia |]. apply in_seq. lia.
Qed.

Lemma py_range_NoDup (n : nat) : NoDup (py_range 0 n 2).
Proof.
  unfold py_range. apply NoDup_fmap_2; [| apply NoDup_seq].
  intros a b Hab. simpl in Hab. lia.
Qed.

Lemma apply_style_to_row_alter (cells : list (list Cell.t))
  (headers : option (list Cell.t)) (title : option Cell.t)
  (start_position : CellPosition.t) (row : nat) (style : option CellStyle.t) :
  Table.apply_style_to_row (Table.mk cells headers title start_position) row style =
  Table.mk (alter (map (fun cell => Cell.merge_style cell style)) row cells)
           headers title start_position.
Proof.
  unfold Table.apply_style_to_row. simpl.
  destruct (row <? length cells)%nat eqn:E; [reflexivity |].
  apply Nat.ltb_ge in E. f_equal.
  apply list_eq. intros j. destruct (decide (row = j)) as [<- | Hne].
  - rewrite list_lookup_alter_eq, (lookup_ge_None_2 cells row) by exact E.
    reflexivity.
  - rewrite list_lookup_alter_ne by exact Hne. reflexivity.
Qed.

Lemma alter_fold_lookup {A : Type} (g : A -> A) (indices : list nat) :
  forall (l : list A) (j : nat),
    NoDup indices ->
    fold_left (fun l i => alter g i l) indices l !! j =
    if decide (j ∈ indices) then g <$> l !! j else l !! j.
Proof.
  induction indices as [| i indices IH]; intros l j Hnd; simpl.
  - reflexivity.
  - apply NoDup_cons in Hnd as [Hni Hnd]. rewrite IH by exact Hnd.
    destruct (decide (j = i)) as [-> | Hne].
    + rewrite decide_False by exact Hni.
      rewrite decide_True by (left). apply list_lookup_alter_eq.
    + rewrite list_lookup_alter_ne by congruence.
      destruct (decide (j ∈ indices)) as [Hin | Hnin].
      * rewrite decide_True by (right; exact Hin). reflexivity.
      * rewrite decide_False; [reflexivity |].
        intros Hin. apply elem_of_cons in Hin as [? | ?]; auto.
Qed.

Lemma alternate_loop_spec (style : CellStyle.t) (cells : list (list Cell.t))
  (headers : option (list Cell.t)) (title : option Cell.t)
  (start_position : CellPosition.t) :
  fold_left
    (fun table i => Table.apply_style_to_row table i (Some style))
    (py_range 0 (length cells) 2)
    (Table.mk cells headers title start_position) =
  Table.mk (restyle_even_rows style cells) headers title start_position.
Proof.
  set (g := map (fun cell => Cell.merge_style cell (Some style))).
  assert (forall indices l,
             fold_left
               (fun table i => Table.apply_style_to_row table i (Some style))
               indices (Table.mk l headers title start_position) =
             Table.mk (fold_left (fun l i => alter g i l) indices l)
                      headers title start_position) as Hfold.
  { induction indices as [| i indices IH]; intros l; simpl; [reflexivity |].
    rewrite apply_style_to_row_alter. apply IH. }
  rewrite Hfold. f_equal.
  apply list_eq. intros j.
  rewrite alter_fold_lookup by apply py_range_NoDup.
  unfold restyle_even_rows. rewrite list_lookup_imap.
  destruct (cells !! j) as [row |] eqn:Ej; simpl.
  - apply lookup_lt_Some in Ej.
    destruct (Nat.even j) eqn:Eeven.
    + rewrite decide_True; [reflexivity |].
      apply py_range_even_spec. auto.
    + rewrite decide_False; [reflexivity |].
      rewrite py_range_even_spec. intros [H _]. congruence.
  - destruct (decide _); reflexivity.
Qed.

(** *** [merge_table] in one equation *)

Lemma merge_table_spec (template : TableTemplate.t) (data : TableData.t) :
  TemplateMerger.merge_table template data =
  do body <- TemplateMerger._create_data_cells template data;
  Ok (Table.mk (final_body template body)
               (Some (TemplateMerger._create_header_cells template))
               (title_cell_of template)
               (TableTemplate.start_position template)).
Proof.
  unfold TemplateMerger.merge_table. fold (title_cell_of template).
  destruct (TemplateMerger._create_data_cells template data) as [body | e] eqn:Eb;
    simpl; [| reflexivity].
  rewrite (table_init_rectangular
             (length (TableTemplate.visible_columns template)))
    by (eapply create_data_cells_length, Eb).
  simpl. unfold final_body.
  destruct (TableTemplate.alternate_row_colors template); [| reflexivity].
  destruct (TableTemplate.alternate_row_style template) as [style |];
    [| reflexivity].
  unfold Table.row_count. simpl. rewrite alternate_loop_spec. reflexivity.
Qed.

(** *** Cells built by the merge are normal, and restyling keeps their content *)

Lemma make_normal (value : PyValue) (formula : option string)
  (style : option CellStyle.t) (number_format : option string)
  (data_type : CellDataType) (comment hyperlink : option string) :
  normal_cell (Cell.make value formula style number_format data_type comment
                         hyperlink).
Proof.
  unfold normal_cell, Cell.make. simpl.
  destruct formula as [f |]; [| exact I].
  destruct (truthy_str f) eqn:Et; simpl.
  - destruct (startswith_eq f) eqn:Es; simpl; [intros _; exact Es |].
    intros _. reflexivity.
  - rewrite Et. discriminate.
Qed.

(** With a data type the constructor returns, and what it returns is
    [make]: this is how the factory methods and [with_style] call it. *)
Lemma init_given (value : PyValue) (formula : option string)
  (style : option CellStyle.t) (number_format : option string)
  (data_type : CellDataType) (comment hyperlink : option string) :
  Cell.init value formula style number_format (Some data_type) comment
            hyperlink
  = Ok (Cell.make value formula style number_format data_type comment
                  hyperlink).
Proof. reflexivity. Qed.

(** A cell that the constructor returns is [make] at the data type given
    or inferred. *)
Lemma init_inv (value : PyValue) (formula : option string)
  (style : option CellStyle.t) (number_format : option string)
  (data_type : option CellDataType) (comment hyperlink : option string)
  (cell : Cell.t) :
  Cell.init value formula style number_format data_type comment hyperlink
  = Ok cell ->
  exists d,
    match data_type with
    | Some given => d = given
    | None => Cell._infer_data_type value formula = Ok d
    end /\
    cell = Cell.make value formula style number_format d comment hyperlink.
Proof.
  unfold Cell.init. intros H. destruct data_type as [given |].
  - injection H as <-. eauto.
  - destruct (Cell._infer_data_type value formula) as [d |]; [| discriminate].
    injection H as <-. eauto.
Qed.

Lemma init_normal (value : PyValue) (formula : option string)
  (style : option CellStyle.t) (number_format : option string)
  (data_type : option CellDataType) (comment hyperlink : option string)
  (cell : Cell.t) :
  Cell.init value formula style number_format data_type comment hyperlink
  = Ok cell ->
  normal_cell cell.
Proof.
  intros H. apply init_inv in H as (d & _ & ->). apply make_normal.
Qed.

Lemma with_style_normal (c : Cell.t) (style : CellStyle.t) :
  normal_cell c -> Cell.with_style c style = set_style c (Some style).
Proof.
  unfold normal_cell, Cell.with_style, Cell.make, set_style.
  destruct (Cell.formula c) as [f |]; [| reflexivity].
  intros H. destruct (truthy_str f); simpl; [| reflexivity].
  rewrite H by reflexivity. reflexivity.
Qed.

Lemma merge_style_normal (c : Cell.t) (style : CellStyle.t) :
  normal_cell c ->
  Cell.merge_style c (Some style) = set_style c (Some (merged_style c style)).
Proof.
  intros H. unfold Cell.merge_style. rewrite with_style_normal by exact H.
  reflexivity.
Qed.



Lemma create_cell_normal (col_def : ColumnDefinition.t) (row_data : Row)
  (template : TableTemplate.t) (cell : Cell.t) :
  TemplateMerger._create_cell_from_column col_def row_data template = Ok cell ->
  normal_cell cell.
Proof.
  unfold TemplateMerger._create_cell_from_column. intros H.
  apply result_bind_inv in H as (value & _ & H).
  destruct (ColumnDefinition.formula_template col_def) as [f |];
    [destruct (truthy_str f) |];
    try (injection H as <-; apply make_normal);
    eapply init_normal, H.
Qed.

Lemma create_row_cells_normal (template : TableTemplate.t) (row_data : Row)
  (cells : list Cell.t) :
  TemplateMerger._create_row_cells template row_data = Ok cells ->
  Forall normal_cell cells.
Proof.
  unfold TemplateMerger._create_row_cells. rewrite for_append_nil.
  intros H. apply map_result_Forall2 in H.
  induction H as [| col cell cols cells Hc _ IH]; constructor; auto.
  eapply create_cell_normal, Hc.
Qed.

Lemma spec_total_row_normal (template : TableTemplate.t)
  (section : SectionDefinition.t) :
  Forall normal_cell (spec_total_row template section).
Proof.
  unfold spec_total_row.
  destruct (TableTemplate.visible_columns template) as [| first others];
    constructor.
  - apply make_normal.
  - apply Forall_map. apply Forall_forall. intros col _.
    destruct (declared_formula section); apply make_normal.
Qed.

Lemma map_rows_normal (template : TableTemplate.t) (rows : list Row)
  (data_rows : list (list Cell.t)) :
  map_result (TemplateMerger._create_row_cells template) rows = Ok data_rows ->
  Forall (Forall normal_cell) data_rows.
Proof.
  intros H. apply map_result_Forall2 in H.
  induction H as [| row cells rows data_rows Hrow _ IH]; constructor; auto.
  eapply create_row_cells_normal, Hrow.
Qed.

Lemma create_data_cells_normal (template : TableTemplate.t)
  (data : TableData.t) (body : list (list Cell.t)) :
  TemplateMerger._create_data_cells template data = Ok body ->
  Forall (Forall normal_cell) body.
Proof.
  destruct (TableTemplate.truthy_sections template) eqn:Esec.
  - unfold TableTemplate.truthy_sections in Esec.
    destruct (TableTemplate.sections template) as [sections |] eqn:Es;
      [| discriminate].
    rewrite (create_data_cells_sectioned template data sections Es)
      by (destruct sections; [discriminate | congruence]).
    unfold spec_sectioned_body. intros H.
    apply result_bind_inv in H as (blocks & Hblocks & [= <-]).
    apply map_result_Forall2 in Hblocks. clear Es Esec.
    induction Hblocks as [| section block sections blocks Hb _ IH]; simpl.
    + constructor.
    + apply Forall_app. split; [| exact IH].
      unfold spec_section_block in Hb.
      destruct (TableData.get_section_data data (SectionDefinition.key section)).
      * injection Hb as <-. constructor.
      * apply result_bind_inv in Hb as (data_rows & Hrows & [= <-]).
        apply Forall_app. split; [eapply map_rows_normal, Hrows |].
        destruct (has_total_row section); constructor;
          [apply spec_total_row_normal | constructor].
  - rewrite create_data_cells_unsectioned by exact Esec.
    apply map_rows_normal.
Qed.



(** ** The merged table *)

Lemma merge_table_ok_inv (template : TableTemplate.t) (data : TableData.t)
  (table : Table.t) :
  TemplateMerger.merge_table template data = Ok table ->
  exists body,
    TemplateMerger._create_data_cells template data = Ok body /\
    table = Table.mk (final_body template body)
                     (Some (TemplateMerger._create_header_cells template))
                     (title_cell_of template)
                     (TableTemplate.start_position template).
Proof.
  rewrite merge_table_spec. intros H.
  apply result_bind_inv in H as (body & Hbody & [= <-]). eauto.
Qed.



(** C4: with [alternate_row_colors] set and an [alternate_row_style], the
    merged table has the rows built from the data (data rows and total rows
    alike), where every cell of every even-indexed row has been style-merged
    with the alternate style -- its style becomes the merge of its own
    style with the alternate one, the rest of the cell is unchanged -- and
    every odd-indexed row is left as built. *)
Theorem alternate_rows_restyled (template : TableTemplate.t)
  (data : TableData.t) (style : CellStyle.t) :
  TableTemplate.alternate_row_colors template = true ->
  TableTemplate.alternate_row_style template = Some style ->
  (forall e, TemplateMerger._create_data_cells template data = Err e ->
             TemplateMerger.merge_table template data = Err e) /\
  (forall body,
     TemplateMerger._create_data_cells template data = Ok body ->
     exists table,
       TemplateMerger.merge_table template data = Ok table /\
       length (Table.cells table) = length body /\
       forall i row,
         body !! i = Some row ->
         Table.cells table !! i =
           Some (if Nat.even i
                 then map (fun cell => Cell.merge_style cell (Some style)) row
                 else row) /\
         forall cell,
           cell ∈ row ->
           Cell.merge_style cell (Some style) =
           set_style cell
             (Some (match Cell.style cell with
                    | Some own => CellStyle.merge own (Some style)
                    | None => style
                    end))).
Proof.
  intros Hflag Hstyle. split.
  - intros e He. rewrite merge_table_spec, He. reflexivity.
  - intros body Hb. rewrite merge_table_spec, Hb. simpl.
    eexists. split; [reflexivity |]. simpl.
    unfold final_body. rewrite Hflag, Hstyle. unfold restyle_even_rows.
    split; [apply length_imap |].
    intros i row Hi. split.
    + rewrite list_lookup_imap, Hi. reflexivity.
    + intros cell Hcell.
      apply merge_style_normal.
      pose proof (create_data_cells_normal _ _ _ Hb) as Hn.
      eapply Forall_lookup_1 in Hn; [| exact Hi].
      rewrite Forall_forall in Hn. apply Hn, Hcell.
Qed.

Lemma alternate_rows_restyled_sample :
  exists body table,
    TemplateMerger._create_data_cells Sample.table Sample.data = Ok body /\
    TemplateMerger.merge_table Sample.table Sample.data = Ok table /\
    length body = 4%nat /\
    forall i row,
      body !! i = Some row ->
      Table.cells table !! i =
        Some (if Nat.even i
              then map (fun cell => Cell.merge_style cell (Some Sample.shaded)) row
              else row).
Proof.
  destruct (alternate_rows_restyled Sample.table Sample.data Sample.shaded)
    as [_ H]; [reflexivity | reflexivity |].
  destruct (TemplateMerger._create_data_cells Sample.table Sample.data)
    as [body |] eqn:Hb; [| vm_compute in Hb; discriminate].
  destruct (H body eq_refl) as (table & Hm & Hlen & Hrows).
  exists body, table. split; [reflexivity |]. split; [exact Hm |].
  split.
  - vm_compute in Hb. injection Hb as <-. reflexivity.
  - intros i row Hi. apply (Hrows i row Hi).
Defined.

(** ** The sheet loop *)

Lemma table_step_spec (data : SheetData.t) (sheet : Sheet.t) (current_row : Z)
  (table_template : TableTemplate.t) :
  TemplateMerger.table_step data (sheet, current_row) table_template =
  do start_position <- CellPosition.init current_row 1;
  do template <-
    TableTemplate.post_init (with_start_position table_template start_position);
  do table <-
    TemplateMerger.merge_table template (table_data_for data table_template);
  do sheet' <-
    TemplateMerger.column_width_loop (Sheet.add_table sheet table) table_template;
  Ok (sheet', current_row + (rows_used table + 2)).
Proof.
  unfold TemplateMerger.table_step. cbn [fst snd].
  apply result_bind_ext. intros start_position.
  fold (with_start_position table_template start_position).
  apply result_bind_ext. intros template.
  assert (match SheetData.get_table_data data (TableTemplate.name table_template)
          with
          | Some table_data => table_data
          | None => TableData.empty
          end = table_data_for data table_template) as ->.
  { unfold table_data_for.
    destruct (SheetData.get_table_data data (TableTemplate.name table_template));
      reflexivity. }
  apply result_bind_ext. intros table.
  apply result_bind_ext. intros sheet'.
  unfold rows_used.
  destruct (Table.has_title table), (Table.has_headers table);
    f_equal; f_equal; lia.
Qed.

Lemma cell_position_init_ok (row column : Z) :
  1 <= row -> 1 <= column ->
  CellPosition.init row column = Ok (CellPosition.mk row column).
Proof.
  intros Hr Hc. unfold CellPosition.init.
  destruct (row <? 1) eqn:Er; [apply Z.ltb_lt in Er; lia |].
  destruct (column <? 1) eqn:Ec; [apply Z.ltb_lt in Ec; lia |].
  reflexivity.
Qed.

Lemma cell_position_init_inv (row column : Z) (p : CellPosition.t) :
  CellPosition.init row column = Ok p ->
  p = CellPosition.mk row column /\ 1 <= row /\ 1 <= column.
Proof.
  unfold CellPosition.init.
  destruct (row <? 1) eqn:Er; [discriminate |].
  destruct (column <? 1) eqn:Ec; [discriminate |].
  intros [= <-]. apply Z.ltb_ge in Er, Ec. auto.
Qed.

Lemma table_template_post_init_inv (template template' : TableTemplate.t) :
  TableTemplate.post_init template = Ok template' -> template' = template.
Proof.
  unfold TableTemplate.post_init.
  repeat match goal with |- context [if ?b then _ else _] => destruct b end;
    congruence.
Qed.

Lemma post_init_with_start_position (template : TableTemplate.t)
  (start_position : CellPosition.t) :
  TableTemplate.post_init template = Ok template ->
  TableTemplate.post_init (with_start_position template start_position) =
  Ok (with_start_position template start_position).
Proof.
  unfold TableTemplate.post_init, with_start_position. simpl.
  repeat match goal with |- context [if ?b then _ else _] => destruct b end;
    congruence.
Qed.

(** The column-width loop only touches the width map. *)
Lemma width_entries_tables
  (entries : list (nat * ColumnDefinition.t)) :
  forall sheet sheet',
    for_state
      (fun sheet (entry : nat * ColumnDefinition.t) =>
         if truthy_onum (ColumnDefinition.width (snd entry))
         then Sheet.set_column_width sheet (Z.of_nat (fst entry))
                (default 0%Q (ColumnDefinition.width (snd entry)))
         else Ok sheet)
      entries sheet = Ok sheet' ->
    Sheet.tables sheet' = Sheet.tables sheet /\
    Sheet.name sheet' = Sheet.name sheet.
Proof.
  induction entries as [| entry entries IH]; intros sheet sheet' H; simpl in H.
  - injection H as <-. auto.
  - apply result_bind_inv in H as (sheet1 & Hstep & Hrest).
    apply IH in Hrest as [Ht Hn]. rewrite Ht, Hn.
    destruct (truthy_onum (ColumnDefinition.width (snd entry))).
    + unfold Sheet.set_column_width in Hstep.
      destruct (Qle_bool _ 0); [discriminate |].
      injection Hstep as <-. auto.
    + injection Hstep as <-. auto.
Qed.

Lemma column_width_loop_tables (sheet sheet' : Sheet.t)
  (table_template : TableTemplate.t) :
  TemplateMerger.column_width_loop sheet table_template = Ok sheet' ->
  Sheet.tables sheet' = Sheet.tables sheet /\
  Sheet.name sheet' = Sheet.name sheet.
Proof. apply width_entries_tables. Qed.

(** Columns that passed their own validation never make the loop raise. *)
Lemma width_entries_ok (entries : list (nat * ColumnDefinition.t)) :
  Forall (fun entry => is_ok (ColumnDefinition.post_init (snd entry)) = true)
         entries ->
  forall sheet,
    is_ok (for_state
             (fun sheet (entry : nat * ColumnDefinition.t) =>
                if truthy_onum (ColumnDefinition.width (snd entry))
                then Sheet.set_column_width sheet (Z.of_nat (fst entry))
                       (default 0%Q (ColumnDefinition.width (snd entry)))
                else Ok sheet)
             entries sheet) = true.
Proof.
  induction 1 as [| entry entries Hentry _ IH]; intros sheet; simpl;
    [reflexivity |].
  destruct (truthy_onum (ColumnDefinition.width (snd entry))) eqn:Et.
  - unfold Sheet.set_column_width.
    unfold ColumnDefinition.post_init in Hentry.
    destruct (ColumnDefinition.width (snd entry)) as [w |]; [| discriminate].
    simpl.
    destruct (negb (truthy_str (ColumnDefinition.key (snd entry))));
      [discriminate |].
    destruct (negb (truthy_str (ColumnDefinition.label (snd entry))));
      [discriminate |].
    destruct (Qle_bool w 0); [discriminate |]. simpl. apply IH.
  - simpl. apply IH.
Qed.

Lemma column_width_loop_ok (sheet : Sheet.t) (table_template : TableTemplate.t) :
  Forall (fun col => is_ok (ColumnDefinition.post_init col) = true)
         (TableTemplate.columns table_template) ->
  is_ok (TemplateMerger.column_width_loop sheet table_template) = true.
Proof.
  intros Hcols. apply width_entries_ok.
  apply Forall_forall. intros [i col] Hin.
  apply elem_of_lookup_imap in Hin as (j & col' & [= -> ->] & Hlook).
  simpl. rewrite Forall_forall in Hcols. apply Hcols.
  apply list_elem_of_lookup_2 in Hlook.
  unfold TableTemplate.visible_columns in Hlook.
  apply list_elem_of_filter in Hlook as [_ Hlook]. exact Hlook.
Qed.

Lemma table_step_inv (data : SheetData.t) (sheet sheet' : Sheet.t)
  (current_row current_row' : Z) (table_template : TableTemplate.t) :
  TemplateMerger.table_step data (sheet, current_row) table_template =
    Ok (sheet', current_row') ->
  exists table,
    TemplateMerger.merge_table
      (with_start_position table_template (CellPosition.mk current_row 1))
      (table_data_for data table_template) = Ok table /\
    Table.start_position table = CellPosition.mk current_row 1 /\
    Sheet.tables sheet' = Sheet.tables sheet ++ [table] /\
    Sheet.name sheet' = Sheet.name sheet /\
    current_row' = current_row + (rows_used table + 2).
Proof.
  rewrite table_step_spec. intros H.
  apply result_bind_inv in H as (pos & Hpos & H).
  apply cell_position_init_inv in Hpos as (-> & _ & _).
  apply result_bind_inv in H as (template & Htemplate & H).
  apply table_template_post_init_inv in Htemplate as ->.
  apply result_bind_inv in H as (table & Htable & H).
  apply result_bind_inv in H as (sheet1 & Hloop & [= <- <-]).
  apply column_width_loop_tables in Hloop as [Htables Hname].
  exists table. split; [exact Htable |].
  split; [| auto].
  apply merge_table_ok_inv in Htable as (body & _ & ->). reflexivity.
Qed.

Lemma table_loop_stacks (data : SheetData.t)
  (table_templates : list TableTemplate.t) :
  forall sheet current_row st,
    for_state (TemplateMerger.table_step data) table_templates
              (sheet, current_row) = Ok st ->
    exists tables,
      Sheet.tables (fst st) = Sheet.tables sheet ++ tables /\
      stacked_from current_row tables /\
      Forall2
        (fun table_template table =>
           TemplateMerger.merge_table
             (with_start_position table_template (Table.start_position table))
             (table_data_for data table_template) = Ok table)
        table_templates tables.
Proof.
  induction table_templates as [| tt tts IH]; intros sheet current_row st H;
    simpl in H.
  - injection H as <-. exists []. simpl. rewrite app_nil_r.
    repeat split; auto.
  - apply result_bind_inv in H as ([sheet1 row1] & Hstep & Hrest).
    apply table_step_inv in Hstep
      as (table & Hmerge & Hpos & Htables & _ & ->).
    apply IH in Hrest as (tables & Heq & Hstack & Hall).
    exists (table :: tables). split; [| split].
    + rewrite Heq, Htables, <- app_assoc. reflexivity.
    + simpl. auto.
    + constructor; [rewrite Hpos; exact Hmerge | exact Hall].
Qed.

(** C2: [merge_sheet] takes the template's tables in order, each merged
    with the data bound to its name; the first is placed at row 1, every
    table at column 1, and each next one [rows_used + 2] rows further down,
    where [rows_used] counts one row for a title, one for headers, and the
    body rows of the table just produced. *)
Theorem merge_sheet_stacks_tables (template : SheetTemplate.t)
  (data : SheetData.t) (sheet : Sheet.t) :
  TemplateMerger.merge_sheet template data = Ok sheet ->
  stacked_from 1 (Sheet.tables sheet) /\
  Forall2
    (fun table_template table =>
       TemplateMerger.merge_table
         (with_start_position table_template (Table.start_position table))
         (table_data_for data table_template) = Ok table)
    (SheetTemplate.tables template) (Sheet.tables sheet).
Proof.
  unfold TemplateMerger.merge_sheet. intros H.
  apply result_bind_inv in H as (sheet0 & Hinit & H).
  apply result_bind_inv in H as (st & Hloop & [= <-]).
  apply table_loop_stacks in Hloop as (tables & Heq & Hstack & Hall).
  assert (Sheet.tables sheet0 = []) as Hnil.
  { unfold Sheet.init in Hinit.
    repeat match type of Hinit with
           | (if ?b then _ else _) = _ => destruct b; [discriminate |]
           end.
    injection Hinit as <-. reflexivity. }
  rewrite Hnil in Heq. simpl in Heq. rewrite Heq. auto.
Qed.

Lemma merge_sheet_stacks_tables_sample :
  exists sheet,
    TemplateMerger.merge_sheet Sample.sheet Sample.sheet_data = Ok sheet /\
    stacked_from 1 (Sheet.tables sheet) /\
    map Table.start_position (Sheet.tables sheet) =
      [CellPosition.mk 1 1; CellPosition.mk 9 1].
Proof.
  destruct (TemplateMerger.merge_sheet Sample.sheet Sample.sheet_data)
    as [sheet |] eqn:Hm; [| vm_compute in Hm; discriminate].
  exists sheet. split; [reflexivity |].
  split.
  - exact (proj1 (merge_sheet_stacks_tables _ _ _ Hm)).
  - vm_compute in Hm. injection Hm as <-. reflexivity.
Defined.

(** ** Where an error of the merge can come from *)

Lemma map_result_fails {A B : Type} (f : A -> result B) (l : list A) (x : A) :
  x ∈ l -> is_ok (f x) = false -> is_ok (map_result f l) = false.
Proof.
  intros Hin Hx. induction l as [| y l IH]; [inversion Hin |]. simpl.
  destruct (f y) as [b | e] eqn:Ey; [| reflexivity]. simpl.
  assert (x ∈ l) as Hin'.
  { apply elem_of_cons in Hin as [-> | Hin]; [| exact Hin].
    rewrite Ey in Hx. discriminate. }
  specialize (IH Hin'). destruct (map_result f l); [discriminate | reflexivity].
Qed.

(** The constructor raises exactly when the type of the cell is to be
    inferred from a value whose comparison with the empty string raises. *)
Lemma infer_data_type_err (value : PyValue) (e : exn) :
  Cell._infer_data_type value None = Err e <-> comparison_error value = Some e.
Proof.
  unfold Cell._infer_data_type, Cell.eq_empty_str.
  destruct value as [| b | n | q | s | repr [b | e']]; simpl;
    try (split; discriminate).
  - destruct (negb (truthy_str s)); split; discriminate.
  - destruct b; split; discriminate.
  - split; intros [= ->]; reflexivity.
Qed.

Lemma init_inferred_err (value : PyValue) (style : option CellStyle.t)
  (number_format comment hyperlink : option string) (e : exn) :
  Cell.init value None style number_format None comment hyperlink = Err e
  <-> comparison_error value = Some e.
Proof.
  rewrite <- infer_data_type_err. unfold Cell.init.
  destruct (Cell._infer_data_type value None); simpl;
    split; congruence.
Qed.

(** The second half of [_create_cell_from_column], once the value is
    there. *)
Lemma cell_of_value_err (col_def : ColumnDefinition.t)
  (template : TableTemplate.t) (value : PyValue) (e : exn) :
  match ColumnDefinition.formula_template col_def with
  | Some formula =>
      if truthy_str formula
      then Ok (Cell.formula_cell formula value
                 (ColumnDefinition.number_format col_def)
                 (py_or (ColumnDefinition.style col_def)
                    (TableTemplate.default_style template)))
      else Cell.init value None
             (py_or (ColumnDefinition.style col_def)
                (TableTemplate.default_style template))
             (ColumnDefinition.number_format col_def) None None None
  | None =>
      Cell.init value None
        (py_or (ColumnDefinition.style col_def)
           (TableTemplate.default_style template))
        (ColumnDefinition.number_format col_def) None None None
  end = Err e
  <-> truthy_ostr (ColumnDefinition.formula_template col_def) = false /\
      comparison_error value = Some e.
Proof.
  destruct (ColumnDefinition.formula_template col_def) as [f |]; simpl.
  - destruct (truthy_str f).
    + split; [discriminate | intros [H _]; discriminate].
    + rewrite init_inferred_err. tauto.
  - rewrite init_inferred_err. tauto.
Qed.

Lemma create_cell_err (col_def : ColumnDefinition.t) (row_data : Row)
  (template : TableTemplate.t) (e : exn) :
  TemplateMerger._create_cell_from_column col_def row_data template = Err e
  <-> cell_raises col_def row_data e.
Proof.
  unfold TemplateMerger._create_cell_from_column, cell_raises,
    computed_raises, comparison_raises, column_value.
  destruct (ColumnDefinition.computed col_def) as [computed |].
  - destruct (computed row_data) as [value | e'] eqn:Ev; cbn [result_bind].
    + rewrite cell_of_value_err. split.
      * intros [Hf Hc]. right. split; [exact Hf |]. eauto.
      * intros [(computed' & [= <-] & Hraise) | (Hf & value' & [= <-] & Hc)];
          [congruence | auto].
    + split.
      * intros [= <-]. left. eauto.
      * intros [(computed' & [= <-] & Hraise) | (_ & value & Hv & _)];
          congruence.
  - cbn [result_bind]. rewrite cell_of_value_err. split.
    + intros [Hf Hc]. right. split; [exact Hf |]. eauto.
    + intros [(computed' & Hc & _) | (Hf & value' & [= <-] & Hc)];
        [discriminate | auto].
Qed.

Lemma create_row_cells_err (template : TableTemplate.t) (row_data : Row)
  (e : exn) :
  TemplateMerger._create_row_cells template row_data = Err e ->
  exists col_def,
    col_def ∈ TableTemplate.visible_columns template /\
    cell_raises col_def row_data e.
Proof.
  unfold TemplateMerger._create_row_cells. rewrite for_append_nil. intros H.
  apply map_result_err in H as (col_def & Hin & H).
  apply create_cell_err in H. eauto.
Qed.

Lemma create_row_cells_fails (template : TableTemplate.t) (row_data : Row)
  (col_def : ColumnDefinition.t) (e : exn) :
  col_def ∈ TableTemplate.visible_columns template ->
  cell_raises col_def row_data e ->
  is_ok (TemplateMerger._create_row_cells template row_data) = false.
Proof.
  intros Hin Hraise. unfold TemplateMerger._create_row_cells.
  rewrite for_append_nil. eapply map_result_fails; [exact Hin |].
  apply (create_cell_err _ _ template) in Hraise. rewrite Hraise. reflexivity.
Qed.

Lemma processed_rows_sectioned (template : TableTemplate.t)
  (data : TableData.t) (sections : list SectionDefinition.t) :
  TableTemplate.sections template = Some sections -> sections <> [] ->
  processed_rows template data
  = flat_map (fun section =>
                TableData.get_section_data data (SectionDefinition.key section))
             sections.
Proof.
  intros Hs Hne. unfold processed_rows. rewrite Hs.
  destruct sections; [congruence | reflexivity].
Qed.

Lemma processed_rows_unsectioned (template : TableTemplate.t)
  (data : TableData.t) :
  TableTemplate.truthy_sections template = false ->
  processed_rows template data = TableData.rows data.
Proof.
  unfold TableTemplate.truthy_sections, processed_rows.
  destruct (TableTemplate.sections template) as [[| s l] |];
    [reflexivity | discriminate | reflexivity].
Qed.

Lemma create_data_cells_err (template : TableTemplate.t) (data : TableData.t)
  (e : exn) :
  TemplateMerger._create_data_cells template data = Err e ->
  exists row_data,
    row_data ∈ processed_rows template data /\
    TemplateMerger._create_row_cells template row_data = Err e.
Proof.
  destruct (TableTemplate.truthy_sections template) eqn:Esec.
  - unfold TableTemplate.truthy_sections in Esec.
    destruct (TableTemplate.sections template) as [sections |] eqn:Es;
      [| discriminate].
    assert (sections <> []) as Hne
      by (destruct sections; [discriminate | congruence]).
    rewrite (create_data_cells_sectioned template data sections Es Hne),
      (processed_rows_sectioned template data sections Es Hne).
    unfold spec_sectioned_body. intros H.
    apply result_bind_err in H as [H | (blocks & _ & H)]; [| discriminate].
    apply map_result_err in H as (section & Hsec & H).
    unfold spec_section_block in H.
    destruct (TableData.get_section_data data (SectionDefinition.key section))
      as [| row rows] eqn:Erows; [discriminate |].
    apply result_bind_err in H as [H | (data_rows & _ & H)]; [| discriminate].
    apply map_result_err in H as (row_data & Hin & H).
    exists row_data. split; [| exact H].
    apply list_elem_of_In, in_flat_map. exists section.
    split; [apply list_elem_of_In, Hsec |].
    rewrite Erows. apply list_elem_of_In, Hin.
  - rewrite create_data_cells_unsectioned, processed_rows_unsectioned
      by exact Esec.
    intros H. apply map_result_err in H as (row_data & Hin & H). eauto.
Qed.

Lemma create_data_cells_fails (template : TableTemplate.t)
  (data : TableData.t) (row_data : Row) :
  row_data ∈ processed_rows template data ->
  is_ok (TemplateMerger._create_row_cells template row_data) = false ->
  is_ok (TemplateMerger._create_data_cells template data) = false.
Proof.
  intros Hin Hrow.
  destruct (TableTemplate.truthy_sections template) eqn:Esec.
  - unfold TableTemplate.truthy_sections in Esec.
    destruct (TableTemplate.sections template) as [sections |] eqn:Es;
      [| discriminate].
    assert (sections <> []) as Hne
      by (destruct sections; [discriminate | congruence]).
    rewrite (create_data_cells_sectioned template data sections Es Hne).
    rewrite (processed_rows_sectioned template data sections Es Hne) in Hin.
    apply list_elem_of_In, in_flat_map in Hin as (section & Hsec & Hin).
    unfold spec_sectioned_body.
    assert (is_ok (map_result (spec_section_block template data) sections)
            = false) as Hblocks.
    { eapply map_result_fails; [apply list_elem_of_In, Hsec |].
      unfold spec_section_block.
      destruct (TableData.get_section_data data (SectionDefinition.key section))
        as [| row rows] eqn:Erows; [inversion Hin |].
      assert (is_ok (map_result (TemplateMerger._create_row_cells template)
                       (row :: rows)) = false) as Hrows.
      { eapply map_result_fails; [apply list_elem_of_In, Hin | exact Hrow]. }
      destruct (map_result (TemplateMerger._create_row_cells template)
                  (row :: rows)); [discriminate | reflexivity]. }
    destruct (map_result (spec_section_block template data) sections);
      [discriminate | reflexivity].
  - rewrite create_data_cells_unsectioned by exact Esec.
    rewrite processed_rows_unsectioned in Hin by exact Esec.
    eapply map_result_fails; [exact Hin | exact Hrow].
Qed.

(** [merge_table] raises what the building of a cell raises, and raises
    whenever the building of a cell does. *)
Lemma merge_table_err (template : TableTemplate.t) (data : TableData.t)
  (e : exn) :
  TemplateMerger.merge_table template data = Err e ->
  raised_by_cell template data e.
Proof.
  intros H. rewrite merge_table_spec in H.
  apply result_bind_err in H as [H | (body & _ & H)]; [| discriminate].
  apply create_data_cells_err in H as (row_data & Hrow & H).
  apply create_row_cells_err in H as (col_def & Hin & Hraise).
  exists col_def, row_data. auto.
Qed.

Lemma merge_table_fails (template : TableTemplate.t) (data : TableData.t)
  (e : exn) :
  raised_by_cell template data e ->
  is_ok (TemplateMerger.merge_table template data) = false.
Proof.
  intros (col_def & row_data & Hcol & Hrow & Hraise).
  rewrite merge_table_spec.
  pose proof (create_data_cells_fails template data row_data Hrow
                (create_row_cells_fails template row_data col_def e
                   Hcol Hraise)) as Hbody.
  destruct (TemplateMerger._create_data_cells template data);
    [discriminate | reflexivity].
Qed.

Lemma raised_by_cell_with_start_position (template : TableTemplate.t)
  (start_position : CellPosition.t) (data : TableData.t) (e : exn) :
  raised_by_cell (with_start_position template start_position) data e
  <-> raised_by_cell template data e.
Proof. reflexivity. Qed.

Lemma rows_used_nonneg (table : Table.t) : 0 <= rows_used table.
Proof.
  unfold rows_used.
  destruct (Table.has_title table), (Table.has_headers table); lia.
Qed.

(** The loop over the tables of a sheet, for validated table templates:
    it raises what the first failing [merge_table] raises. *)
Lemma table_loop_err (data : SheetData.t) (templates : list TableTemplate.t) :
  forall sheet current_row e,
    1 <= current_row ->
    Forall validated_table templates ->
    for_state (TemplateMerger.table_step data) templates (sheet, current_row)
    = Err e ->
    raised_by_table templates data e.
Proof.
  induction templates as [| template templates IH];
    intros sheet current_row e Hrow Hvalid H; simpl in H; [discriminate |].
  apply Forall_cons in Hvalid as [[Hpost Hcols] Hvalid].
  rewrite table_step_spec in H.
  rewrite cell_position_init_ok in H by lia. simpl in H.
  rewrite post_init_with_start_position in H by exact Hpost. simpl in H.
  destruct (TemplateMerger.merge_table
              (with_start_position template (CellPosition.mk current_row 1))
              (table_data_for data template)) as [table | e'] eqn:Hmerge;
    simpl in H.
  - pose proof (column_width_loop_ok (Sheet.add_table sheet table) template
                  Hcols) as Hloop.
    destruct (TemplateMerger.column_width_loop (Sheet.add_table sheet table)
                template) as [sheet' |]; [| discriminate]. simpl in H.
    pose proof (rows_used_nonneg table).
    eapply IH in H; [| lia | exact Hvalid].
    destruct H as (t & Hin & Hrest).
    exists t. split; [right; exact Hin | exact Hrest].
  - injection H as <-. apply merge_table_err in Hmerge.
    exists template. split; [left | exact Hmerge].
Qed.

Lemma table_loop_fails (data : SheetData.t) (templates : list TableTemplate.t)
  (e : exn) :
  raised_by_table templates data e ->
  forall sheet current_row,
    1 <= current_row ->
    Forall validated_table templates ->
    is_ok (for_state (TemplateMerger.table_step data) templates
                     (sheet, current_row)) = false.
Proof.
  intros (bad & Hbad & Hraise).
  induction templates as [| template templates IH];
    intros sheet current_row Hrow Hvalid; [inversion Hbad |].
  apply Forall_cons in Hvalid as [[Hpost Hcols] Hvalid]. simpl.
  rewrite table_step_spec.
  rewrite cell_position_init_ok by lia. simpl.
  rewrite post_init_with_start_position by exact Hpost. simpl.
  destruct (TemplateMerger.merge_table
              (with_start_position template (CellPosition.mk current_row 1))
              (table_data_for data template)) as [table | e'] eqn:Hmerge;
    simpl; [| reflexivity].
  pose proof (column_width_loop_ok (Sheet.add_table sheet table) template
                Hcols) as Hloop.
  destruct (TemplateMerger.column_width_loop (Sheet.add_table sheet table)
              template) as [sheet' |]; [| discriminate]. simpl.
  pose proof (rows_used_nonneg table).
  apply elem_of_cons in Hbad as [-> | Hbad].
  - apply (raised_by_cell_with_start_position template
             (CellPosition.mk current_row 1)) in Hraise.
    apply merge_table_fails in Hraise. rewrite Hmerge in Hraise.
    discriminate.
  - apply IH; [exact Hbad | lia | exact Hvalid].
Qed.





(** ** Sheet names *)

(** Names longer than 31 characters are refused by [SheetTemplate]. *)
Lemma sheet_template_refuses_long_name (template : SheetTemplate.t) :
  (31 < String.length (SheetTemplate.name template))%nat ->
  is_ok (SheetTemplate.post_init template) = false.
Proof.
  intros Hlen. unfold SheetTemplate.post_init.
  destruct (negb (truthy_str (SheetTemplate.name template))); [reflexivity |].
  apply Nat.ltb_lt in Hlen. rewrite Hlen. reflexivity.
Qed.

(** C8 does not hold of the code: [SheetTemplate] checks the length of the
    name but not its characters, so the template named ["Q1/Q2"] is
    constructed, and the name is refused only by [Sheet], inside
    [merge_sheet]. *)
Theorem sheet_template_accepts_slash :
  SheetTemplate.post_init Sample.slash_sheet = Ok Sample.slash_sheet /\
  Forall (fun t => TableTemplate.post_init t = Ok t)
         (SheetTemplate.tables Sample.slash_sheet) /\
  TemplateMerger.merge_sheet Sample.slash_sheet SheetData.empty =
    Err (ValueError "Sheet name cannot contain: \, /, *, ?, :, [, ]").
Proof.
  split; [reflexivity |]. split; [| reflexivity].
  repeat constructor.
Qed.

(** * The merge over the store *)

(** ** The store model: running computations *)

Section HeapBasics.
Import Heap.

Lemma bind_ok {A B : Type} (m : M A) (k : A -> M B) (h h1 : heap) (a : A) :
  m h = (h1, Ok a) -> bind m k h = k a h1.
Proof. unfold bind. intros ->. reflexivity. Qed.

Lemma bind_err {A B : Type} (m : M A) (k : A -> M B) (h h1 : heap) (e : exn) :
  m h = (h1, Err e) -> bind m k h = (h1, Err e).
Proof. unfold bind. intros ->. reflexivity. Qed.

Lemma load_ok {A : Type} (select : obj -> option A) (l : loc) (h : heap)
  (o : obj) (a : A) :
  h !! l = Some o -> select o = Some a -> load select l h = (h, Ok a).
Proof. unfold load. intros -> ->. reflexivity. Qed.

Lemma as_list_same (k : lkind) (items : list loc) :
  as_list k (OList k items) = Some items.
Proof. unfold as_list. rewrite decide_True by reflexivity. reflexivity. Qed.

Lemma load_list_ok (k : lkind) (l : loc) (h : heap) (items : list loc) :
  h !! l = Some (OList k items) -> load (as_list k) l h = (h, Ok items).
Proof. intros H. eapply load_ok; [exact H | apply as_list_same]. Qed.

Lemma extends_refl (h : heap) : extends h h.
Proof. exists []. rewrite app_nil_r. reflexivity. Qed.

Lemma extends_trans (h1 h2 h3 : heap) :
  extends h1 h2 -> extends h2 h3 -> extends h1 h3.
Proof.
  intros [f1 ->] [f2 ->]. exists (f1 ++ f2). rewrite app_assoc. reflexivity.
Qed.

Lemma extends_app (h fresh : heap) : extends h (h ++ fresh).
Proof. exists fresh. reflexivity. Qed.

Lemma extends_length (h h' : heap) : extends h h' -> (length h <= length h')%nat.
Proof. intros [f ->]. rewrite length_app. lia. Qed.

Lemma extends_lookup (h h' : heap) (l : loc) (o : obj) :
  extends h h' -> h !! l = Some o -> h' !! l = Some o.
Proof. intros [f ->] H. apply lookup_app_l_Some, H. Qed.

(** Writing to an object allocated after [h] leaves [h] a prefix. *)
Lemma extends_store (h h' : heap) (l : loc) (o : obj) :
  extends h h' -> (length h <= l)%nat -> extends h (<[l := o]> h').
Proof.
  intros [f ->] Hl. exists (<[(l - length h)%nat := o]> f).
  rewrite insert_app_r_alt by exact Hl. reflexivity.
Qed.

(** *** Predicates that survive allocation *)

Global Instance is_cell_mono : Mono is_cell.
Proof. intros h h' l c He H. eapply extends_lookup; eauto. Qed.

Global Instance is_column_mono : Mono is_column.
Proof. intros h h' l c He H. eapply extends_lookup; eauto. Qed.

Global Instance is_section_mono : Mono is_section.
Proof. intros h h' l c He H. eapply extends_lookup; eauto. Qed.

Global Instance is_row_mono : Mono is_row.
Proof. intros h h' l c He H. eapply extends_lookup; eauto. Qed.

Global Instance is_list_mono {A : Type} (k : lkind)
  (R : heap -> loc -> A -> Prop) : Mono R -> Mono (is_list k R).
Proof.
  intros HR h h' l xs He (items & Hl & Hall).
  exists items. split; [eapply extends_lookup; eauto |].
  eapply Forall2_impl; [exact Hall |]. intros x y. apply HR, He.
Qed.

Global Instance is_opt_mono {A : Type} (R : heap -> loc -> A -> Prop) :
  Mono R -> Mono (is_opt R).
Proof.
  intros HR h h' l x He H. unfold is_opt in *.
  destruct H; constructor. eapply HR; eauto.
Qed.

Global Instance is_refdict_mono {A : Type} (R : heap -> loc -> A -> Prop) :
  Mono R -> Mono (is_refdict R).
Proof.
  intros HR h h' l m He (refs & Hl & Hall).
  exists refs. split; [eapply extends_lookup; eauto |].
  intros key. specialize (Hall key).
  destruct Hall; constructor. eapply HR; eauto.
Qed.

Global Instance is_cells_mono : Mono is_cells.
Proof. unfold is_cells. apply _. Qed.

Global Instance is_rows_mono : Mono is_rows.
Proof. unfold is_rows. apply _. Qed.

Global Instance is_data_rows_mono : Mono is_data_rows.
Proof. unfold is_data_rows. apply _. Qed.

Global Instance is_table_mono : Mono is_table.
Proof.
  intros h h' l t He (o & Hl & Hc & Hh & Ht & Hp).
  exists o. split; [eapply extends_lookup; eauto |].
  split; [eapply (mono (R := is_rows)); eauto |].
  split; [eapply (mono (R := is_opt is_cells)); eauto |].
  split; [eapply (mono (R := is_opt is_cell)); eauto | exact Hp].
Qed.

Global Instance is_sheet_mono : Mono is_sheet.
Proof.
  intros h h' l s He (o & cells & Hl & Hn & Ht & Hc & Hcm & Hf & Hw & Hr & Hd).
  exists o, cells. split; [eapply extends_lookup; eauto |].
  split; [exact Hn |].
  split; [eapply (mono (R := is_list KTables is_table)); eauto |].
  split; [eapply extends_lookup; eauto |].
  split.
  { intros key. specialize (Hcm key). destruct Hcm; constructor.
    eapply (mono (R := is_cell)); eauto. }
  split; [exact Hf |].
  split; [eapply extends_lookup; eauto |].
  split; [eapply extends_lookup; eauto | exact Hd].
Qed.

Global Instance is_spreadsheet_mono : Mono is_spreadsheet.
Proof.
  intros h h' l s He (o & Hl & Hs & Hm & Ha).
  exists o. split; [eapply extends_lookup; eauto |].
  split; [eapply (mono (R := is_list KSheets is_sheet)); eauto |].
  split; [eapply extends_lookup; eauto | exact Ha].
Qed.

Global Instance is_table_template_mono : Mono is_table_template.
Proof.
  intros h h' l t He (o & Hl & Hn & Hc & Hs & H1 & H2 & H3 & H4 & Hr & H5).
  exists o. split; [eapply extends_lookup; eauto |].
  split; [exact Hn |].
  split; [eapply (mono (R := is_list KColumns is_column)); eauto |].
  split; [eapply (mono (R := is_opt (is_list KSections is_section))); eauto |].
  do 4 (split; [assumption |]).
  split; [eapply extends_lookup; eauto | exact H5].
Qed.

Global Instance is_sheet_template_mono : Mono is_sheet_template.
Proof.
  intros h h' l t He (o & Hl & Hn & Ht & H).
  exists o. split; [eapply extends_lookup; eauto |].
  split; [exact Hn |].
  split; [eapply (mono (R := is_list KTableTemplates is_table_template)); eauto
         | exact H].
Qed.

Global Instance is_spreadsheet_template_mono : Mono is_spreadsheet_template.
Proof.
  intros h h' l t He (o & Hl & Hs & Hm & Ha).
  exists o. split; [eapply extends_lookup; eauto |].
  split; [eapply (mono (R := is_list KSheetTemplates is_sheet_template)); eauto |].
  split; [eapply extends_lookup; eauto | exact Ha].
Qed.

Global Instance is_table_data_mono : Mono is_table_data.
Proof.
  intros h h' l d He (o & Hl & Hr & Hc & Hs & Hm).
  exists o. split; [eapply extends_lookup; eauto |].
  split; [eapply (mono (R := is_data_rows)); eauto |].
  split; [eapply extends_lookup; eauto |].
  split; [eapply (mono (R := is_refdict is_data_rows)); eauto |].
  eapply extends_lookup; eauto.
Qed.

Global Instance is_sheet_data_mono : Mono is_sheet_data.
Proof.
  intros h h' l d He (o & Hl & Ht & Hm).
  exists o. split; [eapply extends_lookup; eauto |].
  split; [eapply (mono (R := is_refdict is_table_data)); eauto |].
  eapply extends_lookup; eauto.
Qed.

Global Instance is_spreadsheet_data_mono : Mono is_spreadsheet_data.
Proof.
  intros h h' l d He (o & Hl & Ht & Hm).
  exists o. split; [eapply extends_lookup; eauto |].
  split; [eapply (mono (R := is_refdict is_sheet_data)); eauto |].
  eapply extends_lookup; eauto.
Qed.

Global Instance fresh_from_mono {A : Type} (n : nat)
  (R : heap -> loc -> A -> Prop) : Mono R -> Mono (fresh_from n R).
Proof. intros HR h h' l x He [Hn H]. split; [exact Hn | eapply HR; eauto]. Qed.

End HeapBasics.

Section HeapRules.
Import Heap.

(** *** Rules for [simulates] and [steps] *)

Lemma simulates_steps {A B : Type} (h0 h : heap) (m : M A) (p : result B)
  (R : heap -> A -> B -> Prop) :
  extends h0 h -> simulates h m p R -> steps h0 h m p R.
Proof.
  intros He [fresh H]. exists (h ++ fresh). split.
  - eapply extends_trans; [exact He | apply extends_app].
  - exact H.
Qed.

Lemma steps_simulates {A B : Type} (h : heap) (m : M A) (p : result B)
  (R : heap -> A -> B -> Prop) :
  steps h h m p R -> simulates h m p R.
Proof.
  intros (h' & [fresh ->] & H). exists fresh. exact H.
Qed.

Lemma steps_ret {A B : Type} (h0 h : heap) (a : A) (b : B)
  (R : heap -> A -> B -> Prop) :
  extends h0 h -> R h a b -> steps h0 h (ret a) (Ok b) R.
Proof. intros He H. exists h. split; [exact He |]. exists a. auto. Qed.

Lemma steps_raise {A B : Type} (h0 h : heap) (e : exn)
  (R : heap -> A -> B -> Prop) :
  extends h0 h -> steps h0 h (raise e) (Err e) R.
Proof. intros He. exists h. split; [exact He | reflexivity]. Qed.

Lemma steps_lift {A : Type} (h0 h : heap) (r : result A) :
  extends h0 h -> steps h0 h (lift r) r (fun _ a b => a = b).
Proof.
  intros He. exists h. split; [exact He |].
  destruct r; [eexists; split; reflexivity | reflexivity].
Qed.

(** Sequencing: the value-level computation binds where the store-level
    one does. *)
Lemma steps_bind {A B A' B' : Type} (h0 h : heap) (m : M A) (k : A -> M A')
  (p : result B) (kp : B -> result B')
  (R : heap -> A -> B -> Prop) (R' : heap -> A' -> B' -> Prop) :
  steps h0 h m p R ->
  (forall h1 a b, extends h0 h1 -> R h1 a b -> steps h0 h1 (k a) (kp b) R') ->
  steps h0 h (bind m k) (result_bind p kp) R'.
Proof.
  intros (h1 & He & Hm) Hk. destruct p as [b | e]; simpl.
  - destruct Hm as (a & Hrun & HR).
    destruct (Hk h1 a b He HR) as (h2 & He2 & Hk').
    exists h2. split; [exact He2 |].
    rewrite (bind_ok _ _ _ _ _ Hrun). exact Hk'.
  - exists h1. split; [exact He |]. apply bind_err, Hm.
Qed.

(** A store-level step that the value-level computation does not see. *)
Lemma steps_silent {A A' B' : Type} (h0 h h1 : heap) (m : M A) (k : A -> M A')
  (a : A) (p : result B') (R' : heap -> A' -> B' -> Prop) :
  m h = (h1, Ok a) ->
  steps h0 h1 (k a) p R' ->
  steps h0 h (bind m k) p R'.
Proof.
  intros Hrun (h2 & He & Hk). exists h2. split; [exact He |].
  rewrite (bind_ok _ _ _ _ _ Hrun). exact Hk.
Qed.

Lemma steps_load {A A' B' : Type} (h0 h : heap) (select : obj -> option A)
  (l : loc) (o : obj) (a : A) (k : A -> M A') (p : result B')
  (R' : heap -> A' -> B' -> Prop) :
  h !! l = Some o -> select o = Some a ->
  steps h0 h (k a) p R' ->
  steps h0 h (bind (load select l) k) p R'.
Proof. intros Hl Hs. apply steps_silent. eapply load_ok; eauto. Qed.

Lemma steps_load_list {A' B' : Type} (h0 h : heap) (kind : lkind)
  (l : loc) (items : list loc) (k : list loc -> M A') (p : result B')
  (R' : heap -> A' -> B' -> Prop) :
  h !! l = Some (OList kind items) ->
  steps h0 h (k items) p R' ->
  steps h0 h (bind (load (as_list kind) l) k) p R'.
Proof. intros Hl. eapply steps_load; [exact Hl | apply as_list_same]. Qed.

Lemma steps_alloc {A' B' : Type} (h0 h : heap) (o : obj) (k : loc -> M A')
  (p : result B') (R' : heap -> A' -> B' -> Prop) :
  steps h0 (h ++ [o]) (k (length h)) p R' ->
  steps h0 h (bind (alloc o) k) p R'.
Proof. apply steps_silent. reflexivity. Qed.

Lemma steps_store {A' B' : Type} (h0 h : heap) (l : loc) (o : obj)
  (k : unit -> M A') (p : result B') (R' : heap -> A' -> B' -> Prop) :
  steps h0 (<[l := o]> h) (k tt) p R' ->
  steps h0 h (bind (store l o) k) p R'.
Proof. apply steps_silent. reflexivity. Qed.

Lemma steps_weaken {A B : Type} (h0 h : heap) (m : M A) (p : result B)
  (R R' : heap -> A -> B -> Prop) :
  (forall h' a b, extends h0 h' -> R h' a b -> R' h' a b) ->
  steps h0 h m p R -> steps h0 h m p R'.
Proof.
  intros HR (h' & He & H). exists h'. split; [exact He |].
  destruct p as [b | e]; [| exact H]. destruct H as (a & Hrun & Ha). eauto.
Qed.

Lemma steps_base {A B : Type} (h0 h0' h : heap) (m : M A) (p : result B)
  (R : heap -> A -> B -> Prop) :
  extends h0' h0 -> steps h0 h m p R -> steps h0' h m p R.
Proof.
  intros He (h' & He' & H). exists h'. split; [| exact H].
  eapply extends_trans; eauto.
Qed.

Lemma alloc_lookup (h : heap) (o : obj) : (h ++ [o]) !! length h = Some o.
Proof. rewrite lookup_app_r by lia. rewrite Nat.sub_diag. reflexivity. Qed.

Lemma store_lookup (h : heap) (l : loc) (o o' : obj) :
  h !! l = Some o -> <[l := o']> h !! l = Some o'.
Proof.
  intros H. apply list_lookup_insert_eq. eapply lookup_lt_Some, H.
Qed.

(** A write does not reach an object of another sort at the same place:
    two different objects are at two different locations. *)
Lemma store_lookup_other (h : heap) (l x : loc) (o o' ox : obj) :
  h !! l = Some o -> h !! x = Some ox -> o <> ox ->
  <[l := o']> h !! x = Some ox.
Proof.
  intros Hl Hx Hne. rewrite list_lookup_insert_ne; [exact Hx |].
  intros ->. congruence.
Qed.

End HeapRules.

Section HeapLoops.
Import Heap.

Lemma bind_assoc {A B C : Type} (m : M A) (k1 : A -> M B) (k2 : B -> M C)
  (h : heap) :
  bind (bind m k1) k2 h = bind m (fun a => bind (k1 a) k2) h.
Proof.
  unfold bind. destruct (m h) as [h1 [a | e]]; reflexivity.
Qed.

Lemma bind_ext {A B : Type} (m : M A) (k k' : A -> M B) (h : heap) :
  (forall a h1, k a h1 = k' a h1) -> bind m k h = bind m k' h.
Proof.
  intros H. unfold bind. destruct (m h) as [h1 [a | e]]; auto.
Qed.

Lemma for_each_ext {A : Type} (items : list A) (body body' : A -> M unit) :
  (forall a h, body a h = body' a h) ->
  forall h, for_each items body h = for_each items body' h.
Proof.
  intros H. induction items as [| a items IH]; intros h; simpl; [reflexivity |].
  unfold bind. rewrite H. destruct (body' a h) as [h1 [[] | e]]; auto.
Qed.

Lemma steps_run_eq {A B : Type} (h0 h : heap) (m m' : M A) (p : result B)
  (R : heap -> A -> B -> Prop) :
  m h = m' h -> steps h0 h m' p R -> steps h0 h m p R.
Proof. unfold steps. intros ->. trivial. Qed.

(** Sequencing after a computation that only allocates: what was known of
    the store before it is still true after it. *)
Lemma steps_bind_sim {A B A' B' : Type} (h0 h : heap) (m : M A)
  (k : A -> M A') (p : result B) (kp : B -> result B')
  (R : heap -> A -> B -> Prop) (R' : heap -> A' -> B' -> Prop) :
  extends h0 h ->
  simulates h m p R ->
  (forall fresh a b,
     R (h ++ fresh) a b -> steps h0 (h ++ fresh) (k a) (kp b) R') ->
  steps h0 h (bind m k) (result_bind p kp) R'.
Proof.
  intros He [fresh Hm] Hk. destruct p as [b | e]; simpl.
  - destruct Hm as (a & Hrun & HR).
    destruct (Hk fresh a b HR) as (h2 & He2 & Hk').
    exists h2. split; [exact He2 |].
    rewrite (bind_ok _ _ _ _ _ Hrun). exact Hk'.
  - exists (h ++ fresh). split.
    + eapply extends_trans; [exact He | apply extends_app].
    + apply bind_err, Hm.
Qed.

Lemma steps_alloc_ret {B : Type} (h0 h : heap) (o : obj) (b : B)
  (R : heap -> loc -> B -> Prop) :
  extends h0 h -> R (h ++ [o]) (length h) b ->
  steps h0 h (alloc o) (Ok b) R.
Proof.
  intros He H. exists (h ++ [o]). split.
  - eapply extends_trans; [exact He | apply extends_app].
  - exists (length h). split; [reflexivity | exact H].
Qed.

(** *** Comprehensions that only read *)

Lemma map_m_load {A B C : Type} (select : obj -> option A) (f : A -> B)
  (R : heap -> loc -> C -> Prop) (g : C -> B) (h : heap) :
  (forall l c, R h l c ->
     exists o a, h !! l = Some o /\ select o = Some a /\ f a = g c) ->
  forall items cs,
    Forall2 (R h) items cs ->
    map_m (fun l => let* a := load select l in ret (f a)) items h =
    (h, Ok (map g cs)).
Proof.
  intros HR. induction 1 as [| l c items cs Hlc _ IH]; simpl; [reflexivity |].
  destruct (HR l c Hlc) as (o & a & Hl & Hs & Hfg).
  unfold bind at 1. unfold bind at 1.
  rewrite (load_ok _ _ _ _ _ Hl Hs). simpl.
  unfold bind at 1. rewrite IH. simpl. rewrite Hfg. reflexivity.
Qed.

Lemma filter_m_visible (h : heap) (items : list loc)
  (Cs : list ColumnDefinition.t) :
  Forall2 (is_column h) items Cs ->
  exists columns,
    (forall h', extends h h' ->
       filter_m (fun col => let* c := load as_column col in
                            ret (negb (ColumnDefinition.hidden c))) items h' =
       (h', Ok columns)) /\
    Forall2 (is_column h) columns
      (filter (fun col => negb (ColumnDefinition.hidden col) = true) Cs).
Proof.
  induction 1 as [| c C items Cs Hc _ IH]; simpl.
  - exists []. split; [reflexivity | constructor].
  - destruct IH as (columns & Hrun & Hcols).
    rewrite filter_cons.
    destruct (decide (negb (ColumnDefinition.hidden C) = true)) as [Hv | Hv].
    + exists (c :: columns). split; [| constructor; assumption].
      intros h' He. rewrite bind_assoc.
      rewrite (bind_ok _ _ _ _ _
                 (load_ok as_column _ _ _ _
                    (extends_lookup _ _ _ _ He Hc) eq_refl)).
      unfold ret at 1. unfold bind at 1. unfold bind at 1.
      rewrite (Hrun h' He), Hv. reflexivity.
    + apply not_true_is_false in Hv.
      exists columns. split; [| exact Hcols].
      intros h' He. rewrite bind_assoc.
      rewrite (bind_ok _ _ _ _ _
                 (load_ok as_column _ _ _ _
                    (extends_lookup _ _ _ _ He Hc) eq_refl)).
      unfold ret at 1. unfold bind at 1. unfold bind at 1.
      rewrite (Hrun h' He), Hv. reflexivity.
Qed.

(** The visible columns, read in the store [h] or in any store that
    extends it. *)
Lemma visible_columns_run (h : heap) (l : loc) (T : TableTemplate.t) :
  is_table_template h l T ->
  exists columns,
    (forall h', extends h h' ->
       TableTemplate_visible_columns l h' = (h', Ok columns)) /\
    Forall2 (is_column h) columns (TableTemplate.visible_columns T).
Proof.
  intros (o & Hl & _ & (items & Hitems & Hall) & _).
  destruct (filter_m_visible h items _ Hall) as (columns & Hrun & Hcols).
  exists columns. split; [| exact Hcols].
  intros h' He. unfold TableTemplate_visible_columns.
  rewrite (bind_ok _ _ _ _ _
             (load_ok as_table_template _ _ _ _
                (extends_lookup _ _ _ _ He Hl) eq_refl)).
  rewrite (bind_ok _ _ _ _ _
             (load_list_ok _ _ _ _ (extends_lookup _ _ _ _ He Hitems))).
  apply Hrun, He.
Qed.

(** *** The loop [for x in items: acc.append(f(x))] *)

Lemma steps_for_append {I X Y : Type} (k : lkind)
  (RI : I -> X -> Prop) (RY : heap -> loc -> Y -> Prop)
  (f : I -> M loc) (g : X -> result Y) (h0 : heap) (acc : loc) :
  Mono RY ->
  (forall h items o' x y,
     h !! acc = Some (OList k items) -> RY h x y -> RY (<[acc := o']> h) x y) ->
  (length h0 <= acc)%nat ->
  (forall h a x, extends h0 h -> RI a x -> simulates h (f a) (g x) RY) ->
  forall items xs,
    Forall2 RI items xs ->
    forall h ylocs ys,
      extends h0 h ->
      h !! acc = Some (OList k ylocs) ->
      Forall2 (RY h) ylocs ys ->
      steps h0 h
        (for_each items (fun a => let* y := f a in list_append k acc y))
        (for_append g xs ys)
        (fun h' _ ys' =>
           exists ylocs',
             h' !! acc = Some (OList k ylocs') /\ Forall2 (RY h') ylocs' ys').
Proof.
  intros Hmono Hstore Hacc Hf.
  induction 1 as [| a x items xs Hax _ IH]; intros h ylocs ys He Hlook Hys;
    simpl.
  - apply steps_ret; [exact He |]. eauto.
  - eapply steps_run_eq; [apply bind_assoc |].
    eapply steps_bind_sim; [exact He | apply Hf; [exact He | exact Hax] |].
    intros fresh yl y Hy.
    pose proof (extends_lookup _ (h ++ fresh) _ _ (extends_app h fresh) Hlook)
      as Hlook1.
    unfold list_append.
    eapply steps_run_eq; [apply bind_assoc |].
    eapply steps_load_list; [exact Hlook1 |].
    apply steps_store.
    apply (IH _ (ylocs ++ [yl]) (ys ++ [y])).
    + apply extends_store; [| exact Hacc].
      eapply extends_trans; [exact He | apply extends_app].
    + eapply store_lookup, Hlook1.
    + apply Forall2_app.
      * eapply Forall2_impl; [exact Hys |]. intros u v Huv.
        eapply Hstore; [exact Hlook1 |].
        eapply Hmono; [apply extends_app | exact Huv].
      * constructor; [| constructor].
        eapply Hstore; [exact Hlook1 | exact Hy].
Qed.

End HeapLoops.

Section HeapCells.
Import Heap.

Lemma steps_for_append_body {I X Y : Type} (k : lkind)
  (RI : I -> X -> Prop) (RY : heap -> loc -> Y -> Prop)
  (body : I -> M unit) (f : I -> M loc) (g : X -> result Y)
  (h0 : heap) (acc : loc) :
  (forall a h, body a h = bind (f a) (fun y => list_append k acc y) h) ->
  Mono RY ->
  (forall h items o' x y,
     h !! acc = Some (OList k items) -> RY h x y -> RY (<[acc := o']> h) x y) ->
  (length h0 <= acc)%nat ->
  (forall h a x, extends h0 h -> RI a x -> simulates h (f a) (g x) RY) ->
  forall items xs,
    Forall2 RI items xs ->
    forall h ylocs ys,
      extends h0 h ->
      h !! acc = Some (OList k ylocs) ->
      Forall2 (RY h) ylocs ys ->
      steps h0 h (for_each items body) (for_append g xs ys)
        (fun h' _ ys' =>
           exists ylocs',
             h' !! acc = Some (OList k ylocs') /\ Forall2 (RY h') ylocs' ys').
Proof.
  intros Hbody Hmono Hstore Hacc Hf items xs Hitems h ylocs ys He Hlook Hys.
  eapply steps_run_eq; [apply for_each_ext, Hbody |].
  eapply steps_for_append; eauto.
Qed.

Lemma is_cell_store (h : heap) (acc : loc) (k : lkind) (items : list loc)
  (o' : obj) (x : loc) (c : Cell.t) :
  h !! acc = Some (OList k items) -> is_cell h x c ->
  is_cell (<[acc := o']> h) x c.
Proof.
  intros Hacc Hx. eapply store_lookup_other; [exact Hacc | exact Hx |].
  discriminate.
Qed.

Lemma is_cells_store (h : heap) (acc : loc) (items : list loc)
  (o' : obj) (x : loc) (cs : list Cell.t) :
  h !! acc = Some (OList KRows items) -> is_cells h x cs ->
  is_cells (<[acc := o']> h) x cs.
Proof.
  intros Hacc (cells & Hx & Hall). exists cells. split.
  - eapply store_lookup_other; [exact Hacc | exact Hx | discriminate].
  - eapply Forall2_impl; [exact Hall |]. intros u v.
    eapply is_cell_store, Hacc.
Qed.

Lemma for_append_pure {A B : Type} (f : A -> B) (l : list A) (acc : list B) :
  for_append (fun x => Ok (f x)) l acc = Ok (acc ++ map f l).
Proof.
  revert acc. induction l as [| x l IH]; intros acc; simpl.
  - rewrite app_nil_r. reflexivity.
  - rewrite IH, <- app_assoc. reflexivity.
Qed.

(** *** [_create_cell_from_column] *)

Lemma create_cell_sim (h : heap) (col_def row_data template : loc)
  (C : ColumnDefinition.t) (Rw : Row) (T : TableTemplate.t) :
  is_column h col_def C -> is_row h row_data Rw ->
  is_table_template h template T ->
  simulates h (_create_cell_from_column col_def row_data template)
    (TemplateMerger._create_cell_from_column C Rw T) is_cell.
Proof.
  intros Hc Hr Ht. apply steps_simulates.
  unfold _create_cell_from_column, TemplateMerger._create_cell_from_column.
  eapply steps_load; [exact Hc | reflexivity |].
  eapply steps_bind with (R := fun _ a b => a = b).
  - destruct (ColumnDefinition.computed C) as [computed |].
    + eapply steps_load; [exact Hr | reflexivity |].
      apply steps_lift, extends_refl.
    + eapply steps_load; [exact Hr | reflexivity |].
      apply steps_ret; [apply extends_refl | reflexivity].
  - intros h1 value ? He <-.
    pose proof (mono _ _ _ _ He Ht)
      as (o & Hl & _ & _ & _ & _ & _ & _ & Hds & _).
    eapply steps_load; [exact Hl | reflexivity |].
    rewrite Hds.
    assert (forall cell : Cell.t,
               steps h h1 (Cell_new cell) (Ok cell) is_cell) as Hnew.
    { intros cell. apply steps_alloc_ret; [exact He |]. apply alloc_lookup. }
    assert (forall r : result Cell.t,
               steps h h1 (let* cell := lift r in Cell_new cell) r is_cell)
      as Hlift.
    { intros [cell | e]; [exact (Hnew cell) |].
      exists h1. split; [exact He | reflexivity]. }
    destruct (ColumnDefinition.formula_template C) as [formula |];
      [destruct (truthy_str formula) |]; apply Hnew || apply Hlift.
Qed.

(** *** [_create_row_cells] *)

Lemma create_row_cells_sim (h : heap) (template row_data : loc)
  (T : TableTemplate.t) (Rw : Row) :
  is_table_template h template T -> is_row h row_data Rw ->
  simulates h (_create_row_cells template row_data)
    (TemplateMerger._create_row_cells T Rw)
    (fresh_from (length h) is_cells).
Proof.
  intros Ht Hr. apply steps_simulates.
  unfold _create_row_cells, TemplateMerger._create_row_cells.
  destruct (visible_columns_run _ _ _ Ht) as (columns & Hrun & Hcols).
  apply steps_alloc.
  assert (extends h (h ++ [OList KCells []])) as He by apply extends_app.
  eapply steps_silent; [apply Hrun, He |].
  rewrite <- (result_bind_ok_r (for_append _ _ _)).
  eapply steps_bind.
  - eapply (steps_for_append_body KCells
              (fun c C => is_column h c C) is_cell _
              (fun c => _create_cell_from_column c row_data template)
              (fun C => TemplateMerger._create_cell_from_column C Rw T)
              h (length h)).
    + reflexivity.
    + apply _.
    + intros h' items o' x y. apply is_cell_store.
    + lia.
    + intros h' a x He' Hax. apply create_cell_sim; eapply mono; eauto.
    + exact Hcols.
    + exact He.
    + apply alloc_lookup.
    + constructor.
  - intros h1 [] cells He1 (ylocs & Hacc & Hys).
    apply steps_ret; [exact He1 |].
    split; [lia |]. exists ylocs. auto.
Qed.

End HeapCells.

Section HeapRows.
Import Heap.

Lemma simulates_weaken {A B : Type} (h : heap) (m : M A) (p : result B)
  (R R' : heap -> A -> B -> Prop) :
  (forall h' a b, extends h h' -> R h' a b -> R' h' a b) ->
  simulates h m p R -> simulates h m p R'.
Proof.
  intros HR [fresh H]. exists fresh. destruct p as [b | e]; [| exact H].
  destruct H as (a & Hrun & Ha). exists a. split; [exact Hrun |].
  apply HR; [apply extends_app | exact Ha].
Qed.

Lemma fresh_from_weaken {A : Type} (n : nat) (R : heap -> loc -> A -> Prop)
  (h : heap) (l : loc) (x : A) :
  fresh_from n R h l x -> R h l x.
Proof. intros [_ H]. exact H. Qed.

(** A generic loop: the body keeps an invariant that ties the store to the
    state of the value-level loop. *)
Lemma steps_for_each {I X S : Type} (RI : I -> X -> Prop)
  (Inv : heap -> S -> Prop) (body : I -> M unit) (pbody : S -> X -> result S)
  (h0 : heap) :
  (forall h a x s,
     extends h0 h -> RI a x -> Inv h s ->
     steps h0 h (body a) (pbody s x) (fun h' _ s' => Inv h' s')) ->
  forall items xs,
    Forall2 RI items xs ->
    forall h s,
      extends h0 h -> Inv h s ->
      steps h0 h (for_each items body) (for_state pbody xs s)
            (fun h' _ s' => Inv h' s').
Proof.
  intros Hbody. induction 1 as [| a x items xs Hax _ IH]; intros h s He Hs;
    simpl.
  - apply steps_ret; assumption.
  - eapply steps_bind; [apply Hbody; eassumption |].
    intros h1 [] s' He1 Hs'. apply IH; assumption.
Qed.

Lemma steps_fold_m {I X S SP : Type} (RI : I -> X -> Prop)
  (Inv : heap -> S -> SP -> Prop) (body : S -> I -> M S)
  (pbody : SP -> X -> result SP) (h0 : heap) :
  (forall h a x s sp,
     extends h0 h -> RI a x -> Inv h s sp ->
     steps h0 h (body s a) (pbody sp x) Inv) ->
  forall items xs,
    Forall2 RI items xs ->
    forall h s sp,
      extends h0 h -> Inv h s sp ->
      steps h0 h (fold_m body items s) (for_state pbody xs sp) Inv.
Proof.
  intros Hbody. induction 1 as [| a x items xs Hax _ IH]; intros h s sp He Hs;
    simpl.
  - apply steps_ret; assumption.
  - eapply steps_bind; [apply Hbody; eassumption |].
    intros h1 s' sp' He1 Hs'. apply IH; assumption.
Qed.


(** *** [_create_header_cells] *)

Lemma create_header_cells_sim (h : heap) (template : loc)
  (T : TableTemplate.t) :
  is_table_template h template T ->
  simulates h (_create_header_cells template)
    (Ok (TemplateMerger._create_header_cells T))
    (fresh_from (length h) is_cells).
Proof.
  intros Ht. apply steps_simulates.
  unfold _create_header_cells, TemplateMerger._create_header_cells.
  destruct (visible_columns_run _ _ _ Ht) as (columns & Hrun & Hcols).
  apply steps_alloc.
  assert (extends h (h ++ [OList KCells []])) as He by apply extends_app.
  eapply steps_silent; [apply Hrun, He |].
  destruct Ht as (o & Hl & _ & _ & _ & _ & _ & Hhs & _).
  replace (Ok (map _ (TableTemplate.visible_columns T)))
    with (result_bind
            (for_append
               (fun col_def =>
                  Ok (Cell.text (ColumnDefinition.label col_def)
                        (py_or (py_or (ColumnDefinition.header_style col_def)
                                      (TableTemplate.header_style T))
                               (Some CellStyle.header))))
               (TableTemplate.visible_columns T) [])
            Ok)
    by (rewrite for_append_pure; reflexivity).
  eapply steps_bind.
  - eapply (steps_for_append_body KCells
              (fun c C => is_column h c C) is_cell _
              (fun col_def =>
                 let* c := load as_column col_def in
                 let* t := load as_table_template template in
                 Cell_new (Cell.text (ColumnDefinition.label c)
                             (py_or (py_or (ColumnDefinition.header_style c)
                                           (tt_header_style t))
                                    (Some CellStyle.header))))
              _ h (length h)).
    + intros a h'. rewrite !bind_assoc. apply bind_ext. intros c h1.
      rewrite !bind_assoc. reflexivity.
    + apply _.
    + intros h' items o' x y. apply is_cell_store.
    + lia.
    + intros h' a x He' Hax. apply steps_simulates.
      eapply steps_load;
        [eapply extends_lookup; [exact He' | exact Hax] | reflexivity |].
      eapply steps_load;
        [eapply extends_lookup; [exact He' | exact Hl] | reflexivity |].
      rewrite Hhs.
      apply steps_alloc_ret; [apply extends_refl | apply alloc_lookup].
    + exact Hcols.
    + exact He.
    + apply alloc_lookup.
    + constructor.
  - intros h1 [] cells He1 (ylocs & Hacc & Hys).
    apply steps_ret; [exact He1 |].
    split; [lia |]. exists ylocs. auto.
Qed.

End HeapRows.

Section HeapBody.
Import Heap.

(** *** [_create_section_cells] and the unsectioned loop *)

Lemma rows_append_loop (h0 : heap) (template acc : loc) (T : TableTemplate.t)
  (rows : list loc) (Rows : list Row) :
  is_table_template h0 template T ->
  Forall2 (is_row h0) rows Rows ->
  (length h0 <= acc)%nat ->
  forall h rlocs body,
    extends h0 h ->
    h !! acc = Some (OList KRows rlocs) ->
    Forall2 (is_cells h) rlocs body ->
    steps h0 h
      (for_each rows
         (fun row_data =>
            let* row_cells := _create_row_cells template row_data in
            list_append KRows acc row_cells))
      (for_append (TemplateMerger._create_row_cells T) Rows body)
      (fun h' _ body' =>
         exists rlocs',
           h' !! acc = Some (OList KRows rlocs') /\
           Forall2 (is_cells h') rlocs' body').
Proof.
  intros Ht Hrows Hacc h rlocs body He Hlook Hbody.
  eapply (steps_for_append KRows (fun r Rw => is_row h0 r Rw) is_cells
            (fun r => _create_row_cells template r)
            (TemplateMerger._create_row_cells T) h0 acc); eauto.
  - apply _.
  - intros h' items o' x y. apply is_cells_store.
  - intros h' a x He' Hax.
    eapply simulates_weaken;
      [| apply create_row_cells_sim; eapply mono; eauto].
    intros h'' l cs _. apply fresh_from_weaken.
Qed.

Lemma create_section_cells_sim (h : heap) (template section_rows : loc)
  (key : string) (T : TableTemplate.t) (Rows : list Row) :
  is_table_template h template T ->
  is_data_rows h section_rows Rows ->
  simulates h (_create_section_cells template section_rows key)
    (TemplateMerger._create_section_cells T Rows key)
    (fresh_from (length h) is_rows).
Proof.
  intros Ht (rows & Hrows & Hall). apply steps_simulates.
  unfold _create_section_cells, TemplateMerger._create_section_cells.
  apply steps_alloc.
  assert (extends h (h ++ [OList KRows []])) as He by apply extends_app.
  eapply steps_load_list; [eapply extends_lookup; eauto |].
  rewrite <- (result_bind_ok_r (for_append _ _ _)).
  eapply steps_bind.
  - apply (rows_append_loop h template (length h) T rows Rows Ht Hall
             (le_n _) _ [] [] He (alloc_lookup _ _)).
    constructor.
  - intros h1 [] cells He1 (rlocs & Hacc & Hys).
    apply steps_ret; [exact He1 |].
    split; [lia |]. exists rlocs. auto.
Qed.

(** *** [_create_total_row] *)

Lemma Forall2_imap_pair {A B : Type} (R : A -> B -> Prop) (l : list A)
  (k : list B) :
  Forall2 R l k ->
  forall g : nat -> nat,
    Forall2 (fun e e' => fst e = fst e' /\ R (snd e) (snd e'))
            (imap (fun i x => (g i, x)) l)
            (imap (fun i y => (g i, y)) k).
Proof.
  induction 1 as [| x y l k Hxy _ IH]; intros g; simpl; constructor.
  - simpl. auto.
  - exact (IH (g ∘ Datatypes.S)).
Qed.

Lemma imap_as_map_gen {A B : Type} (f : nat -> A -> B) (l : list A) :
  forall g : nat -> nat,
    imap (fun i x => f (g i) x) l =
    map (fun e => f (fst e) (snd e)) (imap (fun i x => (g i, x)) l).
Proof.
  induction l as [| x l IH]; intros g; simpl; [reflexivity |].
  f_equal. exact (IH (g ∘ Datatypes.S)).
Qed.

Lemma imap_as_map {A B : Type} (f : nat -> A -> B) (l : list A) :
  imap f l = map (fun e => f (fst e) (snd e)) (imap (fun i x => (i, x)) l).
Proof. exact (imap_as_map_gen f l (fun i => i)). Qed.

Lemma create_total_row_sim (h : heap) (template section : loc)
  (n n' : nat) (T : TableTemplate.t) (S : SectionDefinition.t) :
  is_table_template h template T -> is_section h section S ->
  simulates h (_create_total_row template section n)
    (Ok (TemplateMerger._create_total_row T S n'))
    (fresh_from (length h) is_cells).
Proof.
  intros Ht Hs. apply steps_simulates.
  unfold _create_total_row, TemplateMerger._create_total_row.
  destruct (visible_columns_run _ _ _ Ht) as (columns & Hrun & Hcols).
  apply steps_alloc.
  assert (extends h (h ++ [OList KCells []])) as He by apply extends_app.
  eapply steps_silent; [apply Hrun, He |].
  rewrite (imap_as_map _ (TableTemplate.visible_columns T)).
  match goal with
  | |- steps _ _ _ (Ok (map ?g ?l)) _ =>
      replace (Ok (map g l))
        with (result_bind (for_append (fun e => Ok (g e)) l []) Ok)
        by (rewrite for_append_pure; reflexivity)
  end.
  eapply steps_bind.
  - eapply (steps_for_append_body KCells
              (fun (e : nat * loc) (e' : nat * ColumnDefinition.t) =>
                 fst e = fst e' /\ is_column h (snd e) (snd e'))
              is_cell _
              (fun entry =>
                 let* s := load as_section section in
                 match fst entry with
                 | O => Cell_new (Cell.text (SectionDefinition.label s)
                          (py_or (SectionDefinition.style s)
                                 (Some CellStyle.header)))
                 | Datatypes.S _ =>
                     match SectionDefinition.formula_template s with
                     | Some formula =>
                         if truthy_str formula
                         then
                           let* c := load as_column (snd entry) in
                           Cell_new (Cell.formula_cell formula PyNone
                                       (ColumnDefinition.number_format c)
                                       (py_or (SectionDefinition.style s)
                                              (Some CellStyle.header)))
                         else Cell_new Cell.blank
                     | None => Cell_new Cell.blank
                     end
                 end)
              _ h (length h)).
    + intros a h'. rewrite !bind_assoc. reflexivity.
    + apply _.
    + intros h' items o' x y. apply is_cell_store.
    + lia.
    + intros h' [idx c] [idx' C] He' [Hidx Hc]. simpl in Hidx, Hc. subst idx'.
      apply steps_simulates.
      eapply steps_load;
        [eapply extends_lookup; [exact He' | exact Hs] | reflexivity |].
      assert (forall cell : Cell.t,
                 steps h' h' (Cell_new cell) (Ok cell) is_cell) as Hnew.
      { intros cell. apply steps_alloc_ret;
          [apply extends_refl | apply alloc_lookup]. }
      simpl. destruct idx as [| idx]; [apply Hnew |].
      destruct (SectionDefinition.formula_template S) as [formula |];
        [destruct (truthy_str formula) |]; try apply Hnew.
      eapply steps_load;
        [eapply extends_lookup; [exact He' | exact Hc] | reflexivity |].
      apply Hnew.
    + apply (Forall2_imap_pair _ _ _ Hcols (fun i => i)).
    + exact He.
    + apply alloc_lookup.
    + constructor.
  - intros h1 [] cells He1 (ylocs & Hacc & Hys).
    apply steps_ret; [exact He1 |].
    split; [lia |]. exists ylocs. auto.
Qed.

(** *** Reading the data *)

Lemma is_empty_run (h : heap) (data : loc) (D : TableData.t) :
  is_table_data h data D ->
  TableData_is_empty data h = (h, Ok (TableData.is_empty D)).
Proof.
  intros (o & Hl & (rows & Hrows & Hall) & _ & (refs & Hrefs & Hmap) & _).
  unfold TableData_is_empty.
  rewrite (bind_ok _ _ _ _ _ (load_ok as_table_data _ _ _ _ Hl eq_refl)).
  rewrite (bind_ok _ _ _ _ _ (load_list_ok _ _ _ _ Hrows)).
  rewrite (bind_ok _ _ _ _ _ (load_ok as_refdict _ _ _ _ Hrefs eq_refl)).
  unfold ret, TableData.is_empty. f_equal. f_equal.
  rewrite (Forall2_length _ _ _ Hall). f_equal.
  destruct (decide (refs = ∅)) as [-> | Hne].
  - apply map_Forall2_empty_inv_l in Hmap. rewrite Hmap. reflexivity.
  - assert (TableData.section_data D <> ∅) as Hne'.
    { intros Heq. rewrite Heq in Hmap.
      apply map_Forall2_empty_inv_r in Hmap. contradiction. }
    apply map_size_non_empty_iff in Hne, Hne'.
    destruct (size refs), (size (TableData.section_data D));
      try reflexivity; congruence.
Qed.

Lemma get_section_data_sim (h : heap) (data : loc) (key : string)
  (D : TableData.t) :
  is_table_data h data D ->
  simulates h (TableData_get_section_data data key)
    (Ok (TableData.get_section_data D key)) is_data_rows.
Proof.
  intros (o & Hl & _ & _ & (refs & Hrefs & Hmap) & _).
  apply steps_simulates. unfold TableData_get_section_data.
  eapply steps_load; [exact Hl | reflexivity |].
  eapply steps_load; [exact Hrefs | reflexivity |].
  unfold TableData.get_section_data. specialize (Hmap key).
  destruct Hmap as [rows Rows HR |]; simpl.
  - apply steps_ret; [apply extends_refl | exact HR].
  - apply steps_alloc_ret; [apply extends_refl |].
    exists []. split; [apply alloc_lookup | constructor].
Qed.

End HeapBody.

Section HeapData.
Import Heap.

Lemma steps_bind_sim_ok {A B A' B' : Type} (h0 h : heap) (m : M A)
  (k : A -> M A') (b : B) (p : result B')
  (R : heap -> A -> B -> Prop) (R' : heap -> A' -> B' -> Prop) :
  extends h0 h ->
  simulates h m (Ok b) R ->
  (forall fresh a, R (h ++ fresh) a b -> steps h0 (h ++ fresh) (k a) p R') ->
  steps h0 h (bind m k) p R'.
Proof.
  intros He [fresh (a & Hrun & HR)] Hk.
  destruct (Hk fresh a HR) as (h2 & He2 & Hk').
  exists h2. split; [exact He2 |].
  rewrite (bind_ok _ _ _ _ _ Hrun). exact Hk'.
Qed.

Lemma steps_list_append_then {A' B' : Type} (h0 h : heap) (k : lkind)
  (l x : loc) (items : list loc) (k' : unit -> M A') (p : result B')
  (R' : heap -> A' -> B' -> Prop) :
  h !! l = Some (OList k items) ->
  steps h0 (<[l := OList k (items ++ [x])]> h) (k' tt) p R' ->
  steps h0 h (bind (list_append k l x) k') p R'.
Proof.
  intros Hl H. unfold list_append.
  eapply steps_run_eq; [apply bind_assoc |].
  eapply steps_load_list; [exact Hl |].
  apply steps_store, H.
Qed.

Lemma steps_list_append {B : Type} (h0 h : heap) (k : lkind)
  (l x : loc) (items : list loc) (b : B) (R : heap -> unit -> B -> Prop) :
  h !! l = Some (OList k items) ->
  extends h0 h -> (length h0 <= l)%nat ->
  R (<[l := OList k (items ++ [x])]> h) tt b ->
  steps h0 h (list_append k l x) (Ok b) R.
Proof.
  intros Hl He Hlen HR. unfold list_append.
  eapply steps_load_list; [exact Hl |].
  exists (<[l := OList k (items ++ [x])]> h). split.
  - apply extends_store; assumption.
  - exists tt. split; [reflexivity | exact HR].
Qed.

Lemma steps_list_extend_then {A' B' : Type} (h0 h : heap) (k : lkind)
  (l other : loc) (items more : list loc) (k' : unit -> M A')
  (p : result B') (R' : heap -> A' -> B' -> Prop) :
  h !! other = Some (OList k more) ->
  h !! l = Some (OList k items) ->
  steps h0 (<[l := OList k (items ++ more)]> h) (k' tt) p R' ->
  steps h0 h (bind (list_extend k l other) k') p R'.
Proof.
  intros Ho Hl H. unfold list_extend.
  eapply steps_run_eq; [apply bind_assoc |].
  eapply steps_load_list; [exact Ho |].
  eapply steps_run_eq; [apply bind_assoc |].
  eapply steps_load_list; [exact Hl |].
  apply steps_store, H.
Qed.

Lemma body_inv_extends (cells : loc) (h h' : heap)
  (body : list (list Cell.t)) :
  extends h h' -> body_inv cells h body -> body_inv cells h' body.
Proof.
  intros He (rlocs & Hl & Hall). exists rlocs. split.
  - eapply extends_lookup; eauto.
  - eapply Forall2_impl; [exact Hall |]. intros u v.
    apply (mono (R := is_cells)), He.
Qed.

Lemma truthy_list_Forall2 {A B : Type} (R : A -> B -> Prop) (l : list A)
  (k : list B) :
  Forall2 R l k -> truthy_list l = truthy_list k.
Proof. destruct 1; reflexivity. Qed.

(** *** One section *)

Lemma section_step_steps (h0 : heap) (template data cells section : loc)
  (T : TableTemplate.t) (D : TableData.t) (S : SectionDefinition.t) :
  is_table_template h0 template T -> is_table_data h0 data D ->
  (length h0 <= cells)%nat ->
  forall h body,
    extends h0 h -> is_section h0 section S -> body_inv cells h body ->
    steps h0 h (section_step template data cells section)
      (TemplateMerger.section_step T D body S)
      (fun h' _ body' => body_inv cells h' body').
Proof.
  intros Ht Hd Hcells h body He Hs Hinv.
  unfold section_step, TemplateMerger.section_step.
  eapply steps_load;
    [eapply extends_lookup; [exact He | exact Hs] | reflexivity |].
  eapply steps_bind_sim_ok;
    [exact He | apply get_section_data_sim; eapply mono; eauto |].
  intros fresh1 sr (rows & Hsr & Hrows).
  set (h1 := h ++ fresh1) in *.
  assert (extends h0 h1) as He1
    by (eapply extends_trans; [exact He | apply extends_app]).
  assert (body_inv cells h1 body) as Hinv1
    by (eapply body_inv_extends; [apply extends_app | exact Hinv]).
  eapply steps_load_list; [exact Hsr |].
  rewrite (truthy_list_Forall2 _ _ _ Hrows).
  destruct (truthy_list (TableData.get_section_data D (SectionDefinition.key S)));
    simpl; [| apply steps_ret; assumption].
  eapply steps_bind_sim; [exact He1 | |].
  { apply create_section_cells_sim; [eapply mono; eauto |].
    exists rows. split; [exact Hsr | exact Hrows]. }
  intros fresh2 sc SC [_ (scitems & Hsc & Hscall)].
  set (h2 := h1 ++ fresh2) in *.
  assert (extends h0 h2) as He2
    by (eapply extends_trans; [exact He1 | apply extends_app]).
  destruct (body_inv_extends cells h1 h2 body (extends_app _ _) Hinv1)
    as (rlocs & Hcl & Hbody).
  eapply steps_list_extend_then; [exact Hsc | exact Hcl |].
  set (h3 := <[cells := OList KRows (rlocs ++ scitems)]> h2).
  assert (extends h0 h3) as He3 by (apply extends_store; assumption).
  assert (h3 !! cells = Some (OList KRows (rlocs ++ scitems))) as Hcl3
    by (eapply store_lookup, Hcl).
  assert (Forall2 (is_cells h3) (rlocs ++ scitems) (body ++ SC)) as Hbody3.
  { apply Forall2_app.
    - eapply Forall2_impl; [exact Hbody |]. intros u v.
      apply is_cells_store with (items := rlocs), Hcl.
    - eapply Forall2_impl; [exact Hscall |]. intros u v.
      apply is_cells_store with (items := rlocs), Hcl. }
  destruct (truthy_ostr (SectionDefinition.formula_template S)
            || SectionDefinition.is_total S).
  - eapply steps_load_list; [exact Hcl3 |].
    eapply steps_bind_sim_ok; [exact He3 | |].
    { apply create_total_row_sim; eapply mono; eauto. }
    intros fresh4 tr [_ Htr].
    set (h4 := h3 ++ fresh4) in *.
    eapply steps_list_append.
    + eapply extends_lookup; [apply extends_app | exact Hcl3].
    + eapply extends_trans; [exact He3 | apply extends_app].
    + exact Hcells.
    + exists ((rlocs ++ scitems) ++ [tr]). split.
      * eapply store_lookup.
        eapply extends_lookup; [apply extends_app | exact Hcl3].
      * assert (h4 !! cells = Some (OList KRows (rlocs ++ scitems))) as Hcl4
          by (eapply extends_lookup; [apply extends_app | exact Hcl3]).
        apply Forall2_app.
        -- eapply Forall2_impl; [exact Hbody3 |]. intros u v Huv.
           eapply is_cells_store; [exact Hcl4 |].
           eapply (mono (R := is_cells)); [apply extends_app | exact Huv].
        -- constructor; [| constructor].
           eapply is_cells_store; [exact Hcl4 | exact Htr].
  - apply steps_ret; [exact He3 |].
    exists (rlocs ++ scitems). auto.
Qed.

(** *** [_create_data_cells] *)

Lemma rows_loop_steps (h0 : heap) (template data cells : loc)
  (T : TableTemplate.t) (D : TableData.t) :
  is_table_template h0 template T -> is_table_data h0 data D ->
  (length h0 <= cells)%nat ->
  forall h,
    extends h0 h -> body_inv cells h [] ->
    steps h0 h (rows_loop template data cells)
      (for_append (TemplateMerger._create_row_cells T)
                  (TableData.iter_rows D) [])
      (fun h' _ body' => body_inv cells h' body').
Proof.
  intros Ht Hd Hcells h He (rlocs & Hcl & Hbody).
  pose proof Hd as (o & Hl & (rows & Hrows & Hall) & _).
  unfold rows_loop.
  eapply steps_load;
    [eapply extends_lookup; [exact He | exact Hl] | reflexivity |].
  eapply steps_load_list; [eapply extends_lookup; [exact He | exact Hrows] |].
  apply (rows_append_loop h0 template cells T rows (TableData.rows D) Ht Hall
           Hcells h rlocs [] He Hcl Hbody).
Qed.

Lemma create_data_cells_sim (h : heap) (template data : loc)
  (T : TableTemplate.t) (D : TableData.t) :
  is_table_template h template T -> is_table_data h data D ->
  simulates h (_create_data_cells template data)
    (TemplateMerger._create_data_cells T D)
    (fresh_from (length h) is_rows).
Proof.
  intros Ht Hd. apply steps_simulates.
  unfold _create_data_cells, TemplateMerger._create_data_cells.
  eapply steps_silent; [apply is_empty_run, Hd |].
  destruct (TableData.is_empty D).
  { apply steps_alloc_ret; [apply extends_refl |].
    split; [lia |]. exists []. split; [apply alloc_lookup | constructor]. }
  apply steps_alloc.
  set (h1 := h ++ [OList KRows []]).
  assert (extends h h1) as He by apply extends_app.
  assert (body_inv (length h) h1 []) as Hinv.
  { exists []. split; [apply alloc_lookup | constructor]. }
  pose proof Ht as (o & Hl & _ & _ & Hsecs & _).
  eapply steps_load;
    [eapply extends_lookup; [exact He | exact Hl] | reflexivity |].
  assert (forall (m : M unit) (p : result (list (list Cell.t))),
            steps h h1 m p (fun h' _ body' => body_inv (length h) h' body') ->
            steps h h1 (m ;; ret (length h)) p
                  (fresh_from (length h) is_rows)) as Hfinish.
  { intros m p Hm. rewrite <- (result_bind_ok_r p).
    eapply steps_bind; [exact Hm |].
    intros h2 [] body He2 (rlocs & Hcl & Hbody).
    apply steps_ret; [exact He2 |]. split; [lia |]. exists rlocs. auto. }
  apply Hfinish.
  destruct Hsecs as [sl secs (items & Hsl & Hitems) |].
  - eapply steps_load_list; [eapply extends_lookup; [exact He | exact Hsl] |].
    rewrite (truthy_list_Forall2 _ _ _ Hitems).
    destruct secs as [| S secs]; cbn [truthy_list]; cbv beta iota.
    + apply rows_loop_steps; auto.
    + apply (steps_for_each (fun s S => is_section h s S)
               (body_inv (length h))
               (section_step template data (length h))
               (TemplateMerger.section_step T D) h); auto.
      intros h' a x s He' Hax Hs.
      apply section_step_steps; auto.
  - apply rows_loop_steps; auto.
Qed.

End HeapData.

Section HeapTable.
Import Heap.

Lemma map_m_sim {I X Y Z : Type} (RI : I -> X -> Prop)
  (RY : heap -> Y -> Z -> Prop) (f : I -> M Y) (g : X -> Z) (h : heap) :
  Mono RY ->
  (forall h' a x, extends h h' -> RI a x -> simulates h' (f a) (Ok (g x)) RY) ->
  forall items xs,
    Forall2 RI items xs ->
    forall h1,
      extends h h1 ->
      simulates h1 (map_m f items) (Ok (map g xs))
                (fun h' ys zs => Forall2 (RY h') ys zs).
Proof.
  intros Hmono Hf. induction 1 as [| a x items xs Hax _ IH]; intros h1 He.
  - exists []. exists []. rewrite app_nil_r. split; [reflexivity | constructor].
  - destruct (Hf h1 a x He Hax) as (fresh1 & y & Hrun1 & Hy).
    destruct (IH (h1 ++ fresh1)) as (fresh2 & ys & Hrun2 & Hys).
    { eapply extends_trans; [exact He | apply extends_app]. }
    exists (fresh1 ++ fresh2), (y :: ys). rewrite app_assoc. split.
    + simpl. rewrite (bind_ok _ _ _ _ _ Hrun1).
      rewrite (bind_ok _ _ _ _ _ Hrun2). reflexivity.
    + constructor; [| exact Hys].
      eapply Hmono; [apply extends_app | exact Hy].
Qed.

Lemma for_state_pure {X S : Type} (f : S -> X -> S) (xs : list X) (s : S) :
  for_state (fun s x => Ok (f s x)) xs s = Ok (fold_left f xs s).
Proof.
  revert s. induction xs as [| x xs IH]; intros s; simpl; [reflexivity |].
  apply IH.
Qed.

(** *** The [Table] constructor *)

Lemma table_new_sim (h : heap) (cells : loc) (headers title : option loc)
  (start_position : CellPosition.t) (Body : list (list Cell.t))
  (Hd : option (list Cell.t)) (Tt : option Cell.t) :
  is_rows h cells Body -> is_opt is_cells h headers Hd ->
  is_opt is_cell h title Tt ->
  simulates h (Table_new cells headers title start_position)
    (Table.init Body Hd Tt start_position)
    (fun h' l table =>
       (length h <= l)%nat /\
       is_table h' l table /\
       h' !! l = Some (OTable {| tb_cells := cells; tb_headers := headers;
                                 tb_title := title;
                                 tb_start_position := start_position |})).
Proof.
  intros Hrows Hh Ht.
  set (o := {| tb_cells := cells; tb_headers := headers; tb_title := title;
               tb_start_position := start_position |}).
  assert (extends h (h ++ [OTable o])) as He by apply extends_app.
  pose proof (mono (R := is_rows) _ _ _ _ He Hrows)
    as (rlocs & Hcl & Hall).
  assert (is_table (h ++ [OTable o]) (length h)
            (Table.mk Body Hd Tt start_position)) as Htable.
  { exists o. split; [apply alloc_lookup |]. simpl.
    split; [eapply mono; eauto |].
    split; [eapply (mono (R := is_opt is_cells)); eauto |].
    split; [eapply (mono (R := is_opt is_cell)); eauto | reflexivity]. }
  apply steps_simulates. unfold Table_new, Table.init. fold o.
  apply steps_alloc.
  eapply steps_load_list; [exact Hcl |].
  rewrite (truthy_list_Forall2 _ _ _ Hall).
  destruct (truthy_list Body) eqn:Etruthy; simpl.
  - eapply steps_silent.
    { apply (map_m_load (as_list KCells) (@length loc)
               is_cells (@length Cell.t)); [| exact Hall].
      intros l c (items & Hl & Hitems). exists (OList KCells items), items.
      split; [exact Hl |]. split; [apply as_list_same |].
      eapply Forall2_length, Hitems. }
    destruct (1 <? len_set (map length Body))%nat.
    + apply steps_raise, He.
    + apply steps_ret; [exact He |].
      split; [lia | split; [exact Htable | apply alloc_lookup]].
  - apply steps_ret; [exact He |].
    split; [lia | split; [exact Htable | apply alloc_lookup]].
Qed.

Lemma table_row_count_run (h : heap) (l : loc) (table : Table.t) :
  is_table h l table ->
  Table_row_count l h = (h, Ok (Table.row_count table)).
Proof.
  intros (o & Hl & (rlocs & Hcl & Hall) & _). unfold Table_row_count.
  rewrite (bind_ok _ _ _ _ _ (load_ok as_table _ _ _ _ Hl eq_refl)).
  rewrite (bind_ok _ _ _ _ _ (load_list_ok _ _ _ _ Hcl)).
  unfold ret, Table.row_count. rewrite (Forall2_length _ _ _ Hall).
  reflexivity.
Qed.

Lemma table_has_headers_run (h : heap) (l : loc) (table : Table.t) :
  is_table h l table ->
  Table_has_headers l h = (h, Ok (Table.has_headers table)).
Proof.
  intros (o & Hl & _ & Hh & _). unfold Table_has_headers.
  rewrite (bind_ok _ _ _ _ _ (load_ok as_table _ _ _ _ Hl eq_refl)).
  unfold Table.has_headers.
  destruct Hh as [hl hd (items & Hitems & Hall) |]; [| reflexivity].
  rewrite (bind_ok _ _ _ _ _ (load_list_ok _ _ _ _ Hitems)).
  unfold ret. rewrite (Forall2_length _ _ _ Hall). reflexivity.
Qed.

Lemma table_has_title_run (h : heap) (l : loc) (table : Table.t) :
  is_table h l table ->
  Table_has_title l h = (h, Ok (Table.has_title table)).
Proof.
  intros (o & Hl & _ & _ & Ht & _). unfold Table_has_title.
  rewrite (bind_ok _ _ _ _ _ (load_ok as_table _ _ _ _ Hl eq_refl)).
  unfold Table.has_title. destruct Ht; reflexivity.
Qed.

(** *** [apply_style_to_row] *)

Lemma merge_style_sim (h : heap) (style : CellStyle.t) (l : loc) (c : Cell.t) :
  is_cell h l c ->
  simulates h (Cell_merge_style l (Some style))
    (Ok (Cell.merge_style c (Some style))) is_cell.
Proof.
  intros Hc. apply steps_simulates. unfold Cell_merge_style, Cell_with_style.
  eapply steps_load; [exact Hc | reflexivity |].
  eapply steps_load; [exact Hc | reflexivity |].
  apply steps_alloc_ret; [apply extends_refl | apply alloc_lookup].
Qed.

Lemma is_table_store_rows (h : heap) (l : loc) (o : table_obj)
  (rlocs rlocs' : list loc) (table : Table.t) (Body' : list (list Cell.t)) :
  h !! l = Some (OTable o) ->
  is_table h l table ->
  h !! tb_cells o = Some (OList KRows rlocs) ->
  Forall2 (is_cells h) rlocs' Body' ->
  is_table (<[tb_cells o := OList KRows rlocs']> h) l
    (Table.mk Body' (Table.headers table) (Table.title table)
              (Table.start_position table)).
Proof.
  intros Hl (o' & Hl' & _ & Hh & Ht & Hp) Hcl Hall.
  assert (o' = o) as -> by congruence.
  exists o. split.
  { eapply store_lookup_other; [exact Hcl | exact Hl | discriminate]. }
  simpl. split.
  { exists rlocs'. split; [eapply store_lookup, Hcl |].
    eapply Forall2_impl; [exact Hall |]. intros u v.
    apply is_cells_store with (items := rlocs), Hcl. }
  split.
  { destruct Hh; constructor.
    eapply is_cells_store; [exact Hcl | assumption]. }
  split; [| exact Hp].
  destruct Ht; constructor. eapply is_cell_store; [exact Hcl | assumption].
Qed.

Lemma apply_style_to_row_steps (h0 h : heap) (l : loc) (o : table_obj)
  (table : Table.t) (row : nat) (style : CellStyle.t) :
  extends h0 h ->
  table_inv (length h0) l o h table ->
  steps h0 h (Table_apply_style_to_row l row (Some style))
    (Ok (Table.apply_style_to_row table row (Some style)))
    (fun h' _ table' => table_inv (length h0) l o h' table').
Proof.
  intros He (Hl & Hfresh & Htable).
  pose proof Htable as (o' & Hl' & (rlocs & Hcl & Hall) & Hh & Ht & Hp).
  assert (o' = o) as -> by congruence.
  unfold Table_apply_style_to_row, Table.apply_style_to_row.
  eapply steps_load; [exact Hl | reflexivity |].
  eapply steps_load_list; [exact Hcl |].
  destruct (rlocs !! row) as [old_row |] eqn:Erow.
  - destruct (Forall2_lookup_l _ _ _ _ _ Hall Erow) as (Row & HRow & Hold).
    assert ((row <? length (Table.cells table))%nat = true) as ->
      by (apply Nat.ltb_lt; eapply lookup_lt_Some, HRow).
    destruct Hold as (clocs & Hclocs & Hcells).
    eapply steps_load_list; [exact Hclocs |].
    eapply steps_bind_sim_ok; [exact He | |].
    { eapply (map_m_sim (fun c C => is_cell h c C) is_cell
                (fun c => Cell_merge_style c (Some style))
                (fun C => Cell.merge_style C (Some style)) h);
        [apply _ | | exact Hcells | apply extends_refl].
      intros h' a x He' Hax. apply merge_style_sim. eapply mono; eauto. }
    intros fresh new_cells Hnew.
    apply steps_alloc.
    set (h2 := (h ++ fresh) ++ [OList KCells new_cells]).
    assert (extends h h2) as He2.
    { unfold h2. rewrite <- app_assoc. apply extends_app. }
    pose proof (extends_lookup _ _ _ _ He2 Hcl) as Hcl2.
    unfold list_set.
    eapply steps_load_list; [exact Hcl2 |].
    assert ((row <? length rlocs)%nat = true) as ->
      by (apply Nat.ltb_lt; eapply lookup_lt_Some, Erow).
    exists (<[tb_cells o := OList KRows (<[row := length (h ++ fresh)]> rlocs)]> h2).
    split.
    { apply extends_store; [| exact Hfresh].
      eapply extends_trans; [exact He | exact He2]. }
    exists tt. split; [reflexivity |].
    split; [| split; [exact Hfresh |]].
    { eapply store_lookup_other;
        [exact Hcl2 | eapply extends_lookup; [exact He2 | exact Hl]
        | discriminate]. }
    replace (Table.mk _ _ _ _)
      with (Table.mk
              (alter (map (fun cell => Cell.merge_style cell (Some style)))
                     row (Table.cells table))
              (Table.headers table) (Table.title table)
              (Table.start_position table)) by reflexivity.
    eapply is_table_store_rows;
      [eapply extends_lookup; [exact He2 | exact Hl]
      | eapply mono; [exact He2 | exact Htable]
      | exact Hcl2 |].
    rewrite list_insert_alter.
    apply Forall2_alter.
    + eapply Forall2_impl; [exact Hall |]. intros u v.
      apply (mono (R := is_cells)), He2.
    + intros x y _ Hy _. assert (y = Row) as -> by congruence.
      exists new_cells. split.
      * unfold h2. apply alloc_lookup.
      * eapply Forall2_impl; [exact Hnew |]. intros u v.
        apply (mono (R := is_cell)), extends_app.
  - assert ((row <? length (Table.cells table))%nat = false) as ->.
    { apply Nat.ltb_ge. rewrite <- (Forall2_length _ _ _ Hall).
      apply lookup_ge_None, Erow. }
    apply steps_ret; [exact He |]. split; [exact Hl | auto].
Qed.

End HeapTable.

Section HeapMergeTable.
Import Heap.

Lemma title_cell_sim (h : heap) (title : option string)
  (style : option CellStyle.t) :
  simulates h
    (match title with
     | Some title =>
         if truthy_str title
         then let* c := Cell_new (Cell.text title style) in ret (Some c)
         else ret None
     | None => ret None
     end)
    (Ok (match title with
         | Some title =>
             if truthy_str title then Some (Cell.text title style) else None
         | None => None
         end))
    (is_opt is_cell).
Proof.
  apply steps_simulates.
  destruct title as [title |];
    [destruct (truthy_str title) |];
    try (apply steps_ret; [apply extends_refl | constructor]).
  apply steps_alloc. apply steps_ret; [apply extends_app |].
  constructor. apply alloc_lookup.
Qed.

Lemma merge_table_sim (h : heap) (template data : loc)
  (T : TableTemplate.t) (D : TableData.t) :
  is_table_template h template T -> is_table_data h data D ->
  simulates h (merge_table template data) (TemplateMerger.merge_table T D)
            (fresh_from (length h) is_table).
Proof.
  intros Ht Hd. apply steps_simulates.
  unfold merge_table, TemplateMerger.merge_table.
  pose proof Ht as (o & Hl & _ & _ & _ & Htitle & Hts & _ & _ & _ & Hpos & _
                    & _ & Harc & Hars).
  eapply steps_load; [exact Hl | reflexivity |].
  rewrite Htitle, Hts, Hpos, Harc, Hars.
  eapply steps_bind_sim_ok; [apply extends_refl | apply title_cell_sim |].
  intros fresh1 title_cell Htc.
  set (h1 := h ++ fresh1) in *.
  assert (extends h h1) as He1 by apply extends_app.
  eapply steps_bind_sim_ok;
    [exact He1 | apply create_header_cells_sim; eapply mono; eauto |].
  intros fresh2 header_cells [_ Hhc].
  set (h2 := h1 ++ fresh2) in *.
  assert (extends h h2) as He2
    by (eapply extends_trans; [exact He1 | apply extends_app]).
  eapply steps_bind_sim;
    [exact He2 | apply create_data_cells_sim; eapply mono; eauto |].
  intros fresh3 data_cells Body [Hdc Hbody].
  set (h3 := h2 ++ fresh3) in *.
  assert (extends h h3) as He3
    by (eapply extends_trans; [exact He2 | apply extends_app]).
  eapply steps_bind_sim; [exact He3 | |].
  { apply table_new_sim; [exact Hbody | |].
    - constructor. eapply mono; [apply extends_app | exact Hhc].
    - eapply (mono (R := is_opt is_cell)); [| exact Htc].
      eapply extends_trans; apply extends_app. }
  intros fresh4 table Tb (Hfresh & Htb & Hobj).
  set (h4 := h3 ++ fresh4) in *.
  assert (extends h h4) as He4
    by (eapply extends_trans; [exact He3 | apply extends_app]).
  set (o4 := {| tb_cells := data_cells; tb_headers := Some header_cells;
                tb_title := title_cell;
                tb_start_position := TableTemplate.start_position T |}) in *.
  assert (table_inv (length h) table o4 h4 Tb) as Hinv.
  { split; [exact Hobj |]. split; [| exact Htb].
    simpl. pose proof (extends_length _ _ He2). lia. }
  assert (length h <= table)%nat as Hfresh'.
  { pose proof (extends_length _ _ He3). lia. }
  destruct (TableTemplate.alternate_row_colors T);
    [destruct (TableTemplate.alternate_row_style T) as [style |] |].
  - eapply steps_run_eq; [apply bind_assoc |].
    eapply steps_silent; [apply table_row_count_run, Htb |].
    rewrite <- (for_state_pure
                  (fun table i => Table.apply_style_to_row table i (Some style))).
    rewrite <- (result_bind_ok_r (for_state _ _ _)).
    eapply steps_bind.
    + apply (steps_for_each (@eq nat) (table_inv (length h) table o4)
               (fun i => Table_apply_style_to_row table i (Some style))
               (fun table i =>
                  Ok (Table.apply_style_to_row table i (Some style))) h).
      * intros h' a x s He' <- Hs. apply apply_style_to_row_steps; assumption.
      * clear. induction (py_range 0 (Table.row_count Tb) 2); constructor; auto.
      * exact He4.
      * exact Hinv.
    + intros h5 [] Tb' He5 (_ & _ & Htb').
      apply steps_ret; [exact He5 |]. split; assumption.
  - apply steps_ret; [exact He4 |]. split; assumption.
  - apply steps_ret; [exact He4 |]. split; assumption.
Qed.

End HeapMergeTable.

(** The store after some more allocations. *)
Ltac extends_tail :=
  repeat first [apply extends_refl
               | eapply extends_trans; [| apply extends_app]].

Section HeapSheet.
Import Heap.

(** *** Writes that a table or a sheet does not see *)

Lemma store_lookup_part (part : obj -> bool) (h : heap) (acc y : loc)
  (oa o' oy : obj) :
  h !! acc = Some oa -> part oa = false ->
  h !! y = Some oy -> part oy = true ->
  <[acc := o']> h !! y = Some oy.
Proof.
  intros Hacc Hoa Hy Hoy. eapply store_lookup_other; [exact Hacc | exact Hy |].
  intros ->. congruence.
Qed.

Lemma table_part_sheet_part (o : obj) :
  sheet_part o = false -> table_part o = false.
Proof. destruct o as [[] | | | | | | | | | | | | | | | | | |]; auto. Qed.

Lemma is_cell_store_part (h : heap) (acc : loc) (oa o' : obj) (x : loc)
  (c : Cell.t) :
  h !! acc = Some oa -> table_part oa = false ->
  is_cell h x c -> is_cell (<[acc := o']> h) x c.
Proof.
  intros Hacc Hoa Hx.
  eapply (store_lookup_part table_part); eauto.
Qed.

Lemma is_cells_store_part (h : heap) (acc : loc) (oa o' : obj) (x : loc)
  (cs : list Cell.t) :
  h !! acc = Some oa -> table_part oa = false ->
  is_cells h x cs -> is_cells (<[acc := o']> h) x cs.
Proof.
  intros Hacc Hoa (items & Hx & Hall). exists items. split.
  - eapply (store_lookup_part table_part); eauto.
  - eapply Forall2_impl; [exact Hall |]. intros u v.
    eapply is_cell_store_part; eauto.
Qed.

Lemma is_table_store_part (h : heap) (acc : loc) (oa o' : obj) (x : loc)
  (table : Table.t) :
  h !! acc = Some oa -> table_part oa = false ->
  is_table h x table -> is_table (<[acc := o']> h) x table.
Proof.
  intros Hacc Hoa (o & Hx & (rlocs & Hrl & Hrows) & Hh & Ht & Hp).
  exists o. split; [eapply (store_lookup_part table_part); eauto |].
  split.
  { exists rlocs. split; [eapply (store_lookup_part table_part); eauto |].
    eapply Forall2_impl; [exact Hrows |]. intros u v.
    eapply is_cells_store_part; eauto. }
  split.
  { destruct Hh; constructor. eapply is_cells_store_part; eauto. }
  split; [| exact Hp].
  destruct Ht; constructor. eapply is_cell_store_part; eauto.
Qed.

Lemma is_sheet_store_part (h : heap) (acc : loc) (oa o' : obj) (x : loc)
  (sheet : Sheet.t) :
  h !! acc = Some oa -> sheet_part oa = false ->
  is_sheet h x sheet -> is_sheet (<[acc := o']> h) x sheet.
Proof.
  intros Hacc Hoa
    (o & cells & Hx & Hn & (tlocs & Htl & Htables) & Hc & Hcells & Hf & Hcw
     & Hrh & Hd1 & Hd2).
  pose proof (table_part_sheet_part _ Hoa) as Hoa'.
  exists o, cells.
  split; [eapply (store_lookup_part sheet_part); eauto |].
  split; [exact Hn |].
  split.
  { exists tlocs. split; [eapply (store_lookup_part sheet_part); eauto |].
    eapply Forall2_impl; [exact Htables |]. intros u v.
    eapply is_table_store_part; eauto. }
  split; [eapply (store_lookup_part sheet_part); eauto |].
  split.
  { intros i. specialize (Hcells i).
    destruct Hcells; constructor. eapply is_cell_store_part; eauto. }
  split; [exact Hf |].
  split; [eapply (store_lookup_part sheet_part); eauto |].
  split; [eapply (store_lookup_part sheet_part); eauto |].
  split; assumption.
Qed.

Lemma sheet_inv_extends (n : nat) (l : loc) (o : sheet_obj) (h h' : heap)
  (sheet : Sheet.t) :
  extends h h' -> sheet_inv n l o h sheet -> sheet_inv n l o h' sheet.
Proof.
  intros He (Hl & H1 & H2 & H3 & Hs).
  split; [eapply extends_lookup; eauto |].
  repeat (split; [assumption |]). eapply mono; eauto.
Qed.

(** *** [Sheet] *)

Lemma sheet_new_sim (h : heap) (name : string)
  (freeze_panes : option CellPosition.t)
  (default_column_width default_row_height : option Q) :
  simulates h
    (Sheet_new name freeze_panes default_column_width default_row_height)
    (Sheet.init name freeze_panes default_column_width default_row_height)
    (fun h' l sheet =>
       (length h <= l)%nat /\ exists o, sheet_inv (length h) l o h' sheet).
Proof.
  apply steps_simulates. unfold Sheet_new, Sheet.init.
  do 5 apply steps_alloc.
  set (o := {| sh_name := name; sh_tables := length h |}).
  set (h' := ((((h ++ _) ++ _) ++ _) ++ _) ++ _).
  assert (extends h h') as He.
  { unfold h'. rewrite <- !app_assoc. apply extends_app. }
  destruct (31 <? String.length name)%nat; [apply steps_raise, He |].
  destruct (existsb _ Sheet.invalid_chars); [apply steps_raise, He |].
  apply steps_ret; [exact He |].
  assert (h' !! length h = Some (OList KTables [])) as Ht.
  { eapply extends_lookup; [| apply alloc_lookup]. unfold h'. extends_tail. }
  assert (h' !! length (h ++ [OList KTables []]) = Some (OPosDict ∅)) as Hc.
  { eapply extends_lookup; [| apply alloc_lookup]. unfold h'. extends_tail. }
  assert (h' !! length ((h ++ [OList KTables []]) ++ [OPosDict ∅])
          = Some (ONumDict ∅)) as Hcw.
  { eapply extends_lookup; [| apply alloc_lookup]. unfold h'. extends_tail. }
  assert (h' !! length (((h ++ [OList KTables []]) ++ [OPosDict ∅])
                          ++ [ONumDict ∅]) = Some (ONumDict ∅)) as Hrh.
  { eapply extends_lookup; [| apply alloc_lookup]. unfold h'. extends_tail. }
  assert (h' !! length ((((h ++ [OList KTables []]) ++ [OPosDict ∅])
                           ++ [ONumDict ∅]) ++ [ONumDict ∅])
          = Some (OSheet o)) as Hs.
  { unfold h'. apply alloc_lookup. }
  split; [rewrite !length_app; lia |].
  exists o. split; [exact Hs |].
  split; [simpl; lia |].
  split; [simpl; rewrite !length_app; lia |].
  split; [simpl; rewrite !length_app; simpl; lia |].
  exists o, ∅. split; [exact Hs |]. simpl.
  split; [reflexivity |].
  split; [exists []; split; [exact Ht | constructor] |].
  split; [exact Hc |].
  split; [apply map_Forall2_empty |].
  split; [reflexivity |].
  split; [exact Hcw |].
  split; [exact Hrh |].
  split; reflexivity.
Qed.

Lemma sheet_add_table_steps (h0 h : heap) (l : loc) (o : sheet_obj)
  (sheet : Sheet.t) (tl : loc) (table : Table.t) :
  extends h0 h ->
  sheet_inv (length h0) l o h sheet ->
  is_table h tl table ->
  steps h0 h (Sheet_add_table l tl) (Ok (Sheet.add_table sheet table))
    (fun h' _ sheet' =>
       sheet_inv (length h0) l o h' sheet' /\ is_table h' tl table).
Proof.
  intros He (Hl & Hfresh1 & Hfresh2 & Hne & Hsheet) Htable.
  pose proof Hsheet
    as (o' & cells & Hl' & Hn & (tlocs & Htl & Htables) & Hc & Hcells & Hf
        & Hcw & Hrh & Hd1 & Hd2).
  assert (o' = o) as -> by congruence.
  unfold Sheet_add_table.
  eapply steps_load; [exact Hl | reflexivity |].
  apply (steps_list_append h0 h KTables (sh_tables o) tl tlocs);
    [exact Htl | exact He | exact Hfresh1 |].
  assert (forall y oy, h !! y = Some oy -> oy <> OList KTables tlocs ->
            <[sh_tables o := OList KTables (tlocs ++ [tl])]> h !! y = Some oy)
    as Hother.
  { intros y oy Hy Hoy. eapply store_lookup_other; [exact Htl | exact Hy |].
    congruence. }
  assert (forall y T, is_table h y T ->
            is_table (<[sh_tables o := OList KTables (tlocs ++ [tl])]> h) y T)
    as Htab.
  { intros y T. eapply is_table_store_part; [exact Htl | reflexivity]. }
  split; [| apply Htab, Htable].
  split; [apply Hother; [exact Hl | discriminate] |].
  repeat (split; [assumption |]).
  exists o, cells. split; [apply Hother; [exact Hl | discriminate] |].
  simpl. split; [exact Hn |].
  split.
  { exists (tlocs ++ [tl]). split; [eapply store_lookup, Htl |].
    apply Forall2_app.
    - eapply Forall2_impl; [exact Htables |]. exact Htab.
    - constructor; [apply Htab, Htable | constructor]. }
  split; [apply Hother; [exact Hc | discriminate] |].
  split.
  { intros i. specialize (Hcells i). destruct Hcells; constructor.
    eapply is_cell_store_part; [exact Htl | reflexivity | assumption]. }
  split; [exact Hf |].
  split; [apply Hother; [exact Hcw | discriminate] |].
  split; [apply Hother; [exact Hrh | discriminate] |].
  split; assumption.
Qed.

Lemma sheet_set_column_width_steps (h0 h : heap) (l : loc) (o : sheet_obj)
  (sheet : Sheet.t) (column : Z) (width : Q) :
  extends h0 h ->
  sheet_inv (length h0) l o h sheet ->
  steps h0 h (Sheet_set_column_width l column width)
    (Sheet.set_column_width sheet column width)
    (fun h' _ sheet' => sheet_inv (length h0) l o h' sheet').
Proof.
  intros He (Hl & Hfresh1 & Hfresh2 & Hne & Hsheet).
  pose proof Hsheet
    as (o' & cells & Hl' & Hn & (tlocs & Htl & Htables) & Hc & Hcells & Hf
        & Hcw & Hrh & Hd1 & Hd2).
  assert (o' = o) as -> by congruence.
  unfold Sheet_set_column_width, Sheet.set_column_width.
  destruct (Qle_bool width 0); [apply steps_raise, He |].
  eapply steps_load; [exact Hl | reflexivity |].
  eapply steps_load; [exact Hcw | reflexivity |].
  set (new := ONumDict (<[column := width]> (Sheet.column_widths sheet))).
  exists (<[sh_column_widths o := new]> h). split.
  { apply extends_store; assumption. }
  exists tt. split; [reflexivity |].
  assert (forall y oy, h !! y = Some oy ->
            (forall m, oy <> ONumDict m) ->
            <[sh_column_widths o := new]> h !! y = Some oy) as Hother.
  { intros y oy Hy Hoy. eapply store_lookup_other; [exact Hcw | exact Hy |].
    intros E. eapply Hoy. symmetry. exact E. }
  split; [apply Hother; [exact Hl | discriminate] |].
  repeat (split; [assumption |]).
  exists o, cells. split; [apply Hother; [exact Hl | discriminate] |].
  simpl. split; [exact Hn |].
  split.
  { exists tlocs. split; [apply Hother; [exact Htl | discriminate] |].
    eapply Forall2_impl; [exact Htables |]. intros y T.
    eapply is_table_store_part; [exact Hcw | reflexivity]. }
  split; [apply Hother; [exact Hc | discriminate] |].
  split.
  { intros i. specialize (Hcells i). destruct Hcells; constructor.
    eapply is_cell_store_part; [exact Hcw | reflexivity | assumption]. }
  split; [exact Hf |].
  split; [eapply store_lookup, Hcw |].
  split.
  { rewrite list_lookup_insert_ne by exact Hne. exact Hrh. }
  split; assumption.
Qed.

End HeapSheet.

Section HeapMergeSheet.
Import Heap.

Lemma steps_bind_ok {A B A' B' : Type} (h0 h : heap) (m : M A)
  (k : A -> M A') (b : B) (p : result B')
  (R : heap -> A -> B -> Prop) (R' : heap -> A' -> B' -> Prop) :
  steps h0 h m (Ok b) R ->
  (forall h1 a, extends h0 h1 -> R h1 a b -> steps h0 h1 (k a) p R') ->
  steps h0 h (bind m k) p R'.
Proof.
  intros (h1 & He & a & Hrun & HR) Hk.
  destruct (Hk h1 a He HR) as (h2 & He2 & Hk').
  exists h2. split; [exact He2 |].
  rewrite (bind_ok _ _ _ _ _ Hrun). exact Hk'.
Qed.

(** *** The column widths *)

Lemma column_width_loop_steps (h0 h : heap) (l : loc) (o : sheet_obj)
  (sheet : Sheet.t) (template : loc) (T : TableTemplate.t) :
  is_table_template h0 template T ->
  extends h0 h ->
  sheet_inv (length h0) l o h sheet ->
  steps h0 h (column_width_loop l template)
    (TemplateMerger.column_width_loop sheet T)
    (fun h' _ sheet' => sheet_inv (length h0) l o h' sheet').
Proof.
  intros Ht He Hinv.
  unfold column_width_loop, TemplateMerger.column_width_loop.
  destruct (visible_columns_run _ _ _ Ht) as (columns & Hrun & Hcols).
  eapply steps_silent; [apply Hrun, He |].
  eapply (steps_for_each
            (fun (e : nat * loc) (e' : nat * ColumnDefinition.t) =>
               fst e = fst e' /\ is_column h0 (snd e) (snd e'))
            (sheet_inv (length h0) l o)).
  - intros h1 [i c] [i' C] s He1 [Hi Hc] Hs. simpl in Hi, Hc. subst i'.
    cbn [fst snd].
    eapply steps_load;
      [eapply extends_lookup; [exact He1 | exact Hc] | reflexivity |].
    destruct (truthy_onum (ColumnDefinition.width C)).
    + apply sheet_set_column_width_steps; assumption.
    + apply steps_ret; assumption.
  - apply Forall2_imap_pair, Hcols.
  - exact He.
  - exact Hinv.
Qed.

(** *** The constructors of [merge_sheet] *)

Lemma table_data_new_sim (h : heap) :
  simulates h TableData_new (Ok TableData.empty) is_table_data.
Proof.
  apply steps_simulates. unfold TableData_new.
  do 4 apply steps_alloc.
  set (o := {| td_rows := length h |}).
  set (h' := (((h ++ _) ++ _) ++ _) ++ _).
  exists (h' ++ [OTableData o]). split.
  { unfold h'. extends_tail. }
  exists (length h'). split; [reflexivity |].
  exists o. split; [apply alloc_lookup |]. simpl.
  split.
  { exists []. split; [| constructor].
    eapply extends_lookup; [| apply alloc_lookup]. unfold h'. extends_tail. }
  split.
  { eapply extends_lookup; [| apply alloc_lookup]. unfold h'. extends_tail. }
  split.
  { exists ∅. split; [| apply map_Forall2_empty].
    eapply extends_lookup; [| apply alloc_lookup]. unfold h'. extends_tail. }
  eapply extends_lookup; [| apply alloc_lookup]. unfold h'. extends_tail.
Qed.

Lemma get_table_data_run (h : heap) (data : loc) (name : string)
  (D : SheetData.t) :
  is_sheet_data h data D ->
  exists found,
    SheetData_get_table_data data name h = (h, Ok found) /\
    is_opt is_table_data h found (SheetData.get_table_data D name).
Proof.
  intros (o & Hl & (refs & Hrefs & Hmap) & _).
  exists (refs !! name). split; [| apply Hmap].
  unfold SheetData_get_table_data.
  rewrite (bind_ok _ _ _ _ _ (load_ok as_sheet_data _ _ _ _ Hl eq_refl)).
  rewrite (bind_ok _ _ _ _ _ (load_ok as_refdict _ _ _ _ Hrefs eq_refl)).
  reflexivity.
Qed.

Lemma table_template_new_sim (h : heap) (template : loc)
  (o : table_template_obj) (T : TableTemplate.t)
  (start_position : CellPosition.t) :
  h !! template = Some (OTableTemplate o) ->
  is_table_template h template T ->
  simulates h
    (TableTemplate_new
       {| tt_name := tt_name o; tt_columns := tt_columns o;
          tt_sections := tt_sections o; tt_title := tt_title o;
          tt_title_style := tt_title_style o;
          tt_header_style := tt_header_style o;
          tt_default_style := tt_default_style o;
          tt_conditional_rules := tt_conditional_rules o;
          tt_start_position := start_position;
          tt_freeze_headers := tt_freeze_headers o;
          tt_show_grid := tt_show_grid o;
          tt_alternate_row_colors := tt_alternate_row_colors o;
          tt_alternate_row_style := tt_alternate_row_style o |})
    (TableTemplate.post_init
       (TableTemplate.mk
          (TableTemplate.name T) (TableTemplate.columns T)
          (TableTemplate.sections T) (TableTemplate.title T)
          (TableTemplate.title_style T) (TableTemplate.header_style T)
          (TableTemplate.default_style T) (TableTemplate.conditional_rules T)
          start_position (TableTemplate.freeze_headers T)
          (TableTemplate.show_grid T) (TableTemplate.alternate_row_colors T)
          (TableTemplate.alternate_row_style T)))
    is_table_template.
Proof.
  intros Hl (o' & Hl' & Hn & Hcols & Hsec & Hti & Hts & Hhs & Hds & Hrules
             & _ & Hfh & Hsg & Harc & Hars).
  assert (o' = o) as -> by congruence.
  apply steps_simulates.
  unfold TableTemplate_new, TableTemplate.post_init. cbn [tt_name tt_columns].
  cbn [TableTemplate.name TableTemplate.columns].
  apply steps_alloc.
  match goal with |- steps _ (h ++ [?x]) _ _ _ => set (new := x) end.
  assert (extends h (h ++ [new])) as He by apply extends_app.
  rewrite Hn.
  destruct (negb (truthy_str (TableTemplate.name T)));
    [apply steps_raise, He |].
  pose proof (mono (R := is_list KColumns is_column) _ _ _ _ He Hcols)
    as (items & Hitems & Hall).
  eapply steps_load_list; [exact Hitems |].
  rewrite (truthy_list_Forall2 _ _ _ Hall).
  destruct (negb (truthy_list (TableTemplate.columns T)));
    [apply steps_raise, He |].
  eapply steps_silent.
  { apply (map_m_load as_column ColumnDefinition.key is_column
             ColumnDefinition.key); [| exact Hall].
    intros c C Hc. exists (OColumn C), C. auto. }
  destruct (negb _); [apply steps_raise, He |].
  apply steps_ret; [exact He |].
  eexists. split; [apply alloc_lookup |]. simpl.
  split; [exact Hn |].
  split; [exists items; auto |].
  split; [eapply (mono (R := is_opt (is_list KSections is_section))); eauto |].
  repeat (split; [assumption |]).
  split; [eapply extends_lookup; eauto |].
  split; [reflexivity |].
  repeat (split; [assumption |]). assumption.
Qed.

End HeapMergeSheet.

Section HeapMergeSheetLoop.
Import Heap.

Lemma steps_lift_bind {A A' B' : Type} (h0 h : heap) (r : result A)
  (k : A -> M A') (kp : A -> result B') (R' : heap -> A' -> B' -> Prop) :
  extends h0 h ->
  (forall a, r = Ok a -> steps h0 h (k a) (kp a) R') ->
  steps h0 h (bind (lift r) k) (result_bind r kp) R'.
Proof.
  intros He Hk. destruct r as [a | e].
  - exact (Hk a eq_refl).
  - exists h. split; [exact He | reflexivity].
Qed.

(** *** One table of the sheet *)

Lemma table_step_steps (h0 h : heap) (data : loc) (D : SheetData.t)
  (l : loc) (o : sheet_obj) (sheet : Sheet.t) (current_row : Z)
  (template : loc) (T : TableTemplate.t) :
  is_sheet_data h0 data D ->
  is_table_template h0 template T ->
  extends h0 h ->
  sheet_inv (length h0) l o h sheet ->
  steps h0 h (table_step data l current_row template)
    (TemplateMerger.table_step D (sheet, current_row) T)
    (fun h' row st =>
       row = snd st /\ sheet_inv (length h0) l o h' (fst st)).
Proof.
  intros Hd Ht He Hinv.
  unfold table_step, TemplateMerger.table_step. cbn [fst snd]. cbv zeta.
  pose proof Ht as (ot & Hlt & Hname & _).
  eapply steps_load;
    [eapply extends_lookup; [exact He | exact Hlt] | reflexivity |].
  destruct (get_table_data_run h data (tt_name ot) D) as (found & Hrun & Hfound);
    [eapply mono; eauto |].
  eapply steps_silent; [exact Hrun |].
  rewrite Hname in Hfound.
  eapply (steps_bind_sim_ok _ _ _ _
            (match SheetData.get_table_data D (TableTemplate.name T) with
             | Some table_data => table_data
             | None => TableData.empty
             end) _ is_table_data); [exact He | |].
  { destruct Hfound as [td TD Htd |].
    - apply steps_simulates, steps_ret; [apply extends_refl | exact Htd].
    - apply table_data_new_sim. }
  intros fresh1 table_data Htd.
  set (h1 := h ++ fresh1) in *.
  assert (extends h0 h1) as He1
    by (eapply extends_trans; [exact He | apply extends_app]).
  apply steps_lift_bind; [exact He1 |].
  intros start_position _.
  eapply steps_bind_sim; [exact He1 | |].
  { eapply table_template_new_sim.
    - eapply extends_lookup; [exact He1 | exact Hlt].
    - eapply mono; [exact He1 | exact Ht]. }
  intros fresh2 twp TWP Htwp.
  set (h2 := h1 ++ fresh2) in *.
  assert (extends h0 h2) as He2
    by (eapply extends_trans; [exact He1 | apply extends_app]).
  eapply steps_bind_sim; [exact He2 | |].
  { apply merge_table_sim; [exact Htwp |].
    eapply mono; [apply extends_app | exact Htd]. }
  intros fresh3 table Tb [_ Htb].
  set (h3 := h2 ++ fresh3) in *.
  assert (extends h h3) as Hehh3.
  { unfold h3, h2, h1. extends_tail. }
  assert (extends h0 h3) as He3
    by (eapply extends_trans; [exact He | exact Hehh3]).
  eapply steps_bind_ok.
  { apply (sheet_add_table_steps h0 h3 l o sheet table Tb);
      [exact He3 | | exact Htb].
    eapply sheet_inv_extends; [exact Hehh3 | exact Hinv]. }
  intros h4 [] He4 [Hinv4 Htb4].
  eapply steps_silent; [apply table_has_title_run, Htb4 |].
  eapply steps_silent; [apply table_has_headers_run, Htb4 |].
  eapply steps_silent; [apply table_row_count_run, Htb4 |].
  eapply steps_bind.
  { apply column_width_loop_steps; [exact Ht | exact He4 | exact Hinv4]. }
  intros h5 [] sheet5 He5 Hinv5.
  apply steps_ret; [exact He5 |]. split; [reflexivity | exact Hinv5].
Qed.

(** *** [merge_sheet] *)

Lemma merge_sheet_sim (h : heap) (template data : loc)
  (T : SheetTemplate.t) (D : SheetData.t) :
  is_sheet_template h template T -> is_sheet_data h data D ->
  simulates h (merge_sheet template data) (TemplateMerger.merge_sheet T D)
            (fresh_from (length h) is_sheet).
Proof.
  intros Ht Hd. apply steps_simulates.
  unfold merge_sheet, TemplateMerger.merge_sheet.
  pose proof Ht as (ot & Hl & Hname & (items & Hitems & Hall) & Hfp & Hdcw
                    & Hdrh & _).
  eapply steps_load; [exact Hl | reflexivity |].
  rewrite Hname, Hfp, Hdcw, Hdrh.
  eapply steps_bind_sim; [apply extends_refl | apply sheet_new_sim |].
  intros fresh l sheet [Hfresh [o Hinv]].
  assert (extends h (h ++ fresh)) as He by apply extends_app.
  eapply steps_load_list;
    [eapply extends_lookup; [exact He | exact Hitems] |].
  eapply steps_bind.
  - apply (steps_fold_m (is_table_template h)
             (fun h' row st =>
                row = snd st /\ sheet_inv (length h) l o h' (fst st))
             (table_step data l) (TemplateMerger.table_step D) h).
    + intros h1 a x row [sheet1 row1] He1 Hax [Hrow Hinv1].
      simpl in Hrow, Hinv1. subst row.
      apply table_step_steps; assumption.
    + exact Hall.
    + exact He.
    + split; [reflexivity | exact Hinv].
  - intros h1 row st He1 [_ Hinv1].
    apply steps_ret; [exact He1 |].
    split; [exact Hfresh | apply Hinv1].
Qed.

End HeapMergeSheetLoop.

Section HeapSpreadsheet.
Import Heap.

Lemma spreadsheet_inv_extends (n : nat) (l : loc) (h h' : heap)
  (sp : Spreadsheet.t) :
  extends h h' -> spreadsheet_inv n l h sp -> spreadsheet_inv n l h' sp.
Proof.
  intros He (Hfresh & Hsheets & Hsp).
  split; [exact Hfresh |]. split; [| eapply mono; eauto].
  intros o Ho. apply Hsheets.
  destruct Hsp as (o' & Hl & _).
  pose proof (extends_lookup _ _ _ _ He Hl). congruence.
Qed.

(** *** [Spreadsheet] *)

Lemma spreadsheet_new_sim (h : heap) (metadata : loc)
  (Metadata : gmap string PyValue) (active_sheet : option string) :
  h !! metadata = Some (OStrDict Metadata) ->
  simulates h (Spreadsheet_new metadata active_sheet)
    (Ok (Spreadsheet.mk [] Metadata active_sheet))
    (fun h' l sp => spreadsheet_inv (length h) l h' sp).
Proof.
  intros Hm. apply steps_simulates. unfold Spreadsheet_new.
  apply steps_alloc.
  set (o := {| sp_sheets := length h; sp_metadata := metadata;
               sp_active_sheet := active_sheet |}).
  set (h' := h ++ [OList KSheets []]).
  exists (h' ++ [OSpreadsheet o]). split; [unfold h'; extends_tail |].
  exists (length h'). split; [reflexivity |].
  split; [unfold h'; rewrite length_app; lia |].
  split.
  { intros o' Ho'. rewrite alloc_lookup in Ho'.
    assert (o' = o) as -> by congruence. simpl. lia. }
  exists o. split; [apply alloc_lookup |]. simpl.
  split.
  { exists []. split; [| constructor].
    eapply extends_lookup; [apply extends_app | apply alloc_lookup]. }
  split; [| reflexivity].
  eapply extends_lookup; [| exact Hm]. unfold h'. extends_tail.
Qed.

Lemma find_sheet_run (h : heap) (name : string) (items : list loc)
  (sheets : list Sheet.t) :
  Forall2 (is_sheet h) items sheets ->
  exists found,
    find_m (fun sheet => let* s := load as_sheet sheet in
                         ret (String.eqb (sh_name s) name)) items h
    = (h, Ok found) /\
    is_opt is_sheet h found
      (find (fun sheet => String.eqb (Sheet.name sheet) name) sheets).
Proof.
  induction 1 as [| l sheet items sheets Hl _ IH]; simpl.
  - exists None. split; [reflexivity | constructor].
  - pose proof Hl as (o & cells & Hlo & Hn & _).
    rewrite (bind_ok _ _ _ _ _
               (bind_ok _ _ _ _ _ (load_ok as_sheet _ _ _ _ Hlo eq_refl))).
    unfold ret at 1. rewrite Hn.
    destruct (String.eqb (Sheet.name sheet) name).
    + exists (Some l). split; [reflexivity | constructor; exact Hl].
    + exact IH.
Qed.

Lemma get_sheet_run (h : heap) (l : loc) (name : string)
  (sp : Spreadsheet.t) :
  is_spreadsheet h l sp ->
  exists found,
    Spreadsheet_get_sheet l name h = (h, Ok found) /\
    is_opt is_sheet h found (Spreadsheet.get_sheet sp name).
Proof.
  intros (o & Hl & (items & Hitems & Hall) & _).
  destruct (find_sheet_run h name _ _ Hall) as (found & Hrun & Hfound).
  exists found. split; [| exact Hfound].
  unfold Spreadsheet_get_sheet.
  rewrite (bind_ok _ _ _ _ _ (load_ok as_spreadsheet _ _ _ _ Hl eq_refl)).
  rewrite (bind_ok _ _ _ _ _ (load_list_ok _ _ _ _ Hitems)).
  exact Hrun.
Qed.

Lemma spreadsheet_add_sheet_steps (h0 h : heap) (l : loc)
  (sp : Spreadsheet.t) (sl : loc) (sheet : Sheet.t) :
  extends h0 h ->
  spreadsheet_inv (length h0) l h sp ->
  is_sheet h sl sheet ->
  steps h0 h (Spreadsheet_add_sheet l sl) (Spreadsheet.add_sheet sp sheet)
    (fun h' _ sp' => spreadsheet_inv (length h0) l h' sp').
Proof.
  intros He (Hfresh & Hsheets & Hsp) Hsheet.
  pose proof Hsp as (o & Hl & (items & Hitems & Hall) & Hmeta & Hactive).
  pose proof Hsheet as (os & cells & Hsl & Hname & _).
  specialize (Hsheets o Hl).
  unfold Spreadsheet_add_sheet, Spreadsheet.add_sheet.
  eapply steps_load; [exact Hsl | reflexivity |].
  destruct (get_sheet_run h l (sh_name os) sp Hsp) as (found & Hrun & Hfound).
  eapply steps_silent; [exact Hrun |].
  rewrite Hname in *.
  destruct Hfound as [x y _ |]; [apply steps_raise, He |].
  eapply steps_load; [exact Hl | reflexivity |].
  eapply steps_list_append_then; [exact Hitems |].
  set (h1 := <[sp_sheets o := OList KSheets (items ++ [sl])]> h).
  assert (extends h0 h1) as He1 by (apply extends_store; assumption).
  assert (h1 !! l = Some (OSpreadsheet o)) as Hl1.
  { eapply store_lookup_other; [exact Hitems | exact Hl | discriminate]. }
  assert (forall y S, is_sheet h y S -> is_sheet h1 y S) as Hframe.
  { intros y S. eapply is_sheet_store_part; [exact Hitems | reflexivity]. }
  assert (is_list KSheets is_sheet h1 (sp_sheets o)
            (Spreadsheet.sheets sp ++ [sheet])) as Hlist.
  { exists (items ++ [sl]). split; [eapply store_lookup, Hitems |].
    apply Forall2_app.
    - eapply Forall2_impl; [exact Hall | exact Hframe].
    - constructor; [apply Hframe, Hsheet | constructor]. }
  assert (h1 !! sp_metadata o = Some (OStrDict (Spreadsheet.metadata sp)))
    as Hmeta1.
  { eapply store_lookup_other; [exact Hitems | exact Hmeta | discriminate]. }
  eapply steps_load; [exact Hl1 | reflexivity |].
  rewrite Hactive.
  destruct (Spreadsheet.active_sheet sp) as [a |] eqn:Ea.
  - apply steps_ret; [exact He1 |].
    split; [exact Hfresh |]. split.
    { intros o' Ho'. assert (o' = o) as -> by congruence. exact Hsheets. }
    exists o. split; [exact Hl1 |]. simpl.
    split; [exact Hlist |]. split; [exact Hmeta1 |].
    rewrite Hactive. reflexivity.
  - set (o2 := {| sp_sheets := sp_sheets o; sp_metadata := sp_metadata o;
                  sp_active_sheet := Some (Sheet.name sheet) |}).
    exists (<[l := OSpreadsheet o2]> h1). split.
    { apply extends_store; assumption. }
    exists tt. split; [reflexivity |].
    split; [exact Hfresh |]. split.
    { intros o' Ho'. rewrite (store_lookup _ _ _ _ Hl1) in Ho'.
      assert (o' = o2) as -> by congruence. exact Hsheets. }
    exists o2. split; [eapply store_lookup, Hl1 |]. simpl.
    split.
    { destruct Hlist as (items' & Hitems' & Hall').
      exists items'. split.
      - eapply store_lookup_other; [exact Hl1 | exact Hitems' | discriminate].
      - eapply Forall2_impl; [exact Hall' |]. intros y S.
        eapply is_sheet_store_part; [exact Hl1 | reflexivity]. }
    split; [| reflexivity].
    eapply store_lookup_other; [exact Hl1 | exact Hmeta1 | discriminate].
Qed.

(** *** The data of one sheet *)

Lemma sheet_data_new_sim (h : heap) :
  simulates h SheetData_new (Ok SheetData.empty) is_sheet_data.
Proof.
  apply steps_simulates. unfold SheetData_new.
  do 2 apply steps_alloc.
  set (o := {| sd_table_data := length h |}).
  set (h' := (h ++ _) ++ _).
  exists (h' ++ [OSheetData o]). split; [unfold h'; extends_tail |].
  exists (length h'). split; [reflexivity |].
  exists o. split; [apply alloc_lookup |]. simpl. split.
  { exists ∅. split; [| apply map_Forall2_empty].
    eapply extends_lookup; [| apply alloc_lookup]. unfold h'. extends_tail. }
  eapply extends_lookup; [| apply alloc_lookup]. unfold h'. extends_tail.
Qed.

Lemma get_sheet_data_run (h : heap) (data : loc) (name : string)
  (D : SpreadsheetData.t) :
  is_spreadsheet_data h data D ->
  exists found,
    SpreadsheetData_get_sheet_data data name h = (h, Ok found) /\
    is_opt is_sheet_data h found (SpreadsheetData.get_sheet_data D name).
Proof.
  intros (o & Hl & (refs & Hrefs & Hmap) & _).
  exists (refs !! name). split; [| apply Hmap].
  unfold SpreadsheetData_get_sheet_data.
  rewrite (bind_ok _ _ _ _ _
             (load_ok as_spreadsheet_data _ _ _ _ Hl eq_refl)).
  rewrite (bind_ok _ _ _ _ _ (load_ok as_refdict _ _ _ _ Hrefs eq_refl)).
  reflexivity.
Qed.

(** *** One sheet of the workbook *)

Lemma sheet_step_steps (h0 h : heap) (data : loc) (D : SpreadsheetData.t)
  (l : loc) (sp : Spreadsheet.t) (template : loc) (T : SheetTemplate.t) :
  is_spreadsheet_data h0 data D ->
  is_sheet_template h0 template T ->
  extends h0 h ->
  spreadsheet_inv (length h0) l h sp ->
  steps h0 h (sheet_step data l template)
    (TemplateMerger.sheet_step D sp T)
    (fun h' _ sp' => spreadsheet_inv (length h0) l h' sp').
Proof.
  intros Hd Ht He Hinv.
  unfold sheet_step, TemplateMerger.sheet_step. cbv zeta.
  pose proof Ht as (ot & Hlt & Hname & _).
  eapply steps_load;
    [eapply extends_lookup; [exact He | exact Hlt] | reflexivity |].
  destruct (get_sheet_data_run h data (sht_name ot) D)
    as (found & Hrun & Hfound); [eapply mono; eauto |].
  eapply steps_silent; [exact Hrun |].
  rewrite Hname in Hfound.
  eapply (steps_bind_sim_ok _ _ _ _
            (match SpreadsheetData.get_sheet_data D (SheetTemplate.name T) with
             | Some sheet_data => sheet_data
             | None => SheetData.empty
             end) _ is_sheet_data); [exact He | |].
  { destruct Hfound as [sd SD Hsd |].
    - apply steps_simulates, steps_ret; [apply extends_refl | exact Hsd].
    - apply sheet_data_new_sim. }
  intros fresh1 sheet_data Hsd.
  set (h1 := h ++ fresh1) in *.
  assert (extends h0 h1) as He1
    by (eapply extends_trans; [exact He | apply extends_app]).
  eapply steps_bind_sim; [exact He1 | |].
  { apply merge_sheet_sim; [| exact Hsd]. eapply mono; [exact He1 | exact Ht]. }
  intros fresh2 sheet Sheet [_ Hsheet].
  assert (extends h (h1 ++ fresh2)) as Hehh2 by (unfold h1; extends_tail).
  apply spreadsheet_add_sheet_steps.
  - eapply extends_trans; [exact He | exact Hehh2].
  - eapply spreadsheet_inv_extends; [exact Hehh2 | exact Hinv].
  - exact Hsheet.
Qed.

(** *** [merge_spreadsheet] *)

Lemma merge_spreadsheet_sim (h : heap) (template data : loc)
  (T : SpreadsheetTemplate.t) (D : SpreadsheetData.t) :
  is_spreadsheet_template h template T -> is_spreadsheet_data h data D ->
  simulates h (merge_spreadsheet template data)
    (TemplateMerger.merge_spreadsheet T D)
    (fresh_from (length h) is_spreadsheet).
Proof.
  intros Ht Hd. apply steps_simulates.
  unfold merge_spreadsheet, TemplateMerger.merge_spreadsheet. cbv zeta.
  pose proof Ht as (ot & Hl & (items & Hitems & Hall) & Hmeta & Hactive).
  eapply steps_load; [exact Hl | reflexivity |].
  eapply steps_load; [exact Hmeta | reflexivity |].
  apply steps_alloc.
  set (h1 := h ++ [OStrDict (SpreadsheetTemplate.metadata T)]).
  assert (extends h h1) as He1 by apply extends_app.
  rewrite Hactive.
  eapply steps_bind_sim_ok;
    [exact He1 | apply spreadsheet_new_sim, alloc_lookup |].
  intros fresh l Hinv.
  assert (extends h (h1 ++ fresh)) as He2 by (unfold h1; extends_tail).
  assert (spreadsheet_inv (length h) l (h1 ++ fresh)
            (Spreadsheet.mk [] (SpreadsheetTemplate.metadata T)
                            (SpreadsheetTemplate.active_sheet T))) as Hinv'.
  { destruct Hinv as (Hfresh & Hsheets & Hsp).
    pose proof (extends_length _ _ He1).
    split; [lia |]. split; [| exact Hsp].
    intros o Ho. specialize (Hsheets o Ho). lia. }
  eapply steps_load_list;
    [eapply extends_lookup; [exact He2 | exact Hitems] |].
  rewrite <- (result_bind_ok_r (for_state _ _ _)).
  eapply steps_bind.
  - apply (steps_for_each (is_sheet_template h)
             (spreadsheet_inv (length h) l)
             (sheet_step data l) (TemplateMerger.sheet_step D) h).
    + intros h2 a x sp He' Hax Hsp. apply sheet_step_steps; assumption.
    + exact Hall.
    + exact He2.
    + exact Hinv'.
  - intros h2 [] sp He' (Hfresh & _ & Hsp).
    apply steps_ret; [exact He' |]. split; assumption.
Qed.

End HeapSpreadsheet.

(** ** The merge does not touch its inputs, and depends on nothing else *)

Section HeapPurity.
Import Heap.

(** C9: [merge_spreadsheet] is pure.  The template and the data are object
    graphs in the store, reading as the values [T] and [D]; computed
    callables are functions of the row they are given.  A call only
    allocates: the store it leaves is the store it found followed by new
    objects, so every object that existed before the call -- the template,
    the data and all they refer to -- is unchanged.  Two calls, the second
    one on inputs equal to those of the first (the same objects or others
    reading as the same values), raise the same exception or return two
    workbooks that read as the same value, which is the one the
    value-level [merge_spreadsheet] computes from [T] and [D]. *)
Theorem merge_spreadsheet_pure (h : heap) (template data template' data' : loc)
  (T : SpreadsheetTemplate.t) (D : SpreadsheetData.t) :
  is_spreadsheet_template h template T ->
  is_spreadsheet_data h data D ->
  is_spreadsheet_template h template' T ->
  is_spreadsheet_data h data' D ->
  exists fresh1 fresh2,
    let h1 := h ++ fresh1 in
    let h2 := h1 ++ fresh2 in
    (is_spreadsheet_template h2 template T /\
     is_spreadsheet_data h2 data D /\
     is_spreadsheet_template h2 template' T /\
     is_spreadsheet_data h2 data' D) /\
    match TemplateMerger.merge_spreadsheet T D with
    | Ok merged =>
        exists first second,
          merge_spreadsheet template data h = (h1, Ok first) /\
          merge_spreadsheet template' data' h1 = (h2, Ok second) /\
          is_spreadsheet h2 first merged /\
          is_spreadsheet h2 second merged
    | Err e =>
        merge_spreadsheet template data h = (h1, Err e) /\
        merge_spreadsheet template' data' h1 = (h2, Err e)
    end.
Proof.
  intros Ht Hd Ht' Hd'.
  destruct (merge_spreadsheet_sim h template data T D Ht Hd) as [fresh1 H1].
  assert (extends h (h ++ fresh1)) as He1 by apply extends_app.
  destruct (merge_spreadsheet_sim (h ++ fresh1) template' data' T D)
    as [fresh2 H2]; [eapply mono; eauto | eapply mono; eauto |].
  assert (extends h ((h ++ fresh1) ++ fresh2)) as He2 by extends_tail.
  exists fresh1, fresh2. cbv zeta. split.
  { repeat split; eapply mono; eauto. }
  destruct (TemplateMerger.merge_spreadsheet T D) as [merged | e].
  - destruct H1 as (first & Hrun1 & _ & Hfirst).
    destruct H2 as (second & Hrun2 & _ & Hsecond).
    exists first, second. repeat split; try assumption.
    eapply mono; [apply extends_app | exact Hfirst].
  - split; assumption.
Qed.

Lemma merge_spreadsheet_pure_sample :
  exists fresh1 fresh2,
    let h1 := SampleStore.store ++ fresh1 in
    let h2 := h1 ++ fresh2 in
    (is_spreadsheet_template h2 SampleStore.template SampleStore.workbook /\
     is_spreadsheet_data h2 SampleStore.data SampleStore.workbook_data /\
     is_spreadsheet_template h2 SampleStore.template SampleStore.workbook /\
     is_spreadsheet_data h2 SampleStore.data SampleStore.workbook_data) /\
    match TemplateMerger.merge_spreadsheet SampleStore.workbook
            SampleStore.workbook_data with
    | Ok merged =>
        exists first second,
          merge_spreadsheet SampleStore.template SampleStore.data
            SampleStore.store = (h1, Ok first) /\
          merge_spreadsheet SampleStore.template SampleStore.data h1
            = (h2, Ok second) /\
          is_spreadsheet h2 first merged /\
          is_spreadsheet h2 second merged
    | Err e =>
        merge_spreadsheet SampleStore.template SampleStore.data
          SampleStore.store = (h1, Err e) /\
        merge_spreadsheet SampleStore.template SampleStore.data h1
          = (h2, Err e)
    end.
Proof.
  assert (is_spreadsheet_template SampleStore.store SampleStore.template
            SampleStore.workbook) as Ht.
  { repeat first [reflexivity | econstructor]. }
  assert (is_spreadsheet_data SampleStore.store SampleStore.data
            SampleStore.workbook_data) as Hd.
  { repeat first [reflexivity | apply map_Forall2_empty
                 | apply map_Forall2_insert_2 | econstructor]. }
  exact (merge_spreadsheet_pure SampleStore.store SampleStore.template
           SampleStore.data SampleStore.template SampleStore.data
           SampleStore.workbook SampleStore.workbook_data Ht Hd Ht Hd).
Defined.

End HeapPurity.

(** * Further properties of the model *)

(** ** Ranges of cells *)

Lemma in_int_range (start stop z : Z) :
  In z (int_range start stop) <-> start <= z < stop.
Proof.
  unfold int_range. rewrite in_map_iff. split.
  - intros (k & <- & Hk). apply in_seq in Hk. lia.
  - intros Hz. exists (Z.to_nat (z - start)). split; [lia |].
    apply in_seq. lia.
Qed.

Lemma int_range_length (start stop : Z) :
  length (int_range start stop) = Z.to_nat (stop - start).
Proof. unfold int_range. rewrite length_map, length_seq. reflexivity. Qed.

Lemma NoDup_map_inj {A B : Type} (f : A -> B) (l : list A) :
  (forall x y, f x = f y -> x = y) -> NoDup l -> NoDup (map f l).
Proof.
  intros Hinj. induction 1 as [| x l Hx _ IH]; simpl; constructor; [| exact IH].
  rewrite list_elem_of_In, in_map_iff. intros (y & Heq & Hin).
  apply Hinj in Heq. subst y. apply Hx, list_elem_of_In, Hin.
Qed.

Lemma int_range_NoDup (start stop : Z) : NoDup (int_range start stop).
Proof.
  unfold int_range. apply NoDup_map_inj; [intros x y; lia | apply NoDup_seq].
Qed.

Lemma positions_of_row (row : Z) (cols : list Z) (yielded : list CellPosition.t) :
  1 <= row -> Forall (fun col => 1 <= col) cols ->
  for_state
    (fun yielded col =>
       do position <- CellPosition.init row col;
       Ok (yielded ++ [position]))
    cols yielded
  = Ok (yielded ++ map (CellPosition.mk row) cols).
Proof.
  intros Hrow Hcols. revert yielded.
  induction Hcols as [| col cols Hcol _ IH]; intros yielded; simpl.
  - rewrite app_nil_r. reflexivity.
  - rewrite cell_position_init_ok by lia. simpl.
    rewrite IH, <- app_assoc. reflexivity.
Qed.

Lemma positions_of_rows (rows cols : list Z) (yielded : list CellPosition.t) :
  Forall (fun row => 1 <= row) rows -> Forall (fun col => 1 <= col) cols ->
  for_state
    (fun yielded row =>
       for_state
         (fun yielded col =>
            do position <- CellPosition.init row col;
            Ok (yielded ++ [position]))
         cols yielded)
    rows yielded
  = Ok (yielded ++ flat_map (fun row => map (CellPosition.mk row) cols) rows).
Proof.
  intros Hrows Hcols. revert yielded.
  induction Hrows as [| row rows Hrow _ IH]; intros yielded; simpl.
  - rewrite app_nil_r. reflexivity.
  - rewrite positions_of_row by assumption. simpl.
    rewrite IH, <- app_assoc. reflexivity.
Qed.

Lemma flat_map_rows_NoDup (rows cols : list Z) :
  NoDup rows -> NoDup cols ->
  NoDup (flat_map (fun row => map (CellPosition.mk row) cols) rows).
Proof.
  intros Hrows Hcols. induction Hrows as [| row rows Hnotin _ IH]; simpl.
  - constructor.
  - apply NoDup_app. split; [| split; [| exact IH]].
    + apply NoDup_map_inj; [| exact Hcols]. intros x y H. congruence.
    + intros p Hp Hq. apply list_elem_of_In in Hp, Hq.
      apply in_map_iff in Hp as (c & <- & _).
      apply in_flat_map in Hq as (row' & Hrow' & Hq).
      apply in_map_iff in Hq as (c' & Heq & _).
      apply Hnotin, list_elem_of_In. congruence.
Qed.

Lemma flat_map_rows_length (rows cols : list Z) :
  length (flat_map (fun row => map (CellPosition.mk row) cols) rows)
  = (length rows * length cols)%nat.
Proof.
  induction rows as [| row rows IH]; simpl; [reflexivity |].
  rewrite length_app, length_map, IH. reflexivity.
Qed.

(** X1: a range whose corners are valid positions, the first not after the
    second, yields its positions without raising: row by row and, in a row,
    column by column.  A position is yielded exactly when [contains] holds
    for it, no position is yielded twice, and their number is
    [cell_count]. *)
Theorem iter_positions_covers (r : CellRange.t) :
  valid_range r ->
  CellRange.iter_positions r = Ok (row_major r) /\
  (forall p, p ∈ row_major r <-> CellRange.contains r p = true) /\
  NoDup (row_major r) /\
  Z.of_nat (length (row_major r)) = CellRange.cell_count r.
Proof.
  intros ((Hr1 & Hc1) & _ & Hrows & Hcols).
  split; [| split; [| split]].
  - unfold CellRange.iter_positions, row_major.
    rewrite positions_of_rows; [reflexivity | |];
      apply List.Forall_forall; intros z Hz; apply in_int_range in Hz; lia.
  - intros [row col]. unfold row_major, CellRange.contains. simpl.
    rewrite list_elem_of_In, in_flat_map. split.
    + intros (row' & Hrow' & Hp). apply in_map_iff in Hp as (col' & Heq & Hcol').
      injection Heq as -> ->.
      apply in_int_range in Hrow', Hcol'.
      repeat (apply andb_true_intro; split); apply Z.leb_le; lia.
    + intros H. repeat (apply andb_prop in H as [H ?]).
      repeat match goal with
             | H : (_ <=? _) = true |- _ => apply Z.leb_le in H
             | H : _ && _ = true |- _ => apply andb_prop in H as [? ?]
             end.
      exists row. split; [apply in_int_range; lia |].
      apply in_map_iff. exists col. split; [reflexivity |].
      apply in_int_range; lia.
  - apply flat_map_rows_NoDup; apply int_range_NoDup.
  - unfold row_major. rewrite flat_map_rows_length, !int_range_length.
    unfold CellRange.cell_count, CellRange.row_count, CellRange.column_count.
    rewrite Nat2Z.inj_mul, !Z2Nat.id by lia. lia.
Qed.

Lemma iter_positions_covers_B2_C4 :
  let r := CellRange.mk (CellPosition.mk 2 2) (CellPosition.mk 4 3) in
  CellRange.iter_positions r = Ok (row_major r) /\
  (forall p, p ∈ row_major r <-> CellRange.contains r p = true) /\
  NoDup (row_major r) /\
  Z.of_nat (length (row_major r)) = CellRange.cell_count r.
Proof.
  apply (iter_positions_covers
           (CellRange.mk (CellPosition.mk 2 2) (CellPosition.mk 4 3))).
  unfold valid_range, valid_position. simpl. lia.
Defined.

(** *** Ranges in A1 notation *)

Lemma list_ascii_of_string_app (s1 s2 : string) :
  list_ascii_of_string (s1 ++ s2)
  = list_ascii_of_string s1 ++ list_ascii_of_string s2.
Proof. induction s1 as [| c s1 IH]; simpl; [reflexivity | rewrite IH; reflexivity]. Qed.

Lemma contains_char_spec (c : ascii) (s : string) :
  contains_char c s = true <-> In c (list_ascii_of_string s).
Proof.
  unfold contains_char. rewrite existsb_exists. split.
  - intros (x & Hin & Heq). apply Ascii.eqb_eq in Heq. subst x. exact Hin.
  - intros Hin. exists c. split; [exact Hin | apply Ascii.eqb_refl].
Qed.

Lemma split_char_none (sep : ascii) (s : list ascii) :
  ~ In sep s -> split_char sep s = [s].
Proof.
  induction s as [| c s IH]; intros Hnotin; simpl; [reflexivity |].
  destruct (Ascii.eqb c sep) eqn:E.
  - apply Ascii.eqb_eq in E. subst c. exfalso. apply Hnotin. left. reflexivity.
  - rewrite IH; [reflexivity |]. intros Hin. apply Hnotin. right. exact Hin.
Qed.

Lemma split_char_once (sep : ascii) (s1 s2 : list ascii) :
  ~ In sep s1 -> ~ In sep s2 ->
  split_char sep (s1 ++ sep :: s2) = [s1; s2].
Proof.
  intros H1 H2. induction s1 as [| c s1 IH]; simpl.
  - rewrite Ascii.eqb_refl, split_char_none by exact H2. reflexivity.
  - destruct (Ascii.eqb c sep) eqn:E.
    + apply Ascii.eqb_eq in E. subst c. exfalso. apply H1. left. reflexivity.
    + rewrite IH; [reflexivity |]. intros Hin. apply H1. right. exact Hin.
Qed.

Lemma split_char_length (sep : ascii) (s : list ascii) :
  length (split_char sep s) = S (count_occ ascii_dec s sep).
Proof.
  induction s as [| c s IH]; simpl; [reflexivity |].
  destruct (Ascii.eqb c sep) eqn:E.
  - apply Ascii.eqb_eq in E. subst c.
    destruct (ascii_dec sep sep); [| congruence]. simpl. rewrite IH. reflexivity.
  - apply Ascii.eqb_neq in E. destruct (ascii_dec c sep); [congruence |].
    destruct (split_char sep s); simpl in *; [discriminate | exact IH].
Qed.

(** The text of a valid position: letters and digits only, read back by
    [from_a1]. *)
Lemma position_text (p : CellPosition.t) :
  valid_position p -> CellPosition.row p < 10 ^ max_str_digits ->
  exists text,
    CellPosition.to_a1 p = Ok text /\
    CellPosition.from_a1 text = Ok p /\
    Forall (fun c => isalnum c = true) (list_ascii_of_string text).
Proof.
  destruct p as [r c]. intros [Hr Hc] Hlimit. simpl in Hr, Hc, Hlimit.
  destruct (column_index_to_letters_spec c Hc)
    as (letters & Hlet & Hval & Hup & Hne).
  destruct (digits_of_int_spec r ltac:(lia)) as (Hint & Hdig & Hdne & _).
  destruct (normalised_letters_digits letters (digits_of_int r) Hup Hne Hdig Hdne)
    as (Hs & Halnum & Halpha & Hdigits).
  exists (string_of_list_ascii (letters ++ digits_of_int r)).
  split; [| split].
  - unfold CellPosition.to_a1. simpl. rewrite Hlet. simpl.
    rewrite str_of_int_ok by (lia || exact Hlimit). reflexivity.
  - rewrite from_a1_cases. cbv zeta. rewrite Halnum, Halpha, Hdigits, Hs.
    assert (truthy_list (letters ++ digits_of_int r) = true) as ->.
    { apply truthy_list_nonempty. destruct letters; [congruence | discriminate]. }
    assert (truthy_list letters = true) as ->
      by (apply truthy_list_nonempty, Hne).
    assert (truthy_list (digits_of_int r) = true) as ->
      by (apply truthy_list_nonempty, Hdne).
    cbn [negb orb]. rewrite int_of_digits_written by (lia || exact Hlimit).
    cbn [result_bind]. rewrite Hval. apply cell_position_init_ok; assumption.
  - rewrite list_ascii_of_string_of_list_ascii. apply Forall_app. split.
    + eapply Forall_impl; [exact Hup |]. intros x Hx. unfold isalnum, isalpha.
      cbv beta in Hx. rewrite Hx. reflexivity.
    + eapply Forall_impl; [exact Hdig |]. intros x Hx. unfold isalnum.
      cbv beta in Hx. rewrite Hx. apply orb_true_r.
Qed.

Lemma alnum_no_colon (s : list ascii) :
  Forall (fun c => isalnum c = true) s -> ~ In ":"%char s.
Proof.
  intros Hall Hin. rewrite Forall_forall in Hall.
  specialize (Hall _ (proj2 (list_elem_of_In _ _) Hin)). discriminate.
Qed.

Lemma range_from_corners (p q : CellPosition.t) (tp tq : string) :
  CellPosition.from_a1 tp = Ok p -> CellPosition.from_a1 tq = Ok q ->
  Forall (fun c => isalnum c = true) (list_ascii_of_string tp) ->
  Forall (fun c => isalnum c = true) (list_ascii_of_string tq) ->
  CellRange.from_a1 (tp ++ ":" ++ tq) = CellRange.init p q.
Proof.
  intros Hp Hq Hap Haq. unfold CellRange.from_a1.
  assert (contains_char ":" (tp ++ ":" ++ tq) = true) as ->.
  { apply contains_char_spec. rewrite list_ascii_of_string_app.
    apply in_or_app. right. left. reflexivity. }
  simpl negb. cbv iota.
  rewrite list_ascii_of_string_app.
  change (list_ascii_of_string (":" ++ tq))
    with (":"%char :: list_ascii_of_string tq).
  rewrite split_char_once by (apply alnum_no_colon; assumption).
  rewrite !string_of_list_ascii_of_string, Hp, Hq. reflexivity.
Qed.

(** X2: a valid range whose rows have at most 4300 digits is written by
    [to_a1] and read back by [from_a1]: a one-cell range is written as the
    reference of its cell, any other as [first:last], the references of
    its two corners.  A range that starts in a row of more digits is not
    written: [to_a1] raises. *)
Theorem range_a1_round_trip (r : CellRange.t) :
  valid_range r ->
  (CellPosition.row (CellRange.end_ r) < 10 ^ max_str_digits ->
   exists first last text,
     CellPosition.to_a1 (CellRange.start r) = Ok first /\
     CellPosition.to_a1 (CellRange.end_ r) = Ok last /\
     text = (if CellRange.position_eqb (CellRange.start r) (CellRange.end_ r)
             then first else first ++ ":" ++ last)%string /\
     CellRange.to_a1 r = Ok text /\ CellRange.from_a1 text = Ok r) /\
  (10 ^ max_str_digits <= CellPosition.row (CellRange.start r) ->
   CellRange.to_a1 r = Err int_conversion_error).
Proof.
  intros (Hs & He & Hrows & Hcols). destruct r as [s e]. simpl in *. split.
  - intros Hlimit.
    assert (CellPosition.row s < 10 ^ max_str_digits) as Hlimit'
      by (eapply Z.le_lt_trans; [exact Hrows | exact Hlimit]).
    destruct (position_text s Hs Hlimit') as (ts & Hts & Hfs & Has).
    destruct (position_text e He Hlimit) as (te & Hte & Hfe & Hae).
    assert (CellRange.init s e = Ok (CellRange.mk s e)) as Hinit.
    { unfold CellRange.init.
      destruct (Z.ltb_spec (CellPosition.row e) (CellPosition.row s)); [lia |].
      destruct (Z.ltb_spec (CellPosition.column e) (CellPosition.column s));
        [lia | reflexivity]. }
    exists ts, te. unfold CellRange.to_a1. simpl.
    destruct (CellRange.position_eqb s e) eqn:Eeq.
    + exists ts. repeat (split; [assumption || reflexivity |]).
      assert (e = s) as ->.
      { unfold CellRange.position_eqb in Eeq. apply andb_prop in Eeq as [E1 E2].
        apply Z.eqb_eq in E1, E2. destruct s, e. simpl in *. congruence. }
      unfold CellRange.from_a1.
      assert (contains_char ":" ts = false) as ->.
      { destruct (contains_char ":" ts) eqn:E; [| reflexivity].
        apply contains_char_spec in E. exfalso.
        exact (alnum_no_colon _ Has E). }
      simpl. rewrite Hfs. simpl. exact Hinit.
    + exists (ts ++ ":" ++ te)%string. rewrite Hts, Hte.
      repeat (split; [reflexivity |]).
      rewrite (range_from_corners s e) by assumption. exact Hinit.
  - intros Hlimit.
    assert (CellPosition.to_a1 s = Err int_conversion_error) as Hraise.
    { destruct s as [row col]. destruct Hs as [_ Hcol]. simpl in Hcol, Hlimit.
      unfold CellPosition.to_a1. simpl.
      destruct (column_index_to_letters_spec col Hcol) as (letters & -> & _).
      simpl. rewrite str_of_int_err by exact Hlimit. reflexivity. }
    unfold CellRange.to_a1. simpl. rewrite Hraise.
    destruct (CellRange.position_eqb s e); reflexivity.
Qed.

Lemma range_a1_round_trip_B2_C4 :
  CellRange.to_a1 (CellRange.mk (CellPosition.mk 2 2) (CellPosition.mk 4 3))
  = Ok "B2:C4" /\
  CellRange.from_a1 "B2:C4"
  = Ok (CellRange.mk (CellPosition.mk 2 2) (CellPosition.mk 4 3)).
Proof.
  destruct (range_a1_round_trip
              (CellRange.mk (CellPosition.mk 2 2) (CellPosition.mk 4 3)))
    as [Hround _].
  - unfold valid_range, valid_position. simpl. lia.
  - destruct Hround as (first & last & text & Hf & Hl & -> & Hto & Hfrom);
      [reflexivity |].
    injection Hf as <-. injection Hl as <-. split; [exact Hto | exact Hfrom].
Defined.

(** X3: [CellRange.from_a1] refuses every reference with two colons or
    more as an invalid range reference, whatever stands between them. *)
Theorem range_from_a1_refuses (reference : string) :
  (2 <= count_occ ascii_dec (list_ascii_of_string reference) ":"%char)%nat ->
  CellRange.from_a1 reference = Err (ValueError "Invalid range reference").
Proof.
  intros Hcount. unfold CellRange.from_a1.
  assert (contains_char ":" reference = true) as ->.
  { apply contains_char_spec. apply (count_occ_In ascii_dec). lia. }
  simpl negb. cbv iota.
  pose proof (split_char_length ":" (list_ascii_of_string reference)) as Hlen.
  destruct (split_char ":" (list_ascii_of_string reference))
    as [| a [| b [| c rest]]]; simpl in Hlen; try reflexivity; lia.
Qed.

Lemma range_from_a1_refuses_sample :
  CellRange.from_a1 "A1:B2:C3" = Err (ValueError "Invalid range reference").
Proof. apply (range_from_a1_refuses "A1:B2:C3"). vm_compute. lia. Defined.

(** X4: the references of two valid positions, in rows of at most 4300
    digits, joined by a colon are read as the range from the first to the
    second exactly when the first is neither below nor to the right of the
    second; otherwise the constructor of the range raises. *)
Theorem range_from_two_corners (p q : CellPosition.t) :
  valid_position p -> valid_position q ->
  CellPosition.row p < 10 ^ max_str_digits ->
  CellPosition.row q < 10 ^ max_str_digits ->
  exists tp tq,
    CellPosition.to_a1 p = Ok tp /\ CellPosition.to_a1 q = Ok tq /\
    CellRange.from_a1 (tp ++ ":" ++ tq) = CellRange.init p q /\
    (CellRange.init p q = Ok (CellRange.mk p q) <->
     CellPosition.row p <= CellPosition.row q /\
     CellPosition.column p <= CellPosition.column q) /\
    (is_ok (CellRange.init p q) = false <->
     CellPosition.row q < CellPosition.row p \/
     CellPosition.column q < CellPosition.column p).
Proof.
  intros Hp Hq Hlp Hlq.
  destruct (position_text p Hp Hlp) as (tp & Htp & Hfp & Hap).
  destruct (position_text q Hq Hlq) as (tq & Htq & Hfq & Haq).
  exists tp, tq. rewrite (range_from_corners p q) by assumption.
  repeat (split; [assumption || reflexivity |]).
  unfold CellRange.init.
  destruct (Z.ltb_spec (CellPosition.row q) (CellPosition.row p));
    [| destruct (Z.ltb_spec (CellPosition.column q) (CellPosition.column p))];
    simpl; (split; split; [try discriminate; try lia; auto ..]).
Qed.

Lemma range_from_two_corners_sample :
  exists tp tq,
    CellPosition.to_a1 (CellPosition.mk 4 3) = Ok tp /\
    CellPosition.to_a1 (CellPosition.mk 2 2) = Ok tq /\
    CellRange.from_a1 (tp ++ ":" ++ tq)
      = CellRange.init (CellPosition.mk 4 3) (CellPosition.mk 2 2) /\
    (CellRange.init (CellPosition.mk 4 3) (CellPosition.mk 2 2)
       = Ok (CellRange.mk (CellPosition.mk 4 3) (CellPosition.mk 2 2)) <->
     4 <= 2 /\ 3 <= 2) /\
    (is_ok (CellRange.init (CellPosition.mk 4 3) (CellPosition.mk 2 2)) = false
     <-> 2 < 4 \/ 2 < 3).
Proof.
  apply (range_from_two_corners (CellPosition.mk 4 3) (CellPosition.mk 2 2));
    try reflexivity; unfold valid_position; simpl; lia.
Defined.

(** ** Positions *)

(** X5: moving a valid position.  The move succeeds exactly when it stays
    on the sheet (row and column at least 1); moving by nothing changes
    nothing, a move is undone by the opposite move, and two moves in a row
    are the move by the sums. *)
Theorem offset_composes (p : CellPosition.t) (rows columns : Z) :
  valid_position p ->
  CellPosition.offset p 0 0 = Ok p /\
  (is_ok (CellPosition.offset p rows columns) = true <->
   1 <= CellPosition.row p + rows /\ 1 <= CellPosition.column p + columns) /\
  forall q,
    CellPosition.offset p rows columns = Ok q ->
    valid_position q /\
    CellPosition.offset q (- rows) (- columns) = Ok p /\
    forall rows' columns',
      CellPosition.offset q rows' columns'
      = CellPosition.offset p (rows + rows') (columns + columns').
Proof.
  destruct p as [r c]. intros [Hr Hc]. simpl in Hr, Hc.
  unfold CellPosition.offset. simpl.
  split; [| split].
  - rewrite !Z.add_0_r. apply cell_position_init_ok; assumption.
  - unfold CellPosition.init.
    destruct (Z.ltb_spec (r + rows) 1); [simpl; split; [discriminate | lia] |].
    destruct (Z.ltb_spec (c + columns) 1); simpl;
      (split; [try discriminate; auto | try lia; auto]).
  - intros q Hq. apply cell_position_init_inv in Hq as (Hq & H1 & H2).
    subst q. simpl. split; [split; assumption |]. split.
    + replace (r + rows + - rows) with r by lia.
      replace (c + columns + - columns) with c by lia.
      apply cell_position_init_ok; assumption.
    + intros rows' columns'. rewrite !Z.add_assoc. reflexivity.
Qed.

Lemma offset_composes_B5 :
  CellPosition.offset (CellPosition.mk 5 2) 0 0 = Ok (CellPosition.mk 5 2) /\
  (is_ok (CellPosition.offset (CellPosition.mk 5 2) (-4) 3) = true <->
   1 <= 5 + -4 /\ 1 <= 2 + 3) /\
  forall q,
    CellPosition.offset (CellPosition.mk 5 2) (-4) 3 = Ok q ->
    valid_position q /\
    CellPosition.offset q (- -4) (- 3) = Ok (CellPosition.mk 5 2) /\
    forall rows' columns',
      CellPosition.offset q rows' columns'
      = CellPosition.offset (CellPosition.mk 5 2) (-4 + rows') (3 + columns').
Proof.
  apply (offset_composes (CellPosition.mk 5 2) (-4) 3).
  unfold valid_position. simpl. lia.
Defined.

(** ** Colors *)

Lemma lstrip_spaces (ws s : list ascii) :
  Forall (fun c => isspace c = true) ws -> lstrip (ws ++ s) = lstrip s.
Proof.
  induction 1 as [| c ws Hc _ IH]; simpl; [reflexivity |].
  rewrite Hc. exact IH.
Qed.

Lemma lstrip_no_space (s : list ascii) :
  Forall (fun c => isspace c = false) s -> lstrip s = s.
Proof. destruct 1 as [| c s Hc _]; simpl; [| rewrite Hc]; reflexivity. Qed.

Lemma strip_spaces_around (ws1 core ws2 : list ascii) :
  Forall (fun c => isspace c = true) ws1 ->
  Forall (fun c => isspace c = true) ws2 ->
  Forall (fun c => isspace c = false) core ->
  strip (ws1 ++ core ++ ws2) = core.
Proof.
  intros H1 H2 Hcore. unfold strip.
  rewrite lstrip_spaces by exact H1.
  destruct core as [| c core].
  - simpl. rewrite <- (app_nil_r ws2), lstrip_spaces by exact H2. reflexivity.
  - pose proof Hcore as Hcore'. apply Forall_cons in Hcore' as [Hc _].
    rewrite <- app_comm_cons, lstrip_fixes by exact Hc.
    rewrite app_comm_cons. unfold rstrip. rewrite rev_app_distr.
    rewrite lstrip_spaces by (apply List.Forall_rev, H2).
    rewrite lstrip_no_space by (apply List.Forall_rev, Hcore).
    apply rev_involutive.
Qed.

Lemma strip_no_space (s : list ascii) :
  Forall (fun c => isspace c = false) s -> strip s = s.
Proof.
  intros H.
  pose proof (strip_spaces_around [] s [] ltac:(constructor)
                ltac:(constructor) H) as Hs.
  simpl in Hs. rewrite app_nil_r in Hs. exact Hs.
Qed.

Lemma is_hex_cases (c : ascii) :
  is_hex c = true ->
  isspace c = false /\ islower c = false /\ Ascii.eqb c "#" = false /\
  is_ascii c = true.
Proof.
  unfold is_hex. rewrite existsb_exists. intros (x & Hin & Heq).
  apply Ascii.eqb_eq in Heq. subst x.
  simpl in Hin.
  repeat (destruct Hin as [<- | Hin]; [repeat split; reflexivity |]).
  destruct Hin.
Qed.

Lemma hex6_normalised (h : list ascii) :
  hex6 h ->
  ColorName._normalize_color (string_of_list_ascii h)
  = Ok (string_of_list_ascii h).
Proof.
  intros [Hlen Hhex]. unfold ColorName._normalize_color.
  rewrite list_ascii_of_string_of_list_ascii.
  rewrite strip_no_space.
  2:{ eapply Forall_impl; [exact Hhex |]. intros c Hc.
      apply (is_hex_cases c Hc). }
  rewrite upper_fixes.
  2:{ eapply Forall_impl; [exact Hhex |]. intros c Hc.
      apply (is_hex_cases c Hc). }
  assert (match h with
          | c :: rest => if Ascii.eqb c "#" then rest else h
          | [] => h
          end = h) as ->.
  { destruct h as [| c h]; [reflexivity |].
    apply Forall_cons in Hhex as [Hc _].
    destruct (is_hex_cases c Hc) as (_ & _ & -> & _). reflexivity. }
  rewrite Hlen.
  assert (forallb (fun c => existsb (Ascii.eqb c) ColorName.hex_digits) h
          = true) as ->.
  { apply forallb_forall. intros x Hx. rewrite Forall_forall in Hhex.
    apply (Hhex x), list_elem_of_In, Hx. }
  reflexivity.
Qed.

Lemma color_map_hex6 (entry : string * string) :
  In entry ColorName.color_map -> hex6 (list_ascii_of_string (snd entry)).
Proof.
  intros Hin. simpl in Hin.
  repeat (destruct Hin as [<- | Hin];
          [split; [reflexivity | repeat constructor] |]).
  destruct Hin.
Qed.

(** X6: whatever [Color._normalize_color] accepts, its result is six
    characters, each one of [0-9A-F]; and it accepts every such text and
    returns it unchanged.  So normalising is idempotent: the value of a
    [Color] is a text that [Color] reads as itself. *)
Theorem normalize_color_idempotent (value normal : string) :
  forallb is_ascii (list_ascii_of_string value) = true ->
  ColorName._normalize_color value = Ok normal ->
  hex6 (list_ascii_of_string normal) /\
  ColorName._normalize_color normal = Ok normal.
Proof.
  intros _ H.
  assert (hex6 (list_ascii_of_string normal)) as Hhex.
  { unfold ColorName._normalize_color in H.
    match type of H with
    | (if ?b then _ else _) = _ => destruct b eqn:E
    end.
    - injection H as <-. rewrite list_ascii_of_string_of_list_ascii.
      apply andb_prop in E as [Hlen Hall]. split.
      + apply Nat.eqb_eq, Hlen.
      + apply Forall_forall. intros c Hc. rewrite forallb_forall in Hall.
        apply Hall, list_elem_of_In, Hc.
    - match type of H with
      | match ?f with _ => _ end = _ => destruct f as [entry |] eqn:Efind
      end; [| discriminate].
      injection H as <-. apply find_some in Efind as [Hin _].
      apply color_map_hex6, Hin. }
  split; [exact Hhex |].
  rewrite <- (string_of_list_ascii_of_string normal) at 1 2.
  apply hex6_normalised, Hhex.
Qed.

Lemma normalize_color_idempotent_red :
  hex6 (list_ascii_of_string "FF0000") /\
  ColorName._normalize_color "FF0000" = Ok "FF0000".
Proof.
  apply (normalize_color_idempotent " red " "FF0000"); reflexivity.
Defined.

Lemma isalnum_not_space (c : ascii) : isalnum c = true -> isspace c = false.
Proof.
  unfold isalnum, isalpha. intros H.
  apply orb_prop in H as [H | H]; [apply orb_prop in H as [H | H] |].
  - apply isupper_not_space, H.
  - apply islower_spec in H.
    destruct (isspace c) eqn:E; [apply isspace_spec in E; lia | reflexivity].
  - apply isdigit_not_space, H.
Qed.

Lemma isalnum_not_hash (c : ascii) : isalnum c = true -> Ascii.eqb c "#" = false.
Proof.
  intros H. destruct (Ascii.eqb c "#") eqn:E; [| reflexivity].
  apply Ascii.eqb_eq in E. subst c. discriminate.
Qed.

Lemma upper_char_isalnum (c : ascii) : isalnum (upper_char c) = isalnum c.
Proof. unfold isalnum. rewrite upper_char_isalpha, upper_char_isdigit. reflexivity. Qed.

Lemma upper_alnum (v v' : list ascii) :
  upper v' = upper v -> Forall (fun c => isalnum c = true) v ->
  Forall (fun c => isalnum c = true) v'.
Proof.
  revert v. induction v' as [| c' v' IH]; intros [| c v] Heq Hall;
    try discriminate; [constructor |].
  injection Heq as Hc Hv. apply Forall_cons in Hall as [Hc' Hall].
  constructor; [| exact (IH v Hv Hall)].
  rewrite <- upper_char_isalnum, Hc, upper_char_isalnum. exact Hc'.
Qed.

Lemma upper_app (s1 s2 : list ascii) : upper (s1 ++ s2) = upper s1 ++ upper s2.
Proof. apply map_app. Qed.

(** X7: the spelling of a colour does not matter.  For a text of letters
    and digits (a colour name or six hex digits, or anything else),
    [Color._normalize_color] gives the same result -- the same colour or
    the same refusal -- when the letters are in another case, when white
    space surrounds the text and when one [#] precedes it. *)
Theorem normalize_color_spelling (ws1 ws2 v v' : list ascii) (hash : bool) :
  Forall (fun c => isalnum c = true) v ->
  upper v' = upper v ->
  Forall (fun c => isspace c = true) ws1 ->
  Forall (fun c => isspace c = true) ws2 ->
  ColorName._normalize_color
    (string_of_list_ascii
       (ws1 ++ (if hash then ["#"%char] else []) ++ v' ++ ws2))
  = ColorName._normalize_color (string_of_list_ascii v).
Proof.
  intros Hv Hup H1 H2.
  pose proof (upper_alnum v v' Hup Hv) as Hv'.
  unfold ColorName._normalize_color.
  rewrite !list_ascii_of_string_of_list_ascii.
  rewrite (strip_no_space v)
    by (eapply Forall_impl; [exact Hv | intros c; apply isalnum_not_space]).
  rewrite (app_assoc _ v' ws2).
  rewrite strip_spaces_around; [| exact H1 | exact H2 |].
  2:{ apply Forall_app. split.
      - destruct hash; repeat constructor.
      - eapply Forall_impl; [exact Hv' | intros c; apply isalnum_not_space]. }
  rewrite upper_app, Hup.
  assert (forall s, Forall (fun c => isalnum c = true) s ->
            match upper s with
            | c :: rest => if Ascii.eqb c "#" then rest else upper s
            | [] => upper s
            end = upper s) as Hplain.
  { intros [| c s] Hs; [reflexivity |]. simpl.
    apply Forall_cons in Hs as [Hc _].
    rewrite isalnum_not_hash by (rewrite upper_char_isalnum; exact Hc).
    reflexivity. }
  rewrite (Hplain v Hv).
  destruct hash; simpl app.
  - change (upper ["#"%char]) with ["#"%char]. simpl. reflexivity.
  - change (upper []) with (@nil ascii). simpl app. rewrite (Hplain v Hv).
    reflexivity.
Qed.

Lemma normalize_color_spelling_red :
  ColorName._normalize_color
    (string_of_list_ascii
       (list_ascii_of_string "  " ++ ["#"%char] ++ list_ascii_of_string "Red"
        ++ list_ascii_of_string " "))
  = ColorName._normalize_color (string_of_list_ascii (list_ascii_of_string "RED")).
Proof.
  apply (normalize_color_spelling (list_ascii_of_string "  ")
           (list_ascii_of_string " ") (list_ascii_of_string "RED")
           (list_ascii_of_string "Red") true);
    repeat constructor.
Defined.

(** ** Styles *)

Lemma merge_identity_idempotent_aux (a : CellStyle.t) :
  CellStyle.merge a (Some CellStyle.default) = a /\
  CellStyle.merge CellStyle.default (Some a) = a /\
  CellStyle.merge a (Some a) = a.
Proof.
  destruct a as [[f |] [l |] [b |] [al |] [n |]]; repeat split; reflexivity.
Qed.

(** X8: [CellStyle.merge] has a neutral element and is idempotent:
    the default style (no field set) is neutral on both sides, and merging
    a style into itself changes nothing. *)
Theorem merge_identity_idempotent (a : CellStyle.t) :
  CellStyle.merge a (Some CellStyle.default) = a /\
  CellStyle.merge CellStyle.default (Some a) = a /\
  CellStyle.merge a (Some a) = a.
Proof. exact (merge_identity_idempotent_aux a). Qed.

(** ** Cells *)

Lemma with_style_twice (c : Cell.t) (a b : CellStyle.t) :
  Cell.with_style (Cell.with_style c a) b = Cell.with_style c b.
Proof.
  pose proof (make_normal (Cell.value c) (Cell.formula c) (Some a)
                (Cell.number_format c) (Cell.data_type c)
                (Cell.comment c) (Cell.hyperlink c)) as Hn.
  fold (Cell.with_style c a) in Hn.
  rewrite (with_style_normal _ b Hn).
  unfold set_style, Cell.with_style, Cell.make. simpl.
  destruct (Cell.formula c) as [f |]; [| reflexivity].
  destruct (truthy_str f && negb (startswith_eq f)); reflexivity.
Qed.

Lemma merge_style_compose_aux (c : Cell.t) (a b : CellStyle.t) :
  Cell.merge_style (Cell.merge_style c (Some a)) (Some b)
  = Cell.merge_style c (Some (CellStyle.merge a (Some b))).
Proof.
  unfold Cell.merge_style at 1 3.
  set (m := match Cell.style c with
            | Some own => CellStyle.merge own (Some a)
            | None => a
            end).
  assert (Cell.style (Cell.merge_style c (Some a)) = Some m) as ->
    by reflexivity.
  unfold Cell.merge_style. fold m. rewrite with_style_twice.
  f_equal. subst m. destruct (Cell.style c) as [own |]; [| reflexivity].
  unfold CellStyle.merge; simpl. f_equal; apply pick_assoc.
Qed.

(** X9: restyling composes.  Merging a style [a] and then a style [b] into
    a cell gives the cell that merging [a.merge(b)] gives, so merging the
    same style twice is the same as merging it once. *)
Theorem merge_style_composes (c : Cell.t) (a b : CellStyle.t) :
  Cell.merge_style (Cell.merge_style c (Some a)) (Some b)
  = Cell.merge_style c (Some (CellStyle.merge a (Some b))) /\
  Cell.merge_style (Cell.merge_style c (Some a)) (Some a)
  = Cell.merge_style c (Some a).
Proof.
  split; [apply merge_style_compose_aux |].
  rewrite merge_style_compose_aux.
  destruct (merge_identity_idempotent_aux a) as (_ & _ & ->). reflexivity.
Qed.

(** ** Tables *)

Lemma start_or_default_ok (start_position : option CellPosition.t) :
  exists p, Table.start_or_default start_position = Ok p /\
            p = default (CellPosition.mk 1 1) start_position.
Proof.
  destruct start_position as [p |]; simpl; eauto.
Qed.

Lemma py_index_nat (n k : nat) :
  (k < n)%nat -> py_index n (Z.of_nat k) = Some k.
Proof.
  intros H. unfold py_index.
  destruct (Z.leb_spec 0 (Z.of_nat k)); [| lia].
  destruct (Z.ltb_spec (Z.of_nat k) (Z.of_nat n)); [| lia].
  simpl. rewrite Nat2Z.id. reflexivity.
Qed.

Lemma getitem_nat {A : Type} (l : list A) (k : nat) :
  getitem l (Z.of_nat k) = l !! k.
Proof.
  unfold getitem. destruct (Nat.lt_ge_cases k (length l)) as [H | H].
  - rewrite py_index_nat by exact H. reflexivity.
  - unfold py_index.
    destruct (Z.leb_spec 0 (Z.of_nat k)); [| lia].
    destruct (Z.ltb_spec (Z.of_nat k) (Z.of_nat (length l))); [lia |].
    destruct (Z.ltb_spec (Z.of_nat k) 0); [lia |]. simpl.
    symmetry. apply lookup_ge_None. exact H.
Qed.

Lemma lookup_map {A B : Type} (f : A -> B) (l : list A) (i : nat) (x : A) :
  l !! i = Some x -> map f l !! i = Some (f x).
Proof.
  revert i. induction l as [| y l IH]; intros [| i] H; try discriminate.
  - injection H as ->. reflexivity.
  - apply IH, H.
Qed.

(** The constructor with nothing but a value: it returns exactly when the
    comparison of the value with the empty string does not raise. *)
Lemma init_inferred_ok (value : PyValue) (style : option CellStyle.t)
  (number_format comment hyperlink : option string) :
  is_ok (Cell.init value None style number_format None comment hyperlink) = true
  <-> comparison_error value = None.
Proof.
  destruct (Cell.init value None style number_format None comment hyperlink)
    as [cell | e] eqn:Hinit; simpl.
  - split; [intros _ | reflexivity].
    destruct (comparison_error value) as [e |] eqn:He; [| reflexivity].
    apply (init_inferred_err value style number_format comment hyperlink)
      in He. congruence.
  - apply init_inferred_err in Hinit. rewrite Hinit.
    split; discriminate.
Qed.

Lemma map_result_is_ok {A B : Type} (f : A -> result B) (l : list A) :
  is_ok (map_result f l) = true <-> Forall (fun x => is_ok (f x) = true) l.
Proof.
  split; [| apply map_result_ok].
  induction l as [| x l IH]; simpl; intros H; constructor.
  - destruct (f x); [reflexivity | discriminate].
  - apply IH. destruct (f x); [| discriminate]. simpl in H.
    destruct (map_result f l); [reflexivity | discriminate].
Qed.

(** The cells that [from_data] builds for one dictionary. *)
Lemma from_data_spec (data : list Row) (columns : list string)
  (headers : option (list string)) (title : option string)
  (start_position : option CellPosition.t) :
  Table.from_data data columns headers title start_position =
  do cells <-
    map_result
      (fun row_data =>
         map_result
           (fun col =>
              Cell.init (default PyNone (row_data !! col))
                        None None None None None None)
           columns)
      data;
  Ok (Table.mk cells
        (Some (map (fun h => Cell.text h None) (default columns headers)))
        (match title with
         | Some title =>
             if truthy_str title then Some (Cell.text title None) else None
         | None => None
         end)
        (default (CellPosition.mk 1 1) start_position)).
Proof.
  unfold Table.from_data. rewrite for_append_nil.
  rewrite (map_result_ext _
             (fun row_data =>
                map_result
                  (fun col =>
                     Cell.init (default PyNone (row_data !! col))
                               None None None None None None)
                  columns))
    by (intros row_data; apply for_append_nil).
  match goal with
  | |- context [map_result ?f data] =>
      destruct (map_result f data) as [cells | e] eqn:Hcells
  end; cbn [result_bind]; [| reflexivity].
  destruct (start_or_default_ok start_position) as (p & -> & ->).
  cbn [result_bind].
  rewrite (table_init_rectangular (length columns)).
  - destruct headers; reflexivity.
  - apply map_result_Forall2 in Hcells.
    induction Hcells as [| row_data row rows cells' Hrow _ IH];
      constructor; [| exact IH].
    apply map_result_Forall2, Forall2_length in Hrow. symmetry. exact Hrow.
Qed.

(** X10: [Table.from_data] raises exactly when the value that some
    dictionary of the data has for some column key raises when compared
    with the empty string, and the exception is one raised there.
    Otherwise the table has one row per dictionary and, in every row, one
    cell per column key: the cell that the constructor builds for the
    value the dictionary has for the key, or for [None] when the key is
    missing.  The headers are the given labels, or the column keys when no
    labels are given; an empty title gives no title cell, and the table
    starts at A1 unless a start position is given. *)
Theorem from_data_cells (data : list Row) (columns : list string)
  (headers : option (list string)) (title : option string)
  (start_position : option CellPosition.t) :
  (is_ok (Table.from_data data columns headers title start_position) = true
   <-> forall row_data key,
         row_data ∈ data -> key ∈ columns ->
         comparison_error (default PyNone (row_data !! key)) = None) /\
  (forall e,
      Table.from_data data columns headers title start_position = Err e ->
      exists row_data key,
        row_data ∈ data /\ key ∈ columns /\
        comparison_error (default PyNone (row_data !! key)) = Some e) /\
  (forall table,
      Table.from_data data columns headers title start_position = Ok table ->
      Table.row_count table = length data /\
      Forall (fun row => length row = length columns) (Table.cells table) /\
      (forall (i j : nat) row_data key,
          data !! i = Some row_data -> columns !! j = Some key ->
          exists cell,
            Table.get_cell table (Z.of_nat i) (Z.of_nat j) = Some cell /\
            Cell.init (default PyNone (row_data !! key))
                      None None None None None None = Ok cell) /\
      Table.headers table
        = Some (map (fun h => Cell.text h None) (default columns headers)) /\
      Table.has_title table = truthy_ostr title /\
      Table.start_position table
        = default (CellPosition.mk 1 1) start_position).
Proof.
  rewrite from_data_spec.
  set (cell_of := fun (row_data : Row) (col : string) =>
                    Cell.init (default PyNone (row_data !! col))
                              None None None None None None).
  set (row_of := fun row_data => map_result (cell_of row_data) columns).
  change (map_result _ data) with (map_result row_of data).
  split; [| split].
  - assert (is_ok (map_result row_of data) = true <->
            forall row_data key,
              row_data ∈ data -> key ∈ columns ->
              comparison_error (default PyNone (row_data !! key)) = None)
      as <-.
    { rewrite map_result_is_ok, Forall_forall. split.
      - intros H row_data key Hrow Hkey. specialize (H row_data Hrow).
        apply map_result_is_ok in H. rewrite Forall_forall in H.
        apply (init_inferred_ok _ None None None None), H, Hkey.
      - intros H row_data Hrow. apply map_result_is_ok, Forall_forall.
        intros key Hkey. apply init_inferred_ok, H; assumption. }
    destruct (map_result row_of data); simpl; tauto.
  - intros e H.
    apply result_bind_err in H as [H | (cells & _ & H)]; [| discriminate].
    apply map_result_err in H as (row_data & Hrow & H).
    apply map_result_err in H as (key & Hkey & H).
    apply init_inferred_err in H. eauto.
  - intros table H.
    apply result_bind_inv in H as (cells & Hcells & [= <-]). simpl.
    apply map_result_Forall2 in Hcells.
    split; [symmetry; apply (Forall2_length _ _ _ Hcells) |].
    split.
    { clear - Hcells.
      induction Hcells as [| row_data row rows cells' Hrow _ IH];
        constructor; [| exact IH].
      apply map_result_Forall2, Forall2_length in Hrow. symmetry. exact Hrow. }
    split.
    { intros i j row_data key Hi Hj. unfold Table.get_cell. simpl.
      rewrite getitem_nat.
      destruct (Forall2_lookup_l _ _ _ _ _ Hcells Hi) as (row & Hrow & Hbuilt).
      rewrite Hrow, getitem_nat.
      apply map_result_Forall2 in Hbuilt.
      destruct (Forall2_lookup_l _ _ _ _ _ Hbuilt Hj) as (cell & Hcell & Hc).
      exists cell. split; [exact Hcell | exact Hc]. }
    split; [reflexivity |].
    split; [| reflexivity].
    unfold Table.has_title. simpl.
    destruct title as [t |]; [| reflexivity].
    simpl. destruct (truthy_str t); reflexivity.
Qed.

Lemma from_data_cells_sample :
  (exists table cell,
     Table.from_data [Sample.row "a" 1] ["account"; "absent"] None None None
     = Ok table /\
     Table.get_cell table 0 1 = Some cell /\
     Cell.init PyNone None None None None None None = Ok cell) /\
  is_ok (Table.from_data [<["account" := Sample.not_available]> ∅]
           ["account"] None None None) = false.
Proof.
  split.
  - destruct (from_data_cells [Sample.row "a" 1] ["account"; "absent"]
                None None None) as (_ & _ & Hcells).
    destruct (Table.from_data [Sample.row "a" 1] ["account"; "absent"]
                None None None) as [table |] eqn:Htable;
      [| vm_compute in Htable; discriminate].
    destruct (Hcells table eq_refl) as (_ & _ & Hcell & _).
    destruct (Hcell 0%nat 1%nat (Sample.row "a" 1) "absent" eq_refl eq_refl)
      as (cell & Hget & Hinit).
    exists table, cell. auto.
  - destruct (from_data_cells [<["account" := Sample.not_available]> ∅]
                ["account"] None None None) as ([Hok _] & _).
    destruct (is_ok (Table.from_data [<["account" := Sample.not_available]> ∅]
                       ["account"] None None None)) eqn:E; [| reflexivity].
    specialize (Hok eq_refl (<["account" := Sample.not_available]> ∅)
                  "account" ltac:(left) ltac:(left)).
    vm_compute in Hok. discriminate.
Defined.

Lemma len_set_le_1 (l : list nat) :
  (len_set l <= 1)%nat <-> forall x y, x ∈ l -> y ∈ l -> x = y.
Proof.
  split.
  - intros Hsize x y Hx Hy. destruct (decide (x = y)) as [| Hne]; [assumption |].
    exfalso. unfold len_set in Hsize.
    assert (({[x]} ∪ {[y]} : gset nat) ⊆ list_to_set l) as Hsub.
    { intros z Hz. apply elem_of_list_to_set.
      apply elem_of_union in Hz as [Hz | Hz];
        apply elem_of_singleton in Hz; subst z; assumption. }
    apply subseteq_size in Hsub.
    rewrite size_union in Hsub by set_solver.
    rewrite !size_singleton in Hsub. lia.
  - intros Heq. destruct l as [| n l].
    + apply (len_set_constant 0). constructor.
    + apply (len_set_constant n). apply Forall_forall. intros x Hx.
      apply Heq; [exact Hx | left].
Qed.

Lemma table_init_cases (cells : list (list Cell.t))
  (headers : option (list Cell.t)) (title : option Cell.t)
  (start_position : CellPosition.t) :
  (forall r1 r2, r1 ∈ cells -> r2 ∈ cells -> length r1 = length r2) /\
    Table.init cells headers title start_position
    = Ok (Table.mk cells headers title start_position)
  \/
  ~ (forall r1 r2, r1 ∈ cells -> r2 ∈ cells -> length r1 = length r2) /\
    Table.init cells headers title start_position
    = Err (ValueError "All rows must have the same length").
Proof.
  assert ((forall r1 r2, r1 ∈ cells -> r2 ∈ cells -> length r1 = length r2)
          <-> (len_set (map length cells) <= 1)%nat) as Hiff.
  { rewrite len_set_le_1. split.
    - intros H x y Hx Hy.
      apply list_elem_of_In, in_map_iff in Hx as (r1 & <- & Hr1).
      apply list_elem_of_In, in_map_iff in Hy as (r2 & <- & Hr2).
      apply H; apply list_elem_of_In; assumption.
    - intros H r1 r2 Hr1 Hr2.
      apply H; apply list_elem_of_In, in_map, list_elem_of_In; assumption. }
  unfold Table.init.
  destruct (Nat.ltb_spec 1 (len_set (map length cells))) as [Hlt | Hle].
  - destruct cells as [| r cells].
    + exfalso. pose proof (len_set_constant 0 [] ltac:(constructor)) as H0.
      simpl in Hlt. lia.
    + right. split; [| reflexivity]. rewrite Hiff. lia.
  - left. rewrite andb_false_r. split; [apply Hiff, Hle | reflexivity].
Qed.

(** X11: [Table.from_rows] succeeds exactly when no value raises when it is
    compared with the empty string and all rows have the same number of
    values (no row at all included).  Otherwise it raises what such a
    comparison raises or, from the constructor of the table, the one error
    about rows of different lengths.  On success every value has become
    the cell that the constructor builds for it, and an empty list of
    header labels gives a table without headers. *)
Theorem from_rows_ragged (rows : list (list PyValue))
  (headers : option (list string)) (title : option string)
  (start_position : option CellPosition.t) :
  (is_ok (Table.from_rows rows headers title start_position) = true <->
   (forall row val, row ∈ rows -> val ∈ row -> comparison_error val = None) /\
   (forall r1 r2, r1 ∈ rows -> r2 ∈ rows -> length r1 = length r2)) /\
  (forall table,
      Table.from_rows rows headers title start_position = Ok table ->
      Forall2
        (Forall2 (fun val cell =>
                    Cell.init val None None None None None None = Ok cell))
        rows (Table.cells table) /\
      Table.has_headers table = truthy_list (default [] headers)) /\
  (forall e,
      Table.from_rows rows headers title start_position = Err e ->
      (exists row val,
          row ∈ rows /\ val ∈ row /\ comparison_error val = Some e)
      \/ e = ValueError "All rows must have the same length").
Proof.
  unfold Table.from_rows.
  set (cell_of := fun val : PyValue =>
                    Cell.init val None None None None None None).
  assert (is_ok (map_result (map_result cell_of) rows) = true <->
          forall row val, row ∈ rows -> val ∈ row -> comparison_error val = None)
    as Hvalues.
  { rewrite map_result_is_ok, Forall_forall. split.
    - intros H row val Hrow Hval. specialize (H row Hrow).
      apply map_result_is_ok in H. rewrite Forall_forall in H.
      apply (init_inferred_ok _ None None None None), H, Hval.
    - intros H row Hrow. apply map_result_is_ok, Forall_forall.
      intros val Hval. apply init_inferred_ok. eapply H; eassumption. }
  destruct (map_result (map_result cell_of) rows) as [cells | e0] eqn:Hcells;
    cbn [result_bind].
  2:{ split; [| split].
      - simpl. split; [discriminate |]. intros [H _].
        apply Hvalues in H. discriminate.
      - discriminate.
      - intros e [= <-]. left.
        apply map_result_err in Hcells as (row & Hrow & Hcells).
        apply map_result_err in Hcells as (val & Hval & Hcells).
        apply init_inferred_err in Hcells. eauto. }
  pose proof (proj1 Hvalues eq_refl) as Hcomparable.
  apply map_result_Forall2 in Hcells.
  assert (Forall2 (Forall2 (fun val cell => cell_of val = Ok cell)) rows cells)
    as Hbuilt.
  { eapply Forall2_impl; [exact Hcells |]. intros row built.
    apply map_result_Forall2. }
  assert ((forall r1 r2, r1 ∈ cells -> r2 ∈ cells -> length r1 = length r2)
          <-> (forall r1 r2, r1 ∈ rows -> r2 ∈ rows -> length r1 = length r2))
    as Hsame.
  { split.
    - intros H r1 r2 Hr1 Hr2.
      apply list_elem_of_lookup in Hr1 as (i1 & Hi1).
      apply list_elem_of_lookup in Hr2 as (i2 & Hi2).
      destruct (Forall2_lookup_l _ _ _ _ _ Hbuilt Hi1) as (c1 & Hc1 & H1).
      destruct (Forall2_lookup_l _ _ _ _ _ Hbuilt Hi2) as (c2 & Hc2 & H2).
      rewrite (Forall2_length _ _ _ H1), (Forall2_length _ _ _ H2).
      apply H; eapply list_elem_of_lookup_2; eassumption.
    - intros H c1 c2 Hc1 Hc2.
      apply list_elem_of_lookup in Hc1 as (i1 & Hi1).
      apply list_elem_of_lookup in Hc2 as (i2 & Hi2).
      destruct (Forall2_lookup_r _ _ _ _ _ Hbuilt Hi1) as (r1 & Hr1 & H1).
      destruct (Forall2_lookup_r _ _ _ _ _ Hbuilt Hi2) as (r2 & Hr2 & H2).
      rewrite <- (Forall2_length _ _ _ H1), <- (Forall2_length _ _ _ H2).
      apply H; eapply list_elem_of_lookup_2; eassumption. }
  destruct (start_or_default_ok start_position) as (p & -> & _).
  cbn [result_bind].
  match goal with
  | |- context [Table.init cells ?h ?t p] =>
      destruct (table_init_cases cells h t p) as [[Hall ->] | [Hnot ->]]
  end.
  - split; [| split; [| discriminate]].
    + simpl. split; [intros _ | reflexivity].
      split; [exact Hcomparable | apply Hsame, Hall].
    + intros table [= <-]. simpl. split; [exact Hbuilt |].
      destruct headers as [[| h hs] |]; reflexivity.
  - split; [| split; [discriminate |]].
    + simpl. split; [discriminate |]. intros [_ H]. exfalso.
      apply Hnot, Hsame, H.
    + intros e [= <-]. right. reflexivity.
Qed.

Lemma from_rows_ragged_sample :
  is_ok (Table.from_rows [[PyInt 1; PyInt 2]; [PyInt 3]] None None None) = false.
Proof.
  destruct (from_rows_ragged [[PyInt 1; PyInt 2]; [PyInt 3]] None None None)
    as ([Hok _] & _).
  destruct (is_ok (Table.from_rows [[PyInt 1; PyInt 2]; [PyInt 3]] None None
                     None)) eqn:E; [| reflexivity].
  destruct (Hok eq_refl) as [_ Hlen].
  specialize (Hlen [PyInt 1; PyInt 2] [PyInt 3]).
  exfalso. assert (2 = 1)%nat as Habs; [| discriminate].
  apply Hlen; [left | right; left].
Defined.

(** X12: [add_row] on a table whose rows all have [n] cells.  The row is
    accepted exactly when the table has no row yet or the row has [n]
    cells; the table then has the row as its last one and still satisfies
    the check of its constructor.  A table without rows accepts a row of
    any length, whatever the number of its headers, and takes the length
    of that row as its column count. *)
Theorem add_row_keeps_rectangular (table : Table.t) (row : list Cell.t)
  (n : nat) :
  Forall (fun r => length r = n) (Table.cells table) ->
  (is_ok (Table.add_row table row) = true <->
   Table.cells table = [] \/ length row = n) /\
  forall table',
    Table.add_row table row = Ok table' ->
    Table.cells table' = Table.cells table ++ [row] /\
    Table.init (Table.cells table') (Table.headers table')
               (Table.title table') (Table.start_position table')
    = Ok table' /\
    Table.column_count table' = length row.
Proof.
  intros Hrect. unfold Table.add_row, Table.column_count.
  destruct table as [cells headers title start]. simpl in *.
  destruct cells as [| first cells]; simpl.
  - split; [split; auto |].
    intros table' [= <-]. simpl. split; [reflexivity |].
    split; [| reflexivity].
    apply (table_init_rectangular (length row)). repeat constructor.
  - apply Forall_cons in Hrect as [Hfirst Hrect]. rewrite Hfirst.
    destruct (Nat.eqb_spec (length row) n) as [Heq | Hne]; simpl.
    + split; [split; auto |].
      intros table' [= <-]. simpl. split; [reflexivity |].
      split; [| exact (eq_trans Hfirst (eq_sym Heq))].
      apply (table_init_rectangular n). constructor; [exact Hfirst |].
      apply Forall_app. split; [exact Hrect | repeat constructor; exact Heq].
    + split; [| discriminate].
      split; [discriminate |]. intros [H | H]; [discriminate | contradiction].
Qed.

Lemma add_row_keeps_rectangular_sample :
  (is_ok (Table.add_row
            (Table.mk [[Cell.blank; Cell.blank]] None None (CellPosition.mk 1 1))
            [Cell.blank]) = true <->
   [[Cell.blank; Cell.blank]] = [] \/ length [Cell.blank] = 2%nat) /\
  forall table',
    Table.add_row
      (Table.mk [[Cell.blank; Cell.blank]] None None (CellPosition.mk 1 1))
      [Cell.blank] = Ok table' ->
    Table.cells table' = [[Cell.blank; Cell.blank]] ++ [[Cell.blank]] /\
    Table.init (Table.cells table') (Table.headers table')
               (Table.title table') (Table.start_position table')
    = Ok table' /\
    Table.column_count table' = length [Cell.blank].
Proof.
  apply (add_row_keeps_rectangular
           (Table.mk [[Cell.blank; Cell.blank]] None None (CellPosition.mk 1 1))
           [Cell.blank] 2).
  repeat constructor.
Defined.

Lemma lookup_seq_0 (n i : nat) : (i < n)%nat -> seq 0 n !! i = Some i.
Proof. intros H. rewrite lookup_seq_lt by exact H. reflexivity. Qed.

(** X13: [iter_columns] transposes.  For a table with at least one row,
    all rows having [n] cells, it returns [n] columns of [row_count] cells
    each without raising, and the cell at place [r] of column [c] is the
    cell at place [c] of row [r]. *)
Theorem iter_columns_transposes (table : Table.t) (n : nat) :
  Table.cells table <> [] ->
  Forall (fun r => length r = n) (Table.cells table) ->
  exists columns,
    Table.iter_columns table = Some columns /\
    length columns = n /\
    Forall (fun col => length col = Table.row_count table) columns /\
    forall (r c : nat) (cell : Cell.t),
      (exists row, Table.cells table !! r = Some row /\ row !! c = Some cell)
      <-> (exists col, columns !! c = Some col /\ col !! r = Some cell).
Proof.
  intros Hne Hrect. unfold Table.iter_columns, Table.row_count.
  destruct table as [cells headers title start]. simpl in *.
  assert (Table.column_count (Table.mk cells headers title start) = n) as ->.
  { unfold Table.column_count. simpl. destruct cells as [| first cells];
      [congruence |]. apply Forall_cons in Hrect as [H _]. exact H. }
  assert (truthy_list cells = true) as ->
    by (destruct cells; [congruence | reflexivity]).
  simpl negb. cbv iota.
  set (g := fun (col row : nat) =>
              match cells !! row with
              | Some cells_of_row => cells_of_row !! col
              | None => None
              end).
  set (f := fun col => mapM (g col) (seq 0 (length cells))).
  assert (is_Some (mapM f (seq 0 n))) as [columns Hcols].
  { apply mapM_is_Some, Forall_forall. intros c Hc.
    apply elem_of_seq in Hc. unfold compose, f.
    apply mapM_is_Some, Forall_forall. intros r Hr.
    apply elem_of_seq in Hr. unfold compose, g.
    destruct (lookup_lt_is_Some_2 cells r ltac:(lia)) as [row Hrow].
    rewrite Hrow. apply lookup_lt_is_Some_2.
    rewrite Forall_forall in Hrect.
    rewrite (Hrect row) by (eapply list_elem_of_lookup_2, Hrow). lia. }
  exists columns. split; [exact Hcols |].
  apply mapM_Some in Hcols.
  pose proof (Forall2_length _ _ _ Hcols) as Hlen.
  rewrite length_seq in Hlen.
  assert (forall c col, columns !! c = Some col ->
            (c < n)%nat /\
            length col = length cells /\
            forall r, (r < length cells)%nat -> col !! r = g c r) as Hcol.
  { intros c col Hc.
    destruct (Forall2_lookup_r _ _ _ _ _ Hcols Hc) as (c' & Hc' & Hf).
    pose proof (lookup_lt_Some _ _ _ Hc') as Hlt. rewrite length_seq in Hlt.
    rewrite lookup_seq_0 in Hc' by exact Hlt. injection Hc' as <-.
    unfold f in Hf. apply mapM_Some in Hf.
    pose proof (Forall2_length _ _ _ Hf) as Hl. rewrite length_seq in Hl.
    split; [exact Hlt |]. split; [symmetry; exact Hl |].
    intros r Hr.
    destruct (Forall2_lookup_l _ _ _ r r Hf (lookup_seq_0 _ _ Hr))
      as (x & Hx & Hg).
    rewrite Hx, Hg. reflexivity. }
  split; [symmetry; exact Hlen |].
  split.
  { apply Forall_forall. intros col Hin.
    apply list_elem_of_lookup_1 in Hin as [c Hc].
    apply (Hcol c col Hc). }
  intros r c cell. split.
  - intros (row & Hrow & Hcell).
    pose proof (lookup_lt_Some _ _ _ Hrow) as Hr.
    pose proof (lookup_lt_Some _ _ _ Hcell) as Hc.
    rewrite Forall_forall in Hrect.
    rewrite (Hrect row) in Hc by (eapply list_elem_of_lookup_2, Hrow).
    destruct (lookup_lt_is_Some_2 columns c ltac:(lia)) as [col Hcolc].
    exists col. split; [exact Hcolc |].
    destruct (Hcol c col Hcolc) as (_ & _ & Hg).
    rewrite Hg by exact Hr. unfold g. rewrite Hrow. exact Hcell.
  - intros (col & Hcolc & Hcell).
    destruct (Hcol c col Hcolc) as (_ & Hl & Hg).
    pose proof (lookup_lt_Some _ _ _ Hcell) as Hr. rewrite Hl in Hr.
    rewrite Hg in Hcell by exact Hr. unfold g in Hcell.
    destruct (cells !! r) as [row |] eqn:Hrow; [| discriminate].
    exists row. split; [reflexivity | exact Hcell].
Qed.

Lemma iter_columns_transposes_sample :
  exists columns,
    Table.iter_columns
      (Table.mk [[Cell.blank; Cell.text "a" None]; [Cell.text "b" None; Cell.blank]]
                None None (CellPosition.mk 1 1)) = Some columns /\
    length columns = 2%nat /\
    Forall (fun col => length col = 2%nat) columns /\
    forall (r c : nat) (cell : Cell.t),
      (exists row,
          [[Cell.blank; Cell.text "a" None]; [Cell.text "b" None; Cell.blank]]
            !! r = Some row /\ row !! c = Some cell)
      <-> (exists col, columns !! c = Some col /\ col !! r = Some cell).
Proof.
  apply (iter_columns_transposes
           (Table.mk [[Cell.blank; Cell.text "a" None];
                      [Cell.text "b" None; Cell.blank]]
                     None None (CellPosition.mk 1 1)) 2).
  - discriminate.
  - repeat constructor.
Defined.

(** X26: restyling rows of a table.  Restyling a row with [a] and then
    with [b] is restyling it with [a.merge(b)], so doing it twice with the
    same style is doing it once; rows are restyled independently of each
    other, in any order; and nothing happens for a row index past the last
    row or for no style. *)
Theorem apply_style_to_row_composes (table : Table.t) (row row' : nat)
  (a b : CellStyle.t) :
  Table.apply_style_to_row (Table.apply_style_to_row table row (Some a))
                           row (Some b)
  = Table.apply_style_to_row table row (Some (CellStyle.merge a (Some b))) /\
  Table.apply_style_to_row (Table.apply_style_to_row table row (Some a))
                           row (Some a)
  = Table.apply_style_to_row table row (Some a) /\
  (row <> row' ->
   Table.apply_style_to_row (Table.apply_style_to_row table row (Some a))
                            row' (Some b)
   = Table.apply_style_to_row (Table.apply_style_to_row table row' (Some b))
                              row (Some a)) /\
  ((length (Table.cells table) <= row)%nat ->
   Table.apply_style_to_row table row (Some a) = table) /\
  Table.apply_style_to_row table row None = table.
Proof.
  destruct table as [cells headers title start].
  assert (forall x y,
            Table.apply_style_to_row
              (Table.apply_style_to_row
                 (Table.mk cells headers title start) row (Some x))
              row (Some y)
            = Table.apply_style_to_row (Table.mk cells headers title start)
                row (Some (CellStyle.merge x (Some y)))) as Hcompose.
  { intros x y. unfold Table.apply_style_to_row. simpl.
    destruct (Nat.ltb_spec row (length cells)) as [Hlt | Hge]; simpl.
    - rewrite length_alter.
      destruct (Nat.ltb_spec row (length cells)); [| lia].
      f_equal. rewrite list_alter_alter_eq. apply list_alter_ext; [| reflexivity].
      intros r _. unfold compose. rewrite map_map. apply map_ext.
      intros c. apply merge_style_compose_aux.
    - destruct (Nat.ltb_spec row (length cells)); [lia | reflexivity]. }
  split; [apply Hcompose |].
  split.
  { rewrite Hcompose.
    destruct (merge_identity_idempotent_aux a) as (_ & _ & ->). reflexivity. }
  clear Hcompose. unfold Table.apply_style_to_row. simpl.
  split; [| split].
  - intros Hne.
    destruct (Nat.ltb_spec row (length cells)) as [Hr | Hr],
             (Nat.ltb_spec row' (length cells)) as [Hr' | Hr']; simpl;
      rewrite ?length_alter;
      repeat match goal with
             | |- context [(?x <? ?y)%nat] =>
                 destruct (Nat.ltb_spec x y); try lia
             end; try reflexivity.
    f_equal. apply list_alter_alter_ne. congruence.
  - intros Hge. destruct (Nat.ltb_spec row (length cells)); [lia | reflexivity].
  - destruct (Nat.ltb_spec row (length cells)); [| reflexivity].
    f_equal. apply list_alter_id. intros r. apply map_id.
Qed.

Lemma apply_style_to_row_composes_sample :
  Table.apply_style_to_row
    (Table.mk [[Cell.blank]] None None (CellPosition.mk 1 1)) 3
    (Some Sample.shaded)
  = Table.mk [[Cell.blank]] None None (CellPosition.mk 1 1).
Proof.
  destruct (apply_style_to_row_composes
              (Table.mk [[Cell.blank]] None None (CellPosition.mk 1 1))
              3 0 Sample.shaded Sample.shaded)
    as (_ & _ & _ & H & _).
  apply H. simpl. lia.
Defined.

(** X27: restyling never touches the content of a cell.  A cell built by
    the constructor keeps its value, formula, number format, data type,
    comment and hyperlink through [with_style] and [merge_style], although
    both run the constructor again: the formula of a constructed cell is
    empty or starts with [=], so no second [=] is put in front of it, and
    the data type is passed on, not inferred again.  The cells built by
    the constructor are the cells [make] at the data type given or
    inferred. *)
Theorem restyle_keeps_content (value : PyValue) (formula : option string)
  (style : option CellStyle.t) (number_format : option string)
  (data_type : CellDataType) (comment hyperlink : option string)
  (new_style : CellStyle.t) :
  let cell :=
    Cell.make value formula style number_format data_type comment hyperlink in
  Cell.with_style cell new_style = set_style cell (Some new_style) /\
  Cell.merge_style cell (Some new_style)
  = set_style cell (Some (merged_style cell new_style)) /\
  Cell.value cell = value /\
  Cell.formula cell
  = match formula with
    | Some f =>
        if truthy_str f && negb (startswith_eq f)
        then Some ("=" ++ f)%string else Some f
    | None => None
    end /\
  match Cell.formula cell with
  | Some f => f = "" \/ startswith_eq f = true
  | None => True
  end /\
  forall (given : option CellDataType) (built : Cell.t),
    Cell.init value formula style number_format given comment hyperlink
    = Ok built ->
    exists inferred,
      built = Cell.make value formula style number_format inferred comment
                        hyperlink.
Proof.
  intros cell.
  pose proof (make_normal value formula style number_format data_type comment
                hyperlink) as Hnormal.
  fold cell in Hnormal.
  split; [apply with_style_normal, Hnormal |].
  split; [apply merge_style_normal, Hnormal |].
  split; [reflexivity |]. split; [reflexivity |].
  split.
  - unfold normal_cell in Hnormal.
    destruct (Cell.formula cell) as [f |]; [| exact I].
    destruct f as [| c f]; [left; reflexivity | right].
    apply Hnormal. reflexivity.
  - intros given built Hinit.
    apply init_inv in Hinit as (d & _ & ->). eauto.
Qed.

Lemma restyle_keeps_content_sample :
  exists cell,
    Cell.init (PyInt 3) (Some "SUM(A1:A2)") None None None None None
    = Ok cell /\
    Cell.with_style cell Sample.shaded = set_style cell (Some Sample.shaded) /\
    Cell.formula cell = Some "=SUM(A1:A2)".
Proof.
  destruct (restyle_keeps_content (PyInt 3) (Some "SUM(A1:A2)") None None
              FORMULA None None Sample.shaded) as (Hstyle & _ & _ & Hf & _).
  eexists. split; [reflexivity |]. split; [exact Hstyle | exact Hf].
Defined.

(** ** Lookups by name *)

Lemma find_by_key_none {A : Type} (key_of : A -> string) (key : string)
  (l : list A) :
  find (fun x => String.eqb (key_of x) key) l = None <->
  key ∉ map key_of l.
Proof.
  induction l as [| x l IH]; simpl.
  - split; [intros _ H; inversion H | reflexivity].
  - destruct (String.eqb_spec (key_of x) key) as [Heq | Hne].
    + split; [discriminate |]. intros H. exfalso. apply H. rewrite Heq. left.
    + rewrite IH. split.
      * intros H Hin. apply elem_of_cons in Hin as [Hin | Hin];
          [congruence | contradiction].
      * intros H Hin. apply H. right. exact Hin.
Qed.

Lemma find_by_key_some {A : Type} (key_of : A -> string) (key : string)
  (l : list A) (x : A) :
  find (fun x => String.eqb (key_of x) key) l = Some x ->
  x ∈ l /\ key_of x = key.
Proof.
  intros H. apply find_some in H as [Hin Heq].
  split; [apply list_elem_of_In, Hin | apply String.eqb_eq, Heq].
Qed.

Lemma find_by_key_unique {A : Type} (key_of : A -> string) (l : list A)
  (x : A) :
  NoDup (map key_of l) -> x ∈ l ->
  find (fun y => String.eqb (key_of y) (key_of x)) l = Some x.
Proof.
  induction l as [| y l IH]; intros Hnd Hin; [inversion Hin |].
  simpl in *. apply NoDup_cons in Hnd as [Hy Hnd].
  apply elem_of_cons in Hin as [-> | Hin].
  - rewrite String.eqb_refl. reflexivity.
  - destruct (String.eqb_spec (key_of y) (key_of x)) as [Heq | Hne].
    + exfalso. apply Hy. rewrite Heq.
      apply list_elem_of_In, in_map, list_elem_of_In, Hin.
    + apply IH; assumption.
Qed.

Lemma find_by_key_app {A : Type} (key_of : A -> string) (key : string)
  (l k : list A) :
  find (fun x => String.eqb (key_of x) key) (l ++ k)
  = match find (fun x => String.eqb (key_of x) key) l with
    | Some x => Some x
    | None => find (fun x => String.eqb (key_of x) key) k
    end.
Proof.
  induction l as [| y l IH]; simpl; [reflexivity |].
  destruct (String.eqb (key_of y) key); [reflexivity | exact IH].
Qed.

Lemma len_set_le_length {A : Type} {EqA : EqDecision A} {CountA : Countable A}
  (l : list A) :
  (len_set l <= length l)%nat.
Proof.
  unfold len_set. induction l as [| x l IH].
  - rewrite list_to_set_nil, size_empty. simpl. lia.
  - rewrite list_to_set_cons. simpl length.
    etransitivity; [apply Nat.eq_le_incl, size_union_alt |].
    rewrite size_singleton.
    assert (size (list_to_set l ∖ {[x]} : gset A)
            <= size (list_to_set l : gset A))%nat as Hsub.
    { apply subseteq_size. apply subseteq_difference_l. reflexivity. }
    lia.
Qed.

Lemma len_set_NoDup {A : Type} {EqA : EqDecision A} {CountA : Countable A}
  (l : list A) :
  len_set l = length l -> NoDup l.
Proof.
  induction l as [| x l IH]; intros Hlen; [constructor |].
  pose proof (len_set_le_length l) as Hle.
  unfold len_set in *. rewrite list_to_set_cons in Hlen. simpl length in Hlen.
  destruct (decide (x ∈ l)) as [Hin | Hnotin].
  - exfalso.
    assert (({[x]} ∪ list_to_set l : gset A) = list_to_set l) as Heq
      by (apply subseteq_union_1_L, singleton_subseteq_l, elem_of_list_to_set,
            Hin).
    rewrite Heq in Hlen. lia.
  - constructor; [exact Hnotin |]. apply IH.
    rewrite size_union in Hlen
      by (apply disjoint_singleton_l; rewrite elem_of_list_to_set;
          exact Hnotin).
    rewrite size_singleton in Hlen. lia.
Qed.

(** X14: in a table template that passed its validation, the column keys
    identify the columns: [get_column] on the key of any column of the
    template returns that very column, and it returns [None] exactly for
    the keys that no column has. *)
Theorem get_column_by_key (template : TableTemplate.t) (key : string) :
  TableTemplate.post_init template = Ok template ->
  (forall col,
      col ∈ TableTemplate.columns template ->
      TableTemplate.get_column template (ColumnDefinition.key col) = Some col) /\
  (TableTemplate.get_column template key = None <->
   key ∉ map ColumnDefinition.key (TableTemplate.columns template)) /\
  TableTemplate.columns template <> [].
Proof.
  intros Hvalid. unfold TableTemplate.post_init in Hvalid.
  destruct (negb (truthy_str (TableTemplate.name template)));
    [discriminate |].
  destruct (truthy_list (TableTemplate.columns template)) eqn:Hcols;
    [| discriminate]. simpl in Hvalid.
  destruct (Nat.eqb_spec
              (length (map ColumnDefinition.key (TableTemplate.columns template)))
              (len_set (map ColumnDefinition.key
                            (TableTemplate.columns template))))
    as [Hlen | Hlen]; [| discriminate].
  symmetry in Hlen. apply len_set_NoDup in Hlen.
  split; [| split].
  - intros col Hcol. apply find_by_key_unique; assumption.
  - apply find_by_key_none.
  - apply truthy_list_nonempty, Hcols.
Qed.

Lemma get_column_by_key_sample :
  (forall col,
      col ∈ TableTemplate.columns Sample.table ->
      TableTemplate.get_column Sample.table (ColumnDefinition.key col)
      = Some col) /\
  (TableTemplate.get_column Sample.table "total" = None <->
   "total" ∉ map ColumnDefinition.key (TableTemplate.columns Sample.table)) /\
  TableTemplate.columns Sample.table <> [].
Proof. apply (get_column_by_key Sample.table "total"). reflexivity. Defined.

(** X15: a workbook template that passed its validation has an active
    sheet, and its sheet names identify its sheets: [get_sheet] on the
    name of any of its sheets returns that sheet, and [None] exactly for
    the names that no sheet has. *)
Theorem get_sheet_by_name (given template : SpreadsheetTemplate.t)
  (name : string) :
  SpreadsheetTemplate.post_init given = Ok template ->
  (forall sheet,
      sheet ∈ SpreadsheetTemplate.sheets template ->
      SpreadsheetTemplate.get_sheet template (SheetTemplate.name sheet)
      = Some sheet) /\
  (SpreadsheetTemplate.get_sheet template name = None <->
   name ∉ SpreadsheetTemplate.sheet_names template) /\
  NoDup (SpreadsheetTemplate.sheet_names template) /\
  SpreadsheetTemplate.sheets template = SpreadsheetTemplate.sheets given /\
  exists first rest,
    SpreadsheetTemplate.sheets template = first :: rest /\
    SpreadsheetTemplate.active_sheet template
    = Some (default (SheetTemplate.name first)
                    (SpreadsheetTemplate.active_sheet given)).
Proof.
  intros Hvalid. unfold SpreadsheetTemplate.post_init in Hvalid.
  destruct (SpreadsheetTemplate.sheets given) as [| first rest] eqn:Hsheets;
    [discriminate |].
  destruct (Nat.eqb_spec
              (length (map SheetTemplate.name (first :: rest)))
              (len_set (map SheetTemplate.name (first :: rest))))
    as [Hlen | Hlen]; [| discriminate].
  simpl negb in Hvalid. cbv iota in Hvalid. injection Hvalid as <-.
  symmetry in Hlen. apply len_set_NoDup in Hlen.
  unfold SpreadsheetTemplate.get_sheet, SpreadsheetTemplate.sheet_names.
  cbn [SpreadsheetTemplate.sheets SpreadsheetTemplate.active_sheet].
  split; [| split; [| split; [| split]]].
  - intros sheet Hin. apply find_by_key_unique; assumption.
  - apply find_by_key_none.
  - exact Hlen.
  - reflexivity.
  - exists first, rest. split; [reflexivity |].
    destruct (SpreadsheetTemplate.active_sheet given); reflexivity.
Qed.

Lemma get_sheet_by_name_sample :
  let given := SpreadsheetTemplate.mk [Sample.sheet] ∅ None in
  let template := SpreadsheetTemplate.mk [Sample.sheet] ∅ (Some "Report") in
  (forall sheet,
      sheet ∈ SpreadsheetTemplate.sheets template ->
      SpreadsheetTemplate.get_sheet template (SheetTemplate.name sheet)
      = Some sheet) /\
  (SpreadsheetTemplate.get_sheet template "Q1" = None <->
   "Q1" ∉ SpreadsheetTemplate.sheet_names template) /\
  NoDup (SpreadsheetTemplate.sheet_names template) /\
  SpreadsheetTemplate.sheets template = SpreadsheetTemplate.sheets given /\
  exists first rest,
    SpreadsheetTemplate.sheets template = first :: rest /\
    SpreadsheetTemplate.active_sheet template
    = Some (default (SheetTemplate.name first)
                    (SpreadsheetTemplate.active_sheet given)).
Proof.
  apply (get_sheet_by_name (SpreadsheetTemplate.mk [Sample.sheet] ∅ None)
           (SpreadsheetTemplate.mk [Sample.sheet] ∅ (Some "Report")) "Q1").
  reflexivity.
Defined.

(** ** Workbooks *)

(** X16: [add_sheet] keeps the sheet names of a workbook distinct.  It
    raises exactly when a sheet of that name is already there; otherwise
    the sheet becomes the last one, [get_sheet] finds it under its name and
    finds every other name as before, and the workbook's first sheet
    becomes the active one when none was. *)
Theorem add_sheet_unique_names (self : Spreadsheet.t) (sheet : Sheet.t) :
  NoDup (Spreadsheet.sheet_names self) ->
  (is_ok (Spreadsheet.add_sheet self sheet) = true <->
   Sheet.name sheet ∉ Spreadsheet.sheet_names self) /\
  forall self',
    Spreadsheet.add_sheet self sheet = Ok self' ->
    Spreadsheet.sheets self' = Spreadsheet.sheets self ++ [sheet] /\
    NoDup (Spreadsheet.sheet_names self') /\
    Spreadsheet.get_sheet self' (Sheet.name sheet) = Some sheet /\
    (forall name,
        name <> Sheet.name sheet ->
        Spreadsheet.get_sheet self' name = Spreadsheet.get_sheet self name) /\
    Spreadsheet.active_sheet self'
    = Some (default (Sheet.name sheet) (Spreadsheet.active_sheet self)).
Proof.
  intros Hnd. unfold Spreadsheet.add_sheet, Spreadsheet.get_sheet,
    Spreadsheet.sheet_names in *.
  destruct (find _ (Spreadsheet.sheets self)) as [found |] eqn:Hfind.
  - split; [| discriminate]. simpl. split; [discriminate |].
    intros Hnotin. apply find_by_key_none in Hnotin. congruence.
  - pose proof (proj1 (find_by_key_none _ _ _) Hfind) as Hnotin.
    split; [simpl; tauto |].
    intros self' [= <-]. simpl.
    split; [reflexivity |]. split; [| split; [| split]].
    + rewrite map_app. apply NoDup_app. split; [exact Hnd |].
      split; [| apply NoDup_singleton].
      intros x Hx Hx'. apply list_elem_of_In in Hx'. simpl in Hx'.
      destruct Hx' as [<- | []]. contradiction.
    + rewrite find_by_key_app, Hfind. simpl. rewrite String.eqb_refl.
      reflexivity.
    + intros name Hne. rewrite find_by_key_app.
      destruct (find (fun x => String.eqb (Sheet.name x) name)
                     (Spreadsheet.sheets self)); [reflexivity |].
      simpl. destruct (String.eqb_spec (Sheet.name sheet) name);
        [congruence | reflexivity].
    + destruct (Spreadsheet.active_sheet self); reflexivity.
Qed.

Lemma add_sheet_unique_names_sample :
  let sheet := Sheet.mk "Report" [] ∅ None ∅ ∅ None None in
  let self := Spreadsheet.mk [] ∅ None in
  (is_ok (Spreadsheet.add_sheet self sheet) = true <->
   Sheet.name sheet ∉ Spreadsheet.sheet_names self) /\
  forall self',
    Spreadsheet.add_sheet self sheet = Ok self' ->
    Spreadsheet.sheets self' = Spreadsheet.sheets self ++ [sheet] /\
    NoDup (Spreadsheet.sheet_names self') /\
    Spreadsheet.get_sheet self' (Sheet.name sheet) = Some sheet /\
    (forall name,
        name <> Sheet.name sheet ->
        Spreadsheet.get_sheet self' name = Spreadsheet.get_sheet self name) /\
    Spreadsheet.active_sheet self'
    = Some (default (Sheet.name sheet) (Spreadsheet.active_sheet self)).
Proof.
  apply (add_sheet_unique_names (Spreadsheet.mk [] ∅ None)
           (Sheet.mk "Report" [] ∅ None ∅ ∅ None None)).
  constructor.
Defined.

Section RemoveSheet.

(** What [list.remove] compares with: an object equals itself, and two
    sheets that are equal have the same name (the dataclass compares its
    fields, the name first). *)
Variable sheet_eqb : Sheet.t -> Sheet.t -> bool.
Hypothesis sheet_eqb_refl : forall sheet, sheet_eqb sheet sheet = true.
Hypothesis sheet_eqb_name :
  forall sheet sheet', sheet_eqb sheet sheet' = true ->
                       Sheet.name sheet = Sheet.name sheet'.

Lemma list_remove_found (found : Sheet.t) (sheets : list Sheet.t) :
  find (fun sheet => String.eqb (Sheet.name sheet) (Sheet.name found)) sheets
  = Some found ->
  exists before after,
    sheets = before ++ found :: after /\
    (Sheet.name found ∉ map Sheet.name before) /\
    Spreadsheet.list_remove sheet_eqb found sheets = Some (before ++ after).
Proof.
  induction sheets as [| y sheets IH]; simpl; [discriminate |].
  destruct (String.eqb_spec (Sheet.name y) (Sheet.name found)) as [Heq | Hne].
  - intros [= ->]. exists [], sheets. rewrite sheet_eqb_refl.
    split; [reflexivity |]. split; [| reflexivity]. intros H. inversion H.
  - intros Hfind. destruct (IH Hfind) as (before & after & -> & Hnotin & Hrm).
    exists (y :: before), after.
    destruct (sheet_eqb y found) eqn:E;
      [apply sheet_eqb_name in E; contradiction |].
    rewrite Hrm. split; [reflexivity |]. split; [| reflexivity].
    simpl. intros Hin. apply elem_of_cons in Hin as [Hin | Hin];
      [congruence | contradiction].
Qed.

(** X17: [remove_sheet] on a workbook whose sheet names are distinct.  It
    raises exactly when no sheet has the name; otherwise exactly that
    sheet is taken out, the others keep their order and are found as
    before, the name is no longer found, and when the removed sheet was
    the active one the first remaining sheet becomes active ([None] when
    none remains). *)
Theorem remove_sheet_by_name (self : Spreadsheet.t) (name : string) :
  NoDup (Spreadsheet.sheet_names self) ->
  (is_ok (Spreadsheet.remove_sheet sheet_eqb self name) = true <->
   name ∈ Spreadsheet.sheet_names self) /\
  forall self',
    Spreadsheet.remove_sheet sheet_eqb self name = Ok self' ->
    Spreadsheet.sheets self'
    = filter (fun sheet => Sheet.name sheet <> name) (Spreadsheet.sheets self) /\
    S (Spreadsheet.sheet_count self') = Spreadsheet.sheet_count self /\
    NoDup (Spreadsheet.sheet_names self') /\
    Spreadsheet.get_sheet self' name = None /\
    (forall other,
        other <> name ->
        Spreadsheet.get_sheet self' other = Spreadsheet.get_sheet self other) /\
    Spreadsheet.active_sheet self'
    = (if decide (Spreadsheet.active_sheet self = Some name)
       then head (Spreadsheet.sheet_names self')
       else Spreadsheet.active_sheet self).
Proof.
  intros Hnd. unfold Spreadsheet.remove_sheet.
  destruct (Spreadsheet.get_sheet self name) as [found |] eqn:Hfind.
  2:{ split; [| discriminate]. simpl. split; [discriminate |].
      intros Hin. apply find_by_key_none in Hfind. contradiction. }
  unfold Spreadsheet.get_sheet in Hfind.
  destruct (find_by_key_some _ _ _ _ Hfind) as [Hin Hname]. subst name.
  destruct (list_remove_found found _ Hfind)
    as (before & after & Hsheets & Hbefore & ->).
  unfold Spreadsheet.sheet_names, Spreadsheet.sheet_count,
    Spreadsheet.get_sheet in *.
  rewrite Hsheets in *. rewrite map_app in Hnd. simpl in Hnd.
  apply NoDup_app in Hnd as (Hnd1 & Hdisj & Hnd2).
  apply NoDup_cons in Hnd2 as [Hafter Hnd2].
  split.
  { simpl. split; [intros _ | reflexivity].
    rewrite map_app. apply elem_of_app. right. left. }
  intros self' [= <-]. cbn [Spreadsheet.sheets Spreadsheet.active_sheet].
  assert (forall l : list Sheet.t,
            Sheet.name found ∉ map Sheet.name l ->
            filter (fun sheet => Sheet.name sheet <> Sheet.name found) l = l)
    as Hkeep.
  { induction l as [| y l IH]; intros Hnotin; [reflexivity |].
    simpl in Hnotin. rewrite filter_cons.
    destruct (decide (Sheet.name y <> Sheet.name found)) as [Hne | Heq].
    - f_equal. apply IH. intros H. apply Hnotin. right. exact H.
    - exfalso. apply Hnotin. destruct (decide (Sheet.name y = Sheet.name found))
        as [-> | Hne]; [left | contradiction]. }
  split; [| split; [| split; [| split; [| split]]]].
  - rewrite filter_app, filter_cons.
    destruct (decide (Sheet.name found <> Sheet.name found)); [congruence |].
    rewrite !Hkeep by assumption. reflexivity.
  - rewrite !length_app. simpl. lia.
  - rewrite map_app. apply NoDup_app. split; [exact Hnd1 |].
    split; [| exact Hnd2].
    intros x Hx Hx'. apply (Hdisj x Hx). right. exact Hx'.
  - apply find_by_key_none. rewrite map_app. intros H.
    apply elem_of_app in H as [H | H]; contradiction.
  - intros other Hne. rewrite !find_by_key_app. simpl.
    destruct (String.eqb_spec (Sheet.name found) other); [congruence |].
    reflexivity.
  - destruct (decide (Spreadsheet.active_sheet self = Some (Sheet.name found)))
      as [Heq | Hne].
    + rewrite Heq, String.eqb_refl. destruct (before ++ after); reflexivity.
    + destruct (Spreadsheet.active_sheet self) as [active |]; [| reflexivity].
      destruct (String.eqb_spec active (Sheet.name found));
        [congruence | reflexivity].
Qed.

End RemoveSheet.

Lemma remove_sheet_by_name_sample :
  let eqb := fun a b => String.eqb (Sheet.name a) (Sheet.name b) in
  let self :=
    Spreadsheet.mk [Sheet.mk "Report" [] ∅ None ∅ ∅ None None;
                    Sheet.mk "Notes" [] ∅ None ∅ ∅ None None]
                   ∅ (Some "Report") in
  (is_ok (Spreadsheet.remove_sheet eqb self "Report") = true <->
   "Report" ∈ Spreadsheet.sheet_names self) /\
  forall self',
    Spreadsheet.remove_sheet eqb self "Report" = Ok self' ->
    Spreadsheet.sheets self'
    = filter (fun sheet => Sheet.name sheet <> "Report")
             (Spreadsheet.sheets self) /\
    S (Spreadsheet.sheet_count self') = Spreadsheet.sheet_count self /\
    NoDup (Spreadsheet.sheet_names self') /\
    Spreadsheet.get_sheet self' "Report" = None /\
    (forall other,
        other <> "Report" ->
        Spreadsheet.get_sheet self' other = Spreadsheet.get_sheet self other) /\
    Spreadsheet.active_sheet self'
    = (if decide (Spreadsheet.active_sheet self = Some "Report")
       then head (Spreadsheet.sheet_names self')
       else Spreadsheet.active_sheet self).
Proof.
  apply (remove_sheet_by_name
           (fun a b => String.eqb (Sheet.name a) (Sheet.name b))
           (fun sheet => String.eqb_refl (Sheet.name sheet))
           (fun a b H => proj1 (String.eqb_eq _ _) H)).
  apply NoDup_cons. split; [| apply NoDup_singleton].
  intros H. apply list_elem_of_singleton in H. discriminate.
Defined.

(** ** What the merge reads *)

(** X18: what of the data a table is built from.  With a template that
    has sections, only [section_data] counts; with a template without
    sections, only [rows].  Nothing else of the [TableData] is read: not
    the rows when there are sections (they are dropped), not the section
    data when there are none, and never [computed_values] nor [metadata]. *)
Theorem merge_table_reads (template : TableTemplate.t)
  (data data' : TableData.t) :
  (if TableTemplate.truthy_sections template
   then TableData.section_data data' = TableData.section_data data
   else TableData.rows data' = TableData.rows data) ->
  TemplateMerger.merge_table template data'
  = TemplateMerger.merge_table template data.
Proof.
  intros H. rewrite !merge_table_spec. f_equal.
  destruct (TableTemplate.truthy_sections template) eqn:Esec.
  - unfold TableTemplate.truthy_sections in Esec.
    destruct (TableTemplate.sections template) as [sections |] eqn:Es;
      [| discriminate].
    assert (sections <> []) as Hne by (destruct sections; [discriminate | congruence]).
    rewrite !(create_data_cells_sectioned template _ sections Es Hne).
    unfold spec_sectioned_body. f_equal. apply map_result_ext. intros section.
    unfold spec_section_block, TableData.get_section_data. rewrite H.
    reflexivity.
  - rewrite !create_data_cells_unsectioned by exact Esec. rewrite H.
    reflexivity.
Qed.

Lemma merge_table_reads_sample :
  TemplateMerger.merge_table Sample.table
    (TableData.mk [Sample.row "dropped" 1] ∅ (TableData.section_data Sample.data)
                  (<["note" := PyStr "x"]> ∅))
  = TemplateMerger.merge_table Sample.table Sample.data.
Proof.
  apply (merge_table_reads Sample.table Sample.data
           (TableData.mk [Sample.row "dropped" 1] ∅
                         (TableData.section_data Sample.data)
                         (<["note" := PyStr "x"]> ∅))).
  reflexivity.
Defined.

(** ** The shape of a merged table *)

Lemma final_body_lengths (template : TableTemplate.t)
  (body : list (list Cell.t)) (n : nat) :
  Forall (fun r => length r = n) body ->
  Forall (fun r => length r = n) (final_body template body).
Proof.
  intros H. unfold final_body.
  destruct (TableTemplate.alternate_row_colors template); [| exact H].
  destruct (TableTemplate.alternate_row_style template) as [style |];
    [| exact H].
  unfold restyle_even_rows. apply Forall_forall. intros row Hrow.
  apply elem_of_lookup_imap in Hrow as (i & row' & -> & Hi).
  rewrite Forall_forall in H.
  specialize (H row' (list_elem_of_lookup_2 _ _ _ Hi)).
  destruct (Nat.even i); [rewrite length_map |]; exact H.
Qed.

(** X19: the table that [merge_table] returns has the columns of the
    template that are not hidden, and only those: its header row has one
    text cell per visible column, holding the label, and every row of its
    body -- data rows and total rows -- has one cell per visible column.
    Its column count is the template's.  It has headers exactly when some
    column is visible, and a title exactly when the template's title is a
    non-empty text; it starts where the template says. *)
Theorem merge_table_shape (template : TableTemplate.t) (data : TableData.t)
  (table : Table.t) :
  TemplateMerger.merge_table template data = Ok table ->
  (exists header_cells,
      Table.headers table = Some header_cells /\
      map Cell.value header_cells
      = map (fun col => PyStr (ColumnDefinition.label col))
            (TableTemplate.visible_columns template)) /\
  Forall (fun row => length row = TableTemplate.column_count template)
         (Table.cells table) /\
  Table.column_count table = TableTemplate.column_count template /\
  Table.has_headers table = (0 <? TableTemplate.column_count template)%nat /\
  Table.has_title table = truthy_ostr (TableTemplate.title template) /\
  Table.start_position table = TableTemplate.start_position template.
Proof.
  intros H. apply merge_table_ok_inv in H as (body & Hbody & ->).
  pose proof (create_data_cells_length _ _ _ Hbody) as Hlen.
  pose proof (final_body_lengths template body _ Hlen) as Hfinal.
  unfold TableTemplate.column_count, Table.column_count, Table.has_headers,
    Table.has_title. simpl.
  assert (length (TemplateMerger._create_header_cells template)
          = length (TableTemplate.visible_columns template)) as Hh
    by apply length_map.
  split; [| split; [| split; [| split; [| split]]]].
  - eexists. split; [reflexivity |].
    unfold TemplateMerger._create_header_cells. rewrite map_map. reflexivity.
  - exact Hfinal.
  - destruct (final_body template body) as [| first rest]; [exact Hh |].
    apply Forall_cons in Hfinal as [Hfirst _]. exact Hfirst.
  - rewrite Hh. reflexivity.
  - unfold title_cell_of.
    destruct (TableTemplate.title template) as [title |]; [| reflexivity].
    simpl. destruct (truthy_str title); reflexivity.
  - reflexivity.
Qed.

Lemma merge_table_shape_sample :
  exists table,
    TemplateMerger.merge_table Sample.table Sample.data = Ok table /\
    Table.column_count table = 2%nat /\
    Table.has_headers table = true.
Proof.
  destruct (TemplateMerger.merge_table Sample.table Sample.data)
    as [table |] eqn:Hm; [| vm_compute in Hm; discriminate].
  exists table. split; [reflexivity |].
  destruct (merge_table_shape Sample.table Sample.data table Hm)
    as (_ & _ & Hcount & Hheaders & _).
  split; [exact Hcount | exact Hheaders].
Defined.

(** ** The column widths of a merged sheet *)

(** The width map after the loop over the visible columns. *)
Lemma width_entries_fold (entries : list (nat * ColumnDefinition.t)) :
  forall sheet sheet',
    for_state
      (fun sheet (entry : nat * ColumnDefinition.t) =>
         if truthy_onum (ColumnDefinition.width (snd entry))
         then Sheet.set_column_width sheet (Z.of_nat (fst entry))
                (default 0%Q (ColumnDefinition.width (snd entry)))
         else Ok sheet)
      entries sheet = Ok sheet' ->
    sheet' =
    Sheet.mk (Sheet.name sheet) (Sheet.tables sheet) (Sheet.cells sheet)
      (Sheet.freeze_panes sheet)
      (fold_left
         (fun widths (entry : nat * ColumnDefinition.t) =>
            if truthy_onum (ColumnDefinition.width (snd entry))
            then <[Z.of_nat (fst entry) :=
                     default 0%Q (ColumnDefinition.width (snd entry))]> widths
            else widths)
         entries (Sheet.column_widths sheet))
      (Sheet.row_heights sheet) (Sheet.default_column_width sheet)
      (Sheet.default_row_height sheet).
Proof.
  induction entries as [| entry entries IH]; intros sheet sheet' H; simpl in H.
  - injection H as <-. destruct sheet; reflexivity.
  - apply result_bind_inv in H as (sheet1 & Hstep & Hrest).
    apply IH in Hrest as ->. simpl.
    destruct (truthy_onum (ColumnDefinition.width (snd entry))).
    + unfold Sheet.set_column_width in Hstep.
      destruct (Qle_bool _ 0); [discriminate |].
      injection Hstep as <-. reflexivity.
    + injection Hstep as <-. reflexivity.
Qed.

Lemma width_fold_lookup (cols : list ColumnDefinition.t) :
  forall (k : nat) (widths : gmap Z Q) (z : Z),
    fold_left
      (fun widths (entry : nat * ColumnDefinition.t) =>
         if truthy_onum (ColumnDefinition.width (snd entry))
         then <[Z.of_nat (fst entry) :=
                  default 0%Q (ColumnDefinition.width (snd entry))]> widths
         else widths)
      (imap (fun i col_def => ((k + i)%nat, col_def)) cols) widths !! z
    = match
        (if (Z.of_nat k <=? z) then cols !! Z.to_nat (z - Z.of_nat k) else None)
      with
      | Some col_def =>
          if truthy_onum (ColumnDefinition.width col_def)
          then ColumnDefinition.width col_def
          else widths !! z
      | None => widths !! z
      end.
Proof.
  induction cols as [| col cols IH]; intros k widths z; simpl.
  - destruct (Z.of_nat k <=? z); reflexivity.
  - rewrite (imap_ext _ (fun i col_def => ((S k + i)%nat, col_def)))
      by (intros i x _; unfold compose; f_equal; lia).
    rewrite IH. rewrite Nat.add_0_r.
    destruct (Z.leb_spec (Z.of_nat (S k)) z) as [Hle | Hgt].
    + destruct (Z.leb_spec (Z.of_nat k) z); [| lia].
      replace (Z.to_nat (z - Z.of_nat k)) with (S (Z.to_nat (z - Z.of_nat (S k))))
        by lia.
      simpl.
      assert ((if truthy_onum (ColumnDefinition.width col)
               then <[Z.of_nat k := default 0%Q (ColumnDefinition.width col)]>
                      widths
               else widths) !! z = widths !! z) as ->; [| reflexivity].
      destruct (truthy_onum (ColumnDefinition.width col)); [| reflexivity].
      apply lookup_insert_ne. lia.
    + destruct (Z.leb_spec (Z.of_nat k) z) as [Hle | Hlt].
      * assert (z = Z.of_nat k) as -> by lia.
        rewrite Z.sub_diag. simpl.
        destruct (ColumnDefinition.width col) as [w |] eqn:Hw; simpl;
          [| reflexivity].
        destruct (negb (Qeq_bool w 0)); [| reflexivity].
        apply lookup_insert_eq.
      * destruct (truthy_onum (ColumnDefinition.width col)); [| reflexivity].
        apply lookup_insert_ne. lia.
Qed.

Lemma column_width_loop_lookup (sheet sheet' : Sheet.t)
  (template : TableTemplate.t) :
  TemplateMerger.column_width_loop sheet template = Ok sheet' ->
  (forall i : nat,
      Sheet.column_widths sheet' !! Z.of_nat (S i)
      = match declared_width template i with
        | Some w => Some w
        | None => Sheet.column_widths sheet !! Z.of_nat (S i)
        end) /\
  (forall z, z <= 0 ->
             Sheet.column_widths sheet' !! z = Sheet.column_widths sheet !! z) /\
  Sheet.name sheet' = Sheet.name sheet /\
  Sheet.tables sheet' = Sheet.tables sheet /\
  Sheet.cells sheet' = Sheet.cells sheet /\
  Sheet.freeze_panes sheet' = Sheet.freeze_panes sheet /\
  Sheet.row_heights sheet' = Sheet.row_heights sheet /\
  Sheet.default_column_width sheet' = Sheet.default_column_width sheet /\
  Sheet.default_row_height sheet' = Sheet.default_row_height sheet.
Proof.
  unfold TemplateMerger.column_width_loop. intros H.
  apply width_entries_fold in H. subst sheet'. simpl.
  split; [| split; [| repeat split]].
  - intros i.
    rewrite (imap_ext _ (fun i col_def => ((1 + i)%nat, col_def)))
      by (intros j x _; reflexivity).
    rewrite width_fold_lookup.
    destruct (Z.leb_spec (Z.of_nat 1) (Z.of_nat (S i))); [| lia].
    replace (Z.to_nat (Z.of_nat (S i) - Z.of_nat 1)) with i by lia.
    unfold declared_width.
    destruct (TableTemplate.visible_columns template !! i) as [col |];
      [| reflexivity].
    destruct (truthy_onum (ColumnDefinition.width col)) eqn:Et; [| reflexivity].
    destruct (ColumnDefinition.width col); [reflexivity | discriminate].
  - intros z Hz.
    rewrite (imap_ext _ (fun i col_def => ((1 + i)%nat, col_def)))
      by (intros j x _; reflexivity).
    rewrite width_fold_lookup.
    destruct (Z.leb_spec (Z.of_nat 1) z); [lia | reflexivity].
Qed.

Lemma table_loop_widths (data : SheetData.t)
  (templates : list TableTemplate.t) :
  forall sheet current_row st,
    for_state (TemplateMerger.table_step data) templates (sheet, current_row)
    = Ok st ->
    (forall i : nat,
        Sheet.column_widths (fst st) !! Z.of_nat (S i)
        = fold_left (fun width template =>
                       match declared_width template i with
                       | Some w => Some w
                       | None => width
                       end)
                    templates (Sheet.column_widths sheet !! Z.of_nat (S i))) /\
    (forall z, z <= 0 ->
               Sheet.column_widths (fst st) !! z
               = Sheet.column_widths sheet !! z) /\
    Sheet.name (fst st) = Sheet.name sheet /\
    Sheet.cells (fst st) = Sheet.cells sheet /\
    Sheet.freeze_panes (fst st) = Sheet.freeze_panes sheet /\
    Sheet.row_heights (fst st) = Sheet.row_heights sheet /\
    Sheet.default_column_width (fst st) = Sheet.default_column_width sheet /\
    Sheet.default_row_height (fst st) = Sheet.default_row_height sheet.
Proof.
  induction templates as [| template templates IH];
    intros sheet current_row st H; simpl in H.
  - injection H as <-. simpl. repeat split; reflexivity.
  - apply result_bind_inv in H as ([sheet1 row1] & Hstep & Hrest).
    rewrite table_step_spec in Hstep.
    apply result_bind_inv in Hstep as (pos & _ & Hstep).
    apply result_bind_inv in Hstep as (template' & _ & Hstep).
    apply result_bind_inv in Hstep as (table & _ & Hstep).
    apply result_bind_inv in Hstep as (sheet2 & Hloop & [= <- <-]).
    apply column_width_loop_lookup in Hloop
      as (Hw & Hz & Hn & _ & Hc & Hf & Hr & Hd1 & Hd2).
    simpl in *.
    destruct (IH _ _ _ Hrest) as (Hw' & Hz' & Hn' & Hc' & Hf' & Hr' & Hd1' & Hd2').
    split; [| split; [| repeat split; congruence]].
    + intros i. rewrite Hw', Hw. reflexivity.
    + intros z Hle. rewrite Hz', Hz by exact Hle. reflexivity.
Qed.

(** X20: the sheet that [merge_sheet] returns has the name, the freeze
    panes and the default sizes of the template, no free cell and no row
    height.  Its column widths come from the templates of its tables: the
    width of sheet column [i + 1] is the width asked for by the visible
    column at place [i] of the last table, in template order, that has a
    visible column with a (non-zero) width at that place, and there is no
    entry when no table has one. *)
Theorem merge_sheet_column_widths (template : SheetTemplate.t)
  (data : SheetData.t) (sheet : Sheet.t) :
  TemplateMerger.merge_sheet template data = Ok sheet ->
  (forall i : nat,
      Sheet.column_widths sheet !! Z.of_nat (S i)
      = last_declared_width (SheetTemplate.tables template) i) /\
  (forall z, z <= 0 -> Sheet.column_widths sheet !! z = None) /\
  Sheet.name sheet = SheetTemplate.name template /\
  Sheet.cells sheet = ∅ /\
  Sheet.freeze_panes sheet = SheetTemplate.freeze_panes template /\
  Sheet.row_heights sheet = ∅ /\
  Sheet.default_column_width sheet
  = SheetTemplate.default_column_width template /\
  Sheet.default_row_height sheet = SheetTemplate.default_row_height template.
Proof.
  unfold TemplateMerger.merge_sheet. intros H.
  apply result_bind_inv in H as (sheet0 & Hinit & H).
  apply result_bind_inv in H as (st & Hloop & [= <-]).
  unfold Sheet.init in Hinit.
  destruct (31 <? String.length (SheetTemplate.name template))%nat;
    [discriminate |].
  destruct (existsb _ Sheet.invalid_chars); [discriminate |].
  injection Hinit as <-.
  apply table_loop_widths in Hloop
    as (Hw & Hz & Hn & Hc & Hf & Hr & Hd1 & Hd2). simpl in *.
  split; [| split; [| repeat split; assumption]].
  - intros i. rewrite Hw, lookup_empty. reflexivity.
  - intros z Hle. rewrite Hz by exact Hle. apply lookup_empty.
Qed.

Lemma merge_sheet_column_widths_sample :
  exists sheet,
    TemplateMerger.merge_sheet Sample.sheet Sample.sheet_data = Ok sheet /\
    Sheet.column_widths sheet !! 1 = Some (30 # 1) /\
    Sheet.column_widths sheet !! 2 = None.
Proof.
  destruct (TemplateMerger.merge_sheet Sample.sheet Sample.sheet_data)
    as [sheet |] eqn:Hm; [| vm_compute in Hm; discriminate].
  exists sheet. split; [reflexivity |].
  destruct (merge_sheet_column_widths Sample.sheet Sample.sheet_data sheet Hm)
    as (Hw & _).
  split; [exact (Hw 0%nat) | exact (Hw 1%nat)].
Defined.

(** ** The sheets of a merged workbook *)

Lemma merge_sheet_name (template : SheetTemplate.t) (data : SheetData.t)
  (sheet : Sheet.t) :
  TemplateMerger.merge_sheet template data = Ok sheet ->
  Sheet.name sheet = SheetTemplate.name template.
Proof.
  unfold TemplateMerger.merge_sheet. intros H.
  apply result_bind_inv in H as (sheet0 & Hinit & H).
  apply result_bind_inv in H as (st & Hloop & [= <-]).
  apply table_loop_widths in Hloop as (_ & _ & -> & _).
  unfold Sheet.init in Hinit.
  destruct (31 <? String.length (SheetTemplate.name template))%nat;
    [discriminate |].
  destruct (existsb _ Sheet.invalid_chars); [discriminate |].
  injection Hinit as <-. reflexivity.
Qed.

Lemma add_sheet_inv (self self' : Spreadsheet.t) (sheet : Sheet.t) :
  Spreadsheet.add_sheet self sheet = Ok self' ->
  (Sheet.name sheet ∉ map Sheet.name (Spreadsheet.sheets self)) /\
  Spreadsheet.sheets self' = Spreadsheet.sheets self ++ [sheet] /\
  Spreadsheet.metadata self' = Spreadsheet.metadata self /\
  Spreadsheet.active_sheet self'
  = Some (default (Sheet.name sheet) (Spreadsheet.active_sheet self)).
Proof.
  unfold Spreadsheet.add_sheet, Spreadsheet.get_sheet.
  destruct (find _ (Spreadsheet.sheets self)) eqn:Hfind; [discriminate |].
  intros [= <-]. simpl.
  split; [apply find_by_key_none, Hfind |].
  repeat split. destruct (Spreadsheet.active_sheet self); reflexivity.
Qed.

Lemma sheet_loop_ok (data : SpreadsheetData.t)
  (templates : list SheetTemplate.t) :
  forall self merged,
    for_state (TemplateMerger.sheet_step data) templates self = Ok merged ->
    exists sheets,
      Forall2 (fun template sheet =>
                 TemplateMerger.merge_sheet template
                   (sheet_data_for data template) = Ok sheet)
              templates sheets /\
      Spreadsheet.sheets merged = Spreadsheet.sheets self ++ sheets /\
      Spreadsheet.metadata merged = Spreadsheet.metadata self /\
      Spreadsheet.active_sheet merged
      = match Spreadsheet.active_sheet self with
        | Some active => Some active
        | None => head (map SheetTemplate.name templates)
        end /\
      (NoDup (map Sheet.name (Spreadsheet.sheets self)) ->
       NoDup (map Sheet.name (Spreadsheet.sheets merged))).
Proof.
  induction templates as [| template templates IH]; intros self merged H;
    simpl in H.
  - injection H as <-. exists []. rewrite app_nil_r.
    repeat split; [constructor | | auto].
    destruct (Spreadsheet.active_sheet self); reflexivity.
  - apply result_bind_inv in H as (self1 & Hstep & Hrest).
    unfold TemplateMerger.sheet_step in Hstep.
    fold (sheet_data_for data template) in Hstep.
    apply result_bind_inv in Hstep as (sheet & Hsheet & Hadd).
    apply add_sheet_inv in Hadd as (Hnotin & Hsheets & Hmeta & Hactive).
    destruct (IH _ _ Hrest) as (sheets & Hall & Heq & Hmeta' & Hactive' & Hnd).
    exists (sheet :: sheets).
    split; [constructor; assumption |].
    split; [rewrite Heq, Hsheets, <- app_assoc; reflexivity |].
    split; [congruence |].
    split.
    + rewrite Hactive', Hactive. simpl.
      rewrite (merge_sheet_name _ _ _ Hsheet).
      destruct (Spreadsheet.active_sheet self); reflexivity.
    + intros Hself. apply Hnd. rewrite Hsheets, map_app.
      apply NoDup_app. split; [exact Hself |].
      split; [| apply NoDup_singleton].
      intros x Hx Hx'. apply list_elem_of_singleton in Hx'. subst x.
      contradiction.
Qed.

Lemma sheet_loop_err (data : SpreadsheetData.t)
  (templates : list SheetTemplate.t) :
  forall self e,
    NoDup (map Sheet.name (Spreadsheet.sheets self)
           ++ map SheetTemplate.name templates) ->
    for_state (TemplateMerger.sheet_step data) templates self = Err e ->
    exists template,
      template ∈ templates /\
      TemplateMerger.merge_sheet template (sheet_data_for data template)
      = Err e.
Proof.
  induction templates as [| template templates IH]; intros self e Hnd H;
    simpl in H; [discriminate |].
  unfold TemplateMerger.sheet_step at 1 in H.
  fold (sheet_data_for data template) in H.
  destruct (TemplateMerger.merge_sheet template (sheet_data_for data template))
    as [sheet | e'] eqn:Hsheet; simpl in H.
  2:{ injection H as <-. exists template. split; [left | exact Hsheet]. }
  pose proof (merge_sheet_name _ _ _ Hsheet) as Hname.
  simpl in Hnd. apply NoDup_app in Hnd as (Hself & Hdisj & Hrest).
  apply NoDup_cons in Hrest as [Hfresh Hrest].
  unfold Spreadsheet.add_sheet, Spreadsheet.get_sheet in H.
  destruct (find _ (Spreadsheet.sheets self)) as [found |] eqn:Hfind.
  { exfalso. apply find_by_key_some in Hfind as [Hin Hfound].
    apply (Hdisj (Sheet.name found)).
    - apply list_elem_of_In, in_map, list_elem_of_In, Hin.
    - rewrite Hfound, Hname. left. }
  simpl in H.
  pose proof (merge_sheet_name _ _ _ Hsheet) as Hname'.
  match type of H with
  | for_state _ _ ?s = _ =>
      assert (NoDup (map Sheet.name (Spreadsheet.sheets s)
                     ++ map SheetTemplate.name templates)) as Hnd'
  end.
  { simpl. rewrite map_app. simpl. rewrite <- app_assoc. simpl.
    apply NoDup_app. split; [exact Hself |]. split.
    - intros x Hx Hx'. apply (Hdisj x Hx).
      rewrite Hname' in Hx'. exact Hx'.
    - rewrite Hname'. constructor; assumption. }
  destruct (IH _ e Hnd' H) as (template' & Hin & Herr).
  exists template'. split; [right; exact Hin | exact Herr].
Qed.

(** X21: the workbook that [merge_spreadsheet] returns has one sheet per
    sheet template, in order and under the same names, each the result of
    [merge_sheet] on the template and the data bound to its name (no data
    when the name is missing); it carries the metadata of the template;
    its active sheet is the template's, or the first sheet when the
    template names none.  A workbook is returned only when the sheet names
    are distinct; and when they are distinct, an exception of
    [merge_spreadsheet] is the exception of [merge_sheet] on one of the
    sheet templates. *)
Theorem merge_spreadsheet_sheets (template : SpreadsheetTemplate.t)
  (data : SpreadsheetData.t) :
  (forall merged,
      TemplateMerger.merge_spreadsheet template data = Ok merged ->
      Forall2 (fun sheet_template sheet =>
                 TemplateMerger.merge_sheet sheet_template
                   (sheet_data_for data sheet_template) = Ok sheet)
              (SpreadsheetTemplate.sheets template)
              (Spreadsheet.sheets merged) /\
      Spreadsheet.sheet_names merged
      = SpreadsheetTemplate.sheet_names template /\
      NoDup (SpreadsheetTemplate.sheet_names template) /\
      Spreadsheet.metadata merged = SpreadsheetTemplate.metadata template /\
      Spreadsheet.active_sheet merged
      = match SpreadsheetTemplate.active_sheet template with
        | Some active => Some active
        | None => head (SpreadsheetTemplate.sheet_names template)
        end) /\
  (forall e,
      NoDup (SpreadsheetTemplate.sheet_names template) ->
      TemplateMerger.merge_spreadsheet template data = Err e ->
      exists sheet_template,
        sheet_template ∈ SpreadsheetTemplate.sheets template /\
        TemplateMerger.merge_sheet sheet_template
          (sheet_data_for data sheet_template) = Err e).
Proof.
  unfold TemplateMerger.merge_spreadsheet, SpreadsheetTemplate.sheet_names,
    Spreadsheet.sheet_names.
  split.
  - intros merged H.
    apply sheet_loop_ok in H as (sheets & Hall & Heq & Hmeta & Hactive & Hnd).
    simpl in Heq, Hmeta, Hactive, Hnd. subst sheets.
    assert (map Sheet.name (Spreadsheet.sheets merged)
            = map SheetTemplate.name (SpreadsheetTemplate.sheets template))
      as Hnames.
    { clear - Hall.
      induction Hall as [| t s ts ss Hts _ IH]; simpl; [reflexivity |].
      rewrite (merge_sheet_name _ _ _ Hts), IH. reflexivity. }
    split; [exact Hall |].
    split; [exact Hnames |].
    split; [rewrite <- Hnames; apply Hnd; constructor |].
    split; [exact Hmeta | exact Hactive].
  - intros e Hnd H. eapply sheet_loop_err; [| exact H]. exact Hnd.
Qed.

(** ** What can make [merge_sheet] raise *)

(** X24: what makes [merge_sheet] raise, once the templates have passed
    their validation (the sheet template, its table templates and their
    columns).  It raises exactly when the sheet name holds one of the
    characters that [Sheet] refuses, or the building of a cell of one of
    the tables raises; and the exception is the error about the name, or
    the one raised for the cell: by the [computed] callable of a visible
    column on a processed row of the data, or by the comparison with the
    empty string of the value that the column takes there. *)
Theorem merge_sheet_errors (template : SheetTemplate.t) (data : SheetData.t) :
  SheetTemplate.post_init template = Ok template ->
  Forall validated_table (SheetTemplate.tables template) ->
  (forall e,
      TemplateMerger.merge_sheet template data = Err e ->
      (e = ValueError "Sheet name cannot contain: \, /, *, ?, :, [, ]" /\
       exists char,
         char ∈ Sheet.invalid_chars /\
         contains_char char (SheetTemplate.name template) = true)
      \/ raised_by_table (SheetTemplate.tables template) data e) /\
  (is_ok (TemplateMerger.merge_sheet template data) = false <->
   (exists char,
       char ∈ Sheet.invalid_chars /\
       contains_char char (SheetTemplate.name template) = true)
   \/ exists e, raised_by_table (SheetTemplate.tables template) data e).
Proof.
  intros Hpost Hvalid.
  assert ((31 <? String.length (SheetTemplate.name template))%nat = false)
    as Hlen.
  { unfold SheetTemplate.post_init in Hpost.
    destruct (negb (truthy_str (SheetTemplate.name template)));
      [discriminate |].
    destruct (31 <? String.length (SheetTemplate.name template))%nat;
      [discriminate | reflexivity]. }
  assert (forall e,
             TemplateMerger.merge_sheet template data = Err e ->
             (e = ValueError "Sheet name cannot contain: \, /, *, ?, :, [, ]" /\
              exists char,
                char ∈ Sheet.invalid_chars /\
                contains_char char (SheetTemplate.name template) = true)
             \/ raised_by_table (SheetTemplate.tables template) data e)
    as Herr.
  { intros e H. unfold TemplateMerger.merge_sheet, Sheet.init in H.
    rewrite Hlen in H.
    destruct (existsb _ Sheet.invalid_chars) eqn:Hchars.
    - left. simpl in H. injection H as <-. split; [reflexivity |].
      apply existsb_exists in Hchars as (char & Hin & Hchar).
      exists char. split; [apply list_elem_of_In, Hin | exact Hchar].
    - right. simpl in H.
      apply result_bind_err in H as [H | (st & _ & H)]; [| discriminate].
      eapply table_loop_err; [| exact Hvalid | exact H]. lia. }
  split; [exact Herr |].
  split.
  - intros Hfail.
    destruct (TemplateMerger.merge_sheet template data) as [sheet | e] eqn:Hm;
      [discriminate |].
    destruct (Herr e eq_refl) as [(_ & Hchar) | Hraised]; eauto.
  - intros Hcause. unfold TemplateMerger.merge_sheet, Sheet.init.
    rewrite Hlen.
    destruct (existsb (fun c => contains_char c (SheetTemplate.name template))
                Sheet.invalid_chars) eqn:Hchars; [reflexivity |].
    cbn [result_bind].
    destruct Hcause as [(char & Hin & Hchar) | (e & Hraise)].
    + exfalso.
      assert (existsb (fun c => contains_char c (SheetTemplate.name template))
                Sheet.invalid_chars = true) as Habs.
      { apply existsb_exists. exists char.
        split; [apply list_elem_of_In, Hin | exact Hchar]. }
      congruence.
    + match goal with
      | |- context [for_state ?f ?l (?s, 1)] =>
          pose proof (table_loop_fails data _ e Hraise s 1 ltac:(lia) Hvalid)
            as Hloop;
          destruct (for_state f l (s, 1)); [discriminate | reflexivity]
      end.
Qed.

Lemma merge_sheet_errors_sample :
  is_ok (TemplateMerger.merge_sheet Sample.sheet
           (SheetData.mk (<["extra" := Sample.na_data]> ∅) ∅)) = false.
Proof.
  destruct (merge_sheet_errors Sample.sheet
              (SheetData.mk (<["extra" := Sample.na_data]> ∅) ∅))
    as (_ & _ & Hfails).
  - reflexivity.
  - repeat constructor.
  - apply Hfails. right.
    exists (TypeError "boolean value of NA is ambiguous"), Sample.extra.
    split; [right; left |].
    exists Sample.account, (<["account" := Sample.not_available]> ∅).
    split; [left |]. split; [left |].
    right. split; [reflexivity |].
    exists Sample.not_available. split; reflexivity.
Defined.

Lemma merge_spreadsheet_sheets_sample :
  exists merged,
    TemplateMerger.merge_spreadsheet SampleStore.workbook
      SampleStore.workbook_data = Ok merged /\
    Spreadsheet.sheet_names merged = ["Report"] /\
    Spreadsheet.active_sheet merged = Some "Report".
Proof.
  destruct (TemplateMerger.merge_spreadsheet SampleStore.workbook
              SampleStore.workbook_data) as [merged |] eqn:Hm;
    [| vm_compute in Hm; discriminate].
  exists merged. split; [reflexivity |].
  destruct (merge_spreadsheet_sheets SampleStore.workbook
              SampleStore.workbook_data) as [Hok _].
  destruct (Hok merged Hm) as (_ & Hnames & _ & _ & Hactive).
  split; [exact Hnames | exact Hactive].
Defined.

(** ** Chunks of rows *)

Lemma chunks_loop_spec {A : Type} (chunk_size : Z) (data_source : list A) :
  forall chunk : list A,
    Z.of_nat (length chunk) < Z.max chunk_size 1 ->
    let chunks :=
      StreamingDataIterator.chunks_loop chunk_size data_source chunk in
    concat chunks = chunk ++ data_source /\
    forall (i : nat) (c : list A),
      chunks !! i = Some c ->
      1 <= Z.of_nat (length c) <= Z.max chunk_size 1 /\
      (S i < length chunks -> Z.of_nat (length c) = Z.max chunk_size 1)%nat.
Proof.
  induction data_source as [| row rest IH]; intros chunk Hlen; simpl.
  - destruct chunk as [| x chunk]; simpl.
    + split; [reflexivity |]. intros i c H. discriminate.
    + rewrite app_nil_r. split; [reflexivity |].
      intros [| i] c H; [| discriminate]. injection H as <-.
      simpl in *. split; [lia |]. intros Hi. lia.
  - rewrite length_app. simpl length.
    destruct (Z.leb_spec chunk_size (Z.of_nat (length chunk + 1))) as [Hfull | Hmore].
    + destruct (IH [] ltac:(simpl; lia)) as [Hcat Hchunks]. simpl.
      rewrite Hcat, <- app_assoc. split; [reflexivity |].
      intros [| i] c H.
      * injection H as <-. rewrite length_app. simpl length.
        split; lia.
      * simpl in H. destruct (Hchunks i c H) as [H1 H2].
        split; [exact H1 |]. intros Hi. apply H2. lia.
    + destruct (IH (chunk ++ [row])) as [Hcat Hchunks].
      { rewrite length_app. simpl length. lia. }
      rewrite Hcat, <- app_assoc. split; [reflexivity | exact Hchunks].
Qed.

(** X22: the chunks of [StreamingDataIterator.iter_chunks], one after the
    other, are the rows of the source in order.  With [m] the chunk size,
    or 1 when the chunk size is 0 or negative, every chunk but the last has
    exactly [m] rows and the last has between 1 and [m]: no chunk is empty,
    and a chunk size of 0 or less gives chunks of one row. *)
Theorem iter_chunks_partitions {A : Type} (data_source : list A)
  (chunk_size : Z) :
  let chunks := StreamingDataIterator.iter_chunks data_source chunk_size in
  let m := Z.max chunk_size 1 in
  concat chunks = data_source /\
  forall (i : nat) (c : list A),
    chunks !! i = Some c ->
    1 <= Z.of_nat (length c) <= m /\
    (S i < length chunks -> Z.of_nat (length c) = m)%nat.
Proof.
  unfold StreamingDataIterator.iter_chunks.
  apply (chunks_loop_spec chunk_size data_source []). simpl. lia.
Qed.

Lemma iter_chunks_partitions_sample :
  concat (StreamingDataIterator.iter_chunks [1; 2; 3]%nat 2) = [1; 2; 3]%nat /\
  Z.of_nat (length [1; 2]%nat) = Z.max 2 1.
Proof.
  destruct (iter_chunks_partitions [1; 2; 3]%nat 2) as [Hconcat Hchunk].
  split; [exact Hconcat |].
  destruct (Hchunk 0%nat [1; 2]%nat eq_refl) as [_ Hfull].
  apply Hfull. vm_compute. lia.
Defined.

Lemma chunks_loop_fill {A : Type} (n : nat) (rest : list A) :
  forall chunk : list A,
    (length chunk + length rest < n)%nat ->
    StreamingDataIterator.chunks_loop (Z.of_nat n) rest chunk
    = if truthy_list (chunk ++ rest) then [chunk ++ rest] else [].
Proof.
  induction rest as [| row rest IH]; intros chunk Hlen; simpl.
  - rewrite app_nil_r. reflexivity.
  - simpl in Hlen. rewrite length_app. simpl length.
    destruct (Z.leb_spec (Z.of_nat n) (Z.of_nat (length chunk + 1))); [lia |].
    rewrite IH by (rewrite length_app; simpl; lia).
    rewrite <- app_assoc. reflexivity.
Qed.

Lemma chunks_loop_take {A : Type} (n : nat) (source : list A) :
  forall chunk : list A,
    (length chunk < n)%nat ->
    (n <= length chunk + length source)%nat ->
    StreamingDataIterator.chunks_loop (Z.of_nat n) source chunk
    = (chunk ++ take (n - length chunk) source)
      :: StreamingDataIterator.chunks_loop (Z.of_nat n)
           (drop (n - length chunk) source) [].
Proof.
  induction source as [| row rest IH]; intros chunk Hlt Hle; simpl in *.
  - lia.
  - rewrite length_app. simpl length.
    destruct (Z.leb_spec (Z.of_nat n) (Z.of_nat (length chunk + 1))) as [Hfull | Hmore].
    + replace (n - length chunk)%nat with 1%nat by lia. simpl.
      rewrite take_0, drop_0. reflexivity.
    + rewrite IH by (rewrite ?length_app; simpl; lia).
      rewrite length_app. simpl length.
      replace (n - length chunk)%nat with (S (n - (length chunk + 1)))%nat by lia.
      simpl. rewrite <- app_assoc. reflexivity.
Qed.

Lemma py_range_step (len n : nat) :
  (0 < n)%nat -> (0 < len)%nat ->
  py_range 0 len n = 0%nat :: map (fun i => (n + i)%nat) (py_range 0 (len - n) n).
Proof.
  intros Hn Hlen. unfold py_range. rewrite !Nat.sub_0_r.
  assert (((len + (n - 1)) / n = S ((len - n + (n - 1)) / n))%nat) as ->.
  { destruct (Nat.le_gt_cases n len) as [Hge | Hlt].
    - replace (len + (n - 1))%nat with ((len - n + (n - 1)) + 1 * n)%nat by lia.
      rewrite Nat.div_add by lia. lia.
    - replace (len - n)%nat with 0%nat by lia. simpl.
      rewrite (Nat.div_small (n - 1) n) by lia.
      replace (len + (n - 1))%nat with ((len - 1) + 1 * n)%nat by lia.
      rewrite Nat.div_add by lia. rewrite Nat.div_small by lia. reflexivity. }
  simpl. f_equal. rewrite <- seq_shift, !map_map.
  apply map_ext. intros k. lia.
Qed.

Lemma py_range_empty (n : nat) : (0 < n)%nat -> py_range 0 0 n = [].
Proof.
  intros Hn. unfold py_range. simpl. rewrite Nat.div_small by lia. reflexivity.
Qed.

Lemma slices_chunks (n : nat) (fuel : nat) :
  (0 < n)%nat ->
  forall rows : list Row,
    (length rows <= fuel)%nat ->
    map (fun i => take n (drop i rows)) (py_range 0 (length rows) n)
    = StreamingDataIterator.chunks_loop (Z.of_nat n) rows [].
Proof.
  intros Hn. induction fuel as [| fuel IH]; intros rows Hfuel.
  - destruct rows; [| simpl in Hfuel; lia].
    simpl. rewrite py_range_empty by exact Hn. reflexivity.
  - destruct rows as [| row rows];
      [simpl; rewrite py_range_empty by exact Hn; reflexivity |].
    assert (0 < length (row :: rows))%nat as Hpos by (simpl; lia).
    remember (row :: rows) as all eqn:Hall. clear Hall row rows.
    rewrite py_range_step by assumption. simpl map. rewrite ?drop_0.
    rewrite map_map.
    destruct (Nat.le_gt_cases n (length all)) as [Hge | Hlt].
    + rewrite (chunks_loop_take n all []) by (simpl; lia).
      simpl length. rewrite Nat.sub_0_r. simpl app. f_equal.
      rewrite <- IH by (rewrite length_drop; lia).
      rewrite length_drop. apply map_ext. intros i.
      rewrite drop_drop. reflexivity.
    + rewrite (chunks_loop_fill n all []) by (simpl; lia).
      simpl app.
      assert (truthy_list all = true) as ->
        by (destruct all; [simpl in Hpos; lia | reflexivity]).
      replace (length all - n)%nat with 0%nat by lia.
      rewrite py_range_empty by exact Hn.
      rewrite take_ge by lia. reflexivity.
Qed.

(** X23: [StreamingTableData.iter_chunks] without a row iterator and with
    a chunk size of at least 1 cuts [rows] into the very chunks that
    [StreamingDataIterator.iter_chunks] makes of them: slicing by steps
    and filling chunk after chunk agree. *)
Theorem table_chunks_agree (self : StreamingTableData.t) :
  StreamingTableData.row_iterator self = None ->
  1 <= StreamingTableData.chunk_size self ->
  StreamingTableData.iter_chunks self
  = Ok (StreamingDataIterator.iter_chunks (StreamingTableData.rows self)
          (StreamingTableData.chunk_size self)).
Proof.
  intros Hit Hsize. unfold StreamingTableData.iter_chunks. rewrite Hit.
  destruct (Z.eqb_spec (StreamingTableData.chunk_size self) 0); [lia |].
  destruct (Z.ltb_spec (StreamingTableData.chunk_size self) 0); [lia |].
  cbv zeta. f_equal. unfold StreamingDataIterator.iter_chunks.
  rewrite (slices_chunks _ (length (StreamingTableData.rows self)))
    by lia.
  rewrite Z2Nat.id by lia. reflexivity.
Qed.

Lemma table_chunks_agree_sample :
  StreamingTableData.iter_chunks
    (StreamingTableData.mk
       [Sample.row "a" 1; Sample.row "b" 2; Sample.row "c" 3] None 2)
  = Ok (StreamingDataIterator.iter_chunks
          [Sample.row "a" 1; Sample.row "b" 2; Sample.row "c" 3] 2).
Proof.
  apply (table_chunks_agree
           (StreamingTableData.mk
              [Sample.row "a" 1; Sample.row "b" 2; Sample.row "c" 3] None 2)).
  - reflexivity.
  - simpl. lia.
Defined.

(** ** Writing a cell of a table in the store *)

Section HeapCellAccess.
Import Heap.

Lemma load_inv {A : Type} (select : obj -> option A) (l : loc) (h h' : heap)
  (a : A) :
  load select l h = (h', Ok a) ->
  h' = h /\ exists o, h !! l = Some o /\ select o = Some a.
Proof.
  unfold load. destruct (h !! l) as [o |]; [| discriminate].
  destruct (select o) as [a' |] eqn:Hs; [| discriminate].
  intros [= <- <-]. eauto.
Qed.

Lemma as_list_inv (k : lkind) (o : obj) (items : list loc) :
  as_list k o = Some items -> o = OList k items.
Proof.
  destruct o as [k' items' | | | | | | | | | | | | | | | | | |];
    try discriminate.
  simpl. destruct (decide (k = k')) as [-> |]; [| discriminate].
  intros [= ->]. reflexivity.
Qed.

Lemma as_table_inv (o : obj) (t : table_obj) :
  as_table o = Some t -> o = OTable t.
Proof.
  destruct o; try discriminate. simpl. intros [= ->]. reflexivity.
Qed.

Lemma bind_inv {A B : Type} (m : M A) (k : A -> M B) (h h' : heap) (b : B) :
  bind m k h = (h', Ok b) ->
  exists h1 a, m h = (h1, Ok a) /\ k a h1 = (h', Ok b).
Proof.
  unfold bind. destruct (m h) as [h1 [a | e]]; [eauto | discriminate].
Qed.

Lemma getitem_insert {A : Type} (l : list A) (k : nat) (x : A) (i : Z) :
  (k < length l)%nat ->
  getitem (<[k := x]> l) i
  = if decide (py_index (length l) i = Some k) then Some x else getitem l i.
Proof.
  intros Hk. unfold getitem. rewrite length_insert.
  destruct (py_index (length l) i) as [j |] eqn:Hj.
  - destruct (decide (Some j = Some k)) as [[= ->] | Hne].
    + apply list_lookup_insert_eq. exact Hk.
    + apply list_lookup_insert_ne. congruence.
  - destruct (decide (None = Some k)); [discriminate | reflexivity].
Qed.

Lemma py_index_lt (n : nat) (i : Z) (k : nat) :
  py_index n i = Some k -> (k < n)%nat.
Proof.
  unfold py_index.
  destruct (Z.leb_spec 0 i), (Z.ltb_spec i (Z.of_nat n)); simpl;
    try (intros [= <-]; lia);
    destruct (Z.ltb_spec i 0), (Z.leb_spec (- Z.of_nat n) i); simpl;
    try discriminate; intros [= <-]; lia.
Qed.

(** X25: [set_cell] in the store, when it does not raise.  It writes to
    one object only, the list of the row.  Afterwards [get_cell] returns
    the cell that was set at every place that reads that list at that
    index: the place itself, written with the same or with an equivalent
    (negative) index, and also the same column of every other row that is
    the same list object.  At every other place it returns what it
    returned before.  So when the rows of the table are distinct objects,
    exactly one place changes. *)
Theorem set_cell_then_get (h h' : heap) (self : loc) (row column : Z)
  (cell : loc) :
  Table_set_cell self row column cell h = (h', Ok (Some tt)) ->
  exists (t : table_obj) (rows cells : list loc) (cells_of_row : loc)
         (k : nat),
    h !! self = Some (OTable t) /\
    h !! tb_cells t = Some (OList KRows rows) /\
    getitem rows row = Some cells_of_row /\
    h !! cells_of_row = Some (OList KCells cells) /\
    py_index (length cells) column = Some k /\
    h' = <[cells_of_row := OList KCells (<[k := cell]> cells)]> h /\
    forall row' column',
      snd (Table_get_cell self row' column' h')
      = if decide (getitem rows row' = Some cells_of_row
                   /\ py_index (length cells) column' = Some k)
        then Ok (Some cell)
        else snd (Table_get_cell self row' column' h).
Proof.
  unfold Table_set_cell. intros H.
  apply bind_inv in H as (h1 & t & Ht & H).
  apply load_inv in Ht as (-> & o & Hself & Ho). apply as_table_inv in Ho as ->.
  apply bind_inv in H as (h1 & rows & Hrows & H).
  apply load_inv in Hrows as (-> & o & Hrows & Ho).
  apply as_list_inv in Ho as ->.
  destruct (getitem rows row) as [cells_of_row |] eqn:Hrow; [| discriminate].
  apply bind_inv in H as (h1 & cells & Hcells & H).
  apply load_inv in Hcells as (-> & o & Hcells & Ho).
  apply as_list_inv in Ho as ->.
  destruct (py_index (length cells) column) as [k |] eqn:Hk; [| discriminate].
  unfold bind, store, ret in H. injection H as <-.
  exists t, rows, cells, cells_of_row, k.
  repeat (split; [assumption || reflexivity |]).
  intros row' column'.
  set (h' := <[cells_of_row := OList KCells (<[k := cell]> cells)]> h).
  assert (h' !! self = Some (OTable t)) as Hself'
    by (eapply store_lookup_other; [exact Hcells | exact Hself | discriminate]).
  assert (h' !! tb_cells t = Some (OList KRows rows)) as Hrows'
    by (eapply store_lookup_other; [exact Hcells | exact Hrows | discriminate]).
  unfold Table_get_cell.
  rewrite (bind_ok _ _ _ _ _ (load_ok as_table _ _ _ _ Hself' eq_refl)).
  rewrite (bind_ok _ _ _ _ _ (load_ok as_table _ _ _ _ Hself eq_refl)).
  rewrite (bind_ok _ _ _ _ _ (load_list_ok _ _ _ _ Hrows')).
  rewrite (bind_ok _ _ _ _ _ (load_list_ok _ _ _ _ Hrows)).
  destruct (getitem rows row') as [other |] eqn:Hrow'.
  2:{ rewrite decide_False by (intros [? _]; discriminate). reflexivity. }
  destruct (decide (other = cells_of_row)) as [-> | Hother].
  - assert (h' !! cells_of_row = Some (OList KCells (<[k := cell]> cells)))
      as Hcells' by (apply (store_lookup _ _ _ _ Hcells)).
    rewrite (bind_ok _ _ _ _ _ (load_list_ok _ _ _ _ Hcells')).
    rewrite (bind_ok _ _ _ _ _ (load_list_ok _ _ _ _ Hcells)).
    unfold ret. simpl.
    rewrite getitem_insert by (eapply py_index_lt, Hk).
    destruct (decide (py_index (length cells) column' = Some k)) as [Hc | Hc].
    + rewrite decide_True by auto. reflexivity.
    + rewrite decide_False by tauto. reflexivity.
  - rewrite decide_False by (intros [[= ?] _]; contradiction).
    unfold bind, load. unfold h'.
    rewrite list_lookup_insert_ne by congruence.
    destruct (h !! other) as [o |]; [| reflexivity].
    destruct (as_list KCells o); reflexivity.
Qed.

Lemma set_cell_then_get_shared_row :
  let h := [ OCell Cell.blank; OCell (Cell.text "x" None);
             OList KCells [0%nat; 0%nat];
             OList KRows [2%nat; 2%nat];
             OTable {| tb_cells := 3%nat; tb_headers := None; tb_title := None;
                       tb_start_position := CellPosition.mk 1 1 |} ] in
  exists h',
    Table_set_cell 4%nat 0 (-1) 1%nat h = (h', Ok (Some tt)) /\
    snd (Table_get_cell 4%nat 0 1 h') = Ok (Some 1%nat) /\
    snd (Table_get_cell 4%nat 1 1 h') = Ok (Some 1%nat) /\
    snd (Table_get_cell 4%nat 1 0 h') = Ok (Some 0%nat).
Proof.
  intros h.
  destruct (Table_set_cell 4%nat 0 (-1) 1%nat h) as [h' r] eqn:Hset.
  assert (r = Ok (Some tt)) as -> by (vm_compute in Hset; congruence).
  exists h'. split; [reflexivity |].
  destruct (set_cell_then_get h h' 4%nat 0 (-1) 1%nat Hset)
    as (t & rows & cells & cells_of_row & k & Hself & Hrows & Hrow & Hcells
        & Hk & _ & Hget).
  vm_compute in Hself. injection Hself as <-.
  vm_compute in Hrows. injection Hrows as <-.
  vm_compute in Hrow. injection Hrow as <-.
  vm_compute in Hcells. injection Hcells as <-.
  vm_compute in Hk. injection Hk as <-.
  split; [| split].
  - rewrite Hget. reflexivity.
  - rewrite Hget. reflexivity.
  - rewrite Hget. vm_compute. reflexivity.
Defined.

End HeapCellAccess.

(** ** The parts of the merge in the store *)

Section HeapMergeParts.
Import Heap.

(** X28: [merge_table] and [merge_sheet], like [merge_spreadsheet], only
    allocate.  Run on a store where the template and the data read as
    the values [T] and [D], each leaves that store followed by new objects
    -- so the template, the data and what they refer to are unchanged, also
    the lists of columns and sections that the positioned copy of a table
    template shares with the original -- and raises what the value-level
    function raises, or returns a new object that reads as the value it
    returns. *)
Theorem merge_parts_only_allocate (h : heap)
  (table_template table_data sheet_template sheet_data : loc)
  (T : TableTemplate.t) (D : TableData.t)
  (ST : SheetTemplate.t) (SD : SheetData.t) :
  is_table_template h table_template T -> is_table_data h table_data D ->
  is_sheet_template h sheet_template ST -> is_sheet_data h sheet_data SD ->
  (exists fresh,
      match TemplateMerger.merge_table T D with
      | Ok table =>
          exists l,
            merge_table table_template table_data h = (h ++ fresh, Ok l) /\
            (length h <= l)%nat /\ is_table (h ++ fresh) l table
      | Err e => merge_table table_template table_data h = (h ++ fresh, Err e)
      end) /\
  (exists fresh,
      match TemplateMerger.merge_sheet ST SD with
      | Ok sheet =>
          exists l,
            merge_sheet sheet_template sheet_data h = (h ++ fresh, Ok l) /\
            (length h <= l)%nat /\ is_sheet (h ++ fresh) l sheet
      | Err e => merge_sheet sheet_template sheet_data h = (h ++ fresh, Err e)
      end).
Proof.
  intros Ht Hd Hst Hsd. split.
  - destruct (merge_table_sim h _ _ T D Ht Hd) as [fresh H].
    exists fresh. destruct (TemplateMerger.merge_table T D); [| exact H].
    destruct H as (l & Hrun & Hfresh & Hl). eauto.
  - destruct (merge_sheet_sim h _ _ ST SD Hst Hsd) as [fresh H].
    exists fresh. destruct (TemplateMerger.merge_sheet ST SD); [| exact H].
    destruct H as (l & Hrun & Hfresh & Hl). eauto.
Qed.

Lemma merge_parts_only_allocate_sample :
  (exists fresh,
      match TemplateMerger.merge_table Sample.table Sample.data with
      | Ok table =>
          exists l,
            merge_table 8%nat 26%nat SampleStore.store
            = (SampleStore.store ++ fresh, Ok l) /\
            (length SampleStore.store <= l)%nat /\
            is_table (SampleStore.store ++ fresh) l table
      | Err e =>
          merge_table 8%nat 26%nat SampleStore.store
          = (SampleStore.store ++ fresh, Err e)
      end) /\
  (exists fresh,
      match TemplateMerger.merge_sheet Sample.sheet Sample.sheet_data with
      | Ok sheet =>
          exists l,
            merge_sheet 13%nat 29%nat SampleStore.store
            = (SampleStore.store ++ fresh, Ok l) /\
            (length SampleStore.store <= l)%nat /\
            is_sheet (SampleStore.store ++ fresh) l sheet
      | Err e =>
          merge_sheet 13%nat 29%nat SampleStore.store
          = (SampleStore.store ++ fresh, Err e)
      end).
Proof.
  apply (merge_parts_only_allocate SampleStore.store 8%nat 26%nat 13%nat
           29%nat Sample.table Sample.data Sample.sheet Sample.sheet_data).
  - repeat first [reflexivity | econstructor].
  - repeat first [reflexivity | apply map_Forall2_empty
                 | apply map_Forall2_insert_2 | econstructor].
  - repeat first [reflexivity | econstructor].
  - repeat first [reflexivity | apply map_Forall2_empty
                 | apply map_Forall2_insert_2 | econstructor].
Defined.

End HeapMergeParts.
